(* ===== verification/_CoqProject ===== *)
-Q . S2P
Prelude.v
Utf8.v
GoStrings.v
Hash.v
GoTime.v
Names.v
Policy.v
NetURL.v
NetIP.v
Security.v
SecurityProofs.v
Kube.v
Webhooks.v
WebhookProofs.v
Admission.v
AppController.v
TenantController.v
UsageWriter.v
UsageReconcile.v
Metrics.v
Attachments.v
Events.v
Maintenance.v
AppOps.v
Aes.v
Crypto.v
Json.v
Config.v
Quota.v
Kubeconfig.v
Workload.v
Documents.v
Dns.v
DnsProofs.v
CursorOrder.v
Store.v
StoreApps.v
StoreProofs.v
AppStoreProofs.v
Tenancy.v
TenancyProofs.v
ProjectProofs.v
TenancyWitness.v
Clusters.v
ClusterProofs.v
Operator.v
Crds.v
Bootstrap.v
Credentials.v
CredentialProofs.v
Sources.v
SourceProofs.v
GitFiles.v
Plan.v
Releases.v
Deploy.v
GitProofs.v
PlanProofs.v
DeployProofs.v
DeployRecords.v
DeliveryProofs.v
Status.v
StatusProofs.v
Templates.v
TemplateProofs.v
EventPages.v
LogFiles.v
LogFileProofs.v
EventPageProofs.v
LogTail.v
Logging.v
Http.v
ApiRequests.v
Api.v
ApiProofs.v
ReleaseProofs.v
ReleaseSpecProofs.v
DeployWitness.v
ApiWitness.v
