(* ===== verification/Prelude.v ===== *)
(** * kubeOP: a verification development

    kubeOP is a multi-tenant platform on Kubernetes.  It has three programs.  The control plane
    ([internal/], [cmd/api]) serves an HTTP API, keeps users, projects, clusters and
    applications in a database and writes workloads to the clusters.  The operator
    ([kubeop-operator/]) runs in each cluster: its admission webhooks police the tenant's
    custom resources, its controllers turn them into Deployments, role bindings and billing
    snapshots.  The tool [kubeop-bootstrap] prepares a cluster.  [pkg/security] guards outgoing
    requests and repository paths.

    ** Foundations

    - [Prelude]: results, the state-and-error monad [io] of code that talks to a server, byte
      strings, loops that collect errors, the development's tactics and hints.
    - [Utf8], [GoStrings]: what the code uses of Go's [utf8], [unicode] and [strings]
      (trimming, case, splitting, decimal numbers), with the Unicode tables of case and white
      space.
    - [Hash]: SHA-1 and base32; [Aes]: SHA-256, AES and GCM; all executable.  [GoTime]: the layout
      of a UTC time stamp.
    - [NetURL], [NetIP]: [net/url] and [net/netip], as far as the code uses them.
    - [Json], [Documents]: [encoding/json] for maps of strings, for documents without a type and
      for structs.
    - [CursorOrder]: lists in the order of the database, and what comes after a cursor.

    ** The operator

    - [Kube]: the custom resources of [apis/paas/v1alpha1], errors of admission, and the reads
      of the API client ([Client]) and the third-party parsers ([Libraries]) as interfaces.
    - [Policy]: [internal/policy/registry.go], the allow-lists of registries and repositories.
    - [Webhooks]: [internal/webhooks/webhooks.go], each webhook a Module with [Default],
      [ValidateCreate], [ValidateUpdate] and [ValidateDelete], every check in the order of the
      code with its error.  [WebhookProofs]: admission of each kind is equivalent to a
      declarative policy, on create and on update; the policy is the one the code enforces,
      which lets a NodePort service pass where no profile applies.  [Admission]: what that means over the life
      of an object, a step relation of creations and admitted updates (tenancy labels,
      immutable releases, registry policy, fail-closed reads).
    - [AppController]: [controllers/app_controller.go] over the interface [AppAPI] with the
      laws [AppAPILaws]; convergence, idempotence and what pruning does to other Apps.
    - [TenantController]: [controllers/tenant_controller.go] over [TenantAPI]; after a
      reconciliation the three roles are bound to the groups named after the tenant in each of
      its namespaces, and nothing else is touched.
    - [Metrics], [UsageWriter], [UsageReconcile]: [internal/metrics/metricsserver.go] and
      [controllers/usagewriter_controller.go]; quantities are the interface [Quantity].  From
      the pods to the totals usage is conserved, each subject whose snapshot name is its own gets
      its snapshot, a failed collection only degrades conditions.
    - [Crds], [Bootstrap]: [internal/bootstrap/crd.go] and [internal/cli/bootstrap].  The bundled
      CRDs are installed over what was there; the log of writing requests of a command, those
      for CRDs included, is its plan and nothing else; the Project it builds
      does not pass the operator's own webhook.

    ** Persistence

    - [Store], [StoreApps]: the statements of [internal/store] on a record of tables, with the
      constraints of the migrations; PostgreSQL is the interface [Postgres]: its faults, its clock
      and the order it scans a table in, which may differ for each statement and decides
      between rows a listing without tie-breaker orders alike.  [StoreProofs],
      [AppStoreProofs]: every sequence of statements keeps keys unique and rows attached.
    - [EventPages], [EventPageProofs]: cursors of the event list and their text.

    ** The control plane

    - [Names]: [internal/util/slugify.go], [internal/service/app_names.go], [app_labels.go]
      and [labels.go]; derived names are DNS labels and end in the suffix of the id.
    - [Config]: [internal/config/config.go]; a loaded configuration is usable.
    - [Crypto]: [internal/crypto/crypto.go]; what a key encrypts it decrypts.
    - [Credentials], [CredentialProofs]: [internal/service/credentials.go]; read back as given,
      used by their owner only.
    - [Maintenance], [Events], [Attachments], [AppOps]: [internal/service/maintenance.go],
      [events.go] and the operations on a deployed application of [apps.go], over [AppOpsAPI]
      with the laws [AppOpsLaws].  An operation sends one object, the intended one, to the
      project's own cluster and namespace.
    - [Quota], [Kubeconfig], [Tenancy] with [TenancyProofs], [ProjectProofs], [TenancyWitness]:
      users, projects, quotas and kubeconfigs of [internal/service/service.go], [quota.go],
      [manifests.go], [user_bootstrap.go] and [kubeconfigs.go], and [internal/kube/manager.go],
      over the interface [Platform].  A created project is usable, a quota survives suspension,
      tenants are isolated.
    - [Clusters], [ClusterProofs], [Operator]: registration of a cluster with the installation of
      the operator ([internal/service/operator.go]) and its rollback, health checks, the
      scheduler, the loop over the log directories.
    - [Sources], [GitFiles], [SourceProofs], [GitProofs]: Git, OCI and Helm sources
      ([internal/service/git_source.go], [oci_bundle.go], [apps.go], [internal/delivery]).
    - [Workload], [Plan], [Deploy], [Releases] with [PlanProofs], [DeployProofs],
      [DeployRecords], [DeliveryProofs], [ReleaseProofs], [ReleaseSpecProofs], [DeployWitness]:
      planning, deploying, recording and deleting applications, and Git webhooks.  The log of
      what a deployment sends is the objects of its plan, which the dry run shows, and for an
      image the App resource, which it does not show; the plan is recorded, and releases are
      read back page by page.
    - [Dns], [DnsProofs]: [internal/dns/providers.go], called by [Deploy]; the records of a host
      converge to its addresses.
    - [Status], [StatusProofs]: queries change nothing.  [Templates], [TemplateProofs]: a
      template deploys what its own rendering shows; the functions of the template engine may
      draw, so another rendering shows the same only for a template that is [deterministic].
    - [LogFiles], [LogFileProofs], [LogTail], [Logging]: [internal/logging], the tail of a log
      and [internal/version].  In every reachable manager the files of loggers stay below the
      root, each at its own place; the tail is the last lines; a value is hidden up to its first
      byte that is not a token character.
    - [Http], [ApiRequests], [Api], [ApiProofs], [ApiWitness]: [internal/http/middleware] and
      [internal/api], every route and handler.  Only administrators change anything, reading
      requests change nothing, maintenance mode answers 503 on every writing route but the listed ones,
      mutating requests are audited.

    ** Guards

    - [Security], [SecurityProofs]: [pkg/security/net.go] and [path.go].  Over a dialer that
      connects to a literal where it says, the guarded one never returns a connection to a
      non-public peer; an accepted path stays in the
      repository, an accepted URL is a plain https URL of an allowed host.

    ** How to read the theorems

    Code outside the repository (API servers, database, resolver, third-party parsers, disks,
    random source) is an interface: a class of operations, a class of the laws the proofs
    use, and an instance that satisfies them, on which the witnesses evaluate.  Theorems about
    a server therefore hold for every server that keeps its laws.  A write that fails may
    have happened or not, where the laws do not exclude it.

    Functions are total.  Loops over data are structural.  Some run on fuel computed from the
    input: decimal digits ([GoStrings.itoa_val]), the blocks of a message and the groups of
    base32 ([Hash.chunks_concat], [Hash.groups5_length]), redaction
    ([Logging.redact_fuel]), where the lemmas named show that it is enough; the JSON parser,
    twice the length of its input and two more; and the groups of an IPv6 address, of which
    there are at most eight.  The
    loop over all projects takes its fuel as an argument and is proved to end when there is
    enough of it for their number ([ClusterProofs.ensure_logs_complete]).  Polling is bounded
    as in the code: eight reads of a token, 24 of a load balancer, 61 of a CRD.  Machine integers
    appear where the code computes with them: hashes and the cipher on 32-bit words and bytes,
    addresses as 32- and 128-bit numbers, parsed numbers within their width.

    ** What is not modelled

    Log lines other than audit and access lines, Prometheus metrics, contexts and cancellation,
    transition times of conditions; opening the database and running the migration files
    ([internal/store/store.go]); process start-up ([cmd/]) and the set-up of clients and flags;
    the generated copies of the custom resources ([zz_generated.deepcopy.go]), which a model
    of values has no use for, and the fields of custom resources nothing reads.  Requests are
    not interleaved with each other. *)

From Stdlib Require Import Ascii NArith ZArith Lia Permutation Sorted.
From Stdlib Require String.
From stdpp Require Import base gmap strings list sorting.

(** ** Fallible code: the (value, error) pairs of Go as a sum *)

Inductive result (E A : Type) : Type :=
| Ok (a : A)
| Err (e : E).
Arguments Ok {E A} a.
Arguments Err {E A} e.

#[export] Instance result_ret E : MRet (result E) := fun A a => Ok a.
#[export] Instance result_bind E : MBind (result E) := fun A B f r =>
  match r with Ok a => f a | Err e => Err e end.
#[export] Instance result_fmap E : FMap (result E) := fun A B f r =>
  match r with Ok a => Ok (f a) | Err e => Err e end.

Definition is_ok {E A} (r : result E A) : bool :=
  match r with Ok _ => true | Err _ => false end.

(** [guard_err b e]: the early return [if b { return e }]. *)
Definition guard_err {E} (b : bool) (e : E) : result E unit :=
  if b then Err e else Ok tt.

Lemma bind_ok {E A B} (r : result E A) (f : A -> result E B) b :
  r ≫= f = Ok b <-> exists a, r = Ok a /\ f a = Ok b.
Proof.
  destruct r as [a | e]; cbn; split.
  - eauto.
  - intros (a' & Ha & H). congruence.
  - discriminate.
  - intros (a' & H & _); discriminate.
Qed.

Lemma bind_err {E A B} (r : result E A) (f : A -> result E B) e :
  r ≫= f = Err e <-> r = Err e \/ exists a, r = Ok a /\ f a = Err e.
Proof.
  destruct r as [a | e']; cbn; split.
  - eauto.
  - intros [H | (a' & Ha & H)]; congruence.
  - intros H. left. congruence.
  - intros [H | (a' & H & _)]; congruence.
Qed.

Lemma guard_err_ok {E} b (e : E) u : guard_err b e = Ok u <-> b = false.
Proof. destruct b, u; cbn; split; congruence. Qed.

(** ** Effects: a state and an early return

    Code that talks to the API server threads the server's state and stops at the
    first error; what was written before the error stays written. *)

Definition io (S E A : Type) : Type := S -> result E A * S.

#[export] Instance io_ret S E : MRet (io S E) := fun A a s => (Ok a, s).
#[export] Instance io_bind S E : MBind (io S E) := fun A B f m s =>
  match m s with
  | (Ok a, s') => f a s'
  | (Err e, s') => (Err e, s')
  end.

Definition fail {S E A} (e : E) : io S E A := fun s => (Err e, s).

(** [if err := m; err != nil { return wrap(err) }] *)
Definition wrap_err {S E E' A} (wrap : E -> E') (m : io S E A) : io S E' A := fun s =>
  match m s with
  | (Ok a, s') => (Ok a, s')
  | (Err e, s') => (Err (wrap e), s')
  end.

(** [for _, x := range l { if err := f(x); err != nil { return err } }] *)
Fixpoint for_each {S E A} (f : A -> io S E unit) (l : list A) : io S E unit :=
  match l with
  | [] => mret tt
  | x :: l => _ ← f x; for_each f l
  end.

Section Io.
Context {S E : Type}.

Lemma io_bind_ok {A B} (m : io S E A) (f : A -> io S E B) s b s' :
  (m ≫= f) s = (Ok b, s') <-> exists a s1, m s = (Ok a, s1) /\ f a s1 = (Ok b, s').
Proof. unfold mbind, io_bind. destruct (m s) as [[a|e] s1]; naive_solver. Qed.

(** A sequence stops in its first part, or runs its second. *)
Lemma io_bind_case {A B} (m : io S E A) (f : A -> io S E B) s r s' :
  (m ≫= f) s = (r, s') ->
  (exists e, m s = (Err e, s') /\ r = Err e) \/ exists a s1, m s = (Ok a, s1) /\ f a s1 = (r, s').
Proof. unfold mbind, io_bind. destruct (m s) as [[a|e] s1]; naive_solver. Qed.

Lemma wrap_err_ok {E' A} (wrap : E -> E') (m : io S E A) s a s' :
  wrap_err wrap m s = (Ok a, s') <-> m s = (Ok a, s').
Proof. unfold wrap_err. destruct (m s) as [[?|?] ?]; naive_solver. Qed.

(** The loop rule: an invariant of the part of the list already done. *)
Lemma for_each_ok {A} (Inv : list A -> S -> Prop) (f : A -> io S E unit) l s s' :
  Inv [] s ->
  (forall dn x s1 s2, Inv dn s1 -> x ∈ l -> f x s1 = (Ok tt, s2) -> Inv (dn ++ [x]) s2) ->
  for_each f l s = (Ok tt, s') -> Inv l s'.
Proof.
  intros H0 Hstep.
  assert (forall todo dn s1, Inv dn s1 -> (forall x, x ∈ todo -> x ∈ l) ->
    for_each f todo s1 = (Ok tt, s') -> Inv (dn ++ todo) s') as Hgen.
  { induction todo as [|x todo IH]; intros dn s1 HI Hin; cbn.
    - intros [= <-]. by rewrite app_nil_r.
    - intros ([] & s2 & Hx & Hl)%io_bind_ok.
      replace (dn ++ x :: todo) with ((dn ++ [x]) ++ todo) by by rewrite <- app_assoc.
      eapply IH; [|set_solver|done]. eapply Hstep; [done | set_solver | done]. }
  intros Hl. by apply (Hgen l [] s).
Qed.
End Io.

(** ** Strings as byte lists

    A Go string is an immutable byte sequence.  [string] is a list of 8-bit
    [ascii] characters, so it is exactly that; the functions of the [strings]
    package are written on the list of bytes. *)

Abbreviation chars := String.list_ascii_of_string.
Abbreviation of_chars := String.string_of_list_ascii.

Lemma chars_of_chars l : chars (of_chars l) = l.
Proof. apply String.list_ascii_of_string_of_list_ascii. Qed.

Lemma of_chars_chars s : of_chars (chars s) = s.
Proof. apply String.string_of_list_ascii_of_string. Qed.

Lemma chars_inj s t : chars s = chars t -> s = t.
Proof. intros H. rewrite <- (of_chars_chars s), <- (of_chars_chars t). by f_equal. Qed.

Lemma chars_app s t : chars (s +:+ t) = chars s ++ chars t.
Proof. induction s as [|c s IH]; [done|]. change (c :: chars (s +:+ t) = c :: chars s ++ chars t). by rewrite IH. Qed.

Lemma of_chars_app l k : of_chars (l ++ k) = of_chars l +:+ of_chars k.
Proof. apply chars_inj. by rewrite chars_app, !chars_of_chars. Qed.

Lemma chars_nil s : chars s = [] <-> s = "".
Proof. destruct s; cbn; split; congruence. Qed.

Lemma of_chars_nil l : of_chars l = "" <-> l = [].
Proof. destruct l; cbn; split; congruence. Qed.

(** Go's [len(s)]: the number of bytes. *)
Definition len (s : string) : nat := length (chars s).

Lemma len_app s t : len (s +:+ t) = len s + len t.
Proof. unfold len. by rewrite chars_app, length_app. Qed.

(** Go's slice expression [s[:n]] for [n <= len s]. *)
Definition str_take (n : nat) (s : string) : string := of_chars (take n (chars s)).
Definition str_drop (n : nat) (s : string) : string := of_chars (drop n (chars s)).

Lemma len_str_take n s : len (str_take n s) = n `min` len s.
Proof. unfold len, str_take. by rewrite chars_of_chars, length_take. Qed.

(** [s == t] *)
Definition str_eqb (s t : string) : bool := bool_decide (s = t).

Lemma str_eqb_eq s t : str_eqb s t = true <-> s = t.
Proof. apply bool_decide_eq_true. Qed.

Lemma str_eqb_neq s t : str_eqb s t = false <-> s <> t.
Proof. apply bool_decide_eq_false. Qed.

Lemma str_eqb_refl s : str_eqb s s = true.
Proof. by apply str_eqb_eq. Qed.

(** ** Bytes *)

Definition bval (c : ascii) : N := N_of_ascii c.

Lemma bval_inj c d : bval c = bval d -> c = d.
Proof.
  intros H. rewrite <- (ascii_N_embedding c), <- (ascii_N_embedding d).
  unfold bval in H. by f_equal.
Qed.

Lemma bval_bound c : (bval c < 256)%N.
Proof. apply N_ascii_bounded. Qed.

(** ** Generic list facts *)

Section Lists.
Context {A : Type}.
Implicit Types (l k : list A) (P Q : A -> Prop).

Lemma Forall_take_l P n l : Forall P l -> Forall P (take n l).
Proof. apply Forall_take. Qed.

Lemma Forall_rev_iff P l : Forall P (rev l) <-> Forall P l.
Proof.
  rewrite !List.Forall_forall. split; intros H x Hx; apply H;
    [by apply (proj1 (in_rev l x)) | by apply (proj2 (in_rev l x))].
Qed.

Lemma app_nil_iff l k : l ++ k = [] <-> l = [] /\ k = [].
Proof. destruct l; cbn; naive_solver. Qed.
End Lists.

(** Go's [if c { errs = append(errs, e) }]. *)
Definition when {A} (b : bool) (x : A) : list A := if b then [x] else [].

Lemma when_nil {A} b (x : A) : when b x = [] <-> b = false.
Proof. destruct b; cbn; naive_solver. Qed.

(** [for idx, x := range l { ... append ... }], the loop that collects
    the results of [f idx x]. *)
Fixpoint collect_from {A B} (n : nat) (f : nat -> A -> list B) (l : list A) : list B :=
  match l with
  | [] => []
  | x :: l => f n x ++ collect_from (S n) f l
  end.
Abbreviation collect := (collect_from 0).

Lemma collect_from_nil {A B} n (f : nat -> A -> list B) l :
  collect_from n f l = [] <-> forall i x, l !! i = Some x -> f (n + i) x = [].
Proof.
  revert n. induction l as [|x l IH]; intros n; cbn.
  { split; [intros _ i x Hx; done | done]. }
  rewrite app_nil_iff, IH. split.
  - intros [Hx Hl] [|i] y Hy; cbn in Hy.
    + injection Hy as <-. by rewrite Nat.add_0_r.
    + rewrite Nat.add_succ_r. by apply Hl.
  - intros H. split.
    + specialize (H 0 x eq_refl). by rewrite Nat.add_0_r in H.
    + intros i y Hy. specialize (H (S i) y Hy). by rewrite Nat.add_succ_r in H.
Qed.

(** The same when the result does not depend on the index only through the
    error it reports: emptiness is a [Forall]. *)
Lemma collect_nil_Forall {A B} (f : nat -> A -> list B) (P : A -> Prop) n l :
  (forall i x, f i x = [] <-> P x) ->
  collect_from n f l = [] <-> Forall P l.
Proof.
  intros Hf. revert n. induction l as [|x l IH]; intros n; cbn.
  - split; [constructor | done].
  - rewrite app_nil_iff, IH, Hf, Forall_cons. done.
Qed.

(** ** Automation *)

Create HintDb gostr.
Create Rewrite HintDb gostr.
#[export] Hint Rewrite chars_of_chars of_chars_chars chars_app of_chars_app : gostr.

(** Destruct every boolean condition and option the goal matches on. *)
Ltac break_match :=
  match goal with
  | |- context [match ?x with _ => _ end] =>
      lazymatch x with
      | context [match _ with _ => _ end] => fail
      | _ => let E := fresh "E" in destruct x eqn:E
      end
  end.

Ltac break_match_hyp H :=
  lazymatch type of H with
  | context [match ?x with _ => _ end] =>
      lazymatch x with
      | context [match _ with _ => _ end] => fail
      | _ => let E := fresh "E" in destruct x eqn:E
      end
  end.

(** Boolean tests of the code to propositions. *)
Ltac breflect :=
  rewrite ?str_eqb_eq, ?str_eqb_neq, ?andb_true_iff, ?andb_false_iff,
    ?orb_true_iff, ?orb_false_iff, ?negb_true_iff, ?negb_false_iff,
    ?N.leb_le, ?N.leb_gt, ?N.ltb_lt, ?N.ltb_ge, ?N.eqb_eq, ?N.eqb_neq in *.

(** Exhaustive case analysis on one byte. *)
Ltac byte_cases c := destruct c as [[] [] [] [] [] [] [] []].
