(* ===== verification/GoStrings.v ===== *)
(** The functions of Go's [strings] package (and [sort.Strings]) that kubeOP
    uses, on byte strings, with the lemmas the components share. *)

From Stdlib Require Import Ascii NArith ZArith Lia.
From stdpp Require Import base strings list sorting.
From S2P Require Import Prelude Utf8.

Local Open Scope Z_scope.

(** ** strings.TrimSpace

    [unicode.IsSpace] holds of six ASCII bytes, of U+0085 and U+00A0 (two
    bytes in UTF-8) and of U+1680, U+2000-U+200A, U+2028, U+2029, U+202F,
    U+205F and U+3000 (three bytes). *)

Definition space1 (c : ascii) : bool := in_range 9 13 (bz c) || (bz c =? 32).

Definition space2 (c1 c2 : ascii) : bool :=
  (bz c1 =? 194) && ((bz c2 =? 133) || (bz c2 =? 160)).

Definition space3 (c1 c2 c3 : ascii) : bool :=
  ((bz c1 =? 225) && (bz c2 =? 154) && (bz c3 =? 128))
  || ((bz c1 =? 226) && (bz c2 =? 128) &&
        (in_range 128 138 (bz c3) || (bz c3 =? 168) || (bz c3 =? 169) || (bz c3 =? 175)))
  || ((bz c1 =? 226) && (bz c2 =? 129) && (bz c3 =? 159))
  || ((bz c1 =? 227) && (bz c2 =? 128) && (bz c3 =? 128)).

(** Drop the leading white space; the two- and three-byte tests are parameters
    because the trailing end is scanned backwards. *)
Fixpoint strip (p2 : ascii -> ascii -> bool) (p3 : ascii -> ascii -> ascii -> bool)
    (l : list ascii) : list ascii :=
  match l with
  | [] => []
  | c1 :: l1 =>
      if space1 c1 then strip p2 p3 l1
      else match l1 with
      | [] => l
      | c2 :: l2 =>
          if p2 c1 c2 then strip p2 p3 l2
          else match l2 with
          | [] => l
          | c3 :: l3 => if p3 c1 c2 c3 then strip p2 p3 l3 else l
          end
      end
  end.

Definition trim_left_space (l : list ascii) : list ascii := strip space2 space3 l.

Definition trim_right_space (l : list ascii) : list ascii :=
  rev (strip (fun a b => space2 b a) (fun a b c => space3 c b a) (rev l)).

Definition TrimSpace (s : string) : string :=
  of_chars (trim_right_space (trim_left_space (chars s))).

(** [strings.TrimSpace(s) == ""], the emptiness test used all over the code. *)
Definition blank (s : string) : bool := str_eqb (TrimSpace s) "".

(** ** Case conversion *)

Definition is_ascii (l : list ascii) : bool := forallb (fun c => bz c <? 128) l.

Definition ascii_lower (c : ascii) : ascii :=
  if is_upper_z (bz c) then byte_of_Z (bz c + 32) else c.

Definition ascii_upper (c : ascii) : ascii :=
  if is_lower_z (bz c) then byte_of_Z (bz c - 32) else c.

(** [strings.Map(unicode.ToLower, s)] when [s] is not pure ASCII. *)
Definition ToLower (s : string) : string :=
  let l := chars s in
  if is_ascii l then of_chars (ascii_lower <$> l)
  else of_chars (encode_runes (rune_to_lower <$> decode_runes l)).

Definition ToUpper (s : string) : string :=
  let l := chars s in
  if is_ascii l then of_chars (ascii_upper <$> l)
  else of_chars (encode_runes (rune_to_upper <$> decode_runes l)).

(** [strings.EqualFold(s, t)] for an ASCII constant [t].  Under simple folding
    the only runes above ASCII in the orbit of an ASCII letter are U+212A
    (with [k]) and U+017F (with [s]). *)
Definition fold_rune (r : rune) : rune :=
  if r =? 8490 then 107 else if r =? 383 then 115
  else if is_upper_z r then r + 32 else r.

Definition EqualFold (s t : string) : bool :=
  bool_decide (fold_rune <$> decode_runes (chars s) = fold_rune <$> decode_runes (chars t)).

(** ** Prefixes, suffixes, substrings *)

Fixpoint prefix_of_list (p l : list ascii) : bool :=
  match p, l with
  | [], _ => true
  | a :: p, b :: l => bool_decide (a = b) && prefix_of_list p l
  | _ :: _, [] => false
  end.

Definition HasPrefix (s p : string) : bool := prefix_of_list (chars p) (chars s).

Definition HasSuffix (s p : string) : bool :=
  prefix_of_list (rev (chars p)) (rev (chars s)).

Definition TrimPrefix (s p : string) : string :=
  if HasPrefix s p then str_drop (len p) s else s.

Definition TrimSuffix (s p : string) : string :=
  if HasSuffix s p then str_take (len s - len p) s else s.

Fixpoint contains_list (p l : list ascii) : bool :=
  prefix_of_list p l || match l with [] => false | _ :: l => contains_list p l end.

Definition Contains (s p : string) : bool := contains_list (chars p) (chars s).

(** [strings.Trim(s, cutset)] for an ASCII cutset. *)
Fixpoint drop_while (f : ascii -> bool) (l : list ascii) : list ascii :=
  match l with
  | [] => []
  | c :: l' => if f c then drop_while f l' else l
  end.

Definition trim_by (f : ascii -> bool) (l : list ascii) : list ascii :=
  rev (drop_while f (rev (drop_while f l))).

Definition char_in (cutset : string) (c : ascii) : bool :=
  existsb (fun d => bool_decide (c = d)) (chars cutset).

Definition Trim (s cutset : string) : string := of_chars (trim_by (char_in cutset) (chars s)).

(** [strings.ReplaceAll(s, a, b)] for one-byte [a] and [b]. *)
Definition replace_char (a b : ascii) (s : string) : string :=
  of_chars ((fun c => if bool_decide (c = a) then b else c) <$> chars s).

(** [strings.Split(s, sep)] for a one-byte separator. *)
Fixpoint split_list (sep : ascii) (l : list ascii) : list (list ascii) :=
  match l with
  | [] => [[]]
  | c :: l =>
      if bool_decide (c = sep) then [] :: split_list sep l
      else match split_list sep l with
           | [] => [[c]]
           | w :: ws => (c :: w) :: ws
           end
  end.

Definition Split (s : string) (sep : ascii) : list string := of_chars <$> split_list sep (chars s).

(** [strings.Join(l, sep)] *)
Definition Join (ls : list string) (sep : string) : string := String.concat sep ls.

(** [strings.Cut(s, sep)] / [strings.SplitN(s, sep, 2)] for a one-byte
    separator: the parts around its first occurrence, if there is one. *)
Fixpoint cut_list (sep : ascii) (l : list ascii) : option (list ascii * list ascii) :=
  match l with
  | [] => None
  | c :: l =>
      if bool_decide (c = sep) then Some ([], l)
      else match cut_list sep l with
           | Some (a, b) => Some (c :: a, b)
           | None => None
           end
  end.

Definition Cut (s : string) (sep : ascii) : option (string * string) :=
  (fun '(a, b) => (of_chars a, of_chars b)) <$> cut_list sep (chars s).

(** [sort.Strings]: the byte-wise order is total and antisymmetric, so the
    sorted list does not depend on the algorithm. *)
Definition str_le (s t : string) : Prop := String.leb s t = true.

#[export] Instance str_le_dec : RelDecision str_le.
Proof. intros s t. unfold str_le. apply _. Defined.

Definition sort_Strings (l : list string) : list string := merge_sort str_le l.

(** The decimal digits of a natural number ([%d] of a non-negative int). *)
Definition digit (n : nat) : ascii := byte_of_Z (48 + Z.of_nat n).

Fixpoint itoa_fuel (fuel n : nat) (acc : list ascii) : list ascii :=
  match fuel with
  | O => acc
  | S fuel =>
      let acc := digit (n mod 10) :: acc in
      if (n / 10 =? 0)%nat then acc else itoa_fuel fuel (n / 10) acc
  end.

Definition itoa (n : nat) : string := of_chars (itoa_fuel (S n) n []).

(** The value of a string of digits. *)
Definition digits_val (l : list ascii) : Z := foldl (fun v c => 10 * v + (bz c - 48)) 0 l.

(** ** Examples *)

Example trim_ex : TrimSpace (String "009" (String "194" (String "160" " a b "))) = "a b".
Proof. vm_compute. reflexivity. Qed.

Example lower_ex : ToLower "GHCR.io" = "ghcr.io".
Proof. vm_compute. reflexivity. Qed.

(** U+212A KELVIN SIGN lower-cases to an ASCII [k]. *)
Example lower_kelvin : ToLower (of_chars (encode_rune 8490)) = "k".
Proof. vm_compute. reflexivity. Qed.

Example split_ex : Split "a,,b" "," = ["a"; ""; "b"].
Proof. vm_compute. reflexivity. Qed.

Example sort_ex : sort_Strings ["b"; "a"; "ab"] = ["a"; "ab"; "b"].
Proof. vm_compute. reflexivity. Qed.

Example itoa_ex : itoa 1205 = "1205".
Proof. vm_compute. reflexivity. Qed.

(** ** Facts about TrimSpace *)

Section Strip.
Context (p2 : ascii -> ascii -> bool) (p3 : ascii -> ascii -> ascii -> bool).

Lemma strip_suffix l : exists k, l = k ++ strip p2 p3 l.
Proof.
  remember (length l) as n eqn:Hn. revert l Hn.
  induction n as [n IH] using (well_founded_induction Wf_nat.lt_wf); intros l ->.
  destruct l as [|c1 l1]; [by exists []|]. cbn.
  destruct (space1 c1).
  { destruct (IH (length l1) ltac:(cbn; lia) l1 eq_refl) as [k Hk].
    exists (c1 :: k). cbn. by rewrite <- Hk. }
  destruct l1 as [|c2 l2]; [by exists []|].
  destruct (p2 c1 c2).
  { destruct (IH (length l2) ltac:(cbn; lia) l2 eq_refl) as [k Hk].
    exists (c1 :: c2 :: k). cbn. by rewrite <- Hk. }
  destruct l2 as [|c3 l3]; [by exists []|].
  destruct (p3 c1 c2 c3); [|by exists []].
  destruct (IH (length l3) ltac:(cbn; lia) l3 eq_refl) as [k Hk].
  exists (c1 :: c2 :: c3 :: k). cbn. by rewrite <- Hk.
Qed.

(** No white space at the head: what [strip] stops at. *)
Definition no_space_head (l : list ascii) : Prop :=
  match l with
  | [] => True
  | c1 :: l1 => space1 c1 = false /\
      match l1 with
      | [] => True
      | c2 :: l2 => p2 c1 c2 = false /\
          match l2 with [] => True | c3 :: _ => p3 c1 c2 c3 = false end
      end
  end.

Lemma strip_no_space_head l : no_space_head (strip p2 p3 l).
Proof.
  remember (length l) as n eqn:Hn. revert l Hn.
  induction n as [n IH] using (well_founded_induction Wf_nat.lt_wf); intros l ->.
  destruct l as [|c1 l1]; [done|]. cbn. destruct (space1 c1) eqn:E1.
  { apply (IH (length l1)); cbn; lia. }
  destruct l1 as [|c2 l2]; [done|]. destruct (p2 c1 c2) eqn:E2.
  { apply (IH (length l2)); cbn; lia. }
  destruct l2 as [|c3 l3]; [done|]. destruct (p3 c1 c2 c3) eqn:E3; [|done].
  apply (IH (length l3)); cbn; lia.
Qed.

Lemma strip_id l : no_space_head l -> strip p2 p3 l = l.
Proof.
  destruct l as [|c1 [|c2 [|c3 l]]]; cbn; [done|..]; intros [-> H]; [done|..].
  - by destruct H as [-> _].
  - by destruct H as [-> ->].
Qed.

Lemma no_space_head_prefix l k : no_space_head (l ++ k) -> no_space_head l.
Proof. destruct l as [|c1 [|c2 [|c3 l]]]; cbn; tauto. Qed.
End Strip.

Lemma trim_left_suffix l : exists k, l = k ++ trim_left_space l.
Proof. apply strip_suffix. Qed.

Lemma trim_right_prefix l : exists k, l = trim_right_space l ++ k.
Proof.
  unfold trim_right_space.
  destruct (strip_suffix (fun a b => space2 b a) (fun a b c => space3 c b a) (rev l)) as [k Hk].
  exists (rev k). rewrite <- rev_app_distr, <- Hk. by rewrite rev_involutive.
Qed.

(** The bytes of the trimmed string are a contiguous part of the original. *)
Lemma trim_space_infix s : exists a b, chars s = a ++ chars (TrimSpace s) ++ b.
Proof.
  unfold TrimSpace. rewrite chars_of_chars.
  destruct (trim_left_suffix (chars s)) as [a Ha].
  destruct (trim_right_prefix (trim_left_space (chars s))) as [b Hb].
  exists a, b. rewrite <- Hb. done.
Qed.

Lemma trim_space_Forall (P : ascii -> Prop) s :
  Forall P (chars s) -> Forall P (chars (TrimSpace s)).
Proof.
  destruct (trim_space_infix s) as (a & b & ->).
  rewrite !Forall_app. tauto.
Qed.

Lemma trim_space_len s : (len (TrimSpace s) <= len s)%nat.
Proof.
  destruct (trim_space_infix s) as (a & b & H). unfold len. rewrite H, !length_app. lia.
Qed.

Lemma trim_space_idem s : TrimSpace (TrimSpace s) = TrimSpace s.
Proof.
  unfold TrimSpace at 1. unfold TrimSpace at 1 2. rewrite chars_of_chars.
  set (l := trim_left_space (chars s)). f_equal.
  assert (no_space_head space2 space3 l) as Hl by apply strip_no_space_head.
  destruct (trim_right_prefix l) as [k Hk].
  assert (trim_left_space (trim_right_space l) = trim_right_space l) as ->.
  { apply strip_id, (no_space_head_prefix _ _ _ k). by rewrite <- Hk. }
  unfold trim_right_space at 1 3. f_equal. unfold trim_right_space. rewrite rev_involutive.
  apply strip_id, strip_no_space_head.
Qed.

Lemma trim_space_empty : TrimSpace "" = "".
Proof. reflexivity. Qed.

(** A non-empty string whose first and last bytes are ASCII and not white space
    is left alone. *)
Definition solid (c : ascii) : bool := (bz c <? 128) && negb (space1 c).

Lemma solid_no_space_head c l :
  solid c = true -> no_space_head space2 space3 (c :: l).
Proof.
  unfold solid. rewrite andb_true_iff, negb_true_iff, Z.ltb_lt. intros [Hc Hs].
  cbn. split; [done|]. destruct l as [|c2 [|c3 l]]; [done|..];
    unfold space2, space3; repeat rewrite (proj2 (Z.eqb_neq (bz c) _)) by lia; done.
Qed.

Lemma solid_no_space_head_rev c l :
  solid c = true ->
  no_space_head (fun a b => space2 b a) (fun a b c => space3 c b a) (c :: l).
Proof.
  unfold solid. rewrite andb_true_iff, negb_true_iff, Z.ltb_lt. intros [Hc Hs].
  cbn. split; [done|]. destruct l as [|c2 [|c3 l]]; [done|..];
    unfold space2, space3; rewrite ?(proj2 (in_range_false 128 138 (bz c))) by lia;
    repeat rewrite (proj2 (Z.eqb_neq (bz c) _)) by lia; rewrite ?andb_false_r; done.
Qed.

Lemma trim_space_solid s c d l k :
  chars s = c :: l -> chars s = k ++ [d] -> solid c = true -> solid d = true ->
  TrimSpace s = s.
Proof.
  intros Hc Hd Sc Sd. unfold TrimSpace.
  assert (trim_left_space (chars s) = chars s) as ->.
  { rewrite Hc. by apply strip_id, solid_no_space_head. }
  unfold trim_right_space. rewrite strip_id, rev_involutive, of_chars_chars; [done|].
  rewrite Hd, rev_app_distr. by apply solid_no_space_head_rev.
Qed.

Lemma strip_keeps_last p2 p3 l c :
  space1 c = false -> (forall a, p2 a c = false) -> (forall a b, p3 a b c = false) ->
  strip p2 p3 (l ++ [c]) <> [].
Proof.
  intros H1 H2 H3. remember (length l) as n eqn:Hn. revert l Hn.
  induction n as [n IH] using (well_founded_induction Wf_nat.lt_wf); intros l ->.
  destruct l as [|a l]; cbn; [by rewrite H1|].
  destruct (space1 a); [apply (IH (length l)); cbn; lia|].
  destruct l as [|b l]; cbn; [by rewrite H2|].
  destruct (p2 a b); [apply (IH (length l)); cbn; lia|].
  destruct l as [|d l]; cbn; [by rewrite H3|].
  destruct (p3 a b d); [apply (IH (length l)); cbn; lia | done].
Qed.

(** A string that starts with a solid byte is not blank. *)
Lemma trim_space_solid_head s c l : chars s = c :: l -> solid c = true -> TrimSpace s <> "".
Proof.
  intros Hs Hc. unfold TrimSpace. rewrite of_chars_nil, Hs. unfold trim_left_space.
  rewrite strip_id by (by apply solid_no_space_head). unfold trim_right_space. intros E.
  apply (f_equal (@rev ascii)) in E. rewrite rev_involutive in E. revert E. cbn [rev].
  unfold solid in Hc. rewrite andb_true_iff, negb_true_iff, Z.ltb_lt in Hc. destruct Hc as [Hc H1].
  apply strip_keeps_last; [done|..]; intros; unfold space2, space3;
    repeat rewrite (proj2 (Z.eqb_neq (bz c) _)) by lia; done.
Qed.

Lemma blank_true s : blank s = true <-> TrimSpace s = "".
Proof. apply str_eqb_eq. Qed.

Lemma blank_false s : blank s = false <-> TrimSpace s <> "".
Proof. apply str_eqb_neq. Qed.

(** ** Facts about case conversion *)

Definition no_upper (c : ascii) : Prop := is_upper_z (bz c) = false.

Lemma ascii_lower_no_upper c : no_upper (ascii_lower c).
Proof.
  unfold no_upper, ascii_lower. destruct (is_upper_z (bz c)) eqn:E; [|done].
  unfold is_upper_z in *. apply in_range_true in E.
  rewrite bz_byte_of_Z by lia. apply in_range_false. lia.
Qed.

Lemma encode_lower_no_upper r :
  0 <= r -> Forall no_upper (encode_rune (rune_to_lower r)).
Proof.
  intros Hr. destruct (decide (r < 128)) as [Hlt|Hge].
  - assert (exists q, rune_to_lower r = q /\ 0 <= q < 128 /\ is_upper_z q = false) as (q & -> & Hq & Hu).
    { unfold rune_to_lower. rewrite (proj2 (Z.ltb_lt r 128)) by lia.
      destruct (is_upper_z r) eqn:E; [|eauto].
      unfold is_upper_z in *. apply in_range_true in E. eexists. split; [done|].
      split; [lia|]. apply in_range_false. lia. }
    rewrite encode_rune_ascii by done. constructor; [|constructor].
    unfold no_upper. by rewrite bz_byte_of_Z by lia.
  - destruct (lower_high r) as [H|[H|H]]; [lia|..].
    + eapply Forall_impl; [apply encode_rune_high; lia|]. intros c Hc.
      unfold no_upper, is_upper_z. apply in_range_false. cbn in Hc. lia.
    + rewrite H. by repeat constructor.
    + rewrite H. by repeat constructor.
Qed.

Lemma to_lower_no_upper s : Forall no_upper (chars (ToLower s)).
Proof.
  unfold ToLower. destruct (is_ascii (chars s)); rewrite chars_of_chars.
  - apply Forall_fmap, Forall_true. intros c. apply ascii_lower_no_upper.
  - unfold encode_runes. pose proof (decode_runes_nonneg (chars s)) as H.
    induction H as [|r rs Hr _ IH]; [constructor|]. cbn.
    apply Forall_app. split; [by apply encode_lower_no_upper | done].
Qed.

Lemma is_ascii_Forall l : is_ascii l = true <-> Forall ascii_byte l.
Proof.
  unfold is_ascii, ascii_byte. rewrite forallb_forall, List.Forall_forall.
  by setoid_rewrite Z.ltb_lt.
Qed.

Lemma to_lower_ascii_id s :
  Forall ascii_byte (chars s) -> Forall no_upper (chars s) -> ToLower s = s.
Proof.
  intros Ha Hu. unfold ToLower. rewrite (proj2 (is_ascii_Forall _) Ha).
  rewrite <- (of_chars_chars s) at 2. f_equal.
  induction Hu as [|c l Hc Hl IH]; [done|]. inversion Ha; subst. cbn. f_equal; [|by apply IH].
  unfold ascii_lower. by rewrite Hc.
Qed.

Lemma encode_rune_nonempty r : encode_rune r <> [].
Proof. unfold encode_rune. repeat case_match; done. Qed.

Lemma decode_runes_nonempty c l : decode_runes (c :: l) <> [].
Proof. cbn. repeat case_match; done. Qed.

Lemma to_lower_nonempty s : s <> "" -> ToLower s <> "".
Proof.
  intros Hs. unfold ToLower. destruct (chars s) as [|c l] eqn:E; [by apply chars_nil in E|].
  case_match; rewrite of_chars_nil; [done|].
  pose proof (decode_runes_nonempty c l) as Hd. destruct (decode_runes (c :: l)) as [|r rs]; [done|].
  unfold encode_runes. cbn. intros [Hr _]%app_nil_iff. by apply encode_rune_nonempty in Hr.
Qed.

Lemma to_lower_empty : ToLower "" = "".
Proof. reflexivity. Qed.

(** ** Facts about prefixes, suffixes and Trim *)

Lemma prefix_of_list_spec p l : prefix_of_list p l = true <-> exists k, l = p ++ k.
Proof.
  revert l. induction p as [|a p IH]; intros [|b l]; cbn.
  - split; [by exists [] | done].
  - split; [by eexists | done].
  - split; [done | by intros [k Hk]].
  - rewrite andb_true_iff, bool_decide_eq_true, IH. split.
    + intros [-> [k ->]]. by exists k.
    + intros [k [= -> ->]]. eauto.
Qed.

Lemma has_prefix_spec s p : HasPrefix s p = true <-> exists t, s = p +:+ t.
Proof.
  unfold HasPrefix. rewrite prefix_of_list_spec. split.
  - intros [k Hk]. exists (of_chars k). apply chars_inj. by rewrite chars_app, chars_of_chars.
  - intros [t ->]. exists (chars t). apply chars_app.
Qed.

Lemma has_suffix_spec s p : HasSuffix s p = true <-> exists t, s = t +:+ p.
Proof.
  unfold HasSuffix. rewrite prefix_of_list_spec. split.
  - intros [k Hk]. exists (of_chars (rev k)). apply chars_inj.
    rewrite chars_app, chars_of_chars. rewrite <- (rev_involutive (chars s)), Hk.
    by rewrite rev_app_distr, rev_involutive.
  - intros [t ->]. exists (rev (chars t)). by rewrite chars_app, rev_app_distr.
Qed.

Lemma has_prefix_app p t : HasPrefix (p +:+ t) p = true.
Proof. apply has_prefix_spec. by exists t. Qed.

Lemma trim_prefix_app p t : TrimPrefix (p +:+ t) p = t.
Proof.
  unfold TrimPrefix. rewrite has_prefix_app. unfold str_drop, len.
  by rewrite chars_app, drop_app_length, of_chars_chars.
Qed.

Lemma trim_suffix_app p t : TrimSuffix (t +:+ p) p = t.
Proof.
  unfold TrimSuffix. rewrite (proj2 (has_suffix_spec _ _)) by (by exists t).
  unfold str_take. rewrite len_app, Nat.add_sub. unfold len.
  by rewrite chars_app, take_app_length, of_chars_chars.
Qed.

Section TrimBy.
Context (f : ascii -> bool).

Lemma drop_while_suffix l : exists k, l = k ++ drop_while f l.
Proof.
  induction l as [|c l [k IH]]; [by exists []|]. cbn. destruct (f c); [|by exists []].
  exists (c :: k). cbn. by rewrite <- IH.
Qed.

Lemma drop_while_head l : match drop_while f l with [] => True | c :: _ => f c = false end.
Proof. induction l as [|c l IH]; cbn; [done|]. by destruct (f c) eqn:E. Qed.

Lemma drop_while_id l :
  match l with [] => True | c :: _ => f c = false end -> drop_while f l = l.
Proof. destruct l as [|c l]; cbn; [done|]. by intros ->. Qed.

Lemma trim_by_infix l : exists a b, l = a ++ trim_by f l ++ b.
Proof.
  unfold trim_by. destruct (drop_while_suffix l) as [a Ha].
  destruct (drop_while_suffix (rev (drop_while f l))) as [b Hb].
  exists a, (rev b). rewrite <- rev_app_distr, <- Hb, rev_involutive. done.
Qed.

Lemma trim_by_Forall (P : ascii -> Prop) l : Forall P l -> Forall P (trim_by f l).
Proof. intros H. destruct (trim_by_infix l) as (a & b & Hl). rewrite Hl in H.
  rewrite !Forall_app in H. tauto. Qed.

Lemma trim_by_length l : (length (trim_by f l) <= length l)%nat.
Proof. destruct (trim_by_infix l) as (a & b & Hl). rewrite Hl at 2. rewrite !length_app. lia. Qed.

(** Neither end of the result is in the cutset. *)
Lemma trim_by_head l c k : trim_by f l = c :: k -> f c = false.
Proof.
  intros H. pose proof (drop_while_head l) as Hh. unfold trim_by in H.
  destruct (drop_while_suffix (rev (drop_while f l))) as [b Hb].
  apply (f_equal (@rev ascii)) in Hb. rewrite rev_involutive, rev_app_distr, H in Hb.
  rewrite Hb in Hh. done.
Qed.

Lemma trim_by_last l c k : trim_by f l = k ++ [c] -> f c = false.
Proof.
  unfold trim_by. intros H. apply (f_equal (@rev ascii)) in H.
  rewrite rev_involutive, rev_app_distr in H. cbn in H.
  pose proof (drop_while_head (rev (drop_while f l))) as Hh. by rewrite H in Hh.
Qed.

Lemma trim_by_id l :
  match l with [] => True | c :: _ => f c = false end ->
  match rev l with [] => True | c :: _ => f c = false end ->
  trim_by f l = l.
Proof.
  intros H1 H2. unfold trim_by. rewrite (drop_while_id l H1), drop_while_id by done.
  apply rev_involutive.
Qed.
End TrimBy.

(** ** Facts about Split, Join and sort *)

Lemma split_list_nonempty sep l : split_list sep l <> [].
Proof.
  destruct l as [|c l]; cbn; [done|]. case_bool_decide; [done|].
  by destruct (split_list sep l).
Qed.

(** No part contains the separator. *)
Lemma split_list_no_sep sep l : Forall (Forall (fun c => c <> sep)) (split_list sep l).
Proof.
  induction l as [|c l IH]; cbn; [by repeat constructor|].
  case_bool_decide as E; [by constructor|].
  destruct (split_list sep l) as [|w ws]; [by repeat constructor|].
  inversion IH; subst. constructor; [by constructor | done].
Qed.

(** Join is the left inverse of Split. *)
Lemma join_split sep s : Join (Split s sep) (of_chars [sep]) = s.
Proof.
  apply chars_inj. unfold Split, Join. generalize (chars s) as l. clear s.
  assert (forall w ws, chars (String.concat (of_chars [sep]) (of_chars <$> (w :: ws)))
    = w ++ (ws ≫= fun v => sep :: v)) as Hc.
  { intros w ws. revert w. induction ws as [|v ws IH]; intros w.
    - cbn. by rewrite chars_of_chars, app_nil_r.
    - change (String.concat (of_chars [sep]) (of_chars <$> (w :: v :: ws)))
        with (of_chars w +:+ of_chars [sep] +:+ String.concat (of_chars [sep]) (of_chars <$> (v :: ws))).
      rewrite !chars_app, IH, !chars_of_chars. done. }
  induction l as [|c l IH]; [done|]. cbn [split_list].
  case_bool_decide as E.
  - subst. destruct (split_list sep l) as [|w ws] eqn:Es; [by apply split_list_nonempty in Es|].
    rewrite Hc in IH |- *. cbn. by rewrite IH.
  - destruct (split_list sep l) as [|w ws] eqn:Es; [by apply split_list_nonempty in Es|].
    rewrite Hc in IH |- *. cbn. by rewrite IH.
Qed.

#[export] Instance str_le_total : Total str_le.
Proof. intros s t. apply String.leb_total. Qed.

Lemma sort_Strings_perm l : sort_Strings l ≡ₚ l.
Proof. apply merge_sort_Permutation. Qed.

Lemma sort_Strings_sorted l : Sorted str_le (sort_Strings l).
Proof. apply Sorted_merge_sort. apply _. Qed.

Lemma elem_of_sort_Strings x l : x ∈ sort_Strings l <-> x ∈ l.
Proof. by rewrite sort_Strings_perm. Qed.

Lemma sort_Strings_nil l : sort_Strings l = [] <-> l = [].
Proof.
  split; [|by intros ->]. intros H. pose proof (sort_Strings_perm l) as P. rewrite H in P.
  by apply Permutation_nil in P.
Qed.

(** ** Decimal numbers *)

Lemma foldl_digits l v :
  foldl (fun v c => 10 * v + (bz c - 48)) v l = v * 10 ^ Z.of_nat (length l) + digits_val l.
Proof.
  unfold digits_val. revert v. induction l as [|c l IH]; intros v; cbn [foldl length]; [lia|].
  rewrite IH, (IH (10 * 0 + _)), Nat2Z.inj_succ, Z.pow_succ_r by lia. lia.
Qed.

Lemma itoa_fuel_val fuel n acc : (n < fuel)%nat ->
  digits_val (itoa_fuel fuel n acc) = Z.of_nat n * 10 ^ Z.of_nat (length acc) + digits_val acc.
Proof.
  revert n acc. induction fuel as [|fuel IH]; intros n acc Hn; [lia|]. cbn [itoa_fuel].
  assert (digits_val (digit (n mod 10) :: acc) =
    Z.of_nat (n mod 10) * 10 ^ Z.of_nat (length acc) + digits_val acc) as Hd.
  { unfold digits_val at 1. cbn [foldl]. rewrite foldl_digits. f_equal. f_equal.
    unfold digit. pose proof (Nat.mod_upper_bound n 10 ltac:(lia)).
    rewrite bz_byte_of_Z by lia. lia. }
  pose proof (Nat.div_mod_eq n 10) as Hdm. destruct (n / 10 =? 0)%nat eqn:E.
  - apply Nat.eqb_eq in E. rewrite Hd, E in *. replace (n mod 10)%nat with n by lia. done.
  - apply Nat.eqb_neq in E. rewrite IH, Hd by lia. cbn [length].
    rewrite Nat2Z.inj_succ, Z.pow_succ_r by lia. nia.
Qed.

(** The decimal text of a number has the number's value. *)
Lemma itoa_val n : digits_val (chars (itoa n)) = Z.of_nat n.
Proof. unfold itoa. rewrite chars_of_chars, itoa_fuel_val by lia. cbn. lia. Qed.

Lemma trim_space_all_solid s : Forall (fun c => solid c = true) (chars s) -> TrimSpace s = s.
Proof.
  intros H. destruct (chars s) as [|c l] eqn:E.
  - apply (f_equal of_chars) in E. rewrite of_chars_chars in E. by rewrite E.
  - destruct (exists_last (l := c :: l)) as (k & d & Hk); [done|]. rewrite Hk in H.
    eapply trim_space_solid; [exact E|by rewrite E| |].
    + rewrite <- Hk in H. by inversion H.
    + apply Forall_app in H as [_ H]. by inversion H.
Qed.

Lemma itoa_fuel_solid fuel n acc :
  Forall (fun c => solid c = true) acc -> Forall (fun c => solid c = true) (itoa_fuel fuel n acc).
Proof.
  revert n acc. induction fuel as [|fuel IH]; intros n acc H; [done|]. cbn [itoa_fuel].
  assert (Hd : solid (digit (n mod 10)) = true).
  { pose proof (Nat.mod_upper_bound n 10 ltac:(lia)). unfold solid, space1, digit.
    rewrite bz_byte_of_Z by lia. rewrite (proj2 (in_range_false 9 13 _)) by lia.
    rewrite (proj2 (Z.ltb_lt _ 128)), (proj2 (Z.eqb_neq _ 32)) by lia. done. }
  destruct (n / 10 =? 0)%nat; [|apply IH]; by constructor.
Qed.

Lemma itoa_solid n : Forall (fun c => solid c = true) (chars (itoa n)).
Proof. unfold itoa. rewrite chars_of_chars. by apply itoa_fuel_solid. Qed.
