(* ===== verification/Hash.v ===== *)
(** [crypto/sha1], [encoding/hex] and [encoding/base32] of the Go standard
    library, as the name derivations use them: executable definitions on byte
    lists, with the length and alphabet of every encoding. *)

From Stdlib Require Import Ascii NArith ZArith Lia.
From stdpp Require Import base strings list.
From S2P Require Import Prelude Utf8.

Local Open Scope Z_scope.

Definition bytes := list Z.

Definition byte_ok (b : Z) : Prop := 0 <= b < 256.

Definition string_bytes (s : string) : bytes := bz <$> chars s.

Lemma string_bytes_ok s : Forall byte_ok (string_bytes s).
Proof. apply Forall_fmap, Forall_true. intros c. apply bz_range. Qed.

(** ** Words *)

Definition w32 (z : Z) : Z := z mod 4294967296.

Definition rotl32 (n z : Z) : Z := Z.lor (w32 (Z.shiftl z n)) (Z.shiftr z (32 - n)).

Definition not32 (z : Z) : Z := 4294967295 - z.

Fixpoint be_word (l : bytes) : Z :=
  match l with
  | [] => 0
  | b :: l => b * 256 ^ Z.of_nat (length l) + be_word l
  end.

Definition be_bytes4 (w : Z) : bytes :=
  [Z.shiftr w 24 mod 256; Z.shiftr w 16 mod 256; Z.shiftr w 8 mod 256; w mod 256].

Fixpoint chunks (n fuel : nat) (l : bytes) : list bytes :=
  match fuel, l with
  | S fuel, _ :: _ => take n l :: chunks n fuel (drop n l)
  | _, _ => []
  end.

(** Merkle-Damgard padding to a multiple of 64 bytes, big-endian bit length. *)
Definition sha_pad (m : bytes) : bytes :=
  let n := Z.of_nat (length m) in
  let zeros := (119 - n mod 64) mod 64 in
  m ++ [128] ++ replicate (Z.to_nat zeros) 0
    ++ be_bytes4 (Z.shiftr (n * 8) 32) ++ be_bytes4 (w32 (n * 8)).

(** ** SHA-1 *)

Definition sha1_state : Type := Z * Z * Z * Z * Z.

Definition sha1_init : sha1_state :=
  (1732584193, 4023233417, 2562383102, 271733878, 3285377520).

(** Message schedule, most recent word first. *)
Fixpoint sha1_expand (n : nat) (w : list Z) : list Z :=
  match n with
  | O => w
  | S n =>
      let x := Z.lxor (Z.lxor (nth 2 w 0) (nth 7 w 0)) (Z.lxor (nth 13 w 0) (nth 15 w 0)) in
      sha1_expand n (rotl32 1 x :: w)
  end.

Definition sha1_round (st : sha1_state) (iw : nat * Z) : sha1_state :=
  let '(a, b, c, d, e) := st in
  let '(i, w) := iw in
  let '(f, k) :=
    if (i <? 20)%nat then (Z.lor (Z.land b c) (Z.land (not32 b) d), 1518500249)
    else if (i <? 40)%nat then (Z.lxor (Z.lxor b c) d, 1859775393)
    else if (i <? 60)%nat
    then (Z.lor (Z.lor (Z.land b c) (Z.land b d)) (Z.land c d), 2400959708)
    else (Z.lxor (Z.lxor b c) d, 3395469782) in
  (w32 (rotl32 5 a + f + e + k + w), a, rotl32 30 b, c, d).

Definition sha1_block (st : sha1_state) (block : bytes) : sha1_state :=
  let w := rev (sha1_expand 64 (rev (be_word <$> chunks 4 16 block))) in
  let '(a, b, c, d, e) := st in
  let '(a', b', c', d', e') := foldl sha1_round st (zip (seq 0 80) w) in
  (w32 (a + a'), w32 (b + b'), w32 (c + c'), w32 (d + d'), w32 (e + e')).

Definition sha1 (m : bytes) : bytes :=
  let p := sha_pad m in
  let '(a, b, c, d, e) := foldl sha1_block sha1_init (chunks 64 (length p) p) in
  be_bytes4 a ++ be_bytes4 b ++ be_bytes4 c ++ be_bytes4 d ++ be_bytes4 e.

(** ** Encodings *)

Definition hex_digit (d : Z) : ascii := byte_of_Z (if d <? 10 then 48 + d else 87 + d).

(** [hex.EncodeToString] *)
Definition hex_encode (l : bytes) : string :=
  of_chars (l ≫= fun b => [hex_digit (b / 16); hex_digit (b mod 16)]).

Definition bits8 (b : Z) : list bool := (fun i => Z.testbit b i) <$> [7; 6; 5; 4; 3; 2; 1; 0].

Definition bits_val (l : list bool) : Z := foldl (fun acc (b : bool) => 2 * acc + Z.b2z b) 0 l.

(** Groups of five bits, the last one filled with zero bits. *)
Fixpoint groups5 (fuel : nat) (l : list bool) : list Z :=
  match fuel, l with
  | S fuel, _ :: _ => bits_val (take 5 (l ++ replicate 5 false)) :: groups5 fuel (drop 5 l)
  | _, _ => []
  end.

(** [base32.NewEncoding("abcdefghijklmnopqrstuvwxyz234567").WithPadding(NoPadding)] *)
Definition base32_digit (d : Z) : ascii := byte_of_Z (if d <? 26 then 97 + d else 24 + d).

Definition base32_encode (l : bytes) : string :=
  let bits := l ≫= bits8 in of_chars (base32_digit <$> groups5 (length bits) bits).

(** The standard test vector: SHA-1 of "abc". *)
Example sha1_abc : hex_encode (sha1 (string_bytes "abc")) = "a9993e364706816aba3e25717850c26c9cd0d89d".
Proof. vm_compute. reflexivity. Qed.

Example sha1_long :
  hex_encode (sha1 (string_bytes "abcdbcdecdefdefgefghfghighijhijkijkljklmklmnlmnomnopnopq"))
  = "84983e441c3bd26ebaae4aa1f95129e5e54670f1".
Proof. vm_compute. reflexivity. Qed.

Example base32_ex : base32_encode (string_bytes "foo") = "mzxw6".
Proof. vm_compute. reflexivity. Qed.

(** ** Lengths and alphabets *)

Lemma sha1_length m : length (sha1 m) = 20%nat.
Proof. unfold sha1. by destruct (foldl _ _ _) as [[[[a b] c] d] e]. Qed.

Lemma be_bytes4_ok w : Forall byte_ok (be_bytes4 w).
Proof. repeat constructor; apply Z.mod_pos_bound; lia. Qed.

Lemma sha1_ok m : Forall byte_ok (sha1 m).
Proof.
  unfold sha1. destruct (foldl _ _ _) as [[[[a b] c] d] e].
  rewrite !Forall_app. repeat split; apply be_bytes4_ok.
Qed.

(** The characters of a DNS-1123 label other than the hyphen. *)
Definition alnum (c : ascii) : bool := in_range 97 122 (bz c) || in_range 48 57 (bz c).

Lemma hex_digit_alnum d : 0 <= d < 16 -> alnum (hex_digit d) = true.
Proof.
  intros H. unfold alnum, hex_digit. destruct (d <? 10) eqn:E;
    rewrite ?Z.ltb_lt, ?Z.ltb_ge in E; rewrite bz_byte_of_Z by lia;
    apply orb_true_iff; [right | left]; apply in_range_true; lia.
Qed.

Lemma hex_encode_alnum l : Forall byte_ok l -> Forall (fun c => alnum c = true) (chars (hex_encode l)).
Proof.
  unfold hex_encode. rewrite chars_of_chars. induction 1 as [|b l Hb _ IH]; [constructor|].
  cbn. unfold byte_ok in Hb. repeat constructor; [..|done]; apply hex_digit_alnum.
  - split; [apply Z.div_pos; lia | apply Z.div_lt_upper_bound; lia].
  - apply Z.mod_pos_bound. lia.
Qed.

Lemma hex_encode_len l : len (hex_encode l) = (2 * length l)%nat.
Proof.
  unfold len, hex_encode. rewrite chars_of_chars. induction l as [|b l IH]; [done|].
  cbn in *. rewrite IH. lia.
Qed.

Lemma bits_val_bound l acc :
  0 <= acc -> 0 <= foldl (fun acc (b : bool) => 2 * acc + Z.b2z b) acc l
              < (acc + 1) * 2 ^ Z.of_nat (length l).
Proof.
  revert acc. induction l as [|b l IH]; intros acc Ha; cbn [foldl length].
  - change (2 ^ Z.of_nat 0) with 1. lia.
  - rewrite Nat2Z.inj_succ, Z.pow_succ_r by lia.
    assert (0 <= Z.b2z b <= 1) by (destruct b; cbn; lia).
    specialize (IH (2 * acc + Z.b2z b)). nia.
Qed.

Lemma groups5_bound fuel l : Forall (fun d => 0 <= d < 32) (groups5 fuel l).
Proof.
  revert l. induction fuel as [|fuel IH]; intros [|b l]; cbn [groups5]; try constructor; [|done].
  pose proof (bits_val_bound (take 5 ((b :: l) ++ replicate 5 false)) 0) as H.
  rewrite length_take, length_app, length_replicate, Nat.min_l in H by (cbn; lia).
  unfold bits_val. change (2 ^ Z.of_nat 5) with 32 in H. lia.
Qed.

Lemma base32_digit_alnum d : 0 <= d < 32 -> alnum (base32_digit d) = true.
Proof.
  intros H. unfold alnum, base32_digit. destruct (d <? 26) eqn:E;
    rewrite ?Z.ltb_lt, ?Z.ltb_ge in E; rewrite bz_byte_of_Z by lia;
    apply orb_true_iff; [left | right]; apply in_range_true; lia.
Qed.

Lemma base32_encode_alnum l : Forall (fun c => alnum c = true) (chars (base32_encode l)).
Proof.
  unfold base32_encode. rewrite chars_of_chars. apply Forall_fmap.
  eapply Forall_impl; [apply groups5_bound|]. intros d Hd. by apply base32_digit_alnum.
Qed.

(** Three bytes make five digits. *)
Lemma base32_encode_len3 a b c : len (base32_encode [a; b; c]) = 5%nat.
Proof. unfold len, base32_encode. by rewrite chars_of_chars, length_fmap. Qed.

(** ** The fuel is enough *)

(** No byte of a message is left out of its blocks. *)
Lemma chunks_concat n fuel l :
  (0 < n)%nat -> (length l <= fuel)%nat -> concat (chunks n fuel l) = l.
Proof.
  intros Hn. revert l. induction fuel as [|fuel IH]; intros [|b l] Hl; cbn in Hl; try done; [lia|].
  cbn [chunks concat]. rewrite IH; [apply take_drop|]. rewrite length_drop. cbn. lia.
Qed.

(** Every started group of five bits gives a digit. *)
Lemma groups5_length fuel l :
  (length l <= fuel)%nat -> length (groups5 fuel l) = ((length l + 4) / 5)%nat.
Proof.
  revert l. induction fuel as [|fuel IH]; intros [|b l] Hl; cbn [length] in Hl; try done; [lia|].
  cbn [groups5]. change (length (?x :: ?y)) with (S (length y)).
  rewrite IH, length_drop; [|rewrite length_drop; cbn; lia]. cbn [length].
  destruct (decide (length l <= 4)%nat) as [H|H].
  - replace (S (length l) - 5)%nat with 0%nat by lia.
    replace (S (length l) + 4)%nat with (length l + 1 * 5)%nat by lia.
    rewrite Nat.div_add by lia. rewrite (Nat.div_small (length l)) by lia. done.
  - replace (S (length l) + 4)%nat with (S (length l) - 5 + 4 + 1 * 5)%nat by lia.
    rewrite Nat.div_add by lia. lia.
Qed.
