(* ===== verification/GoTime.v ===== *)
(** Go's [time] package as far as the code uses it: UTC instants as seconds since
    1970-01-01T00:00:00Z (the code never looks at smaller units), truncation to the
    hour and the two layouts that are formatted.  Years 0 to 9999. *)

From Stdlib Require Import Ascii ZArith Lia.
From stdpp Require Import base strings list.
From S2P Require Import Prelude Utf8 GoStrings Hash.

Local Open Scope Z_scope.

Definition Time := Z.

(** [t.UTC().Truncate(time.Hour)] *)
Definition TruncateHour (t : Time) : Time := t - t mod 3600.

(** Days since the epoch to (year, month, day) of the Gregorian calendar. *)
Definition civil (days : Z) : Z * Z * Z :=
  let z := days + 719468 in
  let era := z / 146097 in
  let doe := z mod 146097 in
  let yoe := (doe - doe / 1460 + doe / 36524 - doe / 146096) / 365 in
  let doy := doe - (365 * yoe + yoe / 4 - yoe / 100) in
  let mp := (5 * doy + 2) / 153 in
  let d := doy - (153 * mp + 2) / 5 + 1 in
  let m := if mp <? 10 then mp + 3 else mp - 9 in
  let y := yoe + era * 400 in
  (if m <=? 2 then y + 1 else y, m, d).

Definition dig (n : Z) : ascii := byte_of_Z (48 + n mod 10).
Definition two (n : Z) : list ascii := [dig (n / 10); dig n].
Definition four (n : Z) : list ascii := [dig (n / 1000); dig (n / 100); dig (n / 10); dig n].

(** The layout "2006-01-02" *)
Definition format_date (t : Time) : list ascii :=
  let '(y, m, d) := civil (t / 86400) in
  four y ++ ["-"%char] ++ two m ++ ["-"%char] ++ two d.

Definition Hour (t : Time) : Z := t mod 86400 / 3600.

(** The layout "2006-01-02T15" *)
Definition FormatHour (t : Time) : string :=
  of_chars (format_date t ++ ["T"%char] ++ two (Hour t)).

(** [time.RFC3339] of a UTC instant *)
Definition FormatRFC3339 (t : Time) : string :=
  of_chars (format_date t ++ ["T"%char] ++ two (Hour t) ++ [":"%char]
    ++ two (t mod 3600 / 60) ++ [":"%char] ++ two (t mod 60) ++ ["Z"%char]).

Example format_epoch : FormatRFC3339 0 = "1970-01-01T00:00:00Z".
Proof. vm_compute. reflexivity. Qed.

Example format_leap : FormatRFC3339 1709210096 = "2024-02-29T12:34:56Z".
Proof. vm_compute. reflexivity. Qed.

Example format_hour_ex : FormatHour (TruncateHour 1709210096) = "2024-02-29T12".
Proof. vm_compute. reflexivity. Qed.

Lemma dig_bz n : 48 <= bz (dig n) <= 57.
Proof.
  unfold dig. pose proof (Z.mod_pos_bound n 10 ltac:(lia)). rewrite bz_byte_of_Z; lia.
Qed.

Lemma dig_alnum n : alnum (dig n) = true.
Proof.
  unfold alnum. apply orb_true_iff. right. apply in_range_true. pose proof (dig_bz n). lia.
Qed.

Lemma truncate_hour_aligned t : TruncateHour t mod 3600 = 0.
Proof.
  unfold TruncateHour. pose proof (Z.div_mod t 3600 ltac:(lia)).
  replace (t - t mod 3600) with (t / 3600 * 3600) by lia. apply Z_mod_mult.
Qed.

Lemma truncate_hour_idem t : TruncateHour (TruncateHour t) = TruncateHour t.
Proof. unfold TruncateHour at 1. rewrite truncate_hour_aligned. lia. Qed.
