(* ===== verification/Names.v ===== *)
(** Kubernetes names and labels derived from user input:
    [internal/util/slugify.go], [internal/service/app_names.go],
    [internal/service/app_labels.go] and [internal/service/labels.go]. *)

From Stdlib Require Import Ascii NArith ZArith Lia.
From stdpp Require Import base gmap strings list.
From S2P Require Import Prelude Utf8 GoStrings Hash.

(** ** DNS-1123 labels *)

Definition dash : ascii := "-"%char.

Definition name_char (c : ascii) : bool := alnum c || bool_decide (c = dash).

Definition head_alnum (l : list ascii) : bool :=
  match l with [] => false | c :: _ => alnum c end.

(** [a-z0-9]([-a-z0-9]*[a-z0-9])?, at most 63 bytes (RFC 1123). *)
Definition dns1123_label (s : string) : bool :=
  let l := chars s in
  forallb name_char l && head_alnum l && head_alnum (rev l) && (length l <=? 63).

(** ** util.Slugify *)

(** [regexp.MustCompile("[^a-z0-9]+").ReplaceAllString(s, "-")]: every maximal
    run of other bytes becomes one hyphen ([prev]: the last byte was in a run). *)
Fixpoint dash_runs (prev : bool) (l : list ascii) : list ascii :=
  match l with
  | [] => []
  | c :: l =>
      if alnum c then c :: dash_runs false l
      else if prev then dash_runs true l
      else dash :: dash_runs true l
  end.

Definition nonAlnum_ReplaceAll (s : string) : string := of_chars (dash_runs false (chars s)).

Definition Slugify (s : string) : string :=
  let s := ToLower (TrimSpace s) in
  let s := nonAlnum_ReplaceAll s in
  let s := Trim s "-" in
  let s := if 63 <? len s then str_take 63 s else s in
  if str_eqb s "" then "ns" else s.

(** ** app_names.go *)

Definition maxKubeNameLen : nat := 63.

Definition resourceSuffix (appID : string) : string :=
  if blank appID then ""
  else
    let sum := sha1 (string_bytes appID) in
    let hexPart := hex_encode (take 5 sum) in
    let hexPart := if 9 <? len hexPart then str_take 9 hexPart else hexPart in
    let base32Part := ToLower (base32_encode (take 3 (drop 5 sum))) in
    if str_eqb hexPart "" then base32Part
    else if str_eqb base32Part "" then hexPart
    else hexPart +:+ "-" +:+ base32Part.

Definition deriveKubeName (baseName appID : string) : string :=
  let base := Slugify baseName in
  let base := if str_eqb base "" then "app" else base in
  let suffix := resourceSuffix appID in
  if str_eqb suffix "" then
    if maxKubeNameLen <? len base then str_take maxKubeNameLen base else base
  else
    let maxBaseLen := (Z.of_nat maxKubeNameLen - Z.of_nat (len suffix) - 1)%Z in
    let maxBaseLen := Z.to_nat (if (maxBaseLen <? 1)%Z then 1 else maxBaseLen)%Z in
    let base :=
      if maxBaseLen <? len base then
        let base := Trim (str_take maxBaseLen base) "-" in
        if str_eqb base "" then "app" else base
      else base in
    base +:+ "-" +:+ suffix.

(** [kubeNameField] is [app.Source["kubeName"].(string)]: [None] when the key is
    missing or not a string. *)
Definition appKubeName (kubeNameField : option string) (appName : string) : string :=
  match kubeNameField with
  | Some slug =>
      let slug := TrimSpace slug in
      if str_eqb slug "" then Slugify appName else slug
  | None => Slugify appName
  end.

(** ** app_labels.go *)

Definition labelAppID := "kubeop.app.id".
Definition labelAppName := "kubeop.app.name".
Definition labelProjectID := "kubeop.project.id".
Definition labelProjectName := "kubeop.project.name".
Definition labelClusterID := "kubeop.cluster.id".
Definition labelTenantID := "kubeop.tenant.id".

(** The columns of [store.Project] the code reads. *)
Record Project := mkProject {
  p_ID : string;
  p_UserID : string;
  p_ClusterID : string;
  p_Name : string;
  p_Namespace : string;
}.

(** The closure [add]: blank values are dropped, others stored trimmed. *)
Definition add_label (key value : string) (labels : gmap string string) : gmap string string :=
  let value := TrimSpace value in
  if str_eqb value "" then labels else <[key := value]> labels.

Definition CanonicalAppLabels (project : Project) (appName kubeName appID : string)
    : gmap string string :=
  let labels := add_label labelAppID appID ∅ in
  let kubeName :=
    if blank kubeName then (if negb (blank appName) then Slugify appName else "")
    else kubeName in
  let labels := add_label labelAppName kubeName labels in
  let labels := add_label labelProjectID (p_ID project) labels in
  let labels :=
    if negb (blank (p_Name project))
    then add_label labelProjectName (Slugify (p_Name project)) labels
    else if negb (blank (p_Namespace project))
    then add_label labelProjectName (Slugify (p_Namespace project)) labels
    else labels in
  let labels := add_label labelClusterID (p_ClusterID project) labels in
  add_label labelTenantID (p_UserID project) labels.

(** ** labels.go *)

Definition label_rune (r : rune) : bool :=
  (in_range 97 122 r || in_range 48 57 r || (r =? 46) || (r =? 95) || (r =? 45))%Z.

(** The rune loop of [SanitizeUserLabel]; [prevDash] as in the code. *)
Fixpoint sanitize_label_runes (prevDash : bool) (rs : list rune) : list ascii :=
  match rs with
  | [] => []
  | r :: rs =>
      if label_rune r then byte_of_Z r :: sanitize_label_runes (r =? 45)%Z rs
      else if prevDash then sanitize_label_runes prevDash rs
      else dash :: sanitize_label_runes true rs
  end.

Definition SanitizeUserLabel (s : string) : string :=
  if str_eqb s "" then ""
  else
    let s := ToLower (TrimSpace s) in
    let out := of_chars (sanitize_label_runes false (decode_runes (chars s))) in
    let out := Trim out "-" in
    if str_eqb out "" then "user" else out.

Definition ResolveUserLabel (name email userID : string) : string :=
  let label := SanitizeUserLabel name in
  if negb (str_eqb label "") then label
  else
    let label := SanitizeUserLabel email in
    if negb (str_eqb label "") then label
    else
      let short := TrimSpace userID in
      let short := if 8 <? len short then str_take 8 short else short in
      if str_eqb short "" then "user" else "user-" +:+ short.

(** ** Examples *)

Example slug_ex : Slugify "  My App: v2! " = "my-app-v2".
Proof. vm_compute. reflexivity. Qed.

Example derive_ex : deriveKubeName "Web Front" "app-1" = "web-front-8d91d7c66-4yvxo".
Proof. vm_compute. reflexivity. Qed.

(** ** Shape of the slug *)

Definition name_bytes (l : list ascii) : Prop := Forall (fun c => name_char c = true) l.

Lemma alnum_not_dash c : alnum c = true -> c <> dash.
Proof. by intros H ->. Qed.

Lemma name_char_alnum c : name_char c = true -> c <> dash -> alnum c = true.
Proof.
  unfold name_char. rewrite orb_true_iff, bool_decide_eq_true. tauto.
Qed.

Lemma alnum_name_char c : alnum c = true -> name_char c = true.
Proof. unfold name_char. by intros ->. Qed.

Lemma alnum_ascii c : alnum c = true -> ascii_byte c.
Proof.
  unfold alnum, ascii_byte. rewrite orb_true_iff, !in_range_true. lia.
Qed.

Lemma alnum_no_upper c : alnum c = true -> no_upper c.
Proof.
  unfold alnum, no_upper, is_upper_z. rewrite orb_true_iff, !in_range_true, in_range_false. lia.
Qed.

Lemma alnum_solid c : alnum c = true -> solid c = true.
Proof.
  intros H. pose proof (alnum_ascii c H) as Ha. unfold solid, space1.
  unfold alnum in H. rewrite orb_true_iff, !in_range_true in H. unfold ascii_byte in Ha.
  rewrite andb_true_iff, negb_true_iff, orb_false_iff, Z.ltb_lt, in_range_false, Z.eqb_neq. lia.
Qed.

Lemma name_char_ascii c : name_char c = true -> ascii_byte c /\ no_upper c.
Proof.
  unfold name_char. rewrite orb_true_iff, bool_decide_eq_true. intros [H | ->].
  - split; [by apply alnum_ascii | by apply alnum_no_upper].
  - done.
Qed.

Lemma char_in_dash c : char_in "-" c = bool_decide (c = dash).
Proof. cbn. by rewrite orb_false_r. Qed.

Lemma dash_runs_name prev l : name_bytes (dash_runs prev l).
Proof.
  revert prev. induction l as [|c l IH]; intros prev; cbn; [constructor|].
  destruct (alnum c) eqn:E; [|destruct prev].
  - constructor; [by apply alnum_name_char | apply IH].
  - apply IH.
  - constructor; [done | apply IH].
Qed.

(** No two consecutive hyphens. *)
Fixpoint no_double_dash (l : list ascii) : Prop :=
  match l with
  | a :: (b :: _) as l' => ~ (a = dash /\ b = dash) /\ no_double_dash l'
  | _ => True
  end.

Lemma no_double_dash_cons a l :
  no_double_dash (a :: l) <-> ~ (a = dash /\ head l = Some dash) /\ no_double_dash l.
Proof. destruct l as [|b l]; cbn; naive_solver. Qed.

Lemma no_double_dash_app_l l k : no_double_dash (l ++ k) -> no_double_dash l.
Proof.
  induction l as [|a l IH]; [done|]. cbn [app]. rewrite !no_double_dash_cons.
  intros [H1 H2]. split; [|by apply IH]. intros [-> Hh]. apply H1. split; [done|].
  by destruct l.
Qed.

Lemma no_double_dash_app_r l k : no_double_dash (l ++ k) -> no_double_dash k.
Proof.
  induction l as [|a l IH]; [done|]. cbn [app]. rewrite no_double_dash_cons. tauto.
Qed.

Lemma dash_runs_no_double prev l :
  no_double_dash (dash_runs prev l) /\ (prev = true -> head (dash_runs prev l) <> Some dash).
Proof.
  revert prev. induction l as [|c l IH]; intros prev; cbn; [done|].
  destruct (alnum c) eqn:E; [|destruct prev].
  - apply alnum_not_dash in E. split; [|cbn; congruence].
    apply no_double_dash_cons. destruct (IH false). split; [naive_solver | done].
  - apply IH.
  - split; [|done]. apply no_double_dash_cons. destruct (IH true). split; [naive_solver | done].
Qed.

Lemma dash_runs_id l prev :
  name_bytes l -> no_double_dash l -> (prev = true -> head l <> Some dash) ->
  dash_runs prev l = l.
Proof.
  revert prev. induction l as [|c l IH]; intros prev Hn Hd Hp; [done|]. cbn.
  inversion Hn as [|? ? Hc Hl]; subst. apply no_double_dash_cons in Hd as [Hd1 Hd2].
  destruct (alnum c) eqn:E.
  - f_equal. apply IH; [done|done|congruence].
  - assert (c = dash) as ->.
    { destruct (decide (c = dash)) as [|Hne]; [done|].
      by rewrite (name_char_alnum c Hc Hne) in E. }
    destruct prev; [by destruct (Hp eq_refl)|]. f_equal. apply IH; naive_solver.
Qed.

(** The slug before truncation. *)
Definition slug_core (s : string) : list ascii :=
  trim_by (char_in "-") (dash_runs false (chars (ToLower (TrimSpace s)))).

Lemma slug_core_name s : name_bytes (slug_core s).
Proof. apply trim_by_Forall, dash_runs_name. Qed.

Lemma slug_core_no_double s : no_double_dash (slug_core s).
Proof.
  unfold slug_core. destruct (trim_by_infix (char_in "-")
    (dash_runs false (chars (ToLower (TrimSpace s))))) as (a & b & H).
  destruct (dash_runs_no_double false (chars (ToLower (TrimSpace s)))) as [Hn _].
  rewrite H in Hn. by eapply no_double_dash_app_l, no_double_dash_app_r.
Qed.

(** A non-empty list of name bytes with no hyphen at its ends. *)
Lemma trimmed_ends l :
  name_bytes l -> trim_by (char_in "-") l <> [] ->
  head_alnum (trim_by (char_in "-") l) = true /\
  head_alnum (rev (trim_by (char_in "-") l)) = true.
Proof.
  intros Hn Hne. pose proof (trim_by_Forall (char_in "-") _ l Hn) as Hn'.
  pose proof (trim_by_head (char_in "-") l) as Hh.
  pose proof (trim_by_last (char_in "-") l) as Ht.
  destruct (trim_by (char_in "-") l) as [|c k] eqn:E; [done|]. clear Hne. split.
  - specialize (Hh c k eq_refl). rewrite char_in_dash, bool_decide_eq_false in Hh.
    inversion Hn'; subst. by apply name_char_alnum.
  - destruct (rev (c :: k)) as [|d k'] eqn:Er.
    { apply (f_equal (@rev ascii)) in Er. by rewrite rev_involutive in Er. }
    assert (c :: k = rev k' ++ [d]) as Hck.
    { rewrite <- (rev_involutive (c :: k)), Er. done. }
    specialize (Ht d (rev k') Hck). rewrite char_in_dash, bool_decide_eq_false in Ht.
    cbn. apply name_char_alnum; [|done]. rewrite Hck in Hn'.
    apply Forall_app in Hn' as [_ Hd]. by inversion Hd.
Qed.

Lemma slug_core_ends s :
  slug_core s <> [] -> head_alnum (slug_core s) = true /\ head_alnum (rev (slug_core s)) = true.
Proof. apply trimmed_ends, dash_runs_name. Qed.

Lemma chars_Slugify s :
  chars (Slugify s) =
    if bool_decide (slug_core s = []) then chars "ns" else take 63 (slug_core s).
Proof.
  unfold Slugify. set (t := Trim _ _).
  assert (chars t = slug_core s) as Ht.
  { unfold t, Trim, nonAlnum_ReplaceAll, slug_core. by rewrite !chars_of_chars. }
  assert (chars (if 63 <? len t then str_take 63 t else t) = take 63 (slug_core s)) as Hu.
  { unfold len, str_take. rewrite Ht. destruct (63 <? length (slug_core s)) eqn:E.
    - by rewrite chars_of_chars.
    - apply Nat.ltb_ge in E. by rewrite take_ge. }
  set (u := if 63 <? len t then str_take 63 t else t) in *. clearbody u t.
  case_bool_decide as E.
  - rewrite E in Hu. cbn in Hu. apply chars_nil in Hu as ->. done.
  - destruct (str_eqb u "") eqn:Eu; [|done]. apply str_eqb_eq in Eu as ->.
    by destruct (slug_core s).
Qed.

Lemma dns1123_label_spec s :
  dns1123_label s = true <->
  name_bytes (chars s) /\ head_alnum (chars s) = true /\ head_alnum (rev (chars s)) = true
  /\ length (chars s) <= 63.
Proof.
  unfold dns1123_label, name_bytes. rewrite !andb_true_iff, Nat.leb_le, forallb_forall.
  rewrite List.Forall_forall. tauto.
Qed.

Lemma head_alnum_app l k : head_alnum l = true -> head_alnum (l ++ k) = true.
Proof. by destruct l. Qed.

Lemma head_alnum_take n l : head_alnum l = true -> head_alnum (take (S n) l) = true.
Proof. by destruct l. Qed.

Lemma slugify_name s : name_bytes (chars (Slugify s)).
Proof.
  rewrite chars_Slugify. case_bool_decide; [by repeat constructor|].
  apply Forall_take, slug_core_name.
Qed.

Lemma slugify_head s : head_alnum (chars (Slugify s)) = true.
Proof.
  rewrite chars_Slugify. case_bool_decide as E; [done|].
  destruct (slug_core_ends s E) as [Hh _]. by apply head_alnum_take.
Qed.

Lemma slugify_len s : 1 <= length (chars (Slugify s)) <= 63.
Proof.
  rewrite chars_Slugify. case_bool_decide as E; [cbn; lia|].
  rewrite length_take. destruct (slug_core s); [done | rewrite length_cons; lia].
Qed.

Lemma slugify_no_double s : no_double_dash (chars (Slugify s)).
Proof.
  rewrite chars_Slugify. case_bool_decide as E; [by split; [intros [??]|]|].
  pose proof (slug_core_no_double s) as H. rewrite <- (take_drop 63 (slug_core s)) in H.
  by eapply no_double_dash_app_l.
Qed.

(** Whatever the input, [Slugify] returns between 1 and 63 bytes of
    [a-z0-9-], starting with a letter or digit, with no two hyphens in a row. *)
Theorem slugify_shape s :
  name_bytes (chars (Slugify s)) /\ head_alnum (chars (Slugify s)) = true
  /\ no_double_dash (chars (Slugify s)) /\ 1 <= len (Slugify s) <= 63.
Proof.
  split_and!; [apply slugify_name | apply slugify_head | apply slugify_no_double
    | apply slugify_len..].
Qed.

Lemma take_63_last l c : l !! 62 = Some c -> take 63 l = take 62 l ++ [c : ascii].
Proof. intros H. by rewrite (take_S_r l 62 c H). Qed.

(** The doc comment of [Slugify] promises a DNS-1123 compatible
    slug; it is one except exactly when the untruncated slug is longer than 63 bytes and
    its 63rd byte is a hyphen, because the truncation is not followed by a trim. *)
Theorem slugify_label_iff s :
  dns1123_label (Slugify s) = false <->
  63 < length (slug_core s) /\ slug_core s !! 62 = Some dash.
Proof.
  rewrite <- not_true_iff_false, dns1123_label_spec.
  pose proof (slugify_name s) as Hn. pose proof (slugify_head s) as Hh.
  pose proof (slugify_len s) as [_ Hl].
  assert (forall P : Prop, ~ (name_bytes (chars (Slugify s)) /\ head_alnum (chars (Slugify s)) = true
    /\ P /\ length (chars (Slugify s)) <= 63) <-> ~ P) as -> by tauto.
  rewrite chars_Slugify. case_bool_decide as E.
  { rewrite E. cbn. split; [by intros H; destruct H | lia]. }
  destruct (decide (63 < length (slug_core s))) as [Hlt|Hge].
  - destruct (slug_core s !! 62) as [c|] eqn:Ec.
    2: { apply lookup_ge_None in Ec. lia. }
    rewrite (take_63_last _ _ Ec), rev_app_distr. cbn. pose proof (slug_core_name s) as Hc.
    pose proof (Forall_lookup_1 _ _ _ _ Hc Ec) as Hc62. cbn in Hc62. clear Hc. rename Hc62 into Hc.
    rewrite not_true_iff_false. split.
    + intros Ha. split; [done|]. f_equal. destruct (decide (c = dash)); [done|].
      by rewrite (name_char_alnum c) in Ha.
    + intros [_ [= ->]]. done.
  - rewrite take_ge by lia. destruct (slug_core_ends s E) as [_ ->]. split; [done | lia].
Qed.

(** 62 letters, a space and one more letter: the slug ends in a
    hyphen, so it is not a valid Kubernetes name. *)
Theorem slugify_not_label :
  dns1123_label (Slugify (of_chars (replicate 62 "a"%char) +:+ " b")) = false
  /\ HasSuffix (Slugify (of_chars (replicate 62 "a"%char) +:+ " b")) "-" = true.
Proof. vm_compute. done. Qed.

Lemma label_trim_space s : dns1123_label s = true -> TrimSpace s = s.
Proof.
  rewrite dns1123_label_spec. intros (_ & Hh & Ht & _).
  destruct (chars s) as [|c l] eqn:Ec; [done|].
  destruct (rev (c :: l)) as [|d k] eqn:Er; [done|]. cbn in Hh, Ht.
  apply (trim_space_solid s c d l (rev k)); [done| |by apply alnum_solid..].
  rewrite Ec, <- (rev_involutive (c :: l)), Er. done.
Qed.

Lemma name_bytes_lower s : name_bytes (chars s) -> ToLower s = s.
Proof.
  intros H. apply to_lower_ascii_id; eapply Forall_impl; try exact H;
    intros c Hc; by apply name_char_ascii.
Qed.

Lemma head_alnum_not_dash l :
  head_alnum l = true -> match l with [] => True | c :: _ => char_in "-" c = false end.
Proof.
  destruct l as [|c l]; [done|]. cbn [head_alnum]. intros H. rewrite char_in_dash.
  apply bool_decide_eq_false. by apply alnum_not_dash.
Qed.

(** A DNS-1123 label without doubled hyphens is its own slug; so a
    slug that is a label is stable under slugging again. *)
Theorem slugify_fixpoint s :
  dns1123_label s = true -> no_double_dash (chars s) -> Slugify s = s.
Proof.
  intros Hl Hd. pose proof (label_trim_space s Hl) as Ht.
  apply dns1123_label_spec in Hl as (Hn & Hh & Hr & Hlen). apply chars_inj.
  assert (slug_core s = chars s) as Hc.
  { unfold slug_core. rewrite Ht, (name_bytes_lower s Hn).
    rewrite dash_runs_id by (done || congruence).
    apply trim_by_id; by apply head_alnum_not_dash. }
  rewrite chars_Slugify, Hc, take_ge by lia. case_bool_decide as E; [|done].
  by rewrite E in Hh.
Qed.

Lemma slugify_fixpoint_witness : Slugify "web-1" = "web-1".
Proof. apply slugify_fixpoint; [reflexivity | cbn; repeat split; by intros [??]]. Defined.

(** ** deriveKubeName *)

Definition alnum_bytes (l : list ascii) : Prop := Forall (fun c => alnum c = true) l.

Lemma alnum_name_bytes l : alnum_bytes l -> name_bytes l.
Proof. intros H. eapply Forall_impl; [exact H|]. intros c. apply alnum_name_char. Qed.

Lemma take_drop_digest appID :
  exists a b c, take 3 (drop 5 (sha1 (string_bytes appID))) = [a; b; c].
Proof.
  pose proof (sha1_length (string_bytes appID)) as H.
  destruct (take 3 (drop 5 (sha1 (string_bytes appID)))) as [|a [|b [|c [|]]]] eqn:E;
    apply (f_equal length) in E; rewrite length_take, length_drop, H in E; cbn in E; try lia.
  eauto.
Qed.

(** For a non-blank id the suffix is nine hexadecimal digits, a hyphen and five
    base-32 digits. *)
Lemma resourceSuffix_shape appID :
  blank appID = false ->
  exists h b, resourceSuffix appID = h +:+ "-" +:+ b
    /\ alnum_bytes (chars h) /\ alnum_bytes (chars b) /\ len h = 9 /\ len b = 5.
Proof.
  intros Hb. unfold resourceSuffix. rewrite Hb.
  set (sum := sha1 (string_bytes appID)).
  assert (len (hex_encode (take 5 sum)) = 10) as Hlen.
  { rewrite hex_encode_len, length_take. unfold sum. by rewrite sha1_length. }
  rewrite Hlen. cbn [Nat.ltb Nat.leb].
  set (h := str_take 9 (hex_encode (take 5 sum))).
  destruct (take_drop_digest appID) as (x & y & z & Hxyz). fold sum in Hxyz. rewrite Hxyz.
  set (b := ToLower (base32_encode [x; y; z])).
  assert (alnum_bytes (chars (base32_encode [x; y; z]))) as Hb0 by apply base32_encode_alnum.
  assert (b = base32_encode [x; y; z]) as Hbe by (by apply name_bytes_lower, alnum_name_bytes).
  assert (len h = 9) as Hh9 by (unfold h; rewrite len_str_take, Hlen; done).
  assert (len b = 5) as Hb5 by (rewrite Hbe; apply base32_encode_len3).
  assert (forall t, len t <> 0 -> str_eqb t "" = false) as Hne.
  { intros t Ht. apply str_eqb_neq. by intros ->. }
  rewrite (Hne h), (Hne b) by lia. exists h, b. split_and!; [done| |by rewrite Hbe|done|done].
  unfold h, str_take. rewrite chars_of_chars. apply Forall_take, hex_encode_alnum, Forall_take, sha1_ok.
Qed.

Lemma alnum_bytes_head l : alnum_bytes l -> l <> [] -> head_alnum l = true.
Proof. destruct 1; [done | done]. Qed.

Lemma alnum_bytes_head_rev l : alnum_bytes l -> l <> [] -> head_alnum (rev l) = true.
Proof.
  intros H Hne. apply alnum_bytes_head; [by apply Forall_rev_iff|].
  intros E. apply (f_equal (@rev ascii)) in E. by rewrite rev_involutive in E.
Qed.

(** The base the name is built on: a valid label of at most [63 - 15 - 1] bytes. *)
Lemma derive_base_label base :
  name_bytes (chars base) -> head_alnum (chars base) = true ->
  (len base <= 47 -> head_alnum (rev (chars base)) = true) ->
  let b := if 47 <? len base then
             let base := Trim (str_take 47 base) "-" in
             if str_eqb base "" then "app" else base
           else base in
  name_bytes (chars b) /\ head_alnum (chars b) = true /\ len b <= 47.
Proof.
  intros Hn Hh Ht. cbv zeta. destruct (47 <? len base) eqn:E.
  - destruct (str_eqb _ "") eqn:Ee.
    { split; [by repeat constructor|]. split; [done | vm_compute; lia]. }
    apply str_eqb_neq in Ee. unfold Trim in *.
    unfold str_take in *. rewrite chars_of_chars in *. unfold len. rewrite !chars_of_chars.
    assert (name_bytes (take 47 (chars base))) as Hn' by (by apply Forall_take).
    split; [by apply trim_by_Forall|]. split.
    + apply trimmed_ends; [done|]. intros H. apply Ee. by rewrite H.
    + etransitivity; [apply trim_by_length|]. rewrite length_take. lia.
  - apply Nat.ltb_ge in E. auto.
Qed.

Lemma slugify_short_last s :
  len (Slugify s) <= 47 -> head_alnum (rev (chars (Slugify s))) = true.
Proof.
  unfold len. rewrite chars_Slugify. case_bool_decide as E; [done|].
  rewrite length_take. intros Hl. rewrite take_ge by lia. by apply slug_core_ends.
Qed.

(** The name as prefix, hyphen and suffix. *)
Lemma deriveKubeName_split baseName appID :
  blank appID = false ->
  exists b h t, deriveKubeName baseName appID = b +:+ "-" +:+ h +:+ "-" +:+ t
    /\ resourceSuffix appID = h +:+ "-" +:+ t
    /\ name_bytes (chars b) /\ head_alnum (chars b) = true /\ len b <= 47
    /\ alnum_bytes (chars h) /\ alnum_bytes (chars t) /\ len h = 9 /\ len t = 5.
Proof.
  intros Hb. destruct (resourceSuffix_shape appID Hb) as (h & t & Hs & Hh & Ht & Hlh & Hlt).
  unfold deriveKubeName.
  assert (str_eqb (Slugify baseName) "" = false) as ->.
  { apply str_eqb_neq. intros E. pose proof (slugify_head baseName) as H. by rewrite E in H. }
  assert (len (resourceSuffix appID) = 15) as Hls.
  { rewrite Hs, !len_app, Hlh, Hlt. reflexivity. }
  assert (str_eqb (resourceSuffix appID) "" = false) as ->.
  { apply str_eqb_neq. intros E. by rewrite E in Hls. }
  rewrite Hls. change (Z.to_nat _) with 47.
  pose proof (derive_base_label (Slugify baseName) (slugify_name baseName)
    (slugify_head baseName) (slugify_short_last baseName)) as (H1 & H2 & H3).
  cbv zeta in *. rewrite Hs. eexists _, h, t. split_and!; done.
Qed.

(** For every application name and every non-blank id the
    generated Kubernetes name is a DNS-1123 label (at most 63 bytes, letters, digits
    and hyphens, a letter or digit at both ends). *)
Theorem deriveKubeName_label baseName appID :
  blank appID = false -> dns1123_label (deriveKubeName baseName appID) = true.
Proof.
  intros Hb. destruct (deriveKubeName_split baseName appID Hb)
    as (b & h & t & -> & _ & Hbn & Hbh & Hbl & Hh & Ht & Hlh & Hlt).
  apply dns1123_label_spec. rewrite !chars_app. split_and!.
  - unfold name_bytes. rewrite !Forall_app. split_and!; try (by apply alnum_name_bytes); try done;
      by repeat constructor.
  - by apply head_alnum_app.
  - rewrite !rev_app_distr, <- !app_assoc. apply head_alnum_app, alnum_bytes_head_rev; [done|].
    intros E. unfold len in Hlt. by rewrite E in Hlt.
  - unfold len in *. rewrite !length_app, Hlh, Hlt. cbn. lia.
Qed.

Lemma deriveKubeName_label_witness :
  dns1123_label (deriveKubeName "A very long application name that needs to be cut / somewhere" "42") = true.
Proof. apply deriveKubeName_label. vm_compute. reflexivity. Defined.

(** Two applications can get the same Kubernetes name only
    when the hash suffixes of their ids coincide: the display names never cause a clash. *)
Theorem deriveKubeName_suffix_inj n1 n2 id1 id2 :
  blank id1 = false -> blank id2 = false ->
  deriveKubeName n1 id1 = deriveKubeName n2 id2 -> resourceSuffix id1 = resourceSuffix id2.
Proof.
  intros H1 H2.
  destruct (deriveKubeName_split n1 id1 H1) as (b1 & h1 & t1 & -> & -> & _ & _ & _ & _ & _ & Hh1 & Ht1).
  destruct (deriveKubeName_split n2 id2 H2) as (b2 & h2 & t2 & -> & -> & _ & _ & _ & _ & _ & Hh2 & Ht2).
  intros E. apply (f_equal (fun s => chars s)) in E. apply chars_inj.
  rewrite !chars_app in E. rewrite !chars_app.
  rewrite (app_assoc (chars b1)), (app_assoc (chars b2)) in E.
  apply app_inj_2 in E as [_ E]; [done|].
  unfold len in *. rewrite !length_app, Hh1, Ht1, Hh2, Ht2. done.
Qed.

Lemma deriveKubeName_suffix_inj_witness :
  resourceSuffix "42" = resourceSuffix "42".
Proof. apply (deriveKubeName_suffix_inj "a" "A " "42" "42"); vm_compute; reflexivity. Defined.

(** ** Labels *)

(** The value a label gets: trimmed, absent when blank. *)
Definition label_value (v : string) : option string :=
  let v := TrimSpace v in if str_eqb v "" then None else Some v.

Lemma lookup_add_label key v labels k :
  add_label key v labels !! k =
    if decide (k = key) then (match label_value v with Some w => Some w | None => labels !! k end)
    else labels !! k.
Proof.
  unfold add_label, label_value. destruct (str_eqb (TrimSpace v) "").
  - by case_decide.
  - rewrite lookup_insert. repeat case_decide; congruence.
Qed.

Lemma label_value_slug s : label_value (Slugify s) = Some (TrimSpace (Slugify s)).
Proof.
  unfold label_value. destruct (str_eqb _ "") eqn:E; [|done]. exfalso.
  apply str_eqb_eq in E. pose proof (slugify_head s) as Hh.
  destruct (chars (Slugify s)) as [|c l] eqn:Ec; [done|].
  by eapply trim_space_solid_head; [|apply alnum_solid|].
Qed.

Lemma label_value_some v w : label_value v = Some w -> w = TrimSpace v /\ w <> "".
Proof.
  unfold label_value. destruct (str_eqb _ "") eqn:E; [done|]. intros [= <-].
  by apply str_eqb_neq in E.
Qed.

Lemma label_value_blank v : label_value v = if blank v then None else Some (TrimSpace v).
Proof. reflexivity. Qed.

(** [CanonicalAppLabels] attaches exactly the tenancy labels:
    each id label is the trimmed id or absent when blank, the name labels fall back from
    kube name to slugged app name and from project name to namespace, and no other key
    is written. *)
Theorem canonical_labels_lookup project appName kubeName appID key :
  CanonicalAppLabels project appName kubeName appID !! key =
    if decide (key = labelTenantID) then label_value (p_UserID project)
    else if decide (key = labelClusterID) then label_value (p_ClusterID project)
    else if decide (key = labelProjectName) then
      (if negb (blank (p_Name project)) then Some (TrimSpace (Slugify (p_Name project)))
       else if negb (blank (p_Namespace project))
       then Some (TrimSpace (Slugify (p_Namespace project))) else None)
    else if decide (key = labelProjectID) then label_value (p_ID project)
    else if decide (key = labelAppName) then
      (if negb (blank kubeName) then Some (TrimSpace kubeName)
       else if negb (blank appName) then Some (TrimSpace (Slugify appName)) else None)
    else if decide (key = labelAppID) then label_value appID
    else None.
Proof.
  unfold CanonicalAppLabels.
  destruct (blank (p_Name project)) eqn:Bn, (blank (p_Namespace project)) eqn:Bs,
    (blank kubeName) eqn:Bk, (blank appName) eqn:Ba; cbn [negb];
    rewrite !lookup_add_label, ?lookup_empty, ?label_value_slug;
    rewrite ?(label_value_blank kubeName), ?Bk;
    unfold labelAppID, labelAppName, labelProjectID, labelProjectName, labelClusterID,
      labelTenantID;
    repeat case_decide; subst; try discriminate; try done;
    by destruct (label_value _).
Qed.

Lemma label_rune_byte r : label_rune r = true -> label_rune (bz (byte_of_Z r)) = true.
Proof.
  intros H. rewrite bz_byte_of_Z; [done|]. unfold label_rune in H.
  rewrite !orb_true_iff, !in_range_true, !Z.eqb_eq in H. lia.
Qed.

Lemma sanitize_label_runes_bytes prev rs :
  Forall (fun c => label_rune (bz c) = true) (sanitize_label_runes prev rs).
Proof.
  revert prev. induction rs as [|r rs IH]; intros prev; cbn; [constructor|].
  destruct (label_rune r) eqn:E; [|destruct prev].
  - constructor; [by apply label_rune_byte | apply IH].
  - apply IH.
  - constructor; [done | apply IH].
Qed.

Lemma sanitize_empty_iff s : SanitizeUserLabel s = "" <-> s = "".
Proof.
  unfold SanitizeUserLabel. destruct (str_eqb s "") eqn:E.
  - apply str_eqb_eq in E. done.
  - apply str_eqb_neq in E. split; [|done]. destruct (str_eqb (Trim _ _) "") eqn:Et; [done|].
    apply str_eqb_neq in Et. done.
Qed.

Lemma sanitize_eqb s : str_eqb (SanitizeUserLabel s) "" = str_eqb s "".
Proof.
  destruct (str_eqb s "") eqn:E.
  - apply str_eqb_eq in E as ->. done.
  - apply str_eqb_neq in E. apply str_eqb_neq. by rewrite sanitize_empty_iff.
Qed.

(** For a non-empty input the label is non-empty, uses only
    [a-z0-9._-] and has no hyphen at either end. *)
Theorem sanitize_user_label_shape s c d k k' :
  s <> "" -> SanitizeUserLabel s <> "" /\
  Forall (fun c => label_rune (bz c) = true) (chars (SanitizeUserLabel s)) /\
  (chars (SanitizeUserLabel s) = c :: k -> c <> dash) /\
  (chars (SanitizeUserLabel s) = k' ++ [d] -> d <> dash).
Proof.
  intros Hs. split; [by rewrite sanitize_empty_iff|].
  unfold SanitizeUserLabel. rewrite (proj2 (str_eqb_neq s "") Hs).
  set (l := sanitize_label_runes _ _). destruct (str_eqb _ "") eqn:E.
  { split; [by repeat constructor|]. split; [by intros [= <- _]|].
    intros H. change (chars "user") with (chars "use" ++ ["r"%char]) in H.
    apply app_inj_tail in H as [_ <-]. done. }
  unfold Trim. rewrite !chars_of_chars. split_and!.
  - apply trim_by_Forall, sanitize_label_runes_bytes.
  - intros H%trim_by_head. rewrite char_in_dash in H. by apply bool_decide_eq_false in H.
  - intros H%trim_by_last. rewrite char_in_dash in H. by apply bool_decide_eq_false in H.
Qed.

Lemma sanitize_user_label_shape_witness :
  " Jo@Example " <> "" /\ SanitizeUserLabel " Jo@Example " <> "".
Proof.
  split; [done|]. by apply (sanitize_user_label_shape " Jo@Example " dash dash [] []).
Defined.

(** The label comes from the name unless the name is the empty
    string, then from the e-mail unless that is empty, then from the first eight bytes of
    the trimmed user id.  Emptiness is tested before trimming, so a blank but non-empty
    name hides the e-mail. *)
Theorem resolve_user_label_spec name email userID :
  ResolveUserLabel name email userID =
    if str_eqb name "" then
      if str_eqb email "" then
        (if blank userID then "user" else "user-" +:+ str_take 8 (TrimSpace userID))
      else SanitizeUserLabel email
    else SanitizeUserLabel name.
Proof.
  unfold ResolveUserLabel. rewrite !sanitize_eqb.
  destruct (str_eqb name ""); cbn [negb]; [|done].
  destruct (str_eqb email ""); cbn [negb]; [|done].
  unfold blank. set (t := TrimSpace userID).
  assert ((if 8 <? len t then str_take 8 t else t) = str_take 8 t) as ->.
  { destruct (8 <? len t) eqn:E; [done|]. apply Nat.ltb_ge in E. unfold str_take.
    rewrite take_ge by done. by rewrite of_chars_chars. }
  assert (str_eqb (str_take 8 t) "" = str_eqb t "") as ->; [|done].
  clearbody t. by destruct t.
Qed.

(** A name of white space yields the label [user] even
    when an e-mail is given. *)
Theorem resolve_user_label_blank_name :
  ResolveUserLabel "  " "jo@example.org" "u-1" = "user"
  /\ ResolveUserLabel "" "jo@example.org" "u-1" = "jo-example.org".
Proof. vm_compute. done. Qed.

(** The doc comment says consecutive separators are collapsed to
    one hyphen; hyphens that are already in the input are kept as they are. *)
Theorem sanitize_double_dash : SanitizeUserLabel "a--b._c" = "a--b._c".
Proof. vm_compute. done. Qed.
