(* ===== verification/Policy.v ===== *)
(** Registry allow-lists for tenant workloads:
    [kubeop-operator/internal/policy/registry.go]. *)

From Stdlib Require Import Ascii ZArith Lia.
From stdpp Require Import base gmap strings list sorting.
From S2P Require Import Prelude Utf8 GoStrings.

Definition ConfigMapName := "registry-policy".
Definition allowedRegistriesKey := "allowedRegistries".
Definition allowedRepositoriesKey := "allowedRepositories".
Definition requireCosignKey := "requireCosign".

Record RegistryPolicy := mkPolicy {
  AllowedRegistries : list string;
  AllowedRepositories : list string;
  RequireCosign : bool;
}.

(** ** Operations *)

Definition newline : ascii := "010"%char.

(** Entries separated by newlines and commas, blank ones dropped. *)
Definition parseList (raw : string) : list string :=
  line ← Split raw newline;
  part ← Split line ","%char;
  let trimmed := TrimSpace part in
  if str_eqb trimmed "" then [] else [trimmed].

Definition normaliseList (values : list string) : list string :=
  match values with
  | [] => values
  | _ =>
      sort_Strings (value ← values;
        let trimmed := ToLower (TrimSpace value) in
        if str_eqb trimmed "" then [] else [trimmed])
  end.

Definition normalise (p : RegistryPolicy) : RegistryPolicy :=
  mkPolicy (normaliseList (AllowedRegistries p)) (normaliseList (AllowedRepositories p))
    (RequireCosign p).

(** The receiver may be nil. *)
Definition IsEmpty (p : option RegistryPolicy) : bool :=
  match p with
  | None => true
  | Some p => (length (AllowedRegistries p) =? 0) && (length (AllowedRepositories p) =? 0)
  end.

(** [fmt.Errorf("invalid boolean value %q for %s", raw, requireCosignKey)] *)
Inductive policy_error := InvalidBoolean (raw key : string).

Definition parse_cosign (data : gmap string string) : result policy_error bool :=
  match data !! requireCosignKey with
  | None => Ok false
  | Some raw =>
      let value := TrimSpace (ToLower raw) in
      if existsb (str_eqb value) ["true"; "1"; "yes"; "y"] then Ok true
      else if existsb (str_eqb value) ["false"; "0"; "no"; "n"; ""] then Ok false
      else Err (InvalidBoolean raw requireCosignKey)
  end.

Definition parse_key (data : gmap string string) (key : string) : list string :=
  match data !! key with Some raw => parseList raw | None => [] end.

(** [cm]: the Data of the ConfigMap, [None] for a nil ConfigMap pointer. *)
Definition ParseConfigMap (cm : option (gmap string string))
    : result policy_error (option RegistryPolicy) :=
  match cm with
  | None => Ok None
  | Some data =>
      let registries := parse_key data allowedRegistriesKey in
      let repositories := parse_key data allowedRepositoriesKey in
      cosign ← parse_cosign data;
      let policy := mkPolicy registries repositories cosign in
      if IsEmpty (Some policy) && negb (RequireCosign policy) then Ok None
      else Ok (Some (normalise policy))
  end.

Definition matchesHostPattern (pattern host : string) : bool :=
  let pattern := ToLower pattern in
  if str_eqb pattern "" then false
  else if HasPrefix pattern "*." then
    let suffix := TrimPrefix pattern "*." in
    str_eqb host suffix || HasSuffix host ("." +:+ suffix)
  else str_eqb host pattern.

Definition matchesRepoPattern (pattern repo : string) : bool :=
  let pattern := ToLower pattern in
  if str_eqb pattern "" then false
  else if HasSuffix pattern "*" then HasPrefix repo (TrimSuffix pattern "*")
  else str_eqb repo pattern.

Definition AllowsRegistry (p : option RegistryPolicy) (host : string) : bool :=
  match p with
  | None => true
  | Some p =>
      if length (AllowedRegistries p) =? 0 then true
      else
        let host := ToLower (TrimSpace host) in
        if str_eqb host "" then false
        else existsb (fun allowed => matchesHostPattern allowed host) (AllowedRegistries p)
  end.

Definition AllowsRepository (p : option RegistryPolicy) (repository : string) : bool :=
  match p with
  | None => true
  | Some p =>
      if length (AllowedRepositories p) =? 0 then true
      else
        let repository := ToLower (TrimSpace repository) in
        if str_eqb repository "" then false
        else existsb (fun allowed => matchesRepoPattern allowed repository)
               (AllowedRepositories p)
  end.

(** ** Specification *)

(** A host pattern is a literal, or [*.d], which stands for [d] and its sub-domains. *)
Inductive host_matches : string -> string -> Prop :=
| host_literal pattern : HasPrefix pattern "*." = false -> host_matches pattern pattern
| host_apex domain : host_matches ("*." +:+ domain) domain
| host_sub domain sub : host_matches ("*." +:+ domain) (sub +:+ "." +:+ domain).

(** A repository pattern is a literal, or [p*], which stands for every extension of [p]. *)
Inductive repo_matches : string -> string -> Prop :=
| repo_literal pattern : HasSuffix pattern "*" = false -> repo_matches pattern pattern
| repo_prefix prefix rest : repo_matches (prefix +:+ "*") (prefix +:+ rest).

(** The entry of an allow-list as it is stored and compared. *)
Definition norm_entry (e : string) : string := ToLower (TrimSpace e).

(** The entries of the raw text: the non-blank parts of its lines. *)
Definition raw_entry (raw e : string) : Prop :=
  exists line part, line ∈ Split raw newline /\ part ∈ Split line ","%char /\
    e = TrimSpace part /\ e <> "".

(** ** Proofs *)

(** The test on a lower-case pattern, which the URL guard shares. *)
Lemma host_test_spec q host :
  (if HasPrefix q "*." then
     str_eqb host (TrimPrefix q "*.") || HasSuffix host ("." +:+ TrimPrefix q "*.")
   else str_eqb host q) = true <-> host_matches q host.
Proof.
  destruct (HasPrefix q "*.") eqn:Ep.
  - pose proof (proj1 (has_prefix_spec _ _) Ep) as [d ->]. rewrite trim_prefix_app.
    rewrite orb_true_iff, str_eqb_eq, has_suffix_spec. split.
    + intros [-> | [t ->]]; constructor.
    + intros H. remember ("*." +:+ d) as q eqn:E.
      destruct H as [p Hp | d' | d' sub]; [congruence|..];
        apply (f_equal (fun s => TrimPrefix s "*.")) in E; rewrite !trim_prefix_app in E;
        subst; eauto.
  - rewrite str_eqb_eq. split.
    + intros ->. by constructor.
    + intros H. destruct H; [done|..]; by rewrite has_prefix_app in Ep.
Qed.

Lemma matchesHostPattern_spec pattern host :
  matchesHostPattern pattern host = true <->
  ToLower pattern <> "" /\ host_matches (ToLower pattern) host.
Proof.
  unfold matchesHostPattern. cbv zeta. rewrite <- host_test_spec.
  destruct (str_eqb _ "") eqn:Eq; rewrite ?str_eqb_eq, ?str_eqb_neq in Eq; naive_solver.
Qed.

Lemma matchesRepoPattern_spec pattern repo :
  matchesRepoPattern pattern repo = true <->
  ToLower pattern <> "" /\ repo_matches (ToLower pattern) repo.
Proof.
  unfold matchesRepoPattern. set (q := ToLower pattern). clearbody q.
  destruct (str_eqb q "") eqn:Eq; [apply str_eqb_eq in Eq; naive_solver|].
  apply str_eqb_neq in Eq. destruct (HasSuffix q "*") eqn:Ep.
  - pose proof (proj1 (has_suffix_spec _ _) Ep) as [d ->]. rewrite trim_suffix_app.
    rewrite has_prefix_spec. split.
    + intros [t ->]. split; [done | constructor].
    + intros [_ H]. remember (d +:+ "*") as q eqn:E.
      destruct H as [p Hp | d' rest]; [congruence|].
      apply (f_equal (fun s => TrimSuffix s "*")) in E. rewrite !trim_suffix_app in E.
      subst. eauto.
  - rewrite str_eqb_eq. split.
    + intros ->. split; [done | by constructor].
    + intros [_ H]. destruct H; [done|].
      rewrite (proj2 (has_suffix_spec _ _)) in Ep; [done | eauto].
Qed.

Lemma elem_of_parseList raw e : e ∈ parseList raw <-> raw_entry raw e.
Proof.
  unfold parseList, raw_entry. rewrite list_elem_of_bind. split.
  - intros (line & He & Hl). apply list_elem_of_bind in He as (part & He & Hp).
    destruct (str_eqb _ "") eqn:E; [by apply not_elem_of_nil in He|].
    apply list_elem_of_singleton in He as ->. apply str_eqb_neq in E. eauto 6.
  - intros (line & part & Hl & Hp & -> & Hne). exists line. split; [|done].
    apply list_elem_of_bind. exists part. split; [|done].
    rewrite (proj2 (str_eqb_neq _ _) Hne). by apply list_elem_of_singleton.
Qed.

Lemma elem_of_normaliseList l x :
  x ∈ normaliseList l <-> exists e, e ∈ l /\ x = norm_entry e /\ x <> "".
Proof.
  assert (x ∈ (value ← l; (if str_eqb (norm_entry value) "" then [] else [norm_entry value]))
    <-> exists e, e ∈ l /\ x = norm_entry e /\ x <> "") as H.
  { rewrite list_elem_of_bind. split.
    - intros (e & Hx & He). destruct (str_eqb _ "") eqn:E; [by apply not_elem_of_nil in Hx|].
      apply list_elem_of_singleton in Hx as ->. apply str_eqb_neq in E. eauto.
    - intros (e & He & -> & Hne). exists e. split; [|done].
      rewrite (proj2 (str_eqb_neq _ _) Hne). by apply list_elem_of_singleton. }
  destruct l as [|v l].
  - cbn. rewrite <- H. done.
  - unfold normaliseList. by rewrite elem_of_sort_Strings.
Qed.

Lemma raw_entry_norm raw e : raw_entry raw e -> norm_entry e <> "".
Proof.
  intros (line & part & _ & _ & -> & Hne). unfold norm_entry. rewrite trim_space_idem.
  by apply to_lower_nonempty.
Qed.

Lemma normaliseList_parseList raw x :
  x ∈ normaliseList (parseList raw) <-> exists e, raw_entry raw e /\ x = norm_entry e.
Proof.
  rewrite elem_of_normaliseList. setoid_rewrite elem_of_parseList. split.
  - intros (e & He & -> & _). eauto.
  - intros (e & He & ->). eauto using raw_entry_norm.
Qed.

(** The entries configured under a key. *)
Definition configured (data : gmap string string) (key e : string) : Prop :=
  exists raw, data !! key = Some raw /\ raw_entry raw e.

Lemma elem_of_parse_key data key x :
  x ∈ normaliseList (parse_key data key) <->
  exists e, configured data key e /\ x = norm_entry e.
Proof.
  unfold parse_key, configured. destruct (data !! key) as [raw|].
  - rewrite normaliseList_parseList. naive_solver.
  - cbn. split; [by intros ?%not_elem_of_nil | naive_solver].
Qed.

(** What a successful parse yields: a nil policy only when nothing is configured,
    otherwise the normalised allow-lists. *)
Lemma ParseConfigMap_ok data p :
  ParseConfigMap (Some data) = Ok p ->
  exists cosign, parse_cosign data = Ok cosign /\
  match p with
  | None => parse_key data allowedRegistriesKey = [] /\
            parse_key data allowedRepositoriesKey = [] /\ cosign = false
  | Some p => p = mkPolicy (normaliseList (parse_key data allowedRegistriesKey))
                    (normaliseList (parse_key data allowedRepositoriesKey)) cosign
  end.
Proof.
  unfold ParseConfigMap. intros (cosign & Hc & H)%bind_ok. exists cosign. split; [done|].
  destruct (IsEmpty _ && _) eqn:E; injection H as <-; [|done].
  apply andb_true_iff in E as [E1 E2]. cbn in E1, E2.
  apply andb_true_iff in E1 as [H1%Nat.eqb_eq H2%Nat.eqb_eq].
  apply negb_true_iff in E2. by apply length_zero_iff_nil in H1, H2.
Qed.

Lemma existsb_exists_elem {A} (f : A -> bool) l :
  existsb f l = true <-> exists x, x ∈ l /\ f x = true.
Proof. rewrite existsb_exists. by setoid_rewrite list_elem_of_In. Qed.

Lemma length_0_false {A} (l : list A) : (length l =? 0) = true <-> forall x, x ∉ l.
Proof.
  rewrite Nat.eqb_eq. split.
  - intros ->%length_zero_iff_nil x. apply not_elem_of_nil.
  - destruct l as [|x l]; [done|]. intros H. destruct (H x). by left.
Qed.

(** The common shape of [AllowsRegistry] and [AllowsRepository] on a policy. *)
Definition allow_list (matches : string -> string -> bool) (l : list string) (x : string) : bool :=
  if length l =? 0 then true
  else if str_eqb (norm_entry x) "" then false
  else existsb (fun allowed => matches allowed (norm_entry x)) l.

(** [x] is permitted by what is configured under [key], when patterns mean [M]. *)
Definition permitted (M : string -> string -> Prop) (data : gmap string string)
    (key x : string) : Prop :=
  (forall e, ~ configured data key e) \/
  (norm_entry x <> "" /\ exists e, configured data key e /\
     M (ToLower (norm_entry e)) (norm_entry x)).

Section AllowList.
Context (matches : string -> string -> bool) (M : string -> string -> Prop).
Hypothesis matches_spec : forall pattern x,
  matches pattern x = true <-> ToLower pattern <> "" /\ M (ToLower pattern) x.

Lemma allow_list_spec data key x :
  allow_list matches (normaliseList (parse_key data key)) x = true <-> permitted M data key x.
Proof.
  unfold allow_list, permitted. pose proof (elem_of_parse_key data key) as Hin.
  destruct (length _ =? 0) eqn:El.
  { split; [|done]. intros _. left. intros e He. rewrite length_0_false in El.
    apply (El (norm_entry e)). rewrite Hin. eauto. }
  assert (~ forall e, ~ configured data key e) as Hne.
  { intros H. apply not_true_iff_false in El. apply El, length_0_false.
    intros y Hy. rewrite Hin in Hy. destruct Hy as (e & He & _). by eapply H. }
  destruct (str_eqb (norm_entry x) "") eqn:Eh.
  { apply str_eqb_eq in Eh. split; [done|]. intros [H | [H _]]; done. }
  apply str_eqb_neq in Eh. rewrite existsb_exists_elem.
  setoid_rewrite matches_spec. setoid_rewrite Hin. split.
  - intros (y & (e & He & ->) & _ & Hm). eauto 6.
  - intros [H | (_ & e & He & Hm)]; [done|]. exists (norm_entry e).
    split; [eauto|]. split; [|done]. apply to_lower_nonempty.
    destruct He as (raw & _ & Hr). by eapply raw_entry_norm.
Qed.

Lemma permitted_unconfigured data key x : parse_key data key = [] -> permitted M data key x.
Proof.
  intros Hp. left. intros e He. pose proof (elem_of_parse_key data key (norm_entry e)) as Hin.
  rewrite Hp in Hin. apply (not_elem_of_nil (norm_entry e)). apply Hin. eauto.
Qed.
End AllowList.

(** The policy a ConfigMap parses to, on each of the two lists. *)
Lemma parsed_registry data p host :
  ParseConfigMap (Some data) = Ok p ->
  AllowsRegistry p host = true <-> permitted host_matches data allowedRegistriesKey host.
Proof.
  intros (cosign & _ & Hp)%ParseConfigMap_ok. destruct p as [p|].
  - subst p. apply (allow_list_spec _ _ matchesHostPattern_spec).
  - split; [|done]. intros _. apply permitted_unconfigured. tauto.
Qed.

Lemma parsed_repository data p repo :
  ParseConfigMap (Some data) = Ok p ->
  AllowsRepository p repo = true <-> permitted repo_matches data allowedRepositoriesKey repo.
Proof.
  intros (cosign & _ & Hp)%ParseConfigMap_ok. destruct p as [p|].
  - subst p. apply (allow_list_spec _ _ matchesRepoPattern_spec).
  - split; [|done]. intros _. apply permitted_unconfigured. tauto.
Qed.

(** After parsing a policy ConfigMap, a registry host is allowed iff no
    registry is configured at all, or the trimmed lower-case host is non-empty and equal to
    a configured literal, to the domain of a configured [*.domain] or to one of its
    sub-domains; a repository iff none is configured, or it equals a configured literal or
    extends the prefix of a configured [prefix*]. *)
Theorem parsed_policy_permits data p host repo :
  ParseConfigMap (Some data) = Ok p ->
  (AllowsRegistry p host = true <-> permitted host_matches data allowedRegistriesKey host) /\
  (AllowsRepository p repo = true <-> permitted repo_matches data allowedRepositoriesKey repo).
Proof. intros Hp. split; [by apply parsed_registry | by apply parsed_repository]. Qed.

Lemma parse_tail_ok data b e :
  ~ ((Ok b : result policy_error bool) = Err e \/
     exists a, (Ok b : result policy_error bool) = Ok a /\
      (let policy := mkPolicy (parse_key data allowedRegistriesKey)
                       (parse_key data allowedRepositoriesKey) a in
       if IsEmpty (Some policy) && negb (RequireCosign policy) then Ok None
       else Ok (Some (normalise policy))) = Err e).
Proof. intros [H | (a & _ & H)]; [done|]. cbv zeta in H. by case_match. Qed.

(** Parsing fails exactly when the [requireCosign] value is not
    one of the nine accepted spellings after lower-casing and trimming. *)
Theorem parse_configmap_error data :
  (exists e, ParseConfigMap (Some data) = Err e) <->
  exists raw, data !! requireCosignKey = Some raw /\
    TrimSpace (ToLower raw) ∉ ["true"; "1"; "yes"; "y"; "false"; "0"; "no"; "n"; ""].
Proof.
  assert (forall v l, existsb (str_eqb v) l = true <-> v ∈ l) as Hex.
  { intros v l. rewrite existsb_exists_elem. setoid_rewrite str_eqb_eq. naive_solver. }
  assert (forall v l, existsb (str_eqb v) l = false <-> v ∉ l) as Hnex.
  { intros v l. rewrite <- not_true_iff_false, Hex. done. }
  unfold ParseConfigMap. setoid_rewrite bind_err. unfold parse_cosign.
  destruct (data !! requireCosignKey) as [raw|]; [|split].
  - assert (TrimSpace (ToLower raw) ∈ ["true"; "1"; "yes"; "y"; "false"; "0"; "no"; "n"; ""]
      <-> TrimSpace (ToLower raw) ∈ ["true"; "1"; "yes"; "y"]
        \/ TrimSpace (ToLower raw) ∈ ["false"; "0"; "no"; "n"; ""]) as Happ.
    { rewrite <- elem_of_app. done. }
    destruct (existsb _ ["true"; _; _; _]) eqn:E1; [apply Hex in E1|apply Hnex in E1;
      destruct (existsb _ ["false"; _; _; _; _]) eqn:E2; [apply Hex in E2 | apply Hnex in E2]].
    + split; [intros (e & H); by apply parse_tail_ok in H | naive_solver].
    + split; [intros (e & H); by apply parse_tail_ok in H | naive_solver].
    + split; [naive_solver | eauto].
  - intros (e & H). by apply parse_tail_ok in H.
  - naive_solver.
Qed.

Definition policy_data : gmap string string :=
  {[ allowedRegistriesKey := "ghcr.io, *.Example.com"; requireCosignKey := "Yes" ]}.

Definition policy_parsed : option RegistryPolicy :=
  match ParseConfigMap (Some policy_data) with Ok p => p | Err _ => None end.

Lemma parsed_policy_permits_witness :
  AllowsRepository policy_parsed "docker.io/library/nginx" = true /\
  AllowsRegistry policy_parsed "eu.example.COM" = true /\
  AllowsRegistry policy_parsed "evilexample.com" = false.
Proof.
  assert (ParseConfigMap (Some policy_data) = Ok policy_parsed) as Hp by (vm_compute; reflexivity).
  split_and!; [| |vm_compute; reflexivity].
  - apply (proj2 (parsed_policy_permits policy_data policy_parsed "" "docker.io/library/nginx" Hp)).
    left. intros e (raw & H & _). vm_compute in H. discriminate.
  - apply (proj1 (parsed_policy_permits policy_data policy_parsed "eu.example.COM" "" Hp)).
    right. split; [vm_compute; discriminate|]. exists "*.Example.com". split.
    + exists "ghcr.io, *.Example.com". split; [vm_compute; reflexivity|].
      exists "ghcr.io, *.Example.com", " *.Example.com". split_and!; try by vm_compute.
      * by left.
      * by right; left.
    + change (ToLower (norm_entry "*.Example.com")) with ("*." +:+ "example.com").
      change (norm_entry "eu.example.COM") with ("eu" +:+ "." +:+ "example.com"). constructor.
Defined.
