(* ===== verification/NetIP.v ===== *)
(** The parts of Go's [net/netip] and [net] packages the code uses: addresses, their
    parser, prefixes, and [net.SplitHostPort]. *)

From Stdlib Require Import Ascii ZArith Lia.
From stdpp Require Import base strings list sets.
From S2P Require Import Prelude Utf8 GoStrings NetURL.

Local Open Scope Z_scope.

(** ** Addresses *)

(** A 32-bit or a 128-bit number in network order; [Invalid] is the zero [Addr]. *)
Inductive Addr :=
| Invalid
| V4 (a : Z)
| V6 (a : Z) (zone : string).

#[export] Instance Addr_eq_dec : EqDecision Addr.
Proof. solve_decision. Defined.

(** The value of a byte or group sequence, most significant first. *)
Definition be_val (w : Z) (l : list Z) : Z := foldl (fun acc x => acc * 2 ^ w + x) 0 l.

Definition v4 (a b c d : Z) : Z := be_val 8 [a; b; c; d].

Definition IsValid (a : Addr) : bool := match a with Invalid => false | _ => true end.

(** [::ffff:0:0/96] *)
Definition mapped_prefix : Z := 65535 * 2 ^ 32.

Definition Unmap (a : Addr) : Addr :=
  match a with
  | V6 x zone => if Z.shiftr x 32 =? 65535 then V4 (Z.land x (Z.ones 32)) else a
  | _ => a
  end.

(** [netip.AddrFrom16(ip.As16())], what [net.ParseIP] and [AddrFromSlice] give. *)
Definition As16 (a : Addr) : Addr :=
  match a with V4 x => V6 (mapped_prefix + x) "" | _ => a end.

Definition Is4In6 (x : Z) : bool := Z.shiftr x 32 =? 65535.

Definition IsLoopback (a : Addr) : bool :=
  match a with
  | V4 x => Z.shiftr x 24 =? 127
  | V6 x _ => if Is4In6 x then Z.shiftr (Z.land x (Z.ones 32)) 24 =? 127 else x =? 1
  | Invalid => false
  end.

Definition IsMulticast (a : Addr) : bool :=
  match a with
  | V4 x => Z.shiftr x 28 =? 14
  | V6 x _ => if Is4In6 x then Z.shiftr (Z.land x (Z.ones 32)) 28 =? 14 else Z.shiftr x 120 =? 255
  | Invalid => false
  end.

Definition IsLinkLocalUnicast (a : Addr) : bool :=
  match a with
  | V4 x => Z.shiftr x 16 =? 43518 (* 169.254 *)
  | V6 x _ => if Is4In6 x then Z.shiftr (Z.land x (Z.ones 32)) 16 =? 43518
              else Z.shiftr x 118 =? 1018 (* fe80::/10 *)
  | Invalid => false
  end.

Definition IsGlobalUnicast (a : Addr) : bool :=
  match a with
  | Invalid => false
  | V4 x => if (x =? 0) || (x =? 2 ^ 32 - 1) then false
            else negb (IsLoopback a) && negb (IsMulticast a) && negb (IsLinkLocalUnicast a)
  | V6 x zone =>
      negb ((x =? 0) && str_eqb zone "")
      && negb (IsLoopback a) && negb (IsMulticast a) && negb (IsLinkLocalUnicast a)
  end.

(** A prefix: its address (masked) and its length. *)
Definition Prefix := (Addr * Z)%type.

(** [Prefix.Contains]: no match across families, nor for an address with a zone. *)
Definition Prefix_Contains (p : Prefix) (a : Addr) : bool :=
  match p, a with
  | (V4 n, bits), V4 x => Z.shiftr x (32 - bits) =? Z.shiftr n (32 - bits)
  | (V6 n _, bits), V6 x zone =>
      str_eqb zone "" && (Z.shiftr x (128 - bits) =? Z.shiftr n (128 - bits))
  | _, _ => false
  end.

(** ** Parsing *)

(** [parseIPv4Fields]: [fields] holds the finished octets, latest first; [digLen] and
    [val] the current one. *)
Fixpoint parseIPv4_from (fields : list Z) (digLen : nat) (val : Z) (l : list ascii)
    : option (list Z) :=
  match l with
  | [] => match digLen with
          | O => None
          | _ => if (length fields =? 3)%nat then Some (rev (val :: fields)) else None
          end
  | c :: l =>
      if is_digit c then
        if (digLen =? 1)%nat && (val =? 0) then None
        else
          let val := val * 10 + (bz c - 48) in
          if 255 <? val then None else parseIPv4_from fields (S digLen) val l
      else if bool_decide (c = "."%char) then
        if (digLen =? 0)%nat || (length fields =? 3)%nat then None
        else parseIPv4_from (val :: fields) 0 0 l
      else None
  end.

Definition parseIPv4 (l : list ascii) : option Z := be_val 8 <$> parseIPv4_from [] 0 0 l.

(** One group of hex digits: its value, the number of digits and the rest. *)
Fixpoint hex_group (acc : Z) (n : nat) (l : list ascii) : option (Z * nat * list ascii) :=
  match l with
  | c :: l' =>
      if ishex c then
        if (3 <? n)%nat then None else hex_group (acc * 16 + unhex c) (S n) l'
      else Some (acc, n, l)
  | [] => Some (acc, n, [])
  end.

(** The loop of [parseIPv6]; [groups] are the 16-bit groups so far, latest first, and
    [ell] the number of groups before the ellipsis.  At most eight rounds. *)
Fixpoint parseIPv6_groups (fuel : nat) (groups : list Z) (ell : option nat) (l : list ascii)
    : option (list Z * option nat * list ascii) :=
  match fuel with
  | O => Some (groups, ell, l)
  | S fuel =>
      match hex_group 0 0 l with
      | None => None
      | Some (_, O, _) => None
      | Some (acc, _, "."%char :: _) =>
          if bool_decide (ell = None) && negb (length groups =? 6)%nat then None
          else if (6 <? length groups)%nat then None
          else match parseIPv4_from [] 0 0 l with
               | Some [a; b; c; d] => Some ((c * 256 + d) :: (a * 256 + b) :: groups, ell, [])
               | _ => None
               end
      | Some (acc, _, rest) =>
          let groups := acc :: groups in
          match rest with
          | [] => Some (groups, ell, [])
          | ":"%char :: ":"%char :: rest' =>
              match ell with
              | Some _ => None
              | None =>
                  match rest' with
                  | [] => Some (groups, Some (length groups), [])
                  | _ => parseIPv6_groups fuel groups (Some (length groups)) rest'
                  end
              end
          | ":"%char :: c :: rest' => parseIPv6_groups fuel groups ell (c :: rest')
          | _ => None
          end
      end
  end.

(** The expansion of the ellipsis. *)
Definition expand (groups : list Z) (ell : option nat) : option (list Z) :=
  let n := length groups in
  let gs := rev groups in
  if (n <? 8)%nat then
    match ell with
    | None => None
    | Some e => Some (take e gs ++ repeat 0 (8 - n) ++ drop e gs)
    end
  else match ell with Some _ => None | None => Some gs end.

Definition parseIPv6 (l : list ascii) : option Addr :=
  match (match cut_list "%"%char l with
         | Some (a, []) => None
         | Some (a, z) => Some (a, of_chars z)
         | None => Some (l, "")
         end) with
  | None => None
  | Some (s, zone) =>
      let r :=
        match s with
        | ":"%char :: ":"%char :: [] => Some ([], Some 0%nat, [])
        | ":"%char :: ":"%char :: s' => parseIPv6_groups 8 [] (Some 0%nat) s'
        | _ => parseIPv6_groups 8 [] None s
        end in
      match r with
      | Some (groups, ell, []) => (fun gs => V6 (be_val 16 gs) zone) <$> expand groups ell
      | _ => None
      end
  end.

(** [netip.ParseAddr]: the first of [. : %] decides. *)
Fixpoint ParseAddr_at (all l : list ascii) : option Addr :=
  match l with
  | [] => None
  | "."%char :: _ => V4 <$> parseIPv4 all
  | ":"%char :: _ => parseIPv6 all
  | "%"%char :: _ => None
  | _ :: l => ParseAddr_at all l
  end.

Definition ParseAddr (s : string) : option Addr := ParseAddr_at (chars s) (chars s).

(** [net.ParseIP] followed by [netip.AddrFromSlice]: no zones, 16 bytes. *)
Definition ParseIP (s : string) : option Addr :=
  match ParseAddr s with
  | Some (V6 x zone) => if str_eqb zone "" then Some (V6 x "") else None
  | Some a => Some (As16 a)
  | None => None
  end.

Example parse_v4 : ParseAddr "10.1.2.3" = Some (V4 (v4 10 1 2 3)).
Proof. vm_compute. reflexivity. Qed.
Example parse_v4_zero : ParseAddr "10.01.2.3" = None.
Proof. vm_compute. reflexivity. Qed.
Example parse_v6 : ParseAddr "fe80::1%eth0" = Some (V6 (65152 * 2 ^ 112 + 1) "eth0").
Proof. vm_compute. reflexivity. Qed.
Example parse_v6_mapped : ParseAddr "::ffff:127.0.0.1" = Some (As16 (V4 (v4 127 0 0 1))).
Proof. vm_compute. reflexivity. Qed.
Example parse_v6_full : ParseAddr "1:2:3:4:5:6:7:8" = Some (V6 (be_val 16 [1;2;3;4;5;6;7;8]) "").
Proof. vm_compute. reflexivity. Qed.
Example parse_v6_bad :
  (ParseAddr "1::2::3", ParseAddr "1:2:3:4:5:6:7", ParseAddr "12345::") = (None, None, None).
Proof. vm_compute. reflexivity. Qed.

(** ** net.SplitHostPort *)

Definition has_char (c : ascii) (l : list ascii) : bool := existsb (fun x => bool_decide (x = c)) l.

Definition SplitHostPort (hostport : string) : result string (string * string) :=
  let l := chars hostport in
  match cut_last ":"%char l with
  | None => Err "missing port in address"
  | Some (before, port) =>
      match l with
      | "["%char :: l1 =>
          match cut_list "]"%char l1 with
          | None => Err "missing ']' in address"
          | Some (host, after) =>
              match after with
              | [] => Err "missing port in address"
              | c :: after' =>
                  if (length host + 2 =? length before)%nat then
                    if has_char "["%char l1 then Err "unexpected '[' in address"
                    else if has_char "]"%char after then Err "unexpected ']' in address"
                    else Ok (of_chars host, of_chars port)
                  else if bool_decide (c = ":"%char) then Err "too many colons in address"
                  else Err "missing port in address"
              end
          end
      | _ =>
          if has_char ":"%char before then Err "too many colons in address"
          else if has_char "["%char l then Err "unexpected '[' in address"
          else if has_char "]"%char l then Err "unexpected ']' in address"
          else Ok (of_chars before, of_chars port)
      end
  end.

Example split_v6 : SplitHostPort "[::1]:443" = Ok ("::1", "443").
Proof. vm_compute. reflexivity. Qed.
Example split_plain : SplitHostPort "example.com:80" = Ok ("example.com", "80").
Proof. vm_compute. reflexivity. Qed.
Example split_bad : SplitHostPort "::1:443" = Err "too many colons in address".
Proof. vm_compute. reflexivity. Qed.

(** ** Addr.String *)

Definition dotted (x : Z) : list ascii :=
  let octet i := chars (itoa (Z.to_nat (Z.shiftr x (8 * i) mod 256))) in
  octet 3 ++ "."%char :: octet 2 ++ "."%char :: octet 1 ++ "."%char :: octet 0.

Definition lower_hex (d : Z) : ascii := byte_of_Z (if d <? 10 then 48 + d else 87 + d).

(** A group without leading zeros. *)
Definition group_hex (g : Z) : list ascii :=
  let d i := lower_hex (Z.shiftr g (4 * i) mod 16) in
  if g <? 16 then [d 0] else if g <? 256 then [d 1; d 0] else if g <? 4096 then [d 2; d 1; d 0] else [d 3; d 2; d 1; d 0].

Definition v6_groups (x : Z) : list Z := (fun i => Z.shiftr x (16 * i) mod 65536) <$> [7; 6; 5; 4; 3; 2; 1; 0].

Fixpoint leading_zeros (l : list Z) : nat :=
  match l with 0 :: l => S (leading_zeros l) | _ => O end.

(** The first of the longest runs of at least two zero groups: its start and its length. *)
Fixpoint zero_run (i : nat) (best : nat * nat) (l : list Z) : nat * nat :=
  match l with
  | [] => best
  | _ :: l' =>
      let n := leading_zeros l in
      zero_run (S i) (if (2 <=? n)%nat && (snd best <? n)%nat then (i, n) else best) l'
  end.

Fixpoint join_groups (l : list Z) : list ascii :=
  match l with
  | [] => []
  | [g] => group_hex g
  | g :: l => group_hex g ++ ":"%char :: join_groups l
  end.

Definition v6_text (x : Z) : list ascii :=
  let gs := v6_groups x in
  match zero_run 0 (0%nat, 0%nat) gs with
  | (_, O) => join_groups gs
  | (i, n) => join_groups (take i gs) ++ ":"%char :: ":"%char :: join_groups (drop (i + n) gs)
  end.

Definition Addr_String (a : Addr) : string :=
  match a with
  | Invalid => "invalid IP"
  | V4 x => of_chars (dotted x)
  | V6 x zone =>
      let z := if str_eqb zone "" then [] else "%"%char :: chars zone in
      if Is4In6 x then of_chars ([":"; ":"; "f"; "f"; "f"; "f"; ":"]%char ++ dotted x ++ z)
      else of_chars (v6_text x ++ z)
  end.

Example string_v4 : Addr_String (V4 (v4 192 168 0 1)) = "192.168.0.1".
Proof. vm_compute. reflexivity. Qed.
Example string_v6 : Addr_String (V6 (be_val 16 [8193; 3512; 0; 1; 0; 0; 0; 255]) "") = "2001:db8:0:1::ff".
Proof. vm_compute. reflexivity. Qed.
Example string_loopback : Addr_String (V6 1 "") = "::1".
Proof. vm_compute. reflexivity. Qed.
Example string_mapped : Addr_String (As16 (V4 (v4 93 184 216 34))) = "::ffff:93.184.216.34".
Proof. vm_compute. reflexivity. Qed.

Lemma itoa_digits n : Forall (fun c => is_digit c = true) (chars (itoa n)).
Proof.
  unfold itoa. rewrite chars_of_chars. generalize (S n) at 1 as fuel. intros fuel.
  assert (Hg : forall m acc, Forall (fun c => is_digit c = true) acc -> Forall (fun c => is_digit c = true) (itoa_fuel fuel m acc)).
  { induction fuel as [|fuel IH]; intros m acc H; [done|]. cbn [itoa_fuel].
    assert (is_digit (digit (m mod 10)) = true).
    { pose proof (Nat.mod_upper_bound m 10 ltac:(lia)). unfold is_digit, digit. rewrite bz_byte_of_Z by lia.
      apply in_range_true. lia. }
    destruct (m / 10 =? 0)%nat; [|apply IH]; by constructor. }
  by apply Hg.
Qed.

Lemma itoa_colon n : ":"%char ∉ chars (itoa n).
Proof. intros Hin. apply (proj1 (Forall_forall _ _) (itoa_digits n)) in Hin. done. Qed.

(** The text of an IPv4 address has dots and no colons. *)
Lemma dotted_chars x : "."%char ∈ dotted x /\ ":"%char ∉ dotted x.
Proof.
  unfold dotted. split; [apply elem_of_app; right; left|].
  intros H. repeat first [rewrite elem_of_app in H | rewrite elem_of_cons in H].
  destruct H as [H|[H|[H|[H|[H|[H|H]]]]]]; (discriminate H || by apply itoa_colon in H).
Qed.

(** That of an IPv6 address that is not mapped has no dots. *)
Lemma lower_hex_dot d : 0 <= d < 16 -> lower_hex d <> "."%char.
Proof.
  intros H E. apply (f_equal bz) in E. unfold lower_hex in E. change (bz "."%char) with 46 in E.
  destruct (Z.ltb_spec d 10); rewrite bz_byte_of_Z in E by lia; lia.
Qed.

Lemma group_hex_dot g : "."%char ∉ group_hex g.
Proof.
  unfold group_hex. repeat case_match; rewrite ?elem_of_cons, ?elem_of_nil; intros E; destruct_or?; try done;
    symmetry in E; revert E; apply lower_hex_dot, Z.mod_pos_bound; lia.
Qed.

Lemma join_groups_dot l : "."%char ∉ join_groups l.
Proof.
  induction l as [|g [|g' l] IH]; [set_solver|apply group_hex_dot|].
  change (join_groups (g :: g' :: l)) with (group_hex g ++ ":"%char :: join_groups (g' :: l)).
  pose proof (group_hex_dot g). rewrite elem_of_app, elem_of_cons. intros H'. destruct_or?; done.
Qed.

Lemma v6_text_dot x : "."%char ∉ v6_text x.
Proof.
  unfold v6_text. destruct (zero_run _ _ _) as [i [|n]]; [apply join_groups_dot|].
  pose proof (join_groups_dot (take i (v6_groups x))). pose proof (join_groups_dot (drop (i + S n) (v6_groups x))).
  rewrite elem_of_app, !elem_of_cons. intros H'. destruct_or?; done.
Qed.
