(* ===== verification/Security.v ===== *)
(** The network and path guards of the control plane: [pkg/security/net.go] and
    [pkg/security/path.go]. *)

From Stdlib Require Import Ascii ZArith Lia.
From stdpp Require Import base strings list.
From S2P Require Import Prelude Utf8 GoStrings Policy NetURL NetIP.

(** The sentinel errors with the text they are wrapped with, and other errors. *)
Inductive sec_error :=
| ErrInvalidURL (detail : string)
| ErrForbiddenHost (detail : string)
| ErrDisallowedIP (detail : string)
| ErrRedirectLimited
| ErrPathEscape
| ErrPathDisallowed (detail : string)
| OtherError (text : string).

(** ** net.go *)

Fixpoint AllowedHost_loop (host : string) (allowlist : list string) : bool :=
  match allowlist with
  | [] => false
  | rule :: rest =>
      let rule := ToLower (TrimSpace rule) in
      if str_eqb rule "" then AllowedHost_loop host rest
      else if str_eqb rule "*" then true
      else if HasPrefix rule "*." then
        let suffix := TrimPrefix rule "*." in
        if str_eqb host suffix || HasSuffix host ("." +:+ suffix) then true
        else AllowedHost_loop host rest
      else if str_eqb host rule then true
      else AllowedHost_loop host rest
  end.

Definition AllowedHost (host : string) (allowlist : list string) : bool :=
  let host := ToLower (TrimSpace host) in
  if str_eqb host "" then false
  else if length allowlist =? 0 then false
  else AllowedHost_loop host allowlist.

Definition HasDotDot (path : string) : bool :=
  Contains path ".." || Contains (ToLower path) "%2e".

(** [net.JoinHostPort] brackets a host with a colon. *)
Definition JoinHostPort (host port : string) : string :=
  if Contains host ":" then "[" +:+ host +:+ "]:" +:+ port else host +:+ ":" +:+ port.

Definition hostWithPort (host port : string) : string :=
  if str_eqb port "" || str_eqb port "443" then host else JoinHostPort host port.

Definition isIPLiteral (host : string) : bool :=
  if str_eqb host "" then false
  else
    let host := if HasPrefix host "[" && HasSuffix host "]" then Trim host "[]" else host in
    match ParseAddr host with Some _ => true | None => false end.

Definition backslash : string := String (ascii_of_nat 92) "".

(** The checks on the decoded path. *)
Definition checkDecoded (path : string) : result sec_error unit :=
  match PathUnescape path with
  | Err _ => Err (ErrInvalidURL "invalid path encoding")
  | Ok decoded =>
      _ ← guard_err (negb (HasPrefix decoded "/")) (ErrInvalidURL "path must be absolute");
      _ ← guard_err (HasDotDot decoded) (ErrInvalidURL "path must not contain dot segments");
      guard_err (existsb (str_eqb ".") (Split decoded "/"%char))
        (ErrInvalidURL "path must not contain dot segments")
  end.

(** [allow]: [None] for a nil function. *)
Definition ValidateHTTPSURL (u : option URL) (allow : option (string -> bool))
    : result sec_error URL :=
  match u with
  | None => Err (ErrInvalidURL "")
  | Some u =>
      _ ← guard_err (negb (str_eqb (Opaque u) "")) (ErrInvalidURL "opaque urls are not allowed");
      _ ← guard_err (negb (EqualFold (Scheme u) "https")) (ErrInvalidURL "scheme must be https");
      let host := ToLower (Hostname u) in
      _ ← guard_err (str_eqb host "") (ErrInvalidURL "missing host");
      _ ← guard_err (match User u with Some _ => true | None => false end)
            (ErrInvalidURL "credentials not permitted");
      _ ← guard_err (HasDotDot (RawPath u) || HasDotDot (Path u))
            (ErrInvalidURL "path must not contain dot segments");
      _ ← guard_err (Contains (Path u) backslash) (ErrInvalidURL "backslashes are not permitted");
      _ ← checkDecoded (Path u);
      _ ← guard_err (negb (str_eqb (Port u) "") && negb (str_eqb (Port u) "443"))
            (ErrInvalidURL "port must be 443");
      _ ← guard_err (isIPLiteral host) (ErrForbiddenHost "ip literals are not allowed");
      _ ← guard_err (EqualFold host "localhost") (ErrForbiddenHost "localhost not allowed");
      _ ← guard_err (match allow with Some f => negb (f host) | None => false end)
            (ErrForbiddenHost "");
      let sanitizedPath := path_Clean (replace_char (ascii_of_nat 92) "/"%char (Path u)) in
      let sanitizedPath := if str_eqb sanitizedPath "." then "/" else sanitizedPath in
      Ok (mkURL "https" "" None (hostWithPort host (Port u)) sanitizedPath "" false false
            (Encode (Query u)) "" "")
  end.

Definition ParseAndValidateHTTPSURL (raw : string) (allow : option (string -> bool))
    : result sec_error URL :=
  match url_Parse raw with
  | Err err => Err (ErrInvalidURL (url_error_text err))
  | Ok parsed => ValidateHTTPSURL (Some parsed) allow
  end.

(** The collapse of empty segments. *)
Definition pathClean (p : string) : string :=
  if str_eqb p "" then "/"
  else
    let cleaned := replace_char (ascii_of_nat 92) "/"%char p in
    let segments := Split cleaned "/"%char in
    let built := List.concat ((fun seg => if str_eqb seg "" then [] else "/"%char :: chars seg) <$> segments) in
    if length built =? 0 then "/" else of_chars built.

(** 10/8, 172.16/12, 192.168/16, 169.254/16, 127/8, ::1/128, fc00::/7, fe80::/10 *)
Definition privateCIDRs : list Prefix :=
  [(V4 (v4 10 0 0 0), 8%Z); (V4 (v4 172 16 0 0), 12%Z); (V4 (v4 192 168 0 0), 16%Z);
   (V4 (v4 169 254 0 0), 16%Z); (V4 (v4 127 0 0 0), 8%Z); (V6 1 "", 128%Z);
   (V6 (252 * 2 ^ 120) "", 7%Z); (V6 (65152 * 2 ^ 112) "", 10%Z)].

Definition IsPublicAddr (addr : Addr) : bool :=
  if negb (IsValid addr) then false
  else
    let addr := Unmap addr in
    if negb (IsGlobalUnicast addr) then false
    else negb (existsb (fun prefix => Prefix_Contains prefix addr) privateCIDRs).

(** The dialer [DenyPrivateNetworks] returns.  [base] dials and yields the connection
    and the text of its remote address; [close] closes it. *)
Section Dial.
Context {S Conn : Type}.
Context (base : string -> string -> io S string (Conn * string)) (close : Conn -> S -> S).

Definition checkRemote (conn : Conn * string) : io S sec_error (Conn * string) := fun s =>
  match SplitHostPort (snd conn) with
  | Err err => (Err (OtherError err), close (fst conn) s)
  | Ok (remoteHost, _) =>
      match ParseIP remoteHost with
      | None => (Err (ErrDisallowedIP remoteHost), close (fst conn) s)
      | Some addr =>
          if negb (IsPublicAddr addr) then (Err (ErrDisallowedIP remoteHost), close (fst conn) s)
          else (Ok conn, s)
      end
  end.

Definition DenyPrivateNetworks (network address : string) : io S sec_error (Conn * string) :=
  match SplitHostPort address with
  | Err err => fail (OtherError err)
  | Ok (host, _) =>
      if str_eqb host "" then fail (ErrDisallowedIP "empty dial host")
      else match ParseIP host with
      | Some addr =>
          if negb (IsPublicAddr addr) then fail (ErrDisallowedIP host)
          else wrap_err OtherError (base network address)
      | None =>
          conn ← wrap_err OtherError (base network address);
          checkRemote conn
      end
  end.
End Dial.

(** [via]: the number of requests already made; [req]: the URL of the request. *)
Definition ValidateRedirect (req : option URL) (via : nat) (allow : option (string -> bool))
    : result sec_error (URL * string) :=
  if 3 <=? via then Err ErrRedirectLimited
  else match req with
  | None => Err (ErrInvalidURL "")
  | Some u =>
      sanitized ← ValidateHTTPSURL (Some u) allow;
      Ok (sanitized, Host sanitized)
  end.

(** ** path.go (Unix) *)

Definition IsAbs (p : string) : bool := HasPrefix p "/".

Definition filepath_Join (a b : string) : string := path_Clean (a +:+ "/" +:+ b).

(** The elements of a cleaned path. *)
Definition elems (p : string) : list string :=
  List.filter (fun s => negb (str_eqb s "")) (Split p "/"%char).

Fixpoint strip_common (b t : list string) : list string * list string :=
  match b, t with
  | x :: b', y :: t' => if str_eqb x y then strip_common b' t' else (b, t)
  | _, _ => (b, t)
  end.

(** [filepath.Rel] *)
Definition Rel (basepath targpath : string) : result string string :=
  let base := path_Clean basepath in
  let targ := path_Clean targpath in
  if str_eqb targ base then Ok "."
  else if negb (Bool.eqb (IsAbs base) (IsAbs targ)) then Err "Rel: can't make relative"
  else
    let els p := if str_eqb p "." then [] else elems p in
    let '(b, t) := strip_common (els base) (elems targ) in
    match b with
    | ".." :: _ => Err "Rel: can't make relative"
    | [] => Ok (Join t "/")
    | _ => Ok (Join (((fun _ => "..") <$> b) ++ t) "/")
    end.

Section Paths.
Context (EvalSymlinks : string -> result string string).

Definition CleanRoot (root : string) : result sec_error string :=
  let trimmed := TrimSpace root in
  if str_eqb trimmed "" then Err (OtherError "root is required")
  else
    let cleaned := path_Clean trimmed in
    match EvalSymlinks cleaned with
    | Err err => Err (OtherError err)
    | Ok resolved =>
        if negb (IsAbs resolved) then Err (OtherError "root must be absolute") else Ok resolved
    end.

Definition WithinRepo (root input : string) : result sec_error string :=
  if str_eqb root "" then Err (OtherError "root is required")
  else
    let candidate := TrimSpace input in
    if str_eqb candidate "" then Ok root
    else
      let joined := if IsAbs candidate then path_Clean candidate
                    else filepath_Join root (path_Clean candidate) in
      match EvalSymlinks joined with
      | Err err => Err (OtherError err)
      | Ok resolved =>
          match Rel root resolved with
          | Err err => Err (OtherError err)
          | Ok rel =>
              if str_eqb rel ".." || HasPrefix rel "../" then Err ErrPathEscape
              else Ok resolved
          end
      end.
End Paths.

Definition NormalizeRepoPath (input : string) : result sec_error string :=
  let trimmed := TrimSpace input in
  if str_eqb trimmed "" then Ok ""
  else if Contains trimmed backslash then Err (ErrPathDisallowed "backslashes not permitted")
  else if Contains (ToLower trimmed) "%2e" then
    Err (ErrPathDisallowed "encoded traversal not permitted")
  else if existsb (fun r => (r <? 32)%Z || (r =? 127)%Z) (decode_runes (chars trimmed)) then
    Err (ErrPathDisallowed "control characters not permitted")
  else if Contains trimmed ":" then Err (ErrPathDisallowed "colon not permitted")
  else
    let cleaned := path_Clean trimmed in
    if str_eqb cleaned "." then Ok ""
    else if IsAbs cleaned then Err (ErrPathDisallowed ("absolute path " +:+ cleaned))
    else if HasPrefix cleaned "../" || str_eqb cleaned ".." then
      Err (ErrPathDisallowed "traversal detected")
    else Ok cleaned.

(** [fs.FileMode] as the type bits the check looks at. *)
Inductive FileMode := Regular | Dir | Symlink | Device | NamedPipe | Socket | OtherMode.

Definition EnsureRegularFile (info : option FileMode) : result sec_error unit :=
  match info with
  | None => Err (OtherError "file info required")
  | Some Regular => Ok tt
  | Some Dir => Err (ErrPathDisallowed "expected file got directory")
  | Some Symlink => Ok tt
  | Some (Device | NamedPipe | Socket) => Err (ErrPathDisallowed "special files not permitted")
  | Some OtherMode => Ok tt
  end.

Definition RejectWindowsDrive (path : string) : result sec_error unit :=
  match chars path with
  | c :: ":"%char :: _ =>
      if is_letter c then Err (ErrPathDisallowed "drive letters not permitted") else Ok tt
  | _ => Ok tt
  end.

Definition DecodePathSegment (seg : string) : result sec_error string :=
  match PathUnescape seg with
  | Err err => Err (OtherError (url_error_text err))
  | Ok decoded =>
      if Contains decoded ".." then Err (ErrPathDisallowed "traversal") else Ok decoded
  end.

Example validate_ex :
  match ParseAndValidateHTTPSURL "HTTPS://Charts.Example.com:443/a//b/?z=1&a=2" None with
  | Ok u => (Host u, Path u, RawQuery u) | Err _ => ("", "", "") end
  = ("charts.example.com", "/a/b", "a=2&z=1").
Proof. vm_compute. reflexivity. Qed.

Example validate_ip : ParseAndValidateHTTPSURL "https://127.0.0.1/" None
  = Err (ErrForbiddenHost "ip literals are not allowed").
Proof. vm_compute. reflexivity. Qed.

Example rel_ex : (Rel "/repo" "/repo/a/b", Rel "/repo" "/etc/passwd", Rel "/repo" "/repository")
  = (Ok "a/b", Ok "../etc/passwd", Ok "../repository").
Proof. vm_compute. reflexivity. Qed.
