(* ===== verification/SecurityProofs.v ===== *)
(** What the guards of [pkg/security] let through. *)

From Stdlib Require Import Ascii ZArith Lia.
From stdpp Require Import base strings list.
From S2P Require Import Prelude Utf8 GoStrings Policy NetURL NetIP Security.

(** ** Host allow-lists *)

(** A rule is the wildcard, a literal or [*.domain]. *)
Definition rule_matches (rule host : string) : Prop :=
  rule <> "" /\ (rule = "*" \/ host_matches rule host).

Lemma allowed_host_step host rule l :
  AllowedHost_loop host (rule :: l) = true <->
  rule_matches (norm_entry rule) host \/ AllowedHost_loop host l = true.
Proof.
  cbn [AllowedHost_loop]. fold (norm_entry rule). generalize (norm_entry rule) as q. intros q.
  unfold rule_matches. cbv zeta.
  destruct (str_eqb q "") eqn:E0; rewrite ?str_eqb_eq, ?str_eqb_neq in E0; [naive_solver|].
  destruct (str_eqb q "*") eqn:E1; rewrite ?str_eqb_eq, ?str_eqb_neq in E1; [naive_solver|].
  pose proof (host_test_spec q host) as Ht. destruct (HasPrefix q "*."); case_match; naive_solver.
Qed.

Lemma allowed_host_loop host l :
  AllowedHost_loop host l = true <-> exists rule, rule ∈ l /\ rule_matches (norm_entry rule) host.
Proof.
  induction l as [|rule l IH].
  { split; [done|]. intros (r & Hr & _). by apply not_elem_of_nil in Hr. }
  rewrite allowed_host_step, IH. setoid_rewrite elem_of_cons. naive_solver.
Qed.

(** A host passes an allow-list iff it is not blank and some non-blank rule
    is the wildcard, equals it (both trimmed and lower-cased), or is [*.domain] for the
    domain itself or one of its sub-domains; an empty list lets nothing through. *)
Theorem allowed_host_iff host allowlist :
  AllowedHost host allowlist = true <->
  norm_entry host <> "" /\
  exists rule, rule ∈ allowlist /\ rule_matches (norm_entry rule) (norm_entry host).
Proof.
  unfold AllowedHost. fold (norm_entry host). cbv zeta. rewrite <- allowed_host_loop.
  destruct (str_eqb _ "") eqn:E; rewrite ?str_eqb_eq, ?str_eqb_neq in E; [naive_solver|].
  destruct allowlist; [cbn; naive_solver|]. cbn [length Nat.eqb]. naive_solver.
Qed.

(** ** Public addresses *)

Section Addresses.
Local Open Scope Z_scope.

(** The network [net/bits] of a [w]-bit address space. *)
Definition in_net (w : Z) (net bits x : Z) : Prop :=
  net * 2 ^ (w - bits) <= x < (net + 1) * 2 ^ (w - bits).

Lemma shiftr_eqb x k c : 0 <= k -> (Z.shiftr x k =? c) = true <-> c * 2 ^ k <= x < (c + 1) * 2 ^ k.
Proof.
  intros Hk. rewrite Z.eqb_eq, Z.shiftr_div_pow2 by done.
  assert (0 < 2 ^ k) by (apply Z.pow_pos_nonneg; lia).
  pose proof (Z.div_mod x (2 ^ k) ltac:(lia)). pose proof (Z.mod_pos_bound x (2 ^ k) ltac:(lia)).
  split; [intros <-; nia | intros [? ?]; nia].
Qed.

Lemma shiftr_eqb_false x k c :
  0 <= k -> (Z.shiftr x k =? c) = false <-> ~ (c * 2 ^ k <= x < (c + 1) * 2 ^ k).
Proof. intros Hk. by rewrite <- not_true_iff_false, shiftr_eqb. Qed.

(** Evaluate the shifts and powers of constants, then decide. *)
Ltac const_lia :=
  repeat match goal with
  | |- context [Z.shiftr ?a ?b] =>
      let v := eval vm_compute in (Z.shiftr a b) in change (Z.shiftr a b) with v
  | |- context [2 ^ ?b] => let v := eval vm_compute in (2 ^ b) in change (2 ^ b) with v
  | H : context [2 ^ ?b] |- _ => let v := eval vm_compute in (2 ^ b) in change (2 ^ b) with v in H
  end; lia.

(** IPv4: this host, private, loopback, link-local, multicast, broadcast. *)
Definition special_v4 (x : Z) : Prop :=
  x = 0 \/ in_net 32 10 8 x \/ in_net 32 2753 12 x (* 172.16/12 *)
  \/ in_net 32 49320 16 x (* 192.168/16 *) \/ in_net 32 43518 16 x (* 169.254/16 *)
  \/ in_net 32 127 8 x \/ in_net 32 14 4 x (* 224/4 *) \/ x = 2 ^ 32 - 1.

(** IPv6: unspecified, loopback, unique-local, link-local, multicast. *)
Definition special_v6 (x : Z) : Prop :=
  x = 0 \/ x = 1 \/ in_net 128 126 7 x (* fc00::/7 *) \/ in_net 128 1018 10 x (* fe80::/10 *)
  \/ in_net 128 255 8 x (* ff00::/8 *).

Lemma public_v4_unmapped x : IsPublicAddr (V4 x) = true <-> ~ special_v4 x.
Proof.
  unfold IsPublicAddr. cbn [IsValid negb Unmap].
  destruct (negb (IsGlobalUnicast (V4 x))) eqn:E.
  - split; [done|]. intros Hn. exfalso. apply Hn. rewrite negb_true_iff in E.
    unfold IsGlobalUnicast, IsLoopback, IsMulticast, IsLinkLocalUnicast in E.
    destruct ((x =? 0) || (x =? 2 ^ 32 - 1)) eqn:E0.
    + rewrite orb_true_iff, !Z.eqb_eq in E0. unfold special_v4. tauto.
    + rewrite !andb_false_iff, !negb_false_iff, !shiftr_eqb in E by lia.
      unfold special_v4, in_net. tauto.
  - rewrite negb_false_iff in E. unfold IsGlobalUnicast, IsLoopback, IsMulticast, IsLinkLocalUnicast in E.
    destruct ((x =? 0) || (x =? 2 ^ 32 - 1)) eqn:E0; [done|].
    rewrite orb_false_iff, !Z.eqb_neq in E0.
    rewrite !andb_true_iff, !negb_true_iff, !shiftr_eqb_false in E by lia.
    cbn [existsb privateCIDRs Prefix_Contains]. rewrite !orb_false_r, negb_true_iff.
    rewrite !orb_false_iff, !shiftr_eqb_false by lia.
    unfold special_v4, in_net. const_lia.
Qed.

Lemma public_v6_native x :
  Z.shiftr x 32 <> 65535 -> IsPublicAddr (V6 x "") = true <-> ~ special_v6 x.
Proof.
  intros Hm. apply Z.eqb_neq in Hm. unfold IsPublicAddr. cbn [IsValid negb Unmap]. rewrite Hm.
  destruct (negb (IsGlobalUnicast (V6 x ""))) eqn:E;
    unfold IsGlobalUnicast, IsLoopback, IsMulticast, IsLinkLocalUnicast, Is4In6 in E;
    rewrite Hm, str_eqb_refl, andb_true_r in E.
  - split; [done|]. intros Hn. exfalso. apply Hn. revert E.
    rewrite negb_true_iff, !andb_false_iff, !negb_false_iff, !shiftr_eqb, !Z.eqb_eq by lia.
    unfold special_v6, in_net. tauto.
  - revert E. rewrite negb_false_iff, !andb_true_iff, !negb_true_iff, !shiftr_eqb_false, !Z.eqb_neq by lia.
    intros E. cbn [existsb privateCIDRs Prefix_Contains]. rewrite str_eqb_refl.
    rewrite !orb_false_l, !orb_false_r. cbn [andb].
    rewrite !orb_false_iff, !shiftr_eqb_false by lia.
    unfold special_v6, in_net. const_lia.
Qed.

Lemma public_mapped x : 0 <= x < 2 ^ 32 -> IsPublicAddr (As16 (V4 x)) = IsPublicAddr (V4 x).
Proof.
  intros Hx. unfold IsPublicAddr. cbn [As16 IsValid negb Unmap].
  assert ((Z.shiftr (mapped_prefix + x) 32 =? 65535) = true) as ->.
  { apply shiftr_eqb; [lia|]. unfold mapped_prefix. lia. }
  assert (Z.land (mapped_prefix + x) (Z.ones 32) = x) as ->; [|done].
  rewrite Z.land_ones by lia. unfold mapped_prefix.
  rewrite Z.add_comm, Z_mod_plus_full. by apply Z.mod_small.
Qed.

(** An address without a zone is public iff it is in none of the special
    networks: for IPv4 0.0.0.0, 10/8, 172.16/12, 192.168/16, 169.254/16, 127/8, 224/4 and
    the broadcast address, also when written as an IPv4-mapped IPv6 address; for other
    IPv6 addresses ::, ::1, fc00::/7, fe80::/10 and ff00::/8. *)
Theorem public_addr_iff x :
  (IsPublicAddr (V4 x) = true <-> ~ special_v4 x) /\
  (0 <= x < 2 ^ 32 -> IsPublicAddr (As16 (V4 x)) = true <-> ~ special_v4 x) /\
  (Z.shiftr x 32 <> 65535 -> IsPublicAddr (V6 x "") = true <-> ~ special_v6 x).
Proof.
  split_and!.
  - apply public_v4_unmapped.
  - intros Hx. rewrite public_mapped by done. apply public_v4_unmapped.
  - apply public_v6_native.
Qed.

(** An address with a zone escapes the prefix list: fc00::1%eth0 counts as public. *)
Example zoned_ula_public : IsPublicAddr (V6 (64512 * 2 ^ 112 + 1) "eth0") = true.
Proof. vm_compute. reflexivity. Qed.
End Addresses.

(** ** Dialling *)

Section Dialling.
Context {S Conn : Type}.
Context (base : string -> string -> io S string (Conn * string)) (close : Conn -> S -> S).

(** The text names a public address. *)
Definition public_host (host : string) : Prop :=
  exists a, ParseIP host = Some a /\ IsPublicAddr a = true.

Definition public_endpoint (address : string) : Prop :=
  exists host port, SplitHostPort address = Ok (host, port) /\ public_host host.

(** What [net.Dialer] does with an address literal: it connects to that address, and the remote
    address of the connection names it. *)
Hypothesis dial_literal : forall network address s conn s' host port a,
  base network address s = (Ok conn, s') -> SplitHostPort address = Ok (host, port) -> ParseIP host = Some a ->
  exists host' port', SplitHostPort (snd conn) = Ok (host', port') /\ ParseIP host' = Some a.

(** C28: over a dialer that connects to an address literal where it says, the guarded dialer hands out a
    connection only when the peer it reached has a public address; a literal that is not
    public is refused before anything is dialled; a connection to any other peer is
    closed. *)
Theorem dial_never_private network address s r s' :
  DenyPrivateNetworks base close network address s = (r, s') ->
  match r with
  | Ok conn => public_endpoint (snd conn)
  | Err e => s' = s \/
      (exists e', base network address s = (Err e', s')) \/
      (exists conn s1, base network address s = (Ok conn, s1) /\
         ~ public_endpoint (snd conn) /\ s' = close (fst conn) s1)
  end /\
  (forall host port a, SplitHostPort address = Ok (host, port) -> ParseIP host = Some a ->
     IsPublicAddr a = false -> (exists e, r = Err e) /\ s' = s).
Proof.
  unfold DenyPrivateNetworks, fail. destruct (SplitHostPort address) as [[host port]|err] eqn:Es.
  2: { intros [= <- <-]. split; [by left | done]. }
  destruct (str_eqb host "") eqn:Eh.
  { apply str_eqb_eq in Eh as ->. intros [= <- <-]. split; [by left|].
    intros h p a [= <- <-] Hp. vm_compute in Hp. done. }
  destruct (ParseIP host) as [a|] eqn:Ep.
  - destruct (IsPublicAddr a) eqn:Ea; cbn [negb].
    + unfold wrap_err. destruct (base network address s) as [[conn|e] s1] eqn:Eb; intros [= <- <-].
      * split; [|intros ??? [= <- <-]; congruence].
        destruct (dial_literal _ _ _ _ _ _ _ _ Eb Es Ep) as (h & p & Hs & Ha). exists h, p. split; [done|]. by exists a.
      * split; [|intros ??? [= <- <-]; congruence]. right. left. eauto.
    + intros [= <- <-]. split; [by left|]. intros; eauto.
  - unfold mbind, io_bind, wrap_err. destruct (base network address s) as [[conn|e] s1] eqn:Eb.
    2: { intros [= <- <-]. split; [right; left; eauto | intros ??? [= <- <-]; congruence]. }
    unfold checkRemote.
    intros Hr. split; [|intros ??? [= <- <-]; congruence]. revert Hr.
    assert (~ public_endpoint (snd conn) -> exists c s2, (@Ok string _ conn, s1) = (Ok c, s2) /\
      ~ public_endpoint (snd c) /\ close (fst conn) s1 = close (fst c) s2) as Hclose by eauto.
    destruct (SplitHostPort (snd conn)) as [[rh rp]|err] eqn:Er.
    + destruct (ParseIP rh) as [a|] eqn:Ea; [destruct (IsPublicAddr a) eqn:Epub|]; cbn [negb];
        intros [= <- <-].
      * exists rh, rp. split; [done|]. by exists a.
      * right. right. apply Hclose.
        intros (h & p & E & a' & Ha' & Hpub). congruence.
      * right. right. apply Hclose.
        intros (h & p & E & a' & Ha' & Hpub). congruence.
    + intros [= <- <-]. right. right. apply Hclose.
      intros (h & p & E & _). congruence.
Qed.
End Dialling.

(** ** Cleaned paths *)

(** A path element that does not move. *)
Definition plain (seg : string) : Prop :=
  seg <> "" /\ seg <> "." /\ seg <> ".." /\ Forall (fun c => c <> "/"%char) (chars seg).

Lemma split_no_slash s : Forall (fun seg => Forall (fun c => c <> "/"%char) (chars seg)) (Split s "/"%char).
Proof.
  unfold Split. apply Forall_fmap. eapply Forall_impl; [apply split_list_no_sep|].
  intros l Hl. cbn. by rewrite chars_of_chars.
Qed.

(** [path.Clean] keeps plain elements, preceded in a relative path by [..] elements. *)
Lemma clean_segs_shape rooted segs : forall stack,
  Forall (fun seg => Forall (fun c => c <> "/"%char) (chars seg)) segs ->
  (exists n ps, stack = ps ++ replicate n ".." /\ Forall plain ps /\ (rooted = true -> n = 0)) ->
  exists n ps, clean_segs rooted stack segs = replicate n ".." ++ ps /\ Forall plain ps /\
    (rooted = true -> n = 0).
Proof.
  induction segs as [|seg segs IH]; intros stack Hs (n & ps & -> & Hp & Hr); cbn.
  - exists n, (rev ps). rewrite rev_app_distr. split_and!; [|by apply Forall_rev_iff | done].
    f_equal. clear. induction n as [|n IH]; [done|]. cbn. rewrite IH.
    by rewrite <- replicate_cons_app.
  - inversion Hs as [|? ? Hseg Hsegs]; subst.
    destruct (str_eqb seg "" || str_eqb seg ".") eqn:E1; [apply IH; eauto|].
    rewrite orb_false_iff, !str_eqb_neq in E1.
    destruct (str_eqb seg "..") eqn:E2; rewrite ?str_eqb_eq, ?str_eqb_neq in E2.
    + subst seg. destruct ps as [|p ps].
      * destruct n as [|n]; cbn.
        { destruct rooted; apply IH; try done; [by exists 0, []|].
          exists 1, []. by split_and!. }
        apply IH; [done|]. exists (S (S n)), []. split_and!; [done..|]. intros H. by apply Hr in H.
      * inversion Hp as [|? ? Hpp Hps]; subst. cbn.
        destruct (str_eqb p "..") eqn:E3; [apply str_eqb_eq in E3; by destruct Hpp as (_ & _ & ? & _)|].
        apply IH; eauto.
    + apply IH; [done|]. exists n, (seg :: ps). split_and!; [done| |done].
      constructor; [|done]. unfold plain. tauto.
Qed.

Lemma path_Clean_shape p :
  p <> "" -> exists n ps, Forall plain ps /\ (HasPrefix p "/" = true -> n = 0) /\
  path_Clean p = if HasPrefix p "/" then "/" +:+ Join ps "/"
                 else if str_eqb (Join (replicate n ".." ++ ps) "/") "" then "."
                 else Join (replicate n ".." ++ ps) "/".
Proof.
  intros Hp. unfold path_Clean. apply str_eqb_neq in Hp. rewrite Hp.
  destruct (clean_segs_shape (HasPrefix p "/") (Split p "/"%char) []) as (n & ps & E & Hps & Hn).
  { apply split_no_slash. }
  { by exists 0, []. }
  exists n, ps. split_and!; [done..|]. rewrite E. cbv zeta.
  destruct (HasPrefix p "/"); [|done]. by rewrite Hn.
Qed.

(** A join that starts with [..] is a traversal. *)
Lemma join_dotdot ps :
  Join (".." :: ps) "/" = ".." \/ HasPrefix (Join (".." :: ps) "/") "../" = true.
Proof. destruct ps as [|p ps]; [by left | right]. apply has_prefix_spec. by exists (Join (p :: ps) "/"). Qed.

(** A path inside a repository that is accepted is empty or a
    non-empty sequence of plain elements joined by slashes: relative, without empty, [.] or
    [..] elements. *)
Theorem normalize_repo_path_safe input p :
  NormalizeRepoPath input = Ok p ->
  p = "" \/ exists ps, ps <> [] /\ Forall plain ps /\ p = Join ps "/".
Proof.
  unfold NormalizeRepoPath. cbv zeta. set (t := TrimSpace input).
  destruct (str_eqb t "") eqn:Et; [intros [= <-]; by left|]. apply str_eqb_neq in Et.
  do 4 (case_match; [done|]).
  destruct (path_Clean_shape t Et) as (n & ps & Hps & Hn & Ec). rewrite Ec.
  destruct (str_eqb (if HasPrefix t "/" then _ else _) ".") eqn:Ed; [intros [= <-]; by left|].
  destruct (HasPrefix t "/") eqn:Ea.
  { unfold IsAbs. by rewrite (has_prefix_app "/"). }
  destruct (str_eqb (Join (replicate n ".." ++ ps) "/") "") eqn:Ej; [done|].
  apply str_eqb_neq in Ej. case_match; [done|].
  destruct n as [|n]; cbn [replicate app] in *.
  - case_match; [done|]. intros [= <-]. right. exists ps. split_and!; [|done..].
    by intros ->.
  - destruct (join_dotdot (replicate n ".." ++ ps)) as [Hj|Hj]; rewrite Hj;
      rewrite ?str_eqb_refl, ?orb_true_r; cbn; done.
Qed.

Lemma strip_common_spec b t b' t' :
  strip_common b t = (b', t') -> exists c, b = c ++ b' /\ t = c ++ t'.
Proof.
  revert t. induction b as [|x b IH]; intros [|y t]; cbn; try (intros [= <- <-]; by exists []).
  destruct (str_eqb x y) eqn:E; [|intros [= <- <-]; by exists []].
  apply str_eqb_eq in E as ->. intros (c & -> & ->)%IH. by exists (y :: c).
Qed.

Lemma path_Clean_abs p : IsAbs p = true -> IsAbs (path_Clean p) = true /\ path_Clean p <> ".".
Proof.
  unfold IsAbs. intros H. destruct (path_Clean_shape p) as (n & ps & _ & _ & ->).
  { by intros ->. }
  rewrite H. split; [apply (has_prefix_app "/") | done].
Qed.

(** The path lies in the tree under [root]. *)
Definition under (root p : string) : Prop :=
  IsAbs (path_Clean p) = true /\
  elems (path_Clean root) `prefix_of` elems (path_Clean p).

(** A relative path that does not go up leads below the base. *)
Lemma rel_under root p rel :
  IsAbs root = true -> Rel root p = Ok rel ->
  str_eqb rel ".." || HasPrefix rel "../" = false -> under root p.
Proof.
  intros Ha. destruct (path_Clean_abs root Ha) as [Hb Hd]. unfold Rel, under. cbv zeta.
  destruct (str_eqb (path_Clean p) (path_Clean root)) eqn:E.
  { apply str_eqb_eq in E as ->. done. }
  rewrite Hb. destruct (IsAbs (path_Clean p)); cbn [Bool.eqb negb]; [|done].
  apply str_eqb_neq in Hd. rewrite Hd.
  destruct (strip_common _ _) as [b t] eqn:Es. apply strip_common_spec in Es as (c & Hc & Ht).
  rewrite Hc, Ht. destruct b as [|x b].
  { intros _ _. rewrite app_nil_r. split; [done|]. by exists t. }
  intros Hrel Hno. exfalso.
  assert (rel = Join (".." :: ((fun _ => "..") <$> b) ++ t) "/") as ->.
  { revert Hrel. cbn [fmap list_fmap app]. repeat case_match; congruence. }
  destruct (join_dotdot (((fun _ => "..") <$> b) ++ t)) as [H|H]; rewrite H in Hno;
    rewrite ?str_eqb_refl, ?orb_true_r in Hno; done.
Qed.

Lemma WithinRepo_under EvalSymlinks root input p :
  IsAbs root = true -> WithinRepo EvalSymlinks root input = Ok p -> under root p.
Proof.
  intros Ha. unfold WithinRepo. cbv zeta.
  destruct (str_eqb root "") eqn:E0; [done|].
  destruct (str_eqb (TrimSpace input) "").
  { intros [= <-]. split; [by apply path_Clean_abs | done]. }
  destruct (EvalSymlinks _) as [resolved|err]; [|done].
  destruct (Rel root resolved) as [rel|err] eqn:Er; [|done].
  destruct (str_eqb rel ".." || _) eqn:En; [done|]. intros [= <-]. by eapply rel_under.
Qed.

(** Whatever symbolic links resolve to, a path returned for an
    absolute repository root is the root itself or lies below it, element by element. *)
Theorem within_repo_contained EvalSymlinks root input p :
  IsAbs root = true -> WithinRepo EvalSymlinks root input = Ok p -> under root p.
Proof. apply WithinRepo_under. Qed.

(** ** URLs *)

(** In a parsed URL with a host, the path is empty or starts with a slash. *)
Definition rooted_path (u : URL) : Prop :=
  Host u <> "" -> Path u = "" \/ HasPrefix (Path u) "/" = true.

Lemma unescape_slash b p : unescape ("/" +:+ b) encodePath = Ok p -> HasPrefix p "/" = true.
Proof.
  unfold unescape. change (chars ("/" +:+ b)) with ("/"%char :: chars b).
  cbn [unescape_list bool_decide]. rewrite bool_decide_false by done.
  cbn [bool_decide decide orb andb]. destruct (unescape_list encodePath (chars b)) as [l|e]; cbn; [|done].
  intros [= <-]. done.
Qed.

Lemma setPath_path u p u' :
  setPath u p = Ok u' -> Host u' = Host u /\ unescape p encodePath = Ok (Path u').
Proof. unfold setPath. intros (path & Hp & [= <-])%bind_ok. done. Qed.

Lemma parse_rooted raw u : parse raw = Ok u -> rooted_path u.
Proof.
  unfold parse, rooted_path. destruct (has_ctl_byte raw); [done|].
  destruct (str_eqb raw "*"); [intros [= <-]; done|].
  intros ([scheme rest] & _ & H)%bind_ok. revert H. cbv zeta.
  destruct (if HasSuffix rest "?" && _ then _ else _) as [[rest' force] query].
  destruct (negb (HasPrefix rest' "/") && negb _); [intros [= <-]; done|].
  destruct (negb (HasPrefix rest' "/") && _); [done|].
  destruct (_ && HasPrefix rest' "//").
  - destruct (match Cut (str_drop 2 rest') "/"%char with Some (a, b) => _ | None => _ end)
      as [authority path] eqn:Ea.
    intros ([user host] & _ & [_ Hp]%setPath_path)%bind_ok _.
    destruct (Cut (str_drop 2 rest') "/"%char) as [[a b]|]; injection Ea as <- <-.
    + right. by eapply unescape_slash.
    + left. by injection Hp.
  - intros [E _]%setPath_path. by rewrite E.
Qed.

Lemma url_Parse_rooted raw u : url_Parse raw = Ok u -> rooted_path u.
Proof.
  unfold url_Parse. destruct (match Cut raw "#"%char with Some (a, b) => _ | None => _ end) as [s frag].
  intros (v & Hv%parse_rooted & H)%bind_ok. revert H.
  destruct (str_eqb frag ""); [by intros [= <-]|].
  intros (f & _ & [= <-])%bind_ok. exact Hv.
Qed.

Lemma contains_char c l : contains_list [c] l = false -> Forall (fun d => d <> c) l.
Proof.
  induction l as [|d l IH]; [constructor|]. cbn. intros [Hd Hl]%orb_false_iff.
  constructor; [|by apply IH]. intros ->. cbn in Hd. rewrite bool_decide_true in Hd by done. done.
Qed.

Lemma replace_char_id a b s : Contains s (of_chars [a]) = false -> replace_char a b s = s.
Proof.
  unfold Contains. rewrite chars_of_chars. intros H%contains_char. unfold replace_char.
  rewrite <- (of_chars_chars s) at 2. f_equal. induction H as [|c l Hc _ IH]; [done|].
  cbn. rewrite bool_decide_false by done. by rewrite IH.
Qed.

Lemma hostname_nonempty u : ToLower (Hostname u) <> "" -> Host u <> "".
Proof. intros H E. apply H. unfold Hostname. by rewrite E. Qed.

(** What the validated URL is. *)
Record url_safe (allow : option (string -> bool)) (u u' : URL) : Prop := {
  safe_scheme : Scheme u' = "https";
  safe_user : User u = None /\ User u' = None;
  safe_host : Host u' = ToLower (Hostname u) /\ Host u' <> "";
  safe_literal : isIPLiteral (Host u') = false;
  safe_localhost : EqualFold (Host u') "localhost" = false;
  safe_allowed : forall f, allow = Some f -> f (Host u') = true;
  safe_port : Port u = "" \/ Port u = "443";
  safe_path : exists ps, Forall plain ps /\ Path u' = "/" +:+ Join ps "/";
}.

Lemma validate_https_safe u allow u' :
  rooted_path u -> ValidateHTTPSURL (Some u) allow = Ok u' -> url_safe allow u u'.
Proof.
  intros Hroot. unfold ValidateHTTPSURL. cbv zeta.
  intros ([] & _ & ([] & _ & ([] & Hh%guard_err_ok & ([] & Hu%guard_err_ok & ([] & _ &
    ([] & Hb%guard_err_ok & ([] & Hd & ([] & Hp%guard_err_ok & ([] & Hi%guard_err_ok &
    ([] & Hl%guard_err_ok & ([] & Ha%guard_err_ok & [= <-])%bind_ok)%bind_ok)%bind_ok)%bind_ok
    )%bind_ok)%bind_ok)%bind_ok)%bind_ok)%bind_ok)%bind_ok)%bind_ok.
  apply str_eqb_neq in Hh. rewrite andb_false_iff, !negb_false_iff, !str_eqb_eq in Hp.
  assert (hostWithPort (ToLower (Hostname u)) (Port u) = ToLower (Hostname u)) as Ehost.
  { unfold hostWithPort. by destruct Hp as [-> | ->]. }
  rewrite Ehost. split; cbn; try done.
  - split; [|done]. by destruct (User u).
  - intros f ->. by apply negb_false_iff in Ha.
  - rewrite (replace_char_id (ascii_of_nat 92)) by exact Hb.
    destruct (Hroot (hostname_nonempty u Hh)) as [E|E].
    { exfalso. revert Hd. rewrite E. cbn. done. }
    destruct (path_Clean_shape (Path u)) as (n & ps & Hps & _ & ->); [by intros Hpe; rewrite Hpe in E|].
    rewrite E. exists ps. split; [done|]. by rewrite (proj2 (str_eqb_neq _ _)).
Qed.

(** A URL that passes has the https scheme, no credentials, the default
    port, a non-empty lower-case host that is neither an IP literal nor localhost and that
    the allow function accepts, and an absolute path made of plain elements only. *)
Theorem https_url_safe raw allow u' :
  ParseAndValidateHTTPSURL raw allow = Ok u' ->
  exists u, url_Parse raw = Ok u /\ url_safe allow u u'.
Proof.
  unfold ParseAndValidateHTTPSURL. destruct (url_Parse raw) as [u|e] eqn:E; [|done].
  intros H. exists u. split; [done|]. eapply validate_https_safe; [|done]. by eapply url_Parse_rooted.
Qed.

(** ** Concrete inputs *)

Lemma public_addr_iff_witness : IsPublicAddr (V4 (v4 8 8 8 8)) = true.
Proof.
  apply (proj1 (public_addr_iff (v4 8 8 8 8))). change (v4 8 8 8 8) with 134744072%Z.
  unfold special_v4, in_net. cbn. lia.
Defined.

(** A dialer that reaches an address literal where it says and 93.184.216.34 for every name; the
    state counts the open connections. *)
Definition demo_dial (_ address : string) : io nat string (unit * string) := fun s =>
  match SplitHostPort address with
  | Ok (host, _) => (Ok (tt, match ParseIP host with Some _ => address | None => "93.184.216.34:443" end), S s)
  | Err e => (Err e, s)
  end.
Definition demo_close (_ : unit) (s : nat) : nat := Nat.pred s.

Lemma dial_never_private_witness : public_endpoint "93.184.216.34:443".
Proof.
  refine (proj1 (dial_never_private demo_dial demo_close _ "tcp" "example.com:443" 0
    (Ok (tt, "93.184.216.34:443")) 1 eq_refl)).
  intros network address s conn s' host port a. unfold demo_dial. intros H Hs Ha. rewrite Hs, Ha in H. injection H as <- _.
  exists host, port. split; [exact Hs|exact Ha].
Defined.

Lemma normalize_repo_path_safe_witness :
  "charts/web" = "" \/ exists ps, ps <> [] /\ Forall plain ps /\ "charts/web" = Join ps "/".
Proof. apply (normalize_repo_path_safe " charts/./x/../web/ "). vm_compute. reflexivity. Defined.

Lemma within_repo_contained_witness : under "/repo" "/repo/charts".
Proof.
  apply (within_repo_contained (fun p => Ok p) "/repo" "x/../charts"); vm_compute; reflexivity.
Defined.

Lemma https_url_safe_witness :
  exists u, url_Parse "https://Charts.Example.com/a/b" = Ok u /\
    url_safe None u (mkURL "https" "" None "charts.example.com" "/a/b" "" false false "" "" "").
Proof. apply https_url_safe. vm_compute. reflexivity. Defined.
