(* ===== verification/Kube.v ===== *)
(** The Kubernetes objects of the operator, as far as its code reads them:
    [kubeop-operator/apis/paas/v1alpha1] and the fields of the core types, with
    the error values of admission and the interface of the API client. *)

From Stdlib Require Import Ascii ZArith Lia.
From stdpp Require Import base gmap strings list.
From S2P Require Import Prelude GoStrings.

(** ** Object metadata *)

(** A Go map that may be nil. *)
Abbreviation strmap := (option (gmap string string)).

(** Indexing a possibly nil map: the zero value when the key is missing. *)
Definition map_get (m : strmap) (k : string) : string := default "" (m ≫= (.!! k)).

Record ObjectMeta := mkMeta {
  Name : string;
  Namespace : string;
  Labels : strmap;
  Annotations : strmap;
  Generation : Z;
}.

Definition GetLabel (m : ObjectMeta) (k : string) : string := map_get (Labels m) k.

(** ** Custom resources *)

(** [corev1.ServiceType] and the other enumerations are strings in the API. *)
Definition ServiceTypeClusterIP := "ClusterIP".
Definition ServiceTypeLoadBalancer := "LoadBalancer".

Definition AppTypeHelmRepo := "helmRepo".
Definition AppTypeHelmOCI := "helmOCI".

Record AppSource := mkAppSource {
  source_URL : string;
  Chart : string;
  Ref : string;
}.

Record AppServiceProfile := mkServiceProfile {
  profile_Type : string;
  Ports : list Z;
  Internal : bool;
  ExternalIPs : list string;
}.

Record AppSpec := mkAppSpec {
  app_Type : string;
  Source : option AppSource;
  Version : string;
  VersionRange : string;
  Image : string;
  ValuesRefs : list string;
  SecretsRefs : list string;
  ServiceProfile : option AppServiceProfile;
  IngressRefs : list string;
}.

(** [metav1.Condition] without the transition time. *)
Record Condition := mkCondition {
  cond_Type : string;
  cond_Status : string;
  cond_Reason : string;
  cond_Message : string;
  cond_ObservedGeneration : Z;
}.

#[export] Instance Condition_eq_dec : EqDecision Condition.
Proof. solve_decision. Defined.

Record AppStatus := mkAppStatus {
  Revision : string;
  Sync : string;
  URLs : list string;
  AvailableReplicas : Z;
  ObservedGeneration : Z;
  Conditions : list Condition;
}.

#[export] Instance AppStatus_eq_dec : EqDecision AppStatus.
Proof. solve_decision. Defined.

Record App := mkApp {
  app_meta : ObjectMeta;
  app_Spec : AppSpec;
  app_Status : AppStatus;
}.

Record ProjectSpec := mkProjectSpec {
  TenantRef : string;
  NetworkPolicyProfileRef : string;
}.

Record Project := mkProject {
  project_meta : ObjectMeta;
  project_Spec : ProjectSpec;
}.

Record ServiceExposurePolicy := mkExposurePolicy {
  AllowedTypes : list string;
  AllowedExternalIPs : list string;
}.

Record NetworkPolicyProfile := mkNetworkProfile {
  profile_meta : ObjectMeta;
  ServicePolicy : option ServiceExposurePolicy;
}.

Record AppReleaseSpec := mkReleaseSpec {
  AppRef : string;
  rel_Version : string;
  ResolvedSource : string;
  Digest : string;
  RenderedConfigHash : string;
}.

#[export] Instance AppReleaseSpec_eq_dec : EqDecision AppReleaseSpec.
Proof. solve_decision. Defined.

Record AppRelease := mkRelease {
  release_meta : ObjectMeta;
  release_Spec : AppReleaseSpec;
}.

Definition ConsumerTypeApp := "app".
Definition ConsumerTypeServiceAccount := "serviceAccount".
Definition ProviderTypeDatabase := "database".
Definition ProviderTypeCache := "cache".
Definition ProviderTypeQueue := "queue".

Record ServiceBinding := mkBinding {
  binding_meta : ObjectMeta;
  consumer_Type : string;
  consumer_Name : string;
  provider_Type : string;
  provider_Name : string;
}.

Record Bucket := mkBucket {
  bucket_meta : ObjectMeta;
  PolicyRefs : list string;
}.

(** Security fields of pods. *)
Record SecurityContext := mkSecurityContext {
  Capabilities_Add : option (list string); (* nil Capabilities: None *)
  RunAsNonRoot : option bool;
  RunAsUser : option Z;
}.

Record PodSecurityContext := mkPodSecurityContext {
  pod_RunAsNonRoot : option bool;
  pod_RunAsUser : option Z;
}.

Record Container := mkContainer {
  container_Name : string;
  container_SC : option SecurityContext;
}.

Record Volume := mkVolume {
  volume_Name : string;
  volume_HostPath : option string;
}.

Record PodSpec := mkPodSpec {
  HostNetwork : bool;
  HostPID : bool;
  HostIPC : bool;
  Volumes : list Volume;
  InitContainers : list Container;
  Containers : list Container;
  pod_SC : option PodSecurityContext;
}.

Record Job := mkJob {
  job_meta : ObjectMeta;
  job_PodSpec : PodSpec;
}.

(** [runtime.Object]: the types with their own webhook, and all others, of which
    [meta.Accessor] gives the metadata when they have any. *)
Inductive Object :=
| OApp (a : App)
| OProject (p : Project)
| OAppRelease (r : AppRelease)
| OServiceBinding (b : ServiceBinding)
| OBucket (b : Bucket)
| OJob (j : Job)
| OOther (type_name : string) (m : option ObjectMeta).

(** [fmt.Sprintf("%T", obj)] *)
Definition type_name (o : Object) : string :=
  match o with
  | OApp _ => "*v1alpha1.App"
  | OProject _ => "*v1alpha1.Project"
  | OAppRelease _ => "*v1alpha1.AppRelease"
  | OServiceBinding _ => "*v1alpha1.ServiceBinding"
  | OBucket _ => "*v1alpha1.Bucket"
  | OJob _ => "*v1alpha1.Job"
  | OOther t _ => t
  end.

(** [meta.Accessor] *)
Definition accessor (o : Object) : option ObjectMeta :=
  match o with
  | OApp a => Some (app_meta a)
  | OProject p => Some (project_meta p)
  | OAppRelease r => Some (release_meta r)
  | OServiceBinding b => Some (binding_meta b)
  | OBucket b => Some (bucket_meta b)
  | OJob j => Some (job_meta j)
  | OOther _ m => m
  end.

(** ** Errors *)

(** A formatted message: the format string and its arguments, not rendered. *)
Inductive message := Sprintf (fmt : string) (args : list string).
Abbreviation Msg s := (Sprintf s []).

Inductive path_elem := Child (name : string) | Index (i : nat) | Key (k : string).
Definition path := list path_elem.

Inductive ErrorType := Required | Invalid | Forbidden | InternalError.

(** [field.Error] *)
Record field_error := mkFieldError {
  err_Type : ErrorType;
  err_Field : path;
  err_BadValue : string;
  err_Detail : message;
}.

Definition field_Required (p : path) (m : message) := mkFieldError Required p "" m.
Definition field_Invalid (p : path) (v : string) (m : message) := mkFieldError Invalid p v m.
Definition field_Forbidden (p : path) (m : message) := mkFieldError Forbidden p "" m.
Definition field_InternalError (p : path) (m : message) := mkFieldError InternalError p "" m.

(** [apierrors.NewBadRequest] and [apierrors.NewInvalid] *)
Inductive status_error :=
| NewBadRequest (m : message)
| NewInvalid (kind name : string) (errs : list field_error).

(** The outcome of a [Get]: the object, [IsNotFound], or any other failure. *)
Inductive get_result (A : Type) :=
| Found (a : A)
| NotFound
| GetFailed (err : string).
Arguments Found {A} a.
Arguments NotFound {A}.
Arguments GetFailed {A} err.

(** ** The API server as the webhooks see it

    [client.Client] is code outside the repository: the reads of the admission
    webhooks are the operations of this interface. *)
Class Client := {
  get_ConfigRef : string -> string -> get_result ObjectMeta;
  get_SecretRef : string -> string -> get_result ObjectMeta;
  get_IngressRoute : string -> string -> get_result ObjectMeta;
  get_DatabaseInstance : string -> string -> get_result ObjectMeta;
  get_CacheInstance : string -> string -> get_result ObjectMeta;
  get_QueueInstance : string -> string -> get_result ObjectMeta;
  get_BucketPolicy : string -> string -> get_result ObjectMeta;
  get_ServiceAccount : string -> string -> get_result ObjectMeta;
  get_App : string -> string -> get_result App;
  get_Project : string -> string -> get_result Project;
  get_NetworkPolicyProfile : string -> get_result NetworkPolicyProfile;
  get_ConfigMap : string -> string -> get_result (gmap string string);
}.

(** Third-party parsers: [Masterminds/semver] and [go-containerregistry/name].
    [Err] carries the text of the error. *)
Class Libraries := {
  semver_NewVersion : string -> result string unit;
  semver_NewConstraint : string -> result string unit;
  (** the name and the registry of the parsed reference's context *)
  name_ParseReference : string -> result string (string * string);
}.

Lemma map_get_some m k v : (m : strmap) ≫= (.!! k) = Some v -> map_get m k = v.
Proof. unfold map_get. by intros ->. Qed.

(** ** Status conditions

    [apimeta.SetStatusCondition] is code outside the repository: it adds a condition or
    replaces the one of the same type (times are not modelled). *)

Definition find_condition (t : string) (l : list Condition) : option Condition :=
  List.find (fun c => str_eqb (cond_Type c) t) l.

Class ConditionSetter := {
  SetStatusCondition : list Condition -> Condition -> list Condition;
}.

Class ConditionLaws `{ConditionSetter} := {
  condition_set l c : find_condition (cond_Type c) (SetStatusCondition l c) = Some c;
  condition_other l c t : t <> cond_Type c ->
    find_condition t (SetStatusCondition l c) = find_condition t l;
  condition_again l c : SetStatusCondition (SetStatusCondition l c) c = SetStatusCondition l c;
}.

(** A setter that satisfies the laws. *)
Module ConditionList.
Definition set_condition (l : list Condition) (c : Condition) : list Condition :=
  List.filter (fun c' => negb (str_eqb (cond_Type c') (cond_Type c))) l ++ [c].

#[export] Instance setter : ConditionSetter := {| SetStatusCondition := set_condition |}.

Lemma find_app {A} (f : A -> bool) l k :
  List.find f (l ++ k) = match List.find f l with Some x => Some x | None => List.find f k end.
Proof. induction l as [|x l IH]; [done|]. cbn. by destruct (f x). Qed.

#[export] Instance setter_laws : ConditionLaws.
Proof.
  split; cbn; unfold set_condition, find_condition.
  - intros l c. rewrite find_app. cbn. rewrite str_eqb_refl.
    replace (List.find _ (List.filter _ l)) with (@None Condition); [done|]. symmetry.
    induction l as [|x l IH]; [done|]. cbn. destruct (str_eqb (cond_Type x) _) eqn:E; cbn; [done|].
    by rewrite E.
  - intros l c t Hne. rewrite find_app. cbn. apply not_eq_sym, str_eqb_neq in Hne. rewrite Hne.
    induction l as [|x l IH]; [done|]. cbn. destruct (str_eqb (cond_Type x) (cond_Type c)) eqn:E; cbn.
    + apply str_eqb_eq in E. by rewrite E, Hne.
    + by destruct (str_eqb (cond_Type x) t).
  - intros l c. rewrite List.filter_app. cbn. rewrite str_eqb_refl. cbn.
    rewrite app_nil_r. f_equal. induction l as [|x l IH]; [done|]. cbn.
    destruct (negb _) eqn:E; cbn; [rewrite E; by f_equal | done].
Qed.
End ConditionList.
