(* ===== verification/Webhooks.v ===== *)
(** The admission webhooks of the operator:
    [kubeop-operator/internal/webhooks/webhooks.go].

    The API server is the [Client] interface, the version and image-reference
    parsers are [Libraries], the registry policy comes through the interface
    [registryPolicyLoader]; every validator is the code's function, returning the
    list of field errors in the order the code appends them. *)

From Stdlib Require Import Ascii ZArith Lia.
From stdpp Require Import base gmap strings list relations.
From S2P Require Import Prelude Utf8 GoStrings NetURL Kube Policy.

(** ** Constants *)

Definition labelTenant := "paas.kubeop.io/tenant".
Definition labelProject := "paas.kubeop.io/project".
Definition labelApp := "paas.kubeop.io/app".
Definition annotationRunAsRootJustification := "paas.kubeop.io/run-as-root-justification".

Definition requiredLabelKeys : list string := [labelTenant; labelProject; labelApp].

Definition metadata_labels : path := [Child "metadata"; Child "labels"].

(** ** Shared helpers *)

(** [defaultMetadata]: nil label and annotation maps become empty maps. *)
Definition defaultMetadata (m : ObjectMeta) : ObjectMeta :=
  mkMeta (Name m) (Namespace m) (Some (default ∅ (Labels m))) (Some (default ∅ (Annotations m)))
    (Generation m).

Definition validateRequiredLabels (m : ObjectMeta) : list field_error :=
  key ← requiredLabelKeys;
  when (blank (GetLabel m key))
    (field_Required (metadata_labels ++ [Key key])
       (Sprintf "%s label is required for tenant isolation" [TrimPrefix key "paas.kubeop.io/"])).

Definition validateTenantImmutability (oldObj newObj : ObjectMeta) : list field_error :=
  let oldTenant := TrimSpace (GetLabel oldObj labelTenant) in
  let newTenant := TrimSpace (GetLabel newObj labelTenant) in
  when (negb (str_eqb oldTenant "") && negb (str_eqb newTenant oldTenant))
    (field_Forbidden (metadata_labels ++ [Key labelTenant]) (Msg "tenant label is immutable")).

(** The check on an update; nothing on a create. *)
Definition tenantImmutability (oldObj : option ObjectMeta) (newObj : ObjectMeta) : list field_error :=
  match oldObj with
  | None => []
  | Some oldObj => validateTenantImmutability oldObj newObj
  end.

Definition semverTrimPrefixes : list string := ["v"].

Definition stripSemverPrefixes (version : string) : string :=
  foldl TrimPrefix (TrimSpace version) semverTrimPrefixes.

(** ["^[A-Za-z0-9+_.-]+:[A-Fa-f0-9]{32,128}$"]: the alphabet of the algorithm has no
    colon, so the colon is the first one. *)
Definition hex_32_128 (l : list ascii) : bool :=
  forallb ishex l && (32 <=? length l) && (length l <=? 128).

Definition digestRegex (s : string) : bool :=
  match cut_list ":"%char (chars s) with
  | None => false
  | Some (alg, hex) =>
      negb (length alg =? 0)
      && forallb (fun c => is_letter c || is_digit c || char_in "+_.-" c) alg
      && hex_32_128 hex
  end.

(** ["^[A-Fa-f0-9]{32,128}$"] *)
Definition configHashRegex (s : string) : bool := hex_32_128 (chars s).

(** ** registryPolicyLoader *)

Class registryPolicyLoader := {
  PolicyFor : string -> result string (option RegistryPolicy);
}.

(** [configMapRegistryPolicyLoader.PolicyFor]; [%v] of a parse error is opaque. *)
Definition ConfigMap_PolicyFor `{Client} (namespace : string)
    : result string (option RegistryPolicy) :=
  match get_ConfigMap namespace ConfigMapName with
  | NotFound => Ok None
  | GetFailed err => Err err
  | Found data =>
      match ParseConfigMap (Some data) with
      | Ok p => Ok p
      | Err (InvalidBoolean raw key) => Err ("invalid boolean value " +:+ raw +:+ " for " +:+ key)
      end
  end.

#[export] Instance configMapRegistryPolicyLoader `{Client} : registryPolicyLoader :=
  {| PolicyFor := ConfigMap_PolicyFor |}.

(** ** LabelGuardWebhook *)

Module LabelGuardWebhook.
Section LabelGuard.
Context (gvk_Kind : string).

Definition Default (o : Object) : result message ObjectMeta :=
  match accessor o with
  | None => Err (Sprintf "metadata accessor: %w" [type_name o])
  | Some m => Ok (defaultMetadata m)
  end.

Definition ValidateCreate (o : Object) : result status_error (list string) :=
  match accessor o with
  | None => Err (NewBadRequest (Sprintf "expected %s, got %T" [gvk_Kind; type_name o]))
  | Some m =>
      match validateRequiredLabels m with
      | [] => Ok []
      | errs => Err (NewInvalid gvk_Kind (Name m) errs)
      end
  end.

Definition ValidateUpdate (oldObj newObj : Object) : result status_error (list string) :=
  match accessor newObj with
  | None => Err (NewBadRequest (Sprintf "expected %s, got %T" [gvk_Kind; type_name newObj]))
  | Some newMeta =>
      match accessor oldObj with
      | None => Err (NewBadRequest (Sprintf "expected %s, got %T" [gvk_Kind; type_name oldObj]))
      | Some oldMeta =>
          match validateRequiredLabels newMeta ++ validateTenantImmutability oldMeta newMeta with
          | [] => Ok []
          | errs => Err (NewInvalid gvk_Kind (Name newMeta) errs)
          end
      end
  end.

Definition ValidateDelete (o : Object) : result status_error (list string) := Ok [].
End LabelGuard.
End LabelGuardWebhook.

(** ** AppWebhook *)

Module AppWebhook.

Definition spec_path : path := [Child "spec"].

(** [registryInfoFromSource] *)
Definition registryInfoFromSource (appType : string) (source : option AppSource) (p : path)
    : string * string * list field_error :=
  match source with
  | None => ("", "", [])
  | Some source =>
      let raw := TrimSpace (source_URL source) in
      if str_eqb raw "" then ("", "", [])
      else if str_eqb appType AppTypeHelmRepo then
        match url_Parse raw with
        | Err err =>
            ("", "", [field_Invalid p raw (Sprintf "invalid repository URL: %v" [url_error_text err])])
        | Ok parsed =>
            if str_eqb (Host parsed) "" then
              ("", "", [field_Invalid p raw (Msg "invalid repository URL")])
            else
              let host := ToLower (Host parsed) in
              let repoPath := Trim (NetURL.Path parsed) "/" in
              if str_eqb repoPath "" then (host, host, [])
              else (host, ToLower (host +:+ "/" +:+ repoPath), [])
        end
      else if str_eqb appType AppTypeHelmOCI then
        let trimmed := TrimPrefix raw "oci://" in
        let trimmed := TrimPrefix trimmed "//" in
        let parts := Split trimmed "/"%char in
        let first := default "" (parts !! 0) in
        if (length parts <? 2) || blank first then
          ("", "", [field_Invalid p raw (Msg "OCI URL must include registry host and repository")])
        else
          let host := ToLower (TrimSpace first) in
          let repoPath := Join (drop 1 parts) "/" in
          (host, ToLower (host +:+ "/" +:+ repoPath), [])
      else ("", "", [])
  end.

Section AppWebhook.
Context `{kc : Client} `{lib : Libraries} (policyLoader : option registryPolicyLoader).

Definition validateAppVersion (app : App) : list field_error :=
  let version := TrimSpace (Version (app_Spec app)) in
  let versionRange := TrimSpace (VersionRange (app_Spec app)) in
  when (negb (str_eqb version "") && negb (str_eqb versionRange ""))
    (field_Forbidden (spec_path ++ [Child "semverRange"])
       (Msg "semverRange cannot be set when version is pinned"))
  ++ (if str_eqb version "" then []
      else match semver_NewVersion (stripSemverPrefixes version) with
           | Ok _ => []
           | Err err => [field_Invalid (spec_path ++ [Child "version"]) (Version (app_Spec app))
                           (Sprintf "invalid semantic version: %v" [err])]
           end)
  ++ (if str_eqb versionRange "" then []
      else match semver_NewConstraint versionRange with
           | Ok _ => []
           | Err err => [field_Invalid (spec_path ++ [Child "semverRange"])
                           (VersionRange (app_Spec app))
                           (Sprintf "invalid semver range: %v" [err])]
           end).

(** The image part of [validateRegistryPolicy]. *)
Definition validateImage (policyDoc : RegistryPolicy) (app : App) : list field_error :=
  let image := TrimSpace (Image (app_Spec app)) in
  if str_eqb image "" then []
  else match name_ParseReference image with
  | Err parseErr =>
      [field_Invalid (spec_path ++ [Child "image"]) (Image (app_Spec app))
         (Sprintf "invalid image reference: %v" [parseErr])]
  | Ok (ctx_name, ctx_registry) =>
      let repo := ToLower ctx_name in
      let host := ToLower ctx_registry in
      when (negb (AllowsRegistry (Some policyDoc) host))
        (field_Forbidden (spec_path ++ [Child "image"])
           (Sprintf "registry %q is not allowlisted" [host]))
      ++ when (negb (AllowsRepository (Some policyDoc) repo))
        (field_Forbidden (spec_path ++ [Child "image"])
           (Sprintf "repository %q is not allowlisted" [repo]))
  end.

(** The chart-source part of [validateRegistryPolicy]. *)
Definition validateSource (policyDoc : RegistryPolicy) (app : App) : list field_error :=
  let p := spec_path ++ [Child "source"; Child "url"] in
  match Source (app_Spec app) with
  | None => []
  | Some source =>
      if blank (source_URL source) then []
      else
        let '(host, repo, sourceErrs) :=
          registryInfoFromSource (app_Type (app_Spec app)) (Some source) p in
        sourceErrs ++
        (if length sourceErrs =? 0 then
           when (negb (str_eqb host "") && negb (AllowsRegistry (Some policyDoc) host))
             (field_Forbidden p (Sprintf "registry %q is not allowlisted" [host]))
           ++ when (negb (str_eqb repo "") && negb (AllowsRepository (Some policyDoc) repo))
             (field_Forbidden p (Sprintf "repository %q is not allowlisted" [repo]))
         else [])
  end.

Definition validateRegistryPolicy (app : App) : list string * list field_error :=
  match policyLoader with
  | None => ([], [])
  | Some loader =>
      match PolicyFor (Namespace (app_meta app)) with
      | Err err =>
          ([], [field_InternalError spec_path (Sprintf "load registry policy: %w" [err])])
      | Ok None => ([], [])
      | Ok (Some policyDoc) =>
          (when (RequireCosign policyDoc)
             "registry policy requires cosign verification; ensure signatures are validated before deployment",
           validateImage policyDoc app ++ validateSource policyDoc app)
      end
  end.

(** The loop the three reference validators share: each name is looked up in the
    App's namespace and must carry the App's tenant label. *)
Definition validateRefs (get : string -> string -> get_result ObjectMeta) (kind field : string)
    (names : list string) (app : App) (tenant : string) : list field_error :=
  let p := [Child "spec"; Child field] in
  collect (fun idx name =>
    match get (Namespace (app_meta app)) name with
    | NotFound =>
        [field_Invalid (p ++ [Index idx]) name
           (Msg ("referenced " +:+ kind +:+ " does not exist"))]
    | GetFailed _ =>
        [field_InternalError (p ++ [Index idx]) 
           (Sprintf ("unable to verify " +:+ kind +:+ " %q") [name])]
    | Found ref =>
        let refTenant := GetLabel ref labelTenant in
        when (negb (str_eqb refTenant tenant))
          (field_Forbidden (p ++ [Index idx])
             (Sprintf (kind +:+ " %q belongs to tenant %q") [name; refTenant]))
    end) names.

Definition validateConfigRefs (app : App) (tenant : string) : list field_error :=
  validateRefs get_ConfigRef "ConfigRef" "valuesRefs" (ValuesRefs (app_Spec app)) app tenant.

Definition validateSecretRefs (app : App) (tenant : string) : list field_error :=
  validateRefs get_SecretRef "SecretRef" "secretsRefs" (SecretsRefs (app_Spec app)) app tenant.

Definition validateIngressRefs (app : App) (tenant : string) : list field_error :=
  validateRefs get_IngressRoute "IngressRoute" "ingressRefs" (IngressRefs (app_Spec app)) app tenant.

Definition projectForApp (app : App) (tenant : string) : option Project * list field_error :=
  let projectName := TrimSpace (GetLabel (app_meta app) labelProject) in
  if str_eqb projectName "" then (None, [])
  else match get_Project (Namespace (app_meta app)) projectName with
  | NotFound =>
      (None, [field_Invalid (metadata_labels ++ [Key labelProject]) projectName
                (Msg "project label must reference an existing Project")])
  | GetFailed _ =>
      (None, [field_InternalError (metadata_labels ++ [Key labelProject])
                (Sprintf "unable to verify Project %q" [projectName])])
  | Found project =>
      let ref := TenantRef (project_Spec project) in
      let projectTenant := TrimSpace (GetLabel (project_meta project) labelTenant) in
      (Some project,
       when (negb (str_eqb tenant "") && negb (str_eqb ref "") && negb (str_eqb ref tenant))
         (field_Forbidden (metadata_labels ++ [Key labelTenant])
            (Sprintf "Project %q belongs to tenant %q" [projectName; ref]))
       ++ when (negb (str_eqb tenant "") && negb (str_eqb projectTenant "")
                && negb (str_eqb projectTenant tenant))
         (field_Forbidden (metadata_labels ++ [Key labelTenant])
            (Sprintf "Project %q labels tenant %q" [projectName; projectTenant])))
  end.

Definition validateServicePolicy (app : App) (project : option Project) : list field_error :=
  match ServiceProfile (app_Spec app) with
  | None => []
  | Some profile =>
      let p := [Child "spec"; Child "serviceProfile"] in
      let requestedType :=
        if str_eqb (profile_Type profile) "" then ServiceTypeClusterIP else profile_Type profile in
      let profileRef :=
        match project with None => "" | Some pr => NetworkPolicyProfileRef (project_Spec pr) end in
      if blank profileRef then
        when (str_eqb requestedType ServiceTypeLoadBalancer)
          (field_Forbidden (p ++ [Child "type"])
             (Msg "LoadBalancer services require an approved service policy"))
        ++ when (0 <? length (ExternalIPs profile))
          (field_Forbidden (p ++ [Child "externalIPs"])
             (Msg "External IPs require an approved service policy"))
      else match get_NetworkPolicyProfile profileRef with
      | NotFound =>
          [field_Invalid p profileRef (Msg "referenced NetworkPolicyProfile does not exist")]
      | GetFailed _ =>
          [field_InternalError p (Sprintf "unable to verify NetworkPolicyProfile %q" [profileRef])]
      | Found networkProfile =>
          let policy := ServicePolicy networkProfile in
          let allowedTypes := match policy with None => [] | Some sp => AllowedTypes sp end in
          let typeAllowed :=
            if str_eqb requestedType ServiceTypeClusterIP then true
            else if length allowedTypes =? 0 then false
            else existsb (str_eqb requestedType) allowedTypes in
          let allowedIPs := match policy with None => [] | Some sp => AllowedExternalIPs sp end in
          when (negb typeAllowed)
            (field_Forbidden (p ++ [Child "type"])
               (Sprintf "service type %q is not permitted by profile %q"
                  [requestedType; Name (profile_meta networkProfile)]))
          ++ (if length (ExternalIPs profile) =? 0 then []
              else if length allowedIPs =? 0 then
                [field_Forbidden (p ++ [Child "externalIPs"])
                   (Msg "external IPs are not allowed by the service policy")]
              else collect (fun idx ip =>
                when (negb (existsb (str_eqb ip) allowedIPs))
                  (field_Forbidden (p ++ [Child "externalIPs"; Index idx])
                     (Sprintf "external IP %q is not in the allowlist" [ip])))
                (ExternalIPs profile))
      end
  end.

Definition validateApp (oldApp : option App) (newApp : App) : list string * list field_error :=
  let base :=
    validateRequiredLabels (app_meta newApp)
    ++ tenantImmutability (app_meta <$> oldApp) (app_meta newApp)
    ++ validateAppVersion newApp in
  let tenant := GetLabel (app_meta newApp) labelTenant in
  if str_eqb tenant "" then
    let '(policyWarnings, policyErrs) := validateRegistryPolicy newApp in
    (policyWarnings, base ++ policyErrs)
  else
    let refs := validateConfigRefs newApp tenant
      ++ validateSecretRefs newApp tenant
      ++ validateIngressRefs newApp tenant in
    let '(project, projectErrs) := projectForApp newApp tenant in
    let serviceErrs := validateServicePolicy newApp project in
    let '(policyWarnings, policyErrs) := validateRegistryPolicy newApp in
    (policyWarnings, base ++ refs ++ projectErrs ++ serviceErrs ++ policyErrs).

Definition Default (o : Object) : result message App :=
  match o with
  | OApp app => Ok (mkApp (defaultMetadata (app_meta app)) (app_Spec app) (app_Status app))
  | _ => Err (Sprintf "expected App, got %T" [type_name o])
  end.

Definition ValidateCreate (o : Object) : result status_error (list string) :=
  match o with
  | OApp app =>
      match validateApp None app with
      | (warnings, []) => Ok warnings
      | (_, errs) => Err (NewInvalid "App" (Name (app_meta app)) errs)
      end
  | _ => Err (NewBadRequest (Sprintf "expected App, got %T" [type_name o]))
  end.

Definition ValidateUpdate (oldObj newObj : Object) : result status_error (list string) :=
  match newObj with
  | OApp newApp =>
      match oldObj with
      | OApp oldApp =>
          match validateApp (Some oldApp) newApp with
          | (warnings, []) => Ok warnings
          | (_, errs) => Err (NewInvalid "App" (Name (app_meta newApp)) errs)
          end
      | _ => Err (NewBadRequest (Sprintf "expected App, got %T" [type_name oldObj]))
      end
  | _ => Err (NewBadRequest (Sprintf "expected App, got %T" [type_name newObj]))
  end.

Definition ValidateDelete (o : Object) : result status_error (list string) := Ok [].
End AppWebhook.
End AppWebhook.

(** ** ProjectWebhook *)

Module ProjectWebhook.

Definition validateProject (oldProject : option Project) (newProject : Project) : list field_error :=
  let m := project_meta newProject in
  let ref := TenantRef (project_Spec newProject) in
  let tenant := TrimSpace (GetLabel m labelTenant) in
  let projectLabel := TrimSpace (GetLabel m labelProject) in
  validateRequiredLabels m
  ++ tenantImmutability (project_meta <$> oldProject) m
  ++ when (negb (str_eqb tenant "") && negb (str_eqb ref "") && negb (str_eqb tenant ref))
       (field_Invalid [Child "spec"; Child "tenantRef"] ref
          (Msg "tenantRef must match metadata tenant label"))
  ++ when (negb (str_eqb projectLabel "") && negb (str_eqb projectLabel (Name m)))
       (field_Invalid (metadata_labels ++ [Key labelProject]) projectLabel
          (Msg "project label must equal resource name"))
  ++ match oldProject with
     | None => []
     | Some old =>
         when (negb (str_eqb (TenantRef (project_Spec old)) ref))
           (field_Forbidden [Child "spec"; Child "tenantRef"] (Msg "tenantRef is immutable"))
     end.

Definition Default (o : Object) : result message Project :=
  match o with
  | OProject p => Ok (mkProject (defaultMetadata (project_meta p)) (project_Spec p))
  | _ => Err (Sprintf "expected Project, got %T" [type_name o])
  end.

Definition ValidateCreate (o : Object) : result status_error (list string) :=
  match o with
  | OProject project =>
      match validateProject None project with
      | [] => Ok []
      | errs => Err (NewInvalid "Project" (Name (project_meta project)) errs)
      end
  | _ => Err (NewBadRequest (Sprintf "expected Project, got %T" [type_name o]))
  end.

Definition ValidateUpdate (oldObj newObj : Object) : result status_error (list string) :=
  match newObj with
  | OProject newProject =>
      match oldObj with
      | OProject oldProject =>
          match validateProject (Some oldProject) newProject with
          | [] => Ok []
          | errs => Err (NewInvalid "Project" (Name (project_meta newProject)) errs)
          end
      | _ => Err (NewBadRequest (Sprintf "expected Project, got %T" [type_name oldObj]))
      end
  | _ => Err (NewBadRequest (Sprintf "expected Project, got %T" [type_name newObj]))
  end.

Definition ValidateDelete (o : Object) : result status_error (list string) := Ok [].

End ProjectWebhook.

(** ** AppReleaseWebhook *)

Module AppReleaseWebhook.
Section AppReleaseWebhook.
Context `{kc : Client} `{lib : Libraries}.

(** [apiequality.Semantic.DeepEqual] on a struct of strings is equality. *)
Definition validateAppReleaseImmutability (oldRelease newRelease : AppRelease) : list field_error :=
  when (negb (bool_decide (release_Spec oldRelease = release_Spec newRelease)))
    (field_Forbidden [Child "spec"] (Msg "AppRelease spec is immutable after creation")).

Definition validateAppReleaseSpecFields (release : AppRelease) : list field_error :=
  let spec := release_Spec release in
  let version := TrimSpace (rel_Version spec) in
  let digest := TrimSpace (Digest spec) in
  let hash := TrimSpace (RenderedConfigHash spec) in
  (if str_eqb version "" then []
   else match semver_NewVersion (stripSemverPrefixes version) with
        | Ok _ => []
        | Err err => [field_Invalid [Child "spec"; Child "version"] (rel_Version spec)
                        (Sprintf "invalid semantic version: %v" [err])]
        end)
  ++ when (negb (str_eqb digest "") && negb (digestRegex digest))
       (field_Invalid [Child "spec"; Child "digest"] (Digest spec)
          (Msg "digest must follow algorithm:hex format"))
  ++ when (negb (str_eqb hash "") && negb (configHashRegex hash))
       (field_Invalid [Child "spec"; Child "renderedConfigHash"] (RenderedConfigHash spec)
          (Msg "renderedConfigHash must be a hexadecimal digest")).

(** The reference check at the end of [validateRelease]. *)
Definition validateAppRef (release : AppRelease) : list field_error :=
  let p := [Child "spec"; Child "appRef"] in
  let ref := AppRef (release_Spec release) in
  let m := release_meta release in
  if blank ref then [field_Required p (Msg "appRef is required")]
  else match get_App (Namespace m) ref with
  | NotFound => [field_Invalid p ref (Msg "referenced App does not exist")]
  | GetFailed _ => [field_InternalError p (Sprintf "unable to verify App %q" [ref])]
  | Found app =>
      let tenant := GetLabel m labelTenant in
      let appTenant := GetLabel (app_meta app) labelTenant in
      let project := GetLabel m labelProject in
      let appProject := GetLabel (app_meta app) labelProject in
      when (negb (str_eqb tenant "") && negb (str_eqb appTenant tenant))
        (field_Forbidden p (Sprintf "App %q belongs to tenant %q" [ref; appTenant]))
      ++ when (negb (str_eqb project "") && negb (str_eqb appProject project))
        (field_Forbidden p (Sprintf "App %q belongs to project %q" [ref; appProject]))
  end.

Definition validateRelease (oldRelease : option AppRelease) (newRelease : AppRelease)
    : list field_error :=
  validateRequiredLabels (release_meta newRelease)
  ++ match oldRelease with
     | None => []
     | Some old =>
         validateTenantImmutability (release_meta old) (release_meta newRelease)
         ++ validateAppReleaseImmutability old newRelease
     end
  ++ validateAppReleaseSpecFields newRelease
  ++ validateAppRef newRelease.

Definition Default (o : Object) : result message AppRelease :=
  match o with
  | OAppRelease r => Ok (mkRelease (defaultMetadata (release_meta r)) (release_Spec r))
  | _ => Err (Sprintf "expected AppRelease, got %T" [type_name o])
  end.

Definition ValidateCreate (o : Object) : result status_error (list string) :=
  match o with
  | OAppRelease release =>
      match validateRelease None release with
      | [] => Ok []
      | errs => Err (NewInvalid "AppRelease" (Name (release_meta release)) errs)
      end
  | _ => Err (NewBadRequest (Sprintf "expected AppRelease, got %T" [type_name o]))
  end.

Definition ValidateUpdate (oldObj newObj : Object) : result status_error (list string) :=
  match newObj with
  | OAppRelease newRelease =>
      match oldObj with
      | OAppRelease oldRelease =>
          match validateRelease (Some oldRelease) newRelease with
          | [] => Ok []
          | errs => Err (NewInvalid "AppRelease" (Name (release_meta newRelease)) errs)
          end
      | _ => Err (NewBadRequest (Sprintf "expected AppRelease, got %T" [type_name oldObj]))
      end
  | _ => Err (NewBadRequest (Sprintf "expected AppRelease, got %T" [type_name newObj]))
  end.

Definition ValidateDelete (o : Object) : result status_error (list string) := Ok [].
End AppReleaseWebhook.
End AppReleaseWebhook.

(** ** ServiceBindingWebhook *)

Module ServiceBindingWebhook.
Section ServiceBindingWebhook.
Context `{kc : Client}.

Definition validateBindingConsumer (binding : ServiceBinding) (tenant : string) : list field_error :=
  let p := [Child "spec"; Child "consumerRef"] in
  let name := consumer_Name binding in
  let ns := Namespace (binding_meta binding) in
  if str_eqb (consumer_Type binding) ConsumerTypeApp then
    match get_App ns name with
    | NotFound => [field_Invalid (p ++ [Child "name"]) name (Msg "referenced App does not exist")]
    | GetFailed _ =>
        [field_InternalError (p ++ [Child "name"]) (Sprintf "unable to verify App %q" [name])]
    | Found app =>
        let appTenant := GetLabel (app_meta app) labelTenant in
        when (negb (str_eqb appTenant tenant))
          (field_Forbidden (p ++ [Child "name"])
             (Sprintf "App %q belongs to tenant %q" [name; appTenant]))
    end
  else if str_eqb (consumer_Type binding) ConsumerTypeServiceAccount then
    match get_ServiceAccount ns name with
    | NotFound => [field_Invalid (p ++ [Child "name"]) name (Msg "serviceAccount does not exist")]
    | GetFailed _ =>
        [field_InternalError (p ++ [Child "name"])
           (Sprintf "unable to verify ServiceAccount %q" [name])]
    | Found sa =>
        when (negb (str_eqb (Namespace sa) ns))
          (field_Forbidden (p ++ [Child "name"])
             (Sprintf "serviceAccount %q must reside in namespace %q" [name; ns]))
    end
  else [field_Invalid (p ++ [Child "type"]) (consumer_Type binding) (Msg "unsupported consumer type")].

Definition providerLookupError (p : path) (binding : ServiceBinding) (err : option string)
    : field_error :=
  match err with
  | None (* IsNotFound *) =>
      field_Invalid (p ++ [Child "name"]) (provider_Name binding)
        (Msg "referenced provider does not exist")
  | Some err =>
      field_InternalError (p ++ [Child "name"])
        (Sprintf "unable to verify provider %q: %v" [provider_Name binding; err])
  end.

(** One case of the provider switch. *)
Definition checkProvider (p : path) (kind : string) (r : get_result ObjectMeta)
    (binding : ServiceBinding) (tenant : string) : list field_error :=
  match r with
  | NotFound => [providerLookupError p binding None]
  | GetFailed err => [providerLookupError p binding (Some err)]
  | Found m =>
      let t := GetLabel m labelTenant in
      when (negb (str_eqb t tenant))
        (field_Forbidden (p ++ [Child "name"])
           (Sprintf (kind +:+ " %q belongs to tenant %q") [provider_Name binding; t]))
  end.

Definition validateBindingProvider (binding : ServiceBinding) (tenant : string) : list field_error :=
  let p := [Child "spec"; Child "providerRef"] in
  let name := provider_Name binding in
  let ns := Namespace (binding_meta binding) in
  if blank name then [field_Required (p ++ [Child "name"]) (Msg "provider name is required")]
  else if str_eqb (provider_Type binding) ProviderTypeDatabase then
    checkProvider p "DatabaseInstance" (get_DatabaseInstance ns name) binding tenant
  else if str_eqb (provider_Type binding) ProviderTypeCache then
    checkProvider p "CacheInstance" (get_CacheInstance ns name) binding tenant
  else if str_eqb (provider_Type binding) ProviderTypeQueue then
    checkProvider p "QueueInstance" (get_QueueInstance ns name) binding tenant
  else [field_Invalid (p ++ [Child "type"]) (provider_Type binding) (Msg "unsupported provider type")].

Definition validateBinding (oldBinding : option ServiceBinding) (newBinding : ServiceBinding)
    : list field_error :=
  let base := validateRequiredLabels (binding_meta newBinding)
    ++ tenantImmutability (binding_meta <$> oldBinding) (binding_meta newBinding) in
  let tenant := TrimSpace (GetLabel (binding_meta newBinding) labelTenant) in
  if str_eqb tenant "" then base
  else base ++ validateBindingConsumer newBinding tenant
         ++ validateBindingProvider newBinding tenant.

Definition Default (o : Object) : result message ServiceBinding :=
  match o with
  | OServiceBinding b =>
      Ok (mkBinding (defaultMetadata (binding_meta b)) (consumer_Type b) (consumer_Name b)
            (provider_Type b) (provider_Name b))
  | _ => Err (Sprintf "expected ServiceBinding, got %T" [type_name o])
  end.

Definition ValidateCreate (o : Object) : result status_error (list string) :=
  match o with
  | OServiceBinding binding =>
      match validateBinding None binding with
      | [] => Ok []
      | errs => Err (NewInvalid "ServiceBinding" (Name (binding_meta binding)) errs)
      end
  | _ => Err (NewBadRequest (Sprintf "expected ServiceBinding, got %T" [type_name o]))
  end.

Definition ValidateUpdate (oldObj newObj : Object) : result status_error (list string) :=
  match newObj with
  | OServiceBinding newBinding =>
      match oldObj with
      | OServiceBinding oldBinding =>
          match validateBinding (Some oldBinding) newBinding with
          | [] => Ok []
          | errs => Err (NewInvalid "ServiceBinding" (Name (binding_meta newBinding)) errs)
          end
      | _ => Err (NewBadRequest (Sprintf "expected ServiceBinding, got %T" [type_name oldObj]))
      end
  | _ => Err (NewBadRequest (Sprintf "expected ServiceBinding, got %T" [type_name newObj]))
  end.

Definition ValidateDelete (o : Object) : result status_error (list string) := Ok [].
End ServiceBindingWebhook.
End ServiceBindingWebhook.

(** ** BucketWebhook *)

Module BucketWebhook.
Section BucketWebhook.
Context `{kc : Client}.

Definition checkPolicyRef (bucket : Bucket) (i : nat) (name : string) : list field_error :=
  let m := bucket_meta bucket in
  let p := [Child "spec"; Child "policyRefs"; Index i] in
  let tenant := TrimSpace (GetLabel m labelTenant) in
  let project := TrimSpace (GetLabel m labelProject) in
  let app := TrimSpace (GetLabel m labelApp) in
  match get_BucketPolicy (Namespace m) name with
  | NotFound => [field_Invalid p name (Msg "referenced BucketPolicy does not exist")]
  | GetFailed _ => [field_InternalError p (Sprintf "unable to verify BucketPolicy %q" [name])]
  | Found policy =>
      let t := GetLabel policy labelTenant in
      let pr := GetLabel policy labelProject in
      let a := GetLabel policy labelApp in
      when (negb (str_eqb tenant "") && negb (str_eqb t tenant))
        (field_Forbidden p (Sprintf "BucketPolicy %q belongs to tenant %q" [name; t]))
      ++ when (negb (str_eqb project "") && negb (str_eqb pr project))
        (field_Forbidden p (Sprintf "BucketPolicy %q belongs to project %q" [name; pr]))
      ++ when (negb (str_eqb app "") && negb (str_eqb a app))
        (field_Forbidden p (Sprintf "BucketPolicy %q belongs to app %q" [name; a]))
  end.

Definition validateBucket (oldBucket : option Bucket) (newBucket : Bucket) : list field_error :=
  validateRequiredLabels (bucket_meta newBucket)
  ++ tenantImmutability (bucket_meta <$> oldBucket) (bucket_meta newBucket)
  ++ collect (checkPolicyRef newBucket) (PolicyRefs newBucket).

Definition Default (o : Object) : result message Bucket :=
  match o with
  | OBucket b => Ok (mkBucket (defaultMetadata (bucket_meta b)) (PolicyRefs b))
  | _ => Err (Sprintf "expected Bucket, got %T" [type_name o])
  end.

Definition ValidateCreate (o : Object) : result status_error (list string) :=
  match o with
  | OBucket bucket =>
      match validateBucket None bucket with
      | [] => Ok []
      | errs => Err (NewInvalid "Bucket" (Name (bucket_meta bucket)) errs)
      end
  | _ => Err (NewBadRequest (Sprintf "expected Bucket, got %T" [type_name o]))
  end.

Definition ValidateUpdate (oldObj newObj : Object) : result status_error (list string) :=
  match newObj with
  | OBucket newBucket =>
      match oldObj with
      | OBucket oldBucket =>
          match validateBucket (Some oldBucket) newBucket with
          | [] => Ok []
          | errs => Err (NewInvalid "Bucket" (Name (bucket_meta newBucket)) errs)
          end
      | _ => Err (NewBadRequest (Sprintf "expected Bucket, got %T" [type_name oldObj]))
      end
  | _ => Err (NewBadRequest (Sprintf "expected Bucket, got %T" [type_name newObj]))
  end.

Definition ValidateDelete (o : Object) : result status_error (list string) := Ok [].
End BucketWebhook.
End BucketWebhook.

(** ** JobWebhook *)

Module JobWebhook.

Definition containsSysAdmin (sc : option SecurityContext) : bool :=
  match sc with
  | None => false
  | Some sc =>
      match Capabilities_Add sc with
      | None => false
      | Some add => existsb (fun cap => EqualFold cap "SYS_ADMIN") add
      end
  end.

Definition containerCapabilitiesPath (base : path) (list_name : string) (idx : nat) : path :=
  base ++ [Child list_name; Index idx; Child "securityContext"; Child "capabilities"].

(** [RunAsNonRoot != nil && !*RunAsNonRoot], [RunAsUser != nil && *RunAsUser == 0] *)
Definition explicit_root (nonRoot : option bool) (user : option Z) : bool :=
  match nonRoot with Some b => negb b | None => false end
  || match user with Some u => Z.eqb u 0 | None => false end.

Definition allowsRoot (sc : option PodSecurityContext) : bool :=
  match sc with
  | None => false
  | Some sc => explicit_root (pod_RunAsNonRoot sc) (pod_RunAsUser sc)
  end.

Definition allowsRootWithFallback (containerSC : option SecurityContext)
    (podSC : option PodSecurityContext) : bool :=
  match containerSC with
  | Some sc => explicit_root (RunAsNonRoot sc) (RunAsUser sc)
  | None => false
  end || allowsRoot podSC.

Definition requiresRootJustification (podSpec : PodSpec) : bool :=
  allowsRoot (pod_SC podSpec)
  || existsb (fun c => allowsRootWithFallback (container_SC c) (pod_SC podSpec)) (InitContainers podSpec)
  || existsb (fun c => allowsRootWithFallback (container_SC c) (pod_SC podSpec)) (Containers podSpec).

Definition validateJob (oldJob : option Job) (job : Job) : list field_error :=
  let podSpec := job_PodSpec job in
  let podPath := [Child "spec"; Child "template"; Child "spec"] in
  let sysAdmin list_name := collect (fun idx c =>
    when (containsSysAdmin (container_SC c))
      (field_Forbidden (containerCapabilitiesPath podPath list_name idx)
         (Msg "CAP_SYS_ADMIN capability is not permitted"))) in
  validateRequiredLabels (job_meta job)
  ++ tenantImmutability (job_meta <$> oldJob) (job_meta job)
  ++ when (HostNetwork podSpec)
       (field_Forbidden (podPath ++ [Child "hostNetwork"])
          (Msg "hostNetwork is not allowed for tenant workloads"))
  ++ when (HostPID podSpec)
       (field_Forbidden (podPath ++ [Child "hostPID"])
          (Msg "hostPID is not allowed for tenant workloads"))
  ++ when (HostIPC podSpec)
       (field_Forbidden (podPath ++ [Child "hostIPC"])
          (Msg "hostIPC is not allowed for tenant workloads"))
  ++ collect (fun idx vol =>
       when (bool_decide (is_Some (volume_HostPath vol)))
         (field_Forbidden (podPath ++ [Child "volumes"; Index idx])
            (Msg "hostPath volumes are not permitted"))) (Volumes podSpec)
  ++ sysAdmin "initContainers" (InitContainers podSpec)
  ++ sysAdmin "containers" (Containers podSpec)
  ++ when (requiresRootJustification podSpec
           && blank (map_get (Annotations (job_meta job)) annotationRunAsRootJustification))
       (field_Required [Child "metadata"; Child "annotations"; Key annotationRunAsRootJustification]
          (Msg "runAsRoot workloads must include a justification")).

Definition Default (o : Object) : result message Job :=
  match o with
  | OJob j => Ok (mkJob (defaultMetadata (job_meta j)) (job_PodSpec j))
  | _ => Err (Sprintf "expected Job, got %T" [type_name o])
  end.

Definition ValidateCreate (o : Object) : result status_error (list string) :=
  match o with
  | OJob job =>
      match validateJob None job with
      | [] => Ok []
      | errs => Err (NewInvalid "Job" (Name (job_meta job)) errs)
      end
  | _ => Err (NewBadRequest (Sprintf "expected Job, got %T" [type_name o]))
  end.

(** [oldObj] may be nil. *)
Definition ValidateUpdate (oldObj : option Object) (newObj : Object)
    : result status_error (list string) :=
  match newObj with
  | OJob job =>
      match oldObj with
      | Some (OJob old) =>
          match validateJob (Some old) job with
          | [] => Ok []
          | errs => Err (NewInvalid "Job" (Name (job_meta job)) errs)
          end
      | Some oldObj => Err (NewBadRequest (Sprintf "expected Job, got %T" [type_name oldObj]))
      | None =>
          match validateJob None job with
          | [] => Ok []
          | errs => Err (NewInvalid "Job" (Name (job_meta job)) errs)
          end
      end
  | _ => Err (NewBadRequest (Sprintf "expected Job, got %T" [type_name newObj]))
  end.

Definition ValidateDelete (o : Object) : result status_error (list string) := Ok [].

End JobWebhook.

(** ** Setup: which webhook serves which type *)

(** [genericRegistrations]: Go type and kind of the types the label guard serves (the
    BucketWebhook is registered first for Bucket). *)
Definition genericRegistrations : list (string * string) :=
  [("*v1alpha1.ConfigRef", "ConfigRef"); ("*v1alpha1.SecretRef", "SecretRef");
   ("*v1alpha1.IngressRoute", "IngressRoute"); ("*v1alpha1.CacheInstance", "CacheInstance");
   ("*v1alpha1.DatabaseInstance", "DatabaseInstance"); ("*v1alpha1.QueueInstance", "QueueInstance");
   ("*v1alpha1.Bucket", "Bucket"); ("*v1alpha1.BucketPolicy", "BucketPolicy")].

(** The kind of the guard that serves a Go type, if any. *)
Definition guardKind (t : string) : option string :=
  snd <$> List.find (fun r => str_eqb (fst r) t) genericRegistrations.

Section Setup.
Context `{kc : Client} `{lib : Libraries}.

Definition loader : option registryPolicyLoader := Some configMapRegistryPolicyLoader.

(** A type without a registration is admitted without a call. *)
Definition webhook_create (o : Object) : result status_error (list string) :=
  match o with
  | OApp _ => AppWebhook.ValidateCreate loader o
  | OProject _ => ProjectWebhook.ValidateCreate o
  | OAppRelease _ => AppReleaseWebhook.ValidateCreate o
  | OServiceBinding _ => ServiceBindingWebhook.ValidateCreate o
  | OBucket _ => BucketWebhook.ValidateCreate o
  | OJob _ => JobWebhook.ValidateCreate o
  | OOther t _ =>
      match guardKind t with
      | Some kind => LabelGuardWebhook.ValidateCreate kind o
      | None => Ok []
      end
  end.

Definition webhook_update (oldObj newObj : Object) : result status_error (list string) :=
  match newObj with
  | OApp _ => AppWebhook.ValidateUpdate loader oldObj newObj
  | OProject _ => ProjectWebhook.ValidateUpdate oldObj newObj
  | OAppRelease _ => AppReleaseWebhook.ValidateUpdate oldObj newObj
  | OServiceBinding _ => ServiceBindingWebhook.ValidateUpdate oldObj newObj
  | OBucket _ => BucketWebhook.ValidateUpdate oldObj newObj
  | OJob _ => JobWebhook.ValidateUpdate (Some oldObj) newObj
  | OOther t _ =>
      match guardKind t with
      | Some kind => LabelGuardWebhook.ValidateUpdate kind oldObj newObj
      | None => Ok []
      end
  end.

(** The mutating half, which runs before validation. *)
Definition webhook_default (o : Object) : result message Object :=
  match o with
  | OApp _ => OApp <$> AppWebhook.Default o
  | OProject _ => OProject <$> ProjectWebhook.Default o
  | OAppRelease _ => OAppRelease <$> AppReleaseWebhook.Default o
  | OServiceBinding _ => OServiceBinding <$> ServiceBindingWebhook.Default o
  | OBucket _ => OBucket <$> BucketWebhook.Default o
  | OJob _ => OJob <$> JobWebhook.Default o
  | OOther t m =>
      match guardKind t with
      | Some _ => (fun m => OOther t (Some m)) <$> LabelGuardWebhook.Default o
      | None => Ok o
      end
  end.
End Setup.
