(* ===== verification/WebhookProofs.v ===== *)
(** What the admission webhooks guarantee: characterisations of every validator
    and the invariants of objects that only change through admitted requests. *)

From Stdlib Require Import Ascii ZArith Lia.
From stdpp Require Import base gmap strings list relations.
From S2P Require Import Prelude Utf8 GoStrings NetURL Kube Policy Webhooks.

(** ** Labels *)

Definition labels_ok (m : ObjectMeta) : Prop :=
  forall k, k ∈ requiredLabelKeys -> TrimSpace (GetLabel m k) <> "".

(** The tenant an object belongs to. *)
Definition tenant_of (m : ObjectMeta) : string := TrimSpace (GetLabel m labelTenant).

Definition tenant_kept (old new : ObjectMeta) : Prop :=
  tenant_of old = "" \/ tenant_of new = tenant_of old.

Lemma validateRequiredLabels_nil m : validateRequiredLabels m = [] <-> labels_ok m.
Proof.
  unfold validateRequiredLabels, labels_ok, requiredLabelKeys. cbn.
  rewrite !app_nil_iff, !when_nil, !blank_false. split.
  - intros (H1 & H2 & H3 & _) k Hk. by repeat (apply elem_of_cons in Hk as [->|Hk]; [done|]);
      apply not_elem_of_nil in Hk.
  - intros H. repeat split; apply H; set_solver.
Qed.

Lemma validateTenantImmutability_nil old new :
  validateTenantImmutability old new = [] <-> tenant_kept old new.
Proof.
  unfold validateTenantImmutability, tenant_kept, tenant_of. rewrite when_nil.
  rewrite andb_false_iff, !negb_false_iff, !str_eqb_eq. done.
Qed.

Lemma tenantImmutability_nil old new :
  tenantImmutability old new = [] <-> forall o, old = Some o -> tenant_kept o new.
Proof.
  destruct old as [o|]; cbn; [rewrite validateTenantImmutability_nil|]; naive_solver.
Qed.

Lemma labels_ok_tenant m : labels_ok m -> tenant_of m <> "" /\ GetLabel m labelTenant <> "".
Proof.
  intros H. assert (tenant_of m <> "") as Ht by (apply H; set_solver). split; [done|].
  intros E. apply Ht. unfold tenant_of. by rewrite E.
Qed.

(** ** Reference lists *)

(** The reference [name] resolves in the App's namespace to an object of the tenant. *)
Definition ref_ok (get : string -> string -> get_result ObjectMeta) (ns tenant name : string) : Prop :=
  exists m, get ns name = Found m /\ GetLabel m labelTenant = tenant.

Lemma validateRefs_nil get kind field names app tenant :
  AppWebhook.validateRefs get kind field names app tenant = [] <->
  Forall (ref_ok get (Namespace (app_meta app)) tenant) names.
Proof.
  unfold AppWebhook.validateRefs. apply collect_nil_Forall. intros i name. unfold ref_ok.
  destruct (get _ name) as [m| |e].
  - rewrite when_nil, negb_false_iff, str_eqb_eq. naive_solver.
  - naive_solver.
  - naive_solver.
Qed.

(** ** Specification of App admission *)

Section AppSpec.
Context `{kc : Client} `{lib : Libraries} (loader : option registryPolicyLoader).

Definition version_ok (app : App) : Prop :=
  let v := TrimSpace (Version (app_Spec app)) in
  let r := TrimSpace (VersionRange (app_Spec app)) in
  (v = "" \/ r = "") /\
  (v <> "" -> exists u, semver_NewVersion (stripSemverPrefixes v) = Ok u) /\
  (r <> "" -> exists u, semver_NewConstraint r = Ok u).

Definition service_type (pr : AppServiceProfile) : string :=
  if str_eqb (profile_Type pr) "" then ServiceTypeClusterIP else profile_Type pr.

(** Under a network policy profile a type other than ClusterIP and every external address need a service
    policy that lists them; without one only LoadBalancer and external addresses are refused. *)
Definition service_ok (app : App) (project : Project) : Prop :=
  forall pr, ServiceProfile (app_Spec app) = Some pr ->
  let ref := NetworkPolicyProfileRef (project_Spec project) in
  (TrimSpace ref = "" /\ service_type pr <> ServiceTypeLoadBalancer /\ ExternalIPs pr = []) \/
  (TrimSpace ref <> "" /\ exists np, get_NetworkPolicyProfile ref = Found np /\
    (service_type pr = ServiceTypeClusterIP \/
     exists sp, ServicePolicy np = Some sp /\ service_type pr ∈ AllowedTypes sp) /\
    Forall (fun ip => exists sp, ServicePolicy np = Some sp /\ ip ∈ AllowedExternalIPs sp)
      (ExternalIPs pr)).

(** The project label names a Project of the App's tenant. *)
Definition project_ok (app : App) : Prop :=
  let tenant := GetLabel (app_meta app) labelTenant in
  exists project,
    get_Project (Namespace (app_meta app)) (TrimSpace (GetLabel (app_meta app) labelProject))
      = Found project /\
    (TenantRef (project_Spec project) = "" \/ TenantRef (project_Spec project) = tenant) /\
    (tenant_of (project_meta project) = "" \/ tenant_of (project_meta project) = tenant) /\
    service_ok app project.

Definition image_ok (p : RegistryPolicy) (app : App) : Prop :=
  let image := TrimSpace (Image (app_Spec app)) in
  image = "" \/ exists repo registry, name_ParseReference image = Ok (repo, registry) /\
    AllowsRegistry (Some p) (ToLower registry) = true /\
    AllowsRepository (Some p) (ToLower repo) = true.

Definition source_ok (p : RegistryPolicy) (app : App) : Prop :=
  forall src, Source (app_Spec app) = Some src -> TrimSpace (source_URL src) <> "" ->
  exists host repo,
    AppWebhook.registryInfoFromSource (app_Type (app_Spec app)) (Some src)
      [Child "spec"; Child "source"; Child "url"] = (host, repo, []) /\
    (host = "" \/ AllowsRegistry (Some p) host = true) /\
    (repo = "" \/ AllowsRepository (Some p) repo = true).

Definition registry_ok (app : App) : Prop :=
  match loader with
  | None => True
  | Some l => exists p, @PolicyFor l (Namespace (app_meta app)) = Ok p /\
      forall doc, p = Some doc -> image_ok doc app /\ source_ok doc app
  end.

Record app_admissible (old : option App) (app : App) : Prop := {
  adm_labels : labels_ok (app_meta app);
  adm_tenant : forall o, old = Some o -> tenant_kept (app_meta o) (app_meta app);
  adm_version : version_ok app;
  adm_config : Forall (ref_ok get_ConfigRef (Namespace (app_meta app))
                 (GetLabel (app_meta app) labelTenant)) (ValuesRefs (app_Spec app));
  adm_secret : Forall (ref_ok get_SecretRef (Namespace (app_meta app))
                 (GetLabel (app_meta app) labelTenant)) (SecretsRefs (app_Spec app));
  adm_ingress : Forall (ref_ok get_IngressRoute (Namespace (app_meta app))
                 (GetLabel (app_meta app) labelTenant)) (IngressRefs (app_Spec app));
  adm_project : project_ok app;
  adm_registry : registry_ok app;
}.
End AppSpec.

Section AppProofs.
Context `{kc : Client} `{lib : Libraries} (loader : option registryPolicyLoader).

Lemma validateAppVersion_nil app : AppWebhook.validateAppVersion app = [] <-> version_ok app.
Proof.
  unfold AppWebhook.validateAppVersion, version_ok.
  set (v := TrimSpace (Version _)). set (r := TrimSpace (VersionRange _)). cbv zeta.
  rewrite !app_nil_iff, when_nil, andb_false_iff, !negb_false_iff, !str_eqb_eq.
  destruct (str_eqb v "") eqn:Ev, (str_eqb r "") eqn:Er;
    rewrite ?str_eqb_eq, ?str_eqb_neq in *; repeat case_match; naive_solver.
Qed.

Lemma existsb_str_eqb x l : existsb (str_eqb x) l = true <-> x ∈ l.
Proof. rewrite existsb_exists_elem. setoid_rewrite str_eqb_eq. naive_solver. Qed.

Lemma external_ips_nil (p : path) (ips allowed : list string) :
  (if length ips =? 0 then []
   else if length allowed =? 0 then
     [field_Forbidden (p ++ [Child "externalIPs"])
        (Msg "external IPs are not allowed by the service policy")]
   else collect (fun idx ip =>
     when (negb (existsb (str_eqb ip) allowed))
       (field_Forbidden (p ++ [Child "externalIPs"; Index idx])
          (Sprintf "external IP %q is not in the allowlist" [ip]))) ips) = [] <->
  Forall (fun ip => ip ∈ allowed) ips.
Proof.
  destruct ips as [|ip ips]; [split; [constructor|done]|]. cbn [length Nat.eqb].
  destruct allowed as [|a allowed].
  - cbn. split; [done|]. intros H. inversion H as [|? ? H1]. by apply not_elem_of_nil in H1.
  - cbn [length Nat.eqb]. apply collect_nil_Forall. intros i x.
    rewrite when_nil, negb_false_iff. apply existsb_str_eqb.
Qed.

Lemma type_allowed_iff t allowed :
  (if str_eqb t ServiceTypeClusterIP then true
   else if length allowed =? 0 then false else existsb (str_eqb t) allowed) = true <->
  t = ServiceTypeClusterIP \/ t ∈ allowed.
Proof.
  destruct (str_eqb t _) eqn:E; [apply str_eqb_eq in E; naive_solver|].
  apply str_eqb_neq in E. destruct allowed as [|a l].
  - cbn. split; [done|]. intros [H|H]; [done | by apply not_elem_of_nil in H].
  - cbn [length Nat.eqb]. rewrite existsb_str_eqb. naive_solver.
Qed.

Lemma validateServicePolicy_nil app project :
  AppWebhook.validateServicePolicy app (Some project) = [] <-> service_ok app project.
Proof.
  unfold AppWebhook.validateServicePolicy, service_ok.
  destruct (ServiceProfile (app_Spec app)) as [pr|]; [|naive_solver].
  fold (service_type pr). set (ref := NetworkPolicyProfileRef _). cbv zeta.
  destruct (blank ref) eqn:Eb; rewrite ?blank_true, ?blank_false in Eb.
  - rewrite app_nil_iff, !when_nil, str_eqb_neq, Nat.ltb_ge.
    assert (length (ExternalIPs pr) <= 0 <-> ExternalIPs pr = []) as ->.
    { destruct (ExternalIPs pr); cbn; split; (done || lia). }
    naive_solver.
  - destruct (get_NetworkPolicyProfile ref) as [np| |e]; [|naive_solver..].
    rewrite app_nil_iff, when_nil, negb_false_iff, type_allowed_iff, external_ips_nil.
    destruct (ServicePolicy np) as [sp|] eqn:Es.
    + split.
      * intros [Ht Hi] q [= <-]. right. split; [done|]. exists np. split; [done|].
        rewrite Es. split; [naive_solver|]. eapply Forall_impl; [exact Hi|]. naive_solver.
      * intros H. destruct (H pr eq_refl) as [[? _]|(_ & np' & [= <-] & Ht & Hi)]; [done|].
        rewrite Es in *. split; [naive_solver|]. eapply Forall_impl; [exact Hi|]. naive_solver.
    + split.
      * intros [Ht Hi] q [= <-]. right. split; [done|]. exists np. split; [done|].
        split; [destruct Ht as [->|Ht]; [by left | by apply not_elem_of_nil in Ht]|].
        eapply Forall_impl; [exact Hi|]. intros ip Hip. by apply not_elem_of_nil in Hip.
      * intros H. destruct (H pr eq_refl) as [[? _]|(_ & np' & [= <-] & Ht & Hi)]; [done|].
        rewrite Es in *. split; [naive_solver|]. eapply Forall_impl; [exact Hi|]. naive_solver.
Qed.

Lemma project_part_nil app :
  labels_ok (app_meta app) ->
  (let '(project, errs) := AppWebhook.projectForApp app (GetLabel (app_meta app) labelTenant) in
   errs = [] /\ AppWebhook.validateServicePolicy app project = []) <-> project_ok app.
Proof.
  intros Hl. destruct (labels_ok_tenant _ Hl) as [_ Ht].
  assert (TrimSpace (GetLabel (app_meta app) labelProject) <> "") as Hp
    by (apply Hl; set_solver).
  unfold AppWebhook.projectForApp, project_ok.
  rewrite (proj2 (str_eqb_neq _ _) Hp), (proj2 (str_eqb_neq _ _) Ht).
  destruct (get_Project _ _) as [project| |e]; [|naive_solver..].
  rewrite validateServicePolicy_nil, app_nil_iff, !when_nil. cbn [negb andb].
  rewrite !andb_false_iff, !negb_false_iff, !str_eqb_eq.
  fold (tenant_of (project_meta project)). naive_solver.
Qed.

Lemma validateImage_nil p app : AppWebhook.validateImage p app = [] <-> image_ok p app.
Proof.
  unfold AppWebhook.validateImage, image_ok. cbv zeta.
  destruct (str_eqb (TrimSpace (Image _)) "") eqn:E; rewrite ?str_eqb_eq, ?str_eqb_neq in E;
    [naive_solver|].
  destruct (name_ParseReference _) as [[repo registry]|err]; [|naive_solver].
  rewrite app_nil_iff, !when_nil, !negb_false_iff. naive_solver.
Qed.

Lemma validateSource_nil p app : AppWebhook.validateSource p app = [] <-> source_ok p app.
Proof.
  unfold AppWebhook.validateSource, source_ok.
  destruct (Source (app_Spec app)) as [src|]; [|naive_solver].
  destruct (blank (source_URL src)) eqn:Eb; rewrite ?blank_true, ?blank_false in Eb.
  { split; [|done]. intros _ s [= <-]. done. }
  destruct (AppWebhook.registryInfoFromSource _ _ _) as [[host repo] errs] eqn:Er.
  change (AppWebhook.spec_path ++ [Child "source"; Child "url"])
    with [Child "spec"; Child "source"; Child "url"] in Er.
  assert ((exists h r, (host, repo, errs) = (h, r, []) /\
      (h = "" \/ AllowsRegistry (Some p) h = true) /\
      (r = "" \/ AllowsRepository (Some p) r = true)) <->
    (forall s, Some src = Some s -> TrimSpace (source_URL s) <> "" -> exists h r,
      AppWebhook.registryInfoFromSource (app_Type (app_Spec app)) (Some s)
        [Child "spec"; Child "source"; Child "url"] = (h, r, []) /\
      (h = "" \/ AllowsRegistry (Some p) h = true) /\
      (r = "" \/ AllowsRepository (Some p) r = true))) as <-.
  { rewrite <- Er. split; [intros H s [= <-] _; exact H | intros H; by apply H]. }
  rewrite app_nil_iff. destruct errs as [|e errs]; cbn [length Nat.eqb].
  - rewrite app_nil_iff, !when_nil, !andb_false_iff, !negb_false_iff, !str_eqb_eq. naive_solver.
  - naive_solver.
Qed.

Lemma validateRegistryPolicy_nil app :
  snd (AppWebhook.validateRegistryPolicy loader app) = [] <-> registry_ok loader app.
Proof.
  unfold AppWebhook.validateRegistryPolicy, registry_ok. destruct loader as [l|]; [|done].
  destruct (PolicyFor _) as [[doc|]|err]; cbn [snd].
  - rewrite app_nil_iff, validateImage_nil, validateSource_nil. naive_solver.
  - naive_solver.
  - naive_solver.
Qed.

Lemma validateApp_nil old app :
  snd (AppWebhook.validateApp loader old app) = [] <-> app_admissible loader old app.
Proof.
  unfold AppWebhook.validateApp. cbv zeta.
  destruct (AppWebhook.validateRegistryPolicy loader app) as [w perrs] eqn:Ep.
  pose proof (validateRegistryPolicy_nil app) as Hr. rewrite Ep in Hr. cbn in Hr.
  destruct (str_eqb (GetLabel (app_meta app) labelTenant) "") eqn:Et.
  - apply str_eqb_eq in Et. cbn [snd]. rewrite !app_nil_iff, validateRequiredLabels_nil.
    split; [|intros [H]; by apply labels_ok_tenant in H as [_ ?]].
    intros [(H & _) _]. by apply labels_ok_tenant in H as [_ ?].
  - destruct (AppWebhook.projectForApp app _) as [project errs] eqn:Epr. cbn [snd].
    rewrite !app_nil_iff, validateRequiredLabels_nil, tenantImmutability_nil, validateAppVersion_nil.
    unfold AppWebhook.validateConfigRefs, AppWebhook.validateSecretRefs,
      AppWebhook.validateIngressRefs. rewrite !validateRefs_nil, Hr.
    pose proof (project_part_nil app) as Hp. rewrite Epr in Hp.
    setoid_rewrite fmap_Some. split.
    + intros ((Hl & Ho & Hv) & (Hc & Hs & Hi) & He & Hsv & Hreg).
      constructor; try done; [|by apply Hp].
      intros o ->. apply (Ho (app_meta o)). eauto.
    + intros [Hl Ho Hv Hc Hs Hi Hpr Hreg]. apply Hp in Hpr as [He Hsv]; [|done].
      split_and!; try done. intros m (o & -> & ->). by apply Ho.
Qed.
End AppProofs.

(** The verdict of a webhook. *)
Definition admits {A} (r : result status_error A) : Prop := exists a, r = Ok a.

Lemma admits_errs {A B} (w : A) (errs : list B) (mk : B -> list B -> status_error) :
  admits (match errs with [] => Ok w | e :: es => Err (mk e es) end) <-> errs = [].
Proof. unfold admits. destruct errs; naive_solver. Qed.

Lemma admits_pair {A B} (p : list A * list B) (mk : list B -> status_error) :
  admits (match p with (w, []) => Ok w | (_, errs) => Err (mk errs) end) <-> snd p = [].
Proof. unfold admits. destruct p as [w [|e errs]]; naive_solver. Qed.

(** C7: an App is admitted on create or update exactly when the declarative
    policy holds: tenancy labels present, version pin and range well-formed and exclusive,
    every ConfigRef, SecretRef and IngressRoute reference resolves in the App's namespace to
    an object of the same tenant, the project label names an existing Project of that
    tenant, the image and chart source are covered by the registry policy, an update keeps the tenant
    label, and the service exposure is covered: a project with a network policy profile
    admits the types and external addresses its service policy lists, besides ClusterIP;
    a project without a profile admits every type but LoadBalancer, a NodePort included, and no
    external addresses. *)
Theorem app_admission_iff `{kc : Client} `{lib : Libraries} loader old app :
  (admits (AppWebhook.ValidateCreate loader (OApp app)) <-> app_admissible loader None app) /\
  (admits (AppWebhook.ValidateUpdate loader (OApp old) (OApp app)) <->
   app_admissible loader (Some old) app).
Proof. cbn. rewrite !admits_pair. split; apply validateApp_nil. Qed.

(** ** Project *)

Definition project_admissible (old : option Project) (p : Project) : Prop :=
  labels_ok (project_meta p) /\
  (forall o, old = Some o -> tenant_kept (project_meta o) (project_meta p)
     /\ TenantRef (project_Spec o) = TenantRef (project_Spec p)) /\
  (TenantRef (project_Spec p) = "" \/ tenant_of (project_meta p) = TenantRef (project_Spec p)) /\
  TrimSpace (GetLabel (project_meta p) labelProject) = Name (project_meta p).

Lemma validateProject_nil old p :
  ProjectWebhook.validateProject old p = [] <-> project_admissible old p.
Proof.
  unfold ProjectWebhook.validateProject, project_admissible. cbv zeta.
  rewrite !app_nil_iff, validateRequiredLabels_nil, tenantImmutability_nil, !when_nil.
  rewrite !andb_false_iff, !negb_false_iff, !str_eqb_eq. fold (tenant_of (project_meta p)).
  assert (labels_ok (project_meta p) -> tenant_of (project_meta p) <> "" /\
    TrimSpace (GetLabel (project_meta p) labelProject) <> "") as Hne.
  { intros Hl. split; [by apply labels_ok_tenant | apply Hl; set_solver]. }
  destruct old as [o|]; cbn [fmap option_fmap option_map].
  - rewrite when_nil, negb_false_iff, str_eqb_eq. naive_solver.
  - naive_solver.
Qed.

(** A Project is admitted on create or update exactly when it has
    the tenancy labels, its project label is its own name, its tenantRef (when set) is its
    tenant label, and on update neither the tenant nor the tenantRef changes. *)
Theorem project_admission_iff old p :
  (admits (ProjectWebhook.ValidateCreate (OProject p)) <-> project_admissible None p) /\
  (admits (ProjectWebhook.ValidateUpdate (OProject old) (OProject p)) <->
   project_admissible (Some old) p).
Proof.
    cbv beta iota delta [ProjectWebhook.ValidateCreate ProjectWebhook.ValidateUpdate]. rewrite !admits_errs.
    split; apply validateProject_nil.
  Qed.

(** ** AppRelease *)

Section Release.
Context `{kc : Client} `{lib : Libraries}.

Definition release_fields_ok (r : AppRelease) : Prop :=
  let s := release_Spec r in
  (TrimSpace (rel_Version s) <> "" ->
     exists u, semver_NewVersion (stripSemverPrefixes (TrimSpace (rel_Version s))) = Ok u) /\
  (TrimSpace (Digest s) <> "" -> digestRegex (TrimSpace (Digest s)) = true) /\
  (TrimSpace (RenderedConfigHash s) <> "" ->
     configHashRegex (TrimSpace (RenderedConfigHash s)) = true).

(** The release and the App it deploys carry the same tenant and project labels. *)
Definition release_app_ok (r : AppRelease) : Prop :=
  exists app, get_App (Namespace (release_meta r)) (AppRef (release_Spec r)) = Found app /\
    GetLabel (app_meta app) labelTenant = GetLabel (release_meta r) labelTenant /\
    GetLabel (app_meta app) labelProject = GetLabel (release_meta r) labelProject.

Definition release_admissible (old : option AppRelease) (r : AppRelease) : Prop :=
  labels_ok (release_meta r) /\
  (forall o, old = Some o -> tenant_kept (release_meta o) (release_meta r)
     /\ release_Spec r = release_Spec o) /\
  release_fields_ok r /\ TrimSpace (AppRef (release_Spec r)) <> "" /\ release_app_ok r.

Lemma validateFields_nil r :
  AppReleaseWebhook.validateAppReleaseSpecFields r = [] <-> release_fields_ok r.
Proof.
  unfold AppReleaseWebhook.validateAppReleaseSpecFields, release_fields_ok. cbv zeta.
  rewrite !app_nil_iff, !when_nil, !andb_false_iff, !negb_false_iff, !str_eqb_eq.
  assert (forall (x : string) (P : Prop), (x = "" \/ P) <-> (x <> "" -> P)) as Hor.
  { intros x P. destruct (decide (x = "")); naive_solver. }
  rewrite !Hor. destruct (str_eqb (TrimSpace (rel_Version _)) "") eqn:E;
    rewrite ?str_eqb_eq, ?str_eqb_neq in E; [naive_solver|].
  case_match; naive_solver.
Qed.

Lemma label_nonblank m k : k ∈ requiredLabelKeys -> labels_ok m -> GetLabel m k <> "".
Proof. intros Hk Hl E. apply (Hl k Hk). by rewrite E. Qed.

Lemma validateAppRef_nil r :
  labels_ok (release_meta r) ->
  AppReleaseWebhook.validateAppRef r = [] <->
  TrimSpace (AppRef (release_Spec r)) <> "" /\ release_app_ok r.
Proof.
  intros Hl.
  pose proof (label_nonblank _ labelTenant ltac:(set_solver) Hl) as Ht.
  pose proof (label_nonblank _ labelProject ltac:(set_solver) Hl) as Hp.
  unfold AppReleaseWebhook.validateAppRef, release_app_ok. cbv zeta.
  destruct (blank _) eqn:Eb; rewrite ?blank_true, ?blank_false in Eb; [naive_solver|].
  destruct (get_App _ _) as [app| |e]; [|naive_solver..].
  rewrite app_nil_iff, !when_nil, !andb_false_iff, !negb_false_iff, !str_eqb_eq. naive_solver.
Qed.

Lemma validateRelease_nil old r :
  AppReleaseWebhook.validateRelease old r = [] <-> release_admissible old r.
Proof.
  unfold AppReleaseWebhook.validateRelease, release_admissible.
  rewrite !app_nil_iff, validateRequiredLabels_nil, validateFields_nil.
  pose proof (validateAppRef_nil r) as Ha.
  destruct old as [o|].
  - rewrite app_nil_iff, validateTenantImmutability_nil.
    unfold AppReleaseWebhook.validateAppReleaseImmutability.
    rewrite when_nil, negb_false_iff, bool_decide_eq_true. naive_solver.
  - naive_solver.
Qed.

(** An AppRelease is admitted exactly when it has the tenancy
    labels, well-formed version, digest and hash fields and an appRef to an existing App
    with the same tenant and project labels; an update must keep the tenant and leave
    the whole spec unchanged. *)
Theorem release_admission_iff old r :
  (admits (AppReleaseWebhook.ValidateCreate (OAppRelease r)) <-> release_admissible None r) /\
  (admits (AppReleaseWebhook.ValidateUpdate (OAppRelease old) (OAppRelease r)) <->
   release_admissible (Some old) r).
Proof.
  cbv beta iota delta [AppReleaseWebhook.ValidateCreate AppReleaseWebhook.ValidateUpdate]. rewrite !admits_errs.
  split; apply validateRelease_nil.
Qed.
End Release.

(** ** ServiceBinding *)

Section Binding.
Context `{kc : Client}.

Definition consumer_ok (b : ServiceBinding) (tenant : string) : Prop :=
  let ns := Namespace (binding_meta b) in
  (consumer_Type b = ConsumerTypeApp /\ exists app, get_App ns (consumer_Name b) = Found app
     /\ GetLabel (app_meta app) labelTenant = tenant) \/
  (consumer_Type b = ConsumerTypeServiceAccount /\ exists sa,
     get_ServiceAccount ns (consumer_Name b) = Found sa /\ Namespace sa = ns).

Definition provider_get (t : string) : option (string -> string -> get_result ObjectMeta) :=
  if str_eqb t ProviderTypeDatabase then Some get_DatabaseInstance
  else if str_eqb t ProviderTypeCache then Some get_CacheInstance
  else if str_eqb t ProviderTypeQueue then Some get_QueueInstance
  else None.

Definition provider_ok (b : ServiceBinding) (tenant : string) : Prop :=
  TrimSpace (provider_Name b) <> "" /\ exists get, provider_get (provider_Type b) = Some get /\
    ref_ok get (Namespace (binding_meta b)) tenant (provider_Name b).

Lemma validateBindingConsumer_nil b tenant :
  ServiceBindingWebhook.validateBindingConsumer b tenant = [] <-> consumer_ok b tenant.
Proof.
  unfold ServiceBindingWebhook.validateBindingConsumer, consumer_ok. cbv zeta.
  destruct (str_eqb _ ConsumerTypeApp) eqn:E1; rewrite ?str_eqb_eq, ?str_eqb_neq in E1.
  - rewrite E1. destruct (get_App _ _) as [app| |e]; [|naive_solver..].
    rewrite when_nil, negb_false_iff, str_eqb_eq. naive_solver.
  - destruct (str_eqb _ ConsumerTypeServiceAccount) eqn:E2;
      rewrite ?str_eqb_eq, ?str_eqb_neq in E2; [|naive_solver].
    destruct (get_ServiceAccount _ _) as [sa| |e]; [|naive_solver..].
    rewrite when_nil, negb_false_iff, str_eqb_eq. naive_solver.
Qed.

Lemma checkProvider_nil p kind get b tenant :
  ServiceBindingWebhook.checkProvider p kind
    (get (Namespace (binding_meta b)) (provider_Name b)) b tenant = [] <->
  ref_ok get (Namespace (binding_meta b)) tenant (provider_Name b).
Proof.
  unfold ServiceBindingWebhook.checkProvider, ref_ok.
  destruct (get _ _) as [m| |e]; [|naive_solver..].
  rewrite when_nil, negb_false_iff, str_eqb_eq. naive_solver.
Qed.

Lemma validateBindingProvider_nil b tenant :
  ServiceBindingWebhook.validateBindingProvider b tenant = [] <-> provider_ok b tenant.
Proof.
  unfold ServiceBindingWebhook.validateBindingProvider, provider_ok, provider_get. cbv zeta.
  destruct (blank _) eqn:Eb; rewrite ?blank_true, ?blank_false in Eb; [naive_solver|].
  repeat (destruct (str_eqb (provider_Type b) _)); rewrite ?checkProvider_nil; naive_solver.
Qed.

Definition binding_admissible (old : option ServiceBinding) (b : ServiceBinding) : Prop :=
  labels_ok (binding_meta b) /\
  (forall o, old = Some o -> tenant_kept (binding_meta o) (binding_meta b)) /\
  consumer_ok b (tenant_of (binding_meta b)) /\ provider_ok b (tenant_of (binding_meta b)).

Lemma validateBinding_nil old b :
  ServiceBindingWebhook.validateBinding old b = [] <-> binding_admissible old b.
Proof.
  unfold ServiceBindingWebhook.validateBinding, binding_admissible. cbv zeta.
  fold (tenant_of (binding_meta b)).
  destruct (str_eqb (tenant_of _) "") eqn:E; rewrite ?str_eqb_eq, ?str_eqb_neq in E;
    rewrite !app_nil_iff, validateRequiredLabels_nil, tenantImmutability_nil;
    setoid_rewrite fmap_Some.
  - split; [intros [H _] | intros [H _]]; by apply labels_ok_tenant in H as [? _].
  - rewrite validateBindingConsumer_nil, validateBindingProvider_nil. naive_solver.
Qed.

(** A ServiceBinding is admitted exactly when consumer and
    provider both exist in its namespace and belong to its tenant, the types being one of
    the supported ones (a service account has to be in the namespace itself), with the
    tenancy labels present and the tenant unchanged on update. *)
Theorem binding_admission_iff old b :
  (admits (ServiceBindingWebhook.ValidateCreate (OServiceBinding b)) <->
   binding_admissible None b) /\
  (admits (ServiceBindingWebhook.ValidateUpdate (OServiceBinding old) (OServiceBinding b)) <->
   binding_admissible (Some old) b).
Proof.
  cbv beta iota delta [ServiceBindingWebhook.ValidateCreate ServiceBindingWebhook.ValidateUpdate]. rewrite !admits_errs.
  split; apply validateBinding_nil.
Qed.
End Binding.

(** ** Bucket *)

Section BucketProofs.
Context `{kc : Client}.

(** A policy reference resolves in the bucket's namespace to a BucketPolicy with the
    bucket's tenant, project and app labels. *)
Definition policy_ref_ok (b : Bucket) (name : string) : Prop :=
  exists m, get_BucketPolicy (Namespace (bucket_meta b)) name = Found m /\
    forall k, k ∈ requiredLabelKeys ->
      GetLabel m k = TrimSpace (GetLabel (bucket_meta b) k).

Definition bucket_admissible (old : option Bucket) (b : Bucket) : Prop :=
  labels_ok (bucket_meta b) /\
    (forall o, old = Some o -> tenant_kept (bucket_meta o) (bucket_meta b)) /\
    Forall (policy_ref_ok b) (PolicyRefs b).

Lemma required_keys_forall (P : string -> Prop) :
  (forall k, k ∈ requiredLabelKeys -> P k) <-> P labelTenant /\ P labelProject /\ P labelApp.
Proof.
  rewrite <- Forall_forall. unfold requiredLabelKeys. rewrite !Forall_cons, Forall_nil. tauto.
Qed.

Lemma checkPolicyRef_nil b i name :
  labels_ok (bucket_meta b) ->
  BucketWebhook.checkPolicyRef b i name = [] <-> policy_ref_ok b name.
Proof.
  intros Hl. apply required_keys_forall in Hl as (Ht & Hp & Ha).
  unfold BucketWebhook.checkPolicyRef, policy_ref_ok. cbv zeta.
  setoid_rewrite required_keys_forall.
  destruct (get_BucketPolicy _ _) as [m| |e]; [|naive_solver..].
  rewrite !app_nil_iff, !when_nil, !andb_false_iff, !negb_false_iff, !str_eqb_eq. naive_solver.
Qed.

Lemma validateBucket_nil old b :
  BucketWebhook.validateBucket old b = [] <-> bucket_admissible old b.
Proof.
  unfold BucketWebhook.validateBucket, bucket_admissible.
  rewrite !app_nil_iff, validateRequiredLabels_nil, tenantImmutability_nil.
  setoid_rewrite fmap_Some. split.
  - intros (Hl & Ho & Hc). split_and!; [done | naive_solver |].
    by apply (collect_nil_Forall _ (policy_ref_ok b)) in Hc; [|intros; apply checkPolicyRef_nil].
  - intros (Hl & Ho & Hc). split_and!; [done | naive_solver |].
    by apply (collect_nil_Forall _ (policy_ref_ok b)); [intros; apply checkPolicyRef_nil|].
Qed.

(** A Bucket is admitted exactly when every BucketPolicy it
    references exists in its namespace and carries the tenant, project and app labels of
    the bucket, with the labels present and the tenant unchanged on update. *)
Theorem bucket_admission_iff old b :
  (admits (BucketWebhook.ValidateCreate (OBucket b)) <-> bucket_admissible None b) /\
  (admits (BucketWebhook.ValidateUpdate (OBucket old) (OBucket b)) <->
   bucket_admissible (Some old) b).
Proof.
  cbv beta iota delta [BucketWebhook.ValidateCreate BucketWebhook.ValidateUpdate].
  rewrite !admits_errs. split; apply validateBucket_nil.
Qed.
End BucketProofs.

(** ** Job *)

Module JobSpec.

(** The capability [SYS_ADMIN] under the name the check looks for. *)
Definition adds_sys_admin (c : Container) : Prop :=
  exists sc add cap, container_SC c = Some sc /\ Capabilities_Add sc = Some add /\
    cap ∈ add /\ EqualFold cap "SYS_ADMIN" = true.

(** The user id and the non-root flag a security context sets say root. *)
Definition root_set (nonRoot : option bool) (user : option Z) : Prop :=
  nonRoot = Some false \/ user = Some 0%Z.

Definition asks_root (p : PodSpec) : Prop :=
  (exists sc, pod_SC p = Some sc /\ root_set (pod_RunAsNonRoot sc) (pod_RunAsUser sc)) \/
  (exists c sc, c ∈ InitContainers p ++ Containers p /\ container_SC c = Some sc /\
     root_set (RunAsNonRoot sc) (RunAsUser sc)).

Record job_admissible (old : option Job) (j : Job) : Prop := {
  job_labels : labels_ok (job_meta j);
  job_tenant : forall o, old = Some o -> tenant_kept (job_meta o) (job_meta j);
  job_host : HostNetwork (job_PodSpec j) = false /\ HostPID (job_PodSpec j) = false
             /\ HostIPC (job_PodSpec j) = false;
  job_volumes : Forall (fun v => volume_HostPath v = None) (Volumes (job_PodSpec j));
  job_caps : Forall (fun c => ~ adds_sys_admin c)
               (InitContainers (job_PodSpec j) ++ Containers (job_PodSpec j));
  job_root : asks_root (job_PodSpec j) ->
    TrimSpace (map_get (Annotations (job_meta j)) annotationRunAsRootJustification) <> "";
}.
End JobSpec.

Section JobProofs.
Import JobSpec.

Lemma containsSysAdmin_iff c :
  JobWebhook.containsSysAdmin (container_SC c) = false <-> ~ adds_sys_admin c.
Proof.
  rewrite <- not_true_iff_false. apply not_iff_compat.
  unfold JobWebhook.containsSysAdmin, adds_sys_admin.
  destruct (container_SC c) as [sc|]; [|naive_solver].
  destruct (Capabilities_Add sc) as [add|] eqn:E; [|naive_solver].
  rewrite existsb_exists_elem. naive_solver.
Qed.

Lemma explicit_root_iff b u : JobWebhook.explicit_root b u = true <-> root_set b u.
Proof.
  unfold JobWebhook.explicit_root, root_set. rewrite orb_true_iff.
  destruct b as [[]|], u as [u|]; rewrite ?Z.eqb_eq; naive_solver.
Qed.

Lemma requiresRoot_iff p : JobWebhook.requiresRootJustification p = true <-> asks_root p.
Proof.
  unfold JobWebhook.requiresRootJustification, asks_root.
  assert (JobWebhook.allowsRoot (pod_SC p) = true <-> exists sc, pod_SC p = Some sc /\
    root_set (pod_RunAsNonRoot sc) (pod_RunAsUser sc)) as Hpod.
  { unfold JobWebhook.allowsRoot. destruct (pod_SC p) as [sc|]; [|naive_solver].
    rewrite explicit_root_iff. naive_solver. }
  assert (forall l, existsb (fun c => JobWebhook.allowsRootWithFallback (container_SC c) (pod_SC p)) l
      = true -> JobWebhook.allowsRoot (pod_SC p) = true \/
        exists c sc, c ∈ l /\ container_SC c = Some sc /\ root_set (RunAsNonRoot sc) (RunAsUser sc))
    as Hto.
  { intros l (c & Hc & H)%existsb_exists_elem. unfold JobWebhook.allowsRootWithFallback in H.
    apply orb_true_iff in H as [H|H]; [right | by left].
    destruct (container_SC c) as [sc|] eqn:E; [|done]. apply explicit_root_iff in H. eauto 6. }
  assert (forall l c sc, c ∈ l -> container_SC c = Some sc ->
      root_set (RunAsNonRoot sc) (RunAsUser sc) ->
      existsb (fun c => JobWebhook.allowsRootWithFallback (container_SC c) (pod_SC p)) l = true) as Hof.
  { intros l c sc Hc E H. apply existsb_exists_elem. exists c. split; [done|].
    unfold JobWebhook.allowsRootWithFallback. rewrite E.
    by rewrite (proj2 (explicit_root_iff _ _) H). }
  rewrite !orb_true_iff, <- Hpod. setoid_rewrite elem_of_app. split.
  - intros [[H|H%Hto]|H%Hto]; naive_solver.
  - intros [H|(c & sc & [Hc|Hc] & E & Hr)]; eauto.
Qed.

Lemma validateJob_nil old j : JobWebhook.validateJob old j = [] <-> job_admissible old j.
Proof.
  unfold JobWebhook.validateJob. cbv zeta.
  rewrite !app_nil_iff, validateRequiredLabels_nil, tenantImmutability_nil, !when_nil.
  rewrite (collect_nil_Forall _ (fun v => volume_HostPath v = None)); cycle 1.
  { intros i v. rewrite when_nil, bool_decide_eq_false, <- eq_None_not_Some. done. }
  rewrite !(collect_nil_Forall _ (fun c => ~ adds_sys_admin c));
    [|intros i c; rewrite when_nil; apply containsSysAdmin_iff..].
  rewrite andb_false_iff, blank_false, <- (not_true_iff_false (JobWebhook.requiresRootJustification _)),
    requiresRoot_iff. setoid_rewrite fmap_Some.
  destruct (JobWebhook.requiresRootJustification (job_PodSpec j)) eqn:Er.
  - apply requiresRoot_iff in Er. split.
    + intros (? & ? & ? & ? & ? & ? & ? & ? & ?).
      constructor; rewrite ?Forall_app; naive_solver.
    + intros [? ? ? ? [? ?]%Forall_app ?]. naive_solver.
  - assert (~ asks_root (job_PodSpec j)) by (rewrite <- requiresRoot_iff; by rewrite Er).
    split.
    + intros (? & ? & ? & ? & ? & ? & ? & ? & ?).
      constructor; rewrite ?Forall_app; naive_solver.
    + intros [? ? ? ? [? ?]%Forall_app ?]. naive_solver.
Qed.

(** A Job is admitted exactly when it uses no host namespace and no
    hostPath volume, no container adds SYS_ADMIN, and a pod or container that asks to run
    as root comes with a non-blank justification annotation. *)
Theorem job_admission_iff old j :
  (admits (JobWebhook.ValidateCreate (OJob j)) <-> job_admissible None j) /\
  (admits (JobWebhook.ValidateUpdate (OJob <$> old) (OJob j)) <-> job_admissible old j).
Proof.
  cbv beta iota delta [JobWebhook.ValidateCreate JobWebhook.ValidateUpdate].
  destruct old; cbn [fmap option_fmap option_map]; rewrite !admits_errs;
    split; apply validateJob_nil.
Qed.
End JobProofs.
