(* ===== verification/Admission.v ===== *)
(** Objects over their lifetime: what holds of an object that was created through
    the webhooks and then changed by any number of admitted updates, whatever the
    API server held at the time of each request; and the registry policy from the
    ConfigMap to the admitted App. *)

From Stdlib Require Import Ascii ZArith Lia.
From stdpp Require Import base gmap strings list relations.
From S2P Require Import Prelude Utf8 GoStrings NetURL Kube Policy Webhooks WebhookProofs.

(** ** Lifetimes *)

(** An update never changes the type of an object. *)
Definition same_kind (o o' : Object) : Prop :=
  match o, o' with
  | OApp _, OApp _ | OProject _, OProject _ | OAppRelease _, OAppRelease _
  | OServiceBinding _, OServiceBinding _ | OBucket _, OBucket _ | OJob _, OJob _ => True
  | OOther t _, OOther t' _ => t = t'
  | _, _ => False
  end.

(** The request is first defaulted, then validated; the stored object is the
    defaulted one.  [get_*] answers as the API server does at that moment. *)
Definition created (o : Object) : Prop :=
  exists (kc : Client) (lib : Libraries) raw,
    webhook_default raw = Ok o /\ admits (webhook_create o).

Definition updated (o o' : Object) : Prop :=
  same_kind o o' /\
  exists (kc : Client) (lib : Libraries) raw,
    webhook_default raw = Ok o' /\ admits (webhook_update o o').

(** The types some webhook is registered for. *)
Definition guarded (o : Object) : Prop :=
  match o with OOther t _ => is_Some (guardKind t) | _ => True end.

(** An object carries the three tenancy labels. *)
Definition isolated (o : Object) : Prop := exists m, accessor o = Some m /\ labels_ok m.

Definition object_tenant (o : Object) : string := default "" (tenant_of <$> accessor o).

Lemma same_kind_guarded o o' : same_kind o o' -> guarded o -> guarded o'.
Proof. destruct o, o'; cbn; try done. by intros ->. Qed.

Lemma labelguard_create kind o :
  admits (LabelGuardWebhook.ValidateCreate kind o) <-> isolated o.
Proof.
  unfold LabelGuardWebhook.ValidateCreate, isolated. destruct (accessor o) as [m|].
  - rewrite admits_errs, validateRequiredLabels_nil. naive_solver.
  - unfold admits. naive_solver.
Qed.

Lemma labelguard_update kind o o' :
  admits (LabelGuardWebhook.ValidateUpdate kind o o') <->
  exists m m', accessor o = Some m /\ accessor o' = Some m' /\ labels_ok m' /\ tenant_kept m m'.
Proof.
  unfold LabelGuardWebhook.ValidateUpdate.
  destruct (accessor o') as [m'|]; [|unfold admits; naive_solver].
  destruct (accessor o) as [m|]; [|unfold admits; naive_solver].
  rewrite admits_errs, app_nil_iff, validateRequiredLabels_nil, validateTenantImmutability_nil.
  naive_solver.
Qed.

(** Every webhook's create check implies the labels... *)
Lemma create_isolated `{kc : Client} `{lib : Libraries} o :
  guarded o -> admits (webhook_create o) -> isolated o.
Proof.
  intros Hg. destruct o as [a|p|r|b|b|j|t m]; unfold webhook_create.
  - cbn. rewrite admits_pair, validateApp_nil. intros [Hl _ _ _ _ _ _ _].
    by exists (app_meta a).
  - cbv beta iota delta [ProjectWebhook.ValidateCreate].
    rewrite admits_errs, validateProject_nil. intros [Hl _]. by exists (project_meta p).
  - cbv beta iota delta [AppReleaseWebhook.ValidateCreate].
    rewrite admits_errs, validateRelease_nil. intros [Hl _]. by exists (release_meta r).
  - cbv beta iota delta [ServiceBindingWebhook.ValidateCreate].
    rewrite admits_errs, validateBinding_nil. intros [Hl _]. by exists (binding_meta b).
  - cbv beta iota delta [BucketWebhook.ValidateCreate].
    rewrite admits_errs, validateBucket_nil. intros [Hl _]. by exists (bucket_meta b).
  - cbv beta iota delta [JobWebhook.ValidateCreate].
    rewrite admits_errs, validateJob_nil. intros [Hl _ _ _ _ _]. by exists (job_meta j).
  - destruct Hg as [k ->]. by rewrite labelguard_create.
Qed.

(** ... and every update check the labels and the tenant. *)
Lemma update_isolated `{kc : Client} `{lib : Libraries} o o' :
  guarded o' -> same_kind o o' -> admits (webhook_update o o') ->
  exists m m', accessor o = Some m /\ accessor o' = Some m' /\ labels_ok m' /\ tenant_kept m m'.
Proof.
  intros Hg Hk.
  destruct o as [a|p|r|b|b|j|t m], o' as [a'|p'|r'|b'|b'|j'|t' m']; try done; unfold webhook_update.
  - cbn. rewrite admits_pair, validateApp_nil. intros [Hl Ho _ _ _ _ _ _].
    eauto 10.
  - cbv beta iota delta [ProjectWebhook.ValidateUpdate].
    rewrite admits_errs, validateProject_nil. intros (Hl & Ho & _). destruct (Ho _ eq_refl).
    cbn. eauto 10.
  - cbv beta iota delta [AppReleaseWebhook.ValidateUpdate].
    rewrite admits_errs, validateRelease_nil. intros (Hl & Ho & _). destruct (Ho _ eq_refl).
    cbn. eauto 10.
  - cbv beta iota delta [ServiceBindingWebhook.ValidateUpdate].
    rewrite admits_errs, validateBinding_nil. intros (Hl & Ho & _). cbn. eauto 10.
  - cbv beta iota delta [BucketWebhook.ValidateUpdate].
    rewrite admits_errs, validateBucket_nil. intros (Hl & Ho & _). cbn. eauto 10.
  - cbv beta iota delta [JobWebhook.ValidateUpdate].
    rewrite admits_errs, validateJob_nil. intros [Hl Ho _ _ _ _]. cbn. eauto 10.
  - destruct Hg as [k ->]. by rewrite labelguard_update.
Qed.

Lemma updated_isolated o o' :
  guarded o -> isolated o -> updated o o' ->
  guarded o' /\ isolated o' /\ object_tenant o' = object_tenant o.
Proof.
  intros Hg (m0 & Hm0 & Hl0) (Hk & kc & lib & raw & _ & Ha).
  pose proof (same_kind_guarded _ _ Hk Hg) as Hg'. split; [done|].
  destruct (update_isolated _ _ Hg' Hk Ha) as (m & m' & Hm & Hm' & Hl & Ht).
  assert (m0 = m) as -> by congruence.
  split; [by exists m'|]. unfold object_tenant. rewrite Hm, Hm'. cbn.
  apply labels_ok_tenant in Hl0 as [Hne _]. by destruct Ht as [Ht|Ht].
Qed.

(** C1: an object of a guarded type that was created through the webhooks
    carries the three tenancy labels for its whole life and never changes its tenant,
    through any sequence of admitted updates. *)
Theorem tenant_for_life o o' :
  guarded o -> created o -> rtc updated o o' ->
  isolated o' /\ object_tenant o' = object_tenant o /\ object_tenant o' <> "".
Proof.
  intros Hg (kc & lib & raw & _ & Ha) Hr.
  assert (isolated o) as Hi by exact (create_isolated o Hg Ha). clear Ha raw.
  assert (guarded o' /\ isolated o' /\ object_tenant o' = object_tenant o) as (_ & Hi' & E).
  { revert Hg Hi. induction Hr as [o|o o1 o2 H1 _ IH]; [done|]. intros Hg Hi.
    destruct (updated_isolated _ _ Hg Hi H1) as (Hg1 & Hi1 & <-). by apply IH. }
  split_and!; [done..|]. destruct Hi' as (m & Hm & Hl). unfold object_tenant. rewrite Hm.
  by apply labels_ok_tenant.
Qed.

(** One admitted update keeps what the type declares immutable. *)
Lemma release_step r o' :
  updated (OAppRelease r) o' -> exists r', o' = OAppRelease r' /\ release_Spec r' = release_Spec r.
Proof.
  intros (Hk & kc & lib & raw & _ & Ha). destruct o' as [| |r'| | | |]; try done.
  exists r'. split; [done|]. revert Ha.
  cbv beta iota delta [webhook_update AppReleaseWebhook.ValidateUpdate].
  rewrite admits_errs, validateRelease_nil. intros (_ & Ho & _). by apply (Ho r).
Qed.

(** The spec of an AppRelease never changes after its creation. *)
Theorem release_immutable r o' :
  rtc updated (OAppRelease r) o' ->
  exists r', o' = OAppRelease r' /\ release_Spec r' = release_Spec r.
Proof.
  intros Hr. remember (OAppRelease r) as o eqn:Eo. revert r Eo.
  induction Hr as [o|o o1 o2 H1 _ IH]; intros r ->; [eauto|].
  apply release_step in H1 as (r1 & -> & E). destruct (IH r1 eq_refl) as (r' & -> & E').
  exists r'. split; congruence.
Qed.

Lemma project_step p o' :
  updated (OProject p) o' -> exists p', o' = OProject p' /\
    TenantRef (project_Spec p') = TenantRef (project_Spec p) /\ project_admissible (Some p) p'.
Proof.
  intros (Hk & kc & lib & raw & _ & Ha). destruct o' as [|p'| | | | |]; try done.
  exists p'. split; [done|]. revert Ha.
  cbv beta iota delta [webhook_update ProjectWebhook.ValidateUpdate].
  rewrite admits_errs, validateProject_nil. intros Hp. split; [|done].
  symmetry. by apply (proj1 (proj2 Hp)).
Qed.

(** Along its life a Project keeps its tenantRef, which, when set, is
    the value of its tenant label. *)
Theorem project_tenancy p o' :
  created (OProject p) -> rtc updated (OProject p) o' ->
  exists p', o' = OProject p' /\ TenantRef (project_Spec p') = TenantRef (project_Spec p) /\
    (TenantRef (project_Spec p') = "" \/ tenant_of (project_meta p') = TenantRef (project_Spec p)) /\
    TrimSpace (GetLabel (project_meta p') labelProject) = Name (project_meta p').
Proof.
  intros (kc & lib & raw & _ & Ha) Hr.
  assert (exists old, project_admissible old p) as Hp.
  { exists None. revert Ha. cbv beta iota delta [webhook_create ProjectWebhook.ValidateCreate].
    by rewrite admits_errs, validateProject_nil. }
  clear Ha raw. remember (OProject p) as o eqn:Eo. revert p Eo Hp.
  induction Hr as [o|o o1 o2 H1 _ IH]; intros p -> Hp.
  - exists p. split_and!; [done..| |]; destruct Hp as (old & _ & _ & Ht & Hn); done.
  - apply project_step in H1 as (p1 & -> & E & Hp1).
    destruct (IH p1 eq_refl (ex_intro (fun old => project_admissible old p1) _ Hp1)) as (p' & -> & E' & H). exists p'.
    rewrite E in *. naive_solver.
Qed.

(** ** The registry policy, from the ConfigMap to the admitted App *)

Section Registry.
Context `{kc : Client} `{lib : Libraries}.

Definition policy_data (app : App) : get_result (gmap string string) :=
  get_ConfigMap (Namespace (app_meta app)) ConfigMapName.

(** Admission, whichever operation asks for it. *)
Definition app_admitted (old : option App) (app : App) : Prop :=
  match old with
  | None => admits (webhook_create (OApp app))
  | Some o => admits (webhook_update (OApp o) (OApp app))
  end.

Lemma app_admitted_admissible old app :
  app_admitted old app <-> app_admissible loader old app.
Proof. destruct old; cbn; rewrite admits_pair; apply validateApp_nil. Qed.

(** C8: when the namespace has a registry policy ConfigMap, an admitted
    App's image comes from a registry and a repository the ConfigMap permits, and so does
    the chart of a Helm repository or OCI source. *)
Theorem registry_enforced old app data :
  policy_data app = Found data -> app_admitted old app ->
  (forall repo registry, TrimSpace (Image (app_Spec app)) <> "" ->
     name_ParseReference (TrimSpace (Image (app_Spec app))) = Ok (repo, registry) ->
     permitted host_matches data allowedRegistriesKey (ToLower registry) /\
     permitted repo_matches data allowedRepositoriesKey (ToLower repo)) /\
  (forall src host repo, Source (app_Spec app) = Some src -> TrimSpace (source_URL src) <> "" ->
     AppWebhook.registryInfoFromSource (app_Type (app_Spec app)) (Some src)
       [Child "spec"; Child "source"; Child "url"] = (host, repo, []) ->
     (host = "" \/ permitted host_matches data allowedRegistriesKey host) /\
     (repo = "" \/ permitted repo_matches data allowedRepositoriesKey repo)).
Proof.
  intros Hd [_ _ _ _ _ _ _ (p & Hp & Hdoc)]%app_admitted_admissible.
  change (ConfigMap_PolicyFor (Namespace (app_meta app)) = Ok p) in Hp.
  unfold ConfigMap_PolicyFor in Hp. unfold policy_data in Hd. rewrite Hd in Hp.
  destruct (ParseConfigMap (Some data)) as [q|[]] eqn:Eq; [|done]. injection Hp as ->.
  pose proof (parsed_registry data p) as Hreg. pose proof (parsed_repository data p) as Hrep.
  destruct p as [doc|].
  - destruct (Hdoc doc eq_refl) as [Hi Hs]. split.
    + intros repo registry Hne Hr. destruct Hi as [?|(repo' & registry' & E & H1 & H2)]; [done|].
      rewrite E in Hr. injection Hr as -> ->. split; [by apply Hreg | by apply Hrep].
    + intros src host repo Esrc Hne Hr.
      destruct (Hs src Esrc Hne) as (host' & repo' & E & H1 & H2).
      rewrite E in Hr. injection Hr as -> ->. rewrite Hreg, Hrep in * by done. done.
  - split; intros; split.
    + by apply Hreg.
    + by apply Hrep.
    + right. by apply Hreg.
    + right. by apply Hrep.
Qed.

(** An App is never admitted while its namespace's policy cannot
    be read or does not parse. *)
Theorem registry_fail_closed old app :
  (exists err, policy_data app = GetFailed err) \/
  (exists data e, policy_data app = Found data /\ ParseConfigMap (Some data) = Err e) ->
  ~ app_admitted old app.
Proof.
  intros H [_ _ _ _ _ _ _ (p & Hp & _)]%app_admitted_admissible.
  change (ConfigMap_PolicyFor (Namespace (app_meta app)) = Ok p) in Hp.
  unfold ConfigMap_PolicyFor in Hp. fold (policy_data app) in Hp.
  destruct H as [[err E]|(data & [raw key] & E & Ep)]; rewrite E in Hp; [done|].
  by rewrite Ep in Hp.
Qed.

(** For a project without a service policy, an exposure is
    refused only when it is a LoadBalancer or has external IPs; NodePort passes. *)
Theorem exposure_without_policy app project profile :
  ServiceProfile (app_Spec app) = Some profile ->
  TrimSpace (NetworkPolicyProfileRef (project_Spec project)) = "" ->
  AppWebhook.validateServicePolicy app (Some project) = [] <->
  profile_Type profile <> ServiceTypeLoadBalancer /\ ExternalIPs profile = [].
Proof.
  intros Hp Hr. rewrite validateServicePolicy_nil. unfold service_ok. rewrite Hp.
  assert (service_type profile <> ServiceTypeLoadBalancer <->
          profile_Type profile <> ServiceTypeLoadBalancer) as Ht.
  { unfold service_type. destruct (str_eqb _ _) eqn:E; [|done].
    apply str_eqb_eq in E. by rewrite E. }
  naive_solver.
Qed.
End Registry.

(** ** A concrete cluster *)

Module Demo.
Definition labels3 : gmap string string :=
  {[ labelTenant := "acme"; labelProject := "web"; labelApp := "shop" ]}.
Definition meta (name : string) : ObjectMeta := mkMeta name "ns" (Some labels3) (Some ∅) 1.
Definition status0 : AppStatus := mkAppStatus "" "" [] 0 0 [].

Definition project : Project := mkProject (meta "web") (mkProjectSpec "acme" "").
Definition spec (image : string) : AppSpec :=
  mkAppSpec "image" None "v1.2.3" "" image ["cfg"] [] None [].
Definition app (image : string) : App := mkApp (meta "shop") (spec image) status0.
Definition release : AppRelease :=
  mkRelease (meta "shop-1") (mkReleaseSpec "shop" "1.2.3" "" "" "").

(** One config, one project, one app, and a policy that allows ghcr.io and *.corp.io. *)
Definition policy : gmap string string :=
  {[ allowedRegistriesKey := "ghcr.io, *.corp.io" ]}.

Definition only {A} (n : string) (a : A) (_ name : string) : get_result A :=
  if str_eqb name n then Found a else NotFound.

Instance client : Client := {|
  get_ConfigRef := only "cfg" (meta "cfg");
  get_SecretRef := fun _ _ => NotFound;
  get_IngressRoute := fun _ _ => NotFound;
  get_DatabaseInstance := fun _ _ => NotFound;
  get_CacheInstance := fun _ _ => NotFound;
  get_QueueInstance := fun _ _ => NotFound;
  get_BucketPolicy := fun _ _ => NotFound;
  get_ServiceAccount := fun _ _ => NotFound;
  get_App := only "shop" (app "");
  get_Project := only "web" project;
  get_NetworkPolicyProfile := fun _ => NotFound;
  get_ConfigMap := fun _ _ => Found policy;
|}.

(** [host/path] references; versions are not looked at. *)
Instance libraries : Libraries := {|
  semver_NewVersion := fun _ => Ok tt;
  semver_NewConstraint := fun _ => Ok tt;
  name_ParseReference := fun image =>
    match Split image "/"%char with
    | host :: _ => Ok (image, host)
    | [] => Err "empty"
    end;
|}.

Definition container (caps : list string) : Container :=
  mkContainer "c" (Some (mkSecurityContext (Some caps) None None)).
Definition job (caps : list string) : Job :=
  mkJob (meta "j") (mkPodSpec false false false [] [] [container caps] None).
End Demo.

Import Demo.

(** The policy at work: one App from a permitted sub-domain, one from elsewhere. *)
Example demo_app_permitted : is_ok (webhook_create (OApp (app "eu.corp.io/shop/web"))) = true.
Proof. vm_compute. reflexivity. Qed.

Example demo_app_refused : is_ok (webhook_create (OApp (app "docker.io/shop/web"))) = false.
Proof. vm_compute. reflexivity. Qed.

Ltac demo_admits := eexists; vm_compute; reflexivity.

(** The life of the demo app: created, then its image changed. *)
Lemma demo_created : created (OApp (app "ghcr.io/a")).
Proof. exists client, libraries, (OApp (app "ghcr.io/a")). split; [done | demo_admits]. Qed.

Lemma demo_updated : rtc updated (OApp (app "ghcr.io/a")) (OApp (app "ghcr.io/b")).
Proof.
  apply rtc_once. split; [done|]. exists client, libraries, (OApp (app "ghcr.io/b")).
  split; [done | demo_admits].
Qed.

Lemma demo_project_created : created (OProject project).
Proof. exists client, libraries, (OProject project). split; [done | demo_admits]. Qed.

Lemma demo_project_updated : rtc updated (OProject project) (OProject project).
Proof.
  apply rtc_once. split; [done|]. exists client, libraries, (OProject project).
  split; [done | demo_admits].
Qed.

Lemma demo_release_updated : rtc updated (OAppRelease release) (OAppRelease release).
Proof.
  apply rtc_once. split; [done|]. exists client, libraries, (OAppRelease release).
  split; [done | demo_admits].
Qed.

Lemma tenant_for_life_witness :
  isolated (OApp (app "ghcr.io/b")) /\
  object_tenant (OApp (app "ghcr.io/b")) = object_tenant (OApp (app "ghcr.io/a")) /\
  object_tenant (OApp (app "ghcr.io/b")) <> "".
Proof. exact (tenant_for_life (OApp (app "ghcr.io/a")) _ I demo_created demo_updated). Defined.

Lemma release_immutable_witness :
  exists r', OAppRelease release = OAppRelease r' /\ release_Spec r' = release_Spec release.
Proof. exact (release_immutable release _ demo_release_updated). Defined.

Lemma project_tenancy_witness :
  exists p', OProject project = OProject p' /\
    TenantRef (project_Spec p') = TenantRef (project_Spec project) /\
    (TenantRef (project_Spec p') = "" \/
     tenant_of (project_meta p') = TenantRef (project_Spec project)) /\
    TrimSpace (GetLabel (project_meta p') labelProject) = Name (project_meta p').
Proof. exact (project_tenancy project _ demo_project_created demo_project_updated). Defined.

Lemma registry_enforced_witness :
  permitted host_matches policy allowedRegistriesKey (ToLower "eu.corp.io").
Proof.
  refine (proj1 (proj1 (registry_enforced None (app "eu.corp.io/shop/web") policy _ _)
    "eu.corp.io/shop/web" "eu.corp.io" _ _)); [reflexivity | demo_admits | done | reflexivity].
Defined.

Definition failing_client : Client := {|
  get_ConfigRef := fun _ _ => NotFound;
  get_SecretRef := fun _ _ => NotFound;
  get_IngressRoute := fun _ _ => NotFound;
  get_DatabaseInstance := fun _ _ => NotFound;
  get_CacheInstance := fun _ _ => NotFound;
  get_QueueInstance := fun _ _ => NotFound;
  get_BucketPolicy := fun _ _ => NotFound;
  get_ServiceAccount := fun _ _ => NotFound;
  get_App := fun _ _ => NotFound;
  get_Project := fun _ _ => NotFound;
  get_NetworkPolicyProfile := fun _ => NotFound;
  get_ConfigMap := fun _ _ => GetFailed "timeout";
|}.

Lemma registry_fail_closed_witness :
  ~ @app_admitted failing_client libraries None (app "ghcr.io/a").
Proof. apply registry_fail_closed. left. by exists "timeout". Defined.

Definition node_port : AppServiceProfile := mkServiceProfile "NodePort" [80%Z] false [].
Definition node_port_app : App :=
  mkApp (meta "shop") (mkAppSpec "image" None "" "" "" [] [] (Some node_port) []) status0.

Lemma exposure_without_policy_witness :
  AppWebhook.validateServicePolicy node_port_app (Some project) = [].
Proof. by apply (exposure_without_policy node_port_app project node_port). Defined.

(** The capability check compares with SYS_ADMIN only, so a Job that
    adds CAP_SYS_ADMIN, or ALL capabilities, is admitted, while SYS_ADMIN in any case is
    not. *)
Theorem sys_admin_aliases :
  admits (webhook_create (OJob (job ["CAP_SYS_ADMIN"]))) /\
  admits (webhook_create (OJob (job ["ALL"]))) /\
  ~ admits (webhook_create (OJob (job ["sys_admin"]))).
Proof.
  split_and!; [demo_admits | demo_admits |]. intros [w H]. vm_compute in H. discriminate H.
Qed.
