(* ===== verification/AppController.v ===== *)
(** The App controller: [kubeop-operator/controllers/app_controller.go].

    The API server is the interface [AppAPI]: its state is abstract, its
    operations are the client calls of the controller, and [AppAPILaws] states what
    the controller relies on (server-side apply, list, delete, status update). *)

From Stdlib Require Import Ascii ZArith Lia.
From stdpp Require Import base gmap strings list.
From S2P Require Import Prelude GoStrings Kube.

(** ** Deployments *)

Abbreviation key := (string * string)%type.

(** The fields of [appsv1.Deployment] the controller sets. *)
Record Deployment := mkDeployment {
  dep_Name : string;
  dep_Namespace : string;
  dep_Labels : gmap string string;
  dep_Selector : gmap string string;
  dep_TemplateLabels : gmap string string;
  dep_Image : string; (* of the single container "app" *)
  dep_Ports : list Z;
  dep_Owner : option string; (* the controller reference *)
}.

Definition dep_key (d : Deployment) : key := (dep_Namespace d, dep_Name d).

Definition managedByLabel := "app.kubernetes.io/managed-by".
Definition managed (d : Deployment) : Prop := dep_Labels d !! managedByLabel = Some "kubeop-operator".

Definition set_owner (d : Deployment) (o : string) : Deployment :=
  mkDeployment (dep_Name d) (dep_Namespace d) (dep_Labels d) (dep_Selector d)
    (dep_TemplateLabels d) (dep_Image d) (dep_Ports d) (Some o).

(** ** The API server *)

(** The client calls; an error is its text. *)
Class AppAPI (S : Type) := {
  api_get_App : S -> key -> get_result App;
  (** [controllerutil.SetControllerReference]: the reference to the App, or the
      scheme's error. *)
  owner_reference : ObjectMeta -> result string string;
  (** [Patch(..., client.Apply, ForceOwnership)], with and without [DryRunAll] *)
  api_apply (dryRun : bool) : Deployment -> io S string unit;
  (** [List(InNamespace, MatchingLabels{managed-by: kubeop-operator})] *)
  api_list_managed : string -> io S string (list Deployment);
  (** [Delete]: [None] for a success, [Some NotFound], or another error *)
  api_delete : key -> S -> get_result unit * S;
  api_update_status : App -> io S string unit;
}.

(** ** The controller *)

Definition fallbackImage := "ghcr.io/vaheed/kubeop-operator-placeholder:latest".

Definition resolveAppImage (app : App) : string :=
  match Source (app_Spec app) with
  | None => fallbackImage
  | Some source =>
      let image := source_URL source in
      if str_eqb image "" then fallbackImage
      else if negb (str_eqb (Ref source) "") then image +:+ ":" +:+ Ref source
      else image
  end.

Definition buildDesiredResources (app : App) : list Deployment :=
  let labels : gmap string string :=
    {[ "app.kubernetes.io/name" := Name (app_meta app); managedByLabel := "kubeop-operator" ]} in
  let ports :=
    match ServiceProfile (app_Spec app) with
    | Some profile => match Ports profile with p :: _ => [p] | [] => [] end
    | None => []
    end in
  [mkDeployment (Name (app_meta app)) (Namespace (app_meta app)) labels labels labels
     (resolveAppImage app) ports None].

Definition AppConditionReady := "Ready".
Definition AppReadyReasonReconciled := "Reconciled".

Section Controller.
Context {S : Type} `{api : AppAPI S} `{cs : ConditionSetter}.

Definition pruneWorkload (app : App) (desired : list Deployment) : io S message unit :=
  deployments ← wrap_err (fun err => Sprintf "list managed deployments: %w" [err])
                  (api_list_managed (Namespace (app_meta app)));
  for_each (fun existing s =>
    if bool_decide (dep_key existing ∈ dep_key <$> desired) then (Ok tt, s)
    else match api_delete (dep_key existing) s with
         | (GetFailed err, s') =>
             (Err (Sprintf "prune deployment %s: %w" [dep_Name existing; err]), s')
         | (_, s') => (Ok tt, s')
         end) deployments.

(** The first loop of [reconcileWorkload] sets the owner of every object. *)
Fixpoint setOwners (app : App) (desired : list Deployment) : result message (list Deployment) :=
  match desired with
  | [] => Ok []
  | d :: ds =>
      match owner_reference (app_meta app) with
      | Err err => Err (Sprintf "set owner reference: %w" [err])
      | Ok o => ds' ← setOwners app ds; Ok (set_owner d o :: ds')
      end
  end.

Definition reconcileWorkload (app : App) : io S message unit := fun s =>
  match setOwners app (buildDesiredResources app) with
  | Err e => (Err e, s)
  | Ok desired =>
      (_ ← for_each (fun obj =>
         _ ← wrap_err (fun err => Sprintf "dry-run apply %s/%s: %w" ["Deployment"; dep_Name obj; err])
               (api_apply true obj);
         wrap_err (fun err => Sprintf "apply %s/%s: %w" ["Deployment"; dep_Name obj; err])
           (api_apply false obj)) desired;
       pruneWorkload app desired) s
  end.

Definition readyCondition (app : App) : Condition :=
  mkCondition AppConditionReady "True" AppReadyReasonReconciled
    "App reconciliation completed successfully" (Generation (app_meta app)).

(** The status [updateStatus] computes from the current one. *)
Definition nextStatus (app : App) : AppStatus :=
  let st := app_Status app in
  let revision := match Source (app_Spec app) with Some src => Ref src | None => Revision st end in
  let urls :=
    match Source (app_Spec app) with
    | Some src => if negb (str_eqb (source_URL src) "") then [source_URL src] else URLs st
    | None => URLs st
    end in
  mkAppStatus revision "Applied" urls (AvailableReplicas st) (Generation (app_meta app))
    (SetStatusCondition (Conditions st) (readyCondition app)).

Definition updateStatus (app : App) : io S message unit :=
  let status := nextStatus app in
  if bool_decide (app_Status app = status) then mret tt
  else wrap_err (fun err => Sprintf "%w" [err])
         (api_update_status (mkApp (app_meta app) (app_Spec app) status)).

Definition Reconcile (req : key) : io S message unit := fun s =>
  match api_get_App s req with
  | NotFound => (Ok tt, s)
  | GetFailed err => (Err (Sprintf "%w" [err]), s)
  | Found app =>
      (_ ← reconcileWorkload app; updateStatus app) s
  end.
End Controller.

(** ** What the controller relies on *)

Definition app_key (a : App) : key := (Namespace (app_meta a), Name (app_meta a)).

(** Two states show the same Apps. *)
Definition same_apps {S} `{AppAPI S} (s s' : S) : Prop :=
  forall k, api_get_App s' k = api_get_App s k.

Class AppAPILaws (S : Type) `{api : AppAPI S} := {
  (** the stored Deployments *)
  deployments : S -> gmap key Deployment;
  deployments_key s k d : deployments s !! k = Some d -> dep_key d = k;
  get_App_key s k a : api_get_App s k = Found a -> app_key a = k;
  (** server-side apply merges the applied fields into the stored object *)
  merge : option Deployment -> Deployment -> Deployment;
  merge_fields o d : dep_key (merge o d) = dep_key d /\ dep_Image (merge o d) = dep_Image d /\
    dep_Owner (merge o d) = dep_Owner d /\ dep_Labels d ⊆ dep_Labels (merge o d);
  merge_again o d : merge (Some (merge o d)) d = merge o d;
  apply_dry d s r s' : api_apply true d s = (r, s') ->
    deployments s' = deployments s /\ same_apps s s';
  apply_done d s s' : api_apply false d s = (Ok tt, s') ->
    deployments s' = <[dep_key d := merge (deployments s !! dep_key d) d]> (deployments s) /\
    same_apps s s';
  list_done ns s l s' : api_list_managed ns s = (Ok l, s') ->
    deployments s' = deployments s /\ same_apps s s' /\
    forall d, d ∈ l <-> exists k, deployments s !! k = Some d /\ k.1 = ns /\ managed d;
  delete_done k s r s' : api_delete k s = (r, s') -> (forall err, r <> GetFailed err) ->
    deployments s' = delete k (deployments s) /\ same_apps s s';
  status_done a s s' : api_update_status a s = (Ok tt, s') ->
    deployments s' = deployments s /\
    forall k, api_get_App s' k =
      match api_get_App s k with
      | Found a0 => if bool_decide (k = app_key a)
                    then Found (mkApp (app_meta a0) (app_Spec a0) (app_Status a)) else Found a0
      | r => r
      end;
}.

(** ** Convergence *)

Section Proofs.
Context {S : Type} `{api : AppAPI S} `{laws : !AppAPILaws S}.
Context `{cs : ConditionSetter} `{claws : !ConditionLaws}.

Lemma same_apps_trans (s1 s2 s3 : S) : same_apps s1 s2 -> same_apps s2 s3 -> same_apps s1 s3.
Proof. intros H1 H2 k. by rewrite H2, H1. Qed.

(** Pruning removes the managed Deployments of the namespace that are not desired,
    and nothing else. *)
Lemma prune_done app desired s s' :
  pruneWorkload app desired s = (Ok tt, s') ->
  same_apps s s' /\ forall k, deployments s' !! k =
    match deployments s !! k with
    | Some d => if bool_decide (k.1 = Namespace (app_meta app) /\
                                dep_Labels d !! managedByLabel = Some "kubeop-operator" /\
                                k ∉ dep_key <$> desired)
                then None else Some d
    | None => None
    end.
Proof.
  unfold pruneWorkload. intros (l & s1 & Hl & Hloop)%io_bind_ok.
  apply wrap_err_ok, list_done in Hl as (Ed1 & Ha1 & Hl). rewrite <- Ed1 in Hl.
  eapply (for_each_ok (fun dn s2 => same_apps s1 s2 /\ forall k, deployments s2 !! k =
    if bool_decide (k ∈ dep_key <$> dn /\ k ∉ dep_key <$> desired) then None
    else deployments s1 !! k)) in Hloop as [Ha Hk].
  - split; [by eapply same_apps_trans|]. intros k. rewrite Hk, <- Ed1.
    destruct (deployments s1 !! k) as [d|] eqn:Ek.
    + pose proof (deployments_key _ _ _ Ek) as Ed. case_bool_decide as Hb; case_bool_decide as H; try done.
      * destruct Hb as [[d' [-> Hd']]%list_elem_of_fmap Hn]. exfalso. apply H.
        apply Hl in Hd' as (k' & Ek' & E1 & Hm).
        rewrite (deployments_key _ _ _ Ek') in *. split_and!; [done| |done]. congruence.
      * destruct H as (E1 & Hm & Hn). exfalso. apply Hb. split; [|done].
        apply list_elem_of_fmap. exists d. split; [done|]. apply Hl. eauto.
    + by case_bool_decide.
  - split; [done|]. intros k. rewrite bool_decide_false; [done|]. by intros [?%not_elem_of_nil _].
  - intros dn x s2 s3 [Ha Hk] Hx. cbn. case_bool_decide as Hd.
    + intros [= <-]. split; [done|]. intros k. rewrite Hk, fmap_app. cbn.
      erewrite bool_decide_ext; [done|]. rewrite elem_of_app, list_elem_of_singleton. naive_solver.
    + destruct (api_delete _ s2) as [r s4] eqn:Edel. intros Hr.
      assert (deployments s3 = delete (dep_key x) (deployments s2) /\ same_apps s2 s3) as [-> Ha'].
      { destruct r as [[]| |err]; [| |done]; injection Hr as <-; by eapply delete_done. }
      split; [by eapply same_apps_trans|]. intros k. rewrite fmap_app. cbn.
      destruct (decide (k = dep_key x)) as [->|Hne].
      * rewrite lookup_delete_eq, bool_decide_true; [done|].
        rewrite elem_of_app, list_elem_of_singleton. by auto.
      * rewrite lookup_delete_ne, Hk by done.
        erewrite bool_decide_ext; [done|]. rewrite elem_of_app, list_elem_of_singleton. naive_solver.
Qed.

(** The Deployment an App asks for, owned by it. *)
Definition wanted (app : App) (o : string) : Deployment :=
  set_owner (List.hd (mkDeployment "" "" ∅ ∅ ∅ "" [] None) (buildDesiredResources app)) o.

Lemma wanted_facts app o :
  dep_key (wanted app o) = app_key app /\ dep_Image (wanted app o) = resolveAppImage app /\
  managed (wanted app o) /\ dep_Owner (wanted app o) = Some o.
Proof. done. Qed.

Lemma merge_managed old d : managed d -> managed (merge old d).
Proof.
  unfold managed. intros Hm. destruct (merge_fields old d) as (_ & _ & _ & Hl).
  by eapply lookup_weaken.
Qed.

Lemma workload_done app s s' :
  reconcileWorkload app s = (Ok tt, s') ->
  exists o, owner_reference (app_meta app) = Ok o /\ same_apps s s' /\
  forall k, deployments s' !! k =
    if bool_decide (k = app_key app)
    then Some (merge (deployments s !! k) (wanted app o))
    else match deployments s !! k with
         | Some d => if bool_decide (k.1 = Namespace (app_meta app) /\
                       dep_Labels d !! managedByLabel = Some "kubeop-operator")
                     then None else Some d
         | None => None
         end.
Proof.
  unfold reconcileWorkload. cbn [setOwners buildDesiredResources].
  destruct (owner_reference (app_meta app)) as [o|err]; [|done]. cbn [mbind result_bind].
  fold (wanted app o). intros ([] & s1 & Hloop & Hp)%io_bind_ok. exists o. split; [done|].
  cbn [for_each] in Hloop. apply io_bind_ok in Hloop as ([] & s2 & Hd & Hret).
  injection Hret as ->. apply io_bind_ok in Hd as ([] & s3 & Hdry & Happ).
  apply wrap_err_ok, apply_dry in Hdry as [E3 A3].
  apply wrap_err_ok, apply_done in Happ as [E1 A1]. rewrite E3 in E1.
  apply prune_done in Hp as [Ap Hk].
  split; [eauto using same_apps_trans|]. intros k. rewrite Hk, E1.
  change (dep_key (wanted app o)) with (app_key app). cbn [fmap list_fmap].
  case_bool_decide as Hkey.
  - subst k. rewrite lookup_insert_eq, bool_decide_false; [done|].
    intros (_ & _ & Hn). apply Hn, list_elem_of_singleton. done.
  - rewrite lookup_insert_ne by done. destruct (deployments s !! k) as [d|]; [|done].
    erewrite bool_decide_ext; [done|]. rewrite list_elem_of_singleton.
    change (dep_key (wanted app o)) with (app_key app). naive_solver.
Qed.

Lemma updateStatus_done app s s' :
  api_get_App s (app_key app) = Found app -> updateStatus app s = (Ok tt, s') ->
  deployments s' = deployments s /\
  api_get_App s' (app_key app) = Found (mkApp (app_meta app) (app_Spec app) (nextStatus app)) /\
  forall k, k <> app_key app -> api_get_App s' k = api_get_App s k.
Proof.
  intros Hg. unfold updateStatus. cbv zeta. case_bool_decide as He.
  - intros [= <-]. rewrite <- He, Hg. destruct app; done.
  - intros H%wrap_err_ok. apply status_done in H as [Hd Hk]. split; [done|]. split.
    + rewrite Hk, Hg, bool_decide_true; done.
    + intros k Hne. rewrite Hk. case_match; [|done..]. by rewrite bool_decide_false.
Qed.

(** What a successful reconciliation of an existing App leaves behind. *)
Lemma reconcile_done k app s s' :
  api_get_App s k = Found app -> Reconcile k s = (Ok tt, s') ->
  k = app_key app /\ exists o, owner_reference (app_meta app) = Ok o /\
  (forall k', deployments s' !! k' =
    if bool_decide (k' = k) then Some (merge (deployments s !! k) (wanted app o))
    else match deployments s !! k' with
         | Some d => if bool_decide (k'.1 = k.1 /\
                       dep_Labels d !! managedByLabel = Some "kubeop-operator")
                     then None else Some d
         | None => None
         end) /\
  api_get_App s' k = Found (mkApp (app_meta app) (app_Spec app) (nextStatus app)) /\
  (forall k', k' <> k -> api_get_App s' k' = api_get_App s k').
Proof.
  intros Hg. pose proof (get_App_key _ _ _ Hg) as <-. unfold Reconcile. rewrite Hg.
  intros ([] & s1 & (o & Ho & Ha & Hd)%workload_done & Hs)%io_bind_ok. split; [done|].
  exists o. split; [done|].
  apply updateStatus_done in Hs as (E & Hg' & Hr); [|by rewrite Ha].
  split_and!; [|done|].
  - intros k'. rewrite E, Hd. by case_bool_decide as Hk; [subst k'|].
  - intros k' Hne. by rewrite Hr, Ha.
Qed.

(** C6: when the reconciliation of an App succeeds, its Deployment
    exists, is managed and runs the image the source resolves to; it is the only managed
    Deployment of the namespace; Deployments of other namespaces and unmanaged ones are
    as before; and the App's status is Ready with the reconciled generation. *)
Theorem app_reconcile_converges k app s s' :
  api_get_App s k = Found app -> Reconcile k s = (Ok tt, s') ->
  (exists d, deployments s' !! k = Some d /\ managed d /\ dep_Image d = resolveAppImage app) /\
  (forall k' d, deployments s' !! k' = Some d -> managed d -> k'.1 = k.1 -> k' = k) /\
  (forall k', k' <> k -> (k'.1 <> k.1 \/ forall d, deployments s !! k' = Some d -> ~ managed d) ->
     deployments s' !! k' = deployments s !! k') /\
  (exists app', api_get_App s' k = Found app' /\ app_Spec app' = app_Spec app /\
     find_condition AppConditionReady (Conditions (app_Status app')) = Some (readyCondition app) /\
     ObservedGeneration (app_Status app') = Generation (app_meta app)).
Proof.
  intros Hg Hr. destruct (reconcile_done _ _ _ _ Hg Hr) as (-> & o & _ & Hd & Hs & _).
  split_and!.
  - exists (merge (deployments s !! app_key app) (wanted app o)). rewrite Hd, bool_decide_true by done.
    split; [done|]. split; [by apply merge_managed|].
    by destruct (merge_fields (deployments s !! app_key app) (wanted app o)) as (_ & -> & _).
  - intros k' d Hk Hm E1. rewrite Hd in Hk. case_bool_decide; [done|].
    destruct (deployments s !! k'); [|done]. case_bool_decide as Hb; [done|].
    injection Hk as ->. by destruct Hb.
  - intros k' Hne Hor. rewrite Hd, bool_decide_false by done.
    destruct (deployments s !! k') as [d|] eqn:E; [|done]. rewrite bool_decide_false; [done|].
    intros [E1 Hm]. destruct Hor as [H|H]; [done|]. by eapply H.
  - eexists. split; [exact Hs|]. cbn. split_and!; [done| |done]. apply (condition_set _ (readyCondition app)).
Qed.

(** C36: a second successful reconciliation changes neither the
    Deployments nor any App. *)
Theorem app_reconcile_idempotent k app s s1 s2 :
  api_get_App s k = Found app ->
  Reconcile k s = (Ok tt, s1) -> Reconcile k s1 = (Ok tt, s2) ->
  deployments s2 = deployments s1 /\ same_apps s1 s2.
Proof.
  intros Hg H1 H2. destruct (reconcile_done _ _ _ _ Hg H1) as (-> & o & Ho & Hd1 & Hs1 & _).
  set (app1 := mkApp (app_meta app) (app_Spec app) (nextStatus app)) in *.
  destruct (reconcile_done _ _ _ _ Hs1 H2) as (_ & o' & Ho' & Hd2 & Hs2 & Hr2).
  assert (nextStatus app1 = nextStatus app) as En.
  { unfold nextStatus at 1. cbn. unfold nextStatus. unfold readyCondition. cbn.
    rewrite condition_again. destruct (Source (app_Spec app)) as [src|]; [|done].
    by case_match. }
  split.
  - apply map_eq. intros k'. rewrite Hd2. case_bool_decide as Hk.
    + subst k'. rewrite Hd1, bool_decide_true by done.
      assert (o' = o) as -> by (cbn in Ho'; congruence).
      change (wanted app1 o) with (wanted app o). by rewrite merge_again.
    + rewrite Hd1, bool_decide_false by done. destruct (deployments s !! k'); [|done].
      case_bool_decide as Hb; [done|]. by rewrite bool_decide_false.
  - intros k'. destruct (decide (k' = app_key app)) as [->|Hne]; [|by apply Hr2].
    rewrite Hs2, Hs1. unfold app1 in *. cbn. by rewrite En.
Qed.

(** Two Apps of one namespace never keep both Deployments:
    reconciling the second removes the Deployment the first one had just been given. *)
Theorem apps_prune_each_other k1 k2 app1 app2 s s1 s2 :
  k1 <> k2 -> k1.1 = k2.1 ->
  api_get_App s k1 = Found app1 -> api_get_App s k2 = Found app2 ->
  Reconcile k1 s = (Ok tt, s1) -> Reconcile k2 s1 = (Ok tt, s2) ->
  is_Some (deployments s1 !! k1) /\ deployments s2 !! k1 = None.
Proof.
  intros Hne Hns Hg1 Hg2 H1 H2.
  destruct (reconcile_done _ _ _ _ Hg1 H1) as (-> & o1 & _ & Hd1 & _ & Hr1).
  assert (api_get_App s1 k2 = Found app2) as Hg2' by (rewrite Hr1; done).
  destruct (reconcile_done _ _ _ _ Hg2' H2) as (-> & o2 & _ & Hd2 & _ & _).
  rewrite Hd2, bool_decide_false by done. rewrite Hd1, bool_decide_true by done.
  split; [done|]. rewrite bool_decide_true; [done|]. split; [done|].
  by apply merge_managed.
Qed.
End Proofs.

(** ** A server that satisfies the laws *)

Module Server.
Record state := mkState {
  st_apps : gmap key App;
  st_deployments : gmap key Deployment;
}.

(** Objects are stored under their own key. *)
Definition norm_app (k : key) (a : App) : App :=
  mkApp (mkMeta k.2 k.1 (Labels (app_meta a)) (Annotations (app_meta a)) (Generation (app_meta a)))
    (app_Spec a) (app_Status a).
Definition norm_dep (k : key) (d : Deployment) : Deployment :=
  mkDeployment k.2 k.1 (dep_Labels d) (dep_Selector d) (dep_TemplateLabels d) (dep_Image d)
    (dep_Ports d) (dep_Owner d).

Definition deps (s : state) : gmap key Deployment :=
  map_imap (fun k d => Some (norm_dep k d)) (st_deployments s).

Definition merged (o : option Deployment) (d : Deployment) : Deployment := d.

#[export] Instance api : AppAPI state := {|
  api_get_App s k :=
    match st_apps s !! k with Some a => Found (norm_app k a) | None => NotFound end;
  owner_reference m := Ok (Name m);
  api_apply dry d s :=
    (Ok tt, if dry then s else mkState (st_apps s) (<[dep_key d := d]> (st_deployments s)));
  api_list_managed ns s :=
    (Ok (snd <$> List.filter (fun kd => str_eqb kd.1.1 ns &&
       bool_decide (dep_Labels kd.2 !! managedByLabel = Some "kubeop-operator"))
       (map_to_list (deps s))), s);
  api_delete k s :=
    (Found tt, mkState (st_apps s) (delete k (st_deployments s)));
  api_update_status a s :=
    (Ok tt, mkState (alter (fun a0 => mkApp (app_meta a0) (app_Spec a0) (app_Status a))
              (app_key a) (st_apps s)) (st_deployments s));
|}.

Lemma norm_dep_self d : norm_dep (dep_key d) d = d.
Proof. by destruct d. Qed.

Lemma deps_lookup s k : deps s !! k = norm_dep k <$> st_deployments s !! k.
Proof. unfold deps. rewrite map_lookup_imap. by destruct (_ !! k). Qed.

#[export] Instance laws : AppAPILaws state.
Proof.
  refine {| deployments := deps; merge := merged |}.
  - intros s k d. rewrite deps_lookup. destruct (_ !! k); [|done]. intros [= <-]. by destruct k.
  - intros s k a. cbn. destruct (_ !! k); [|done]. intros [= <-]. by destruct k.
  - done.
  - done.
  - intros d s r s'. cbn. intros [= <- <-]. done.
  - intros d s s'. cbn. intros [= <-]. split; [|done]. apply map_eq. intros k.
    rewrite deps_lookup. cbn. destruct (decide (k = dep_key d)) as [->|Hne].
    + rewrite !lookup_insert_eq. cbn. by rewrite norm_dep_self.
    + by rewrite !lookup_insert_ne, deps_lookup.
  - intros ns s l s'. cbn. intros [= <- <-]. split_and!; [done..|]. intros d.
    rewrite list_elem_of_fmap. split.
    + intros ([k d'] & -> & Hf). rewrite list_elem_of_In, filter_In, <- list_elem_of_In in Hf.
      destruct Hf as [Hin [E%str_eqb_eq Hm%bool_decide_eq_true]%andb_true_iff].
      apply elem_of_map_to_list in Hin. cbn in *. eauto.
    + intros (k & Hk & E & Hm). exists (k, d). split; [done|].
      rewrite list_elem_of_In, filter_In, <- list_elem_of_In. split; [by apply elem_of_map_to_list|].
      apply andb_true_iff. cbn. split; [by apply str_eqb_eq | by apply bool_decide_eq_true].
  - intros k s r s'. cbn. intros [= <- <-] _. split; [|done]. apply map_eq. intros k'.
    rewrite deps_lookup. cbn. destruct (decide (k' = k)) as [->|Hne].
    + by rewrite !lookup_delete_eq.
    + by rewrite !lookup_delete_ne, deps_lookup.
  - intros a s s'. cbn. intros [= <-]. split; [done|]. intros k. cbn.
    destruct (decide (k = app_key a)) as [->|Hne].
    + rewrite lookup_alter_eq. destruct (_ !! app_key a); cbn; [|done].
      by rewrite bool_decide_true.
    + rewrite lookup_alter_ne by done. destruct (_ !! k); [|done]. by rewrite bool_decide_false.
Defined.
End Server.

(** ** Two Apps in one namespace *)

Module TwoApps.
Import Server ConditionList.
Definition demo_app (name : string) : App :=
  mkApp (mkMeta name "ns" None None 3)
    (mkAppSpec "git" (Some (mkAppSource ("ghcr.io/" +:+ name) "" "v1")) "" "" "" [] [] None [])
    (mkAppStatus "" "" [] 0 0 []).

Definition s0 : Server.state :=
  Server.mkState {[ ("ns", "a") := demo_app "a"; ("ns", "b") := demo_app "b" ]} ∅.
Definition s1 : Server.state := snd (Reconcile ("ns", "a") s0).
Definition s2 : Server.state := snd (Reconcile ("ns", "b") s1).
Definition s1' : Server.state := snd (Reconcile ("ns", "a") s1).

Example demo_reconcile_image :
  dep_Image <$> Server.st_deployments s1 !! ("ns", "a") = Some "ghcr.io/a:v1".
Proof. vm_compute. reflexivity. Qed.

Lemma run_a : Reconcile ("ns", "a") s0 = (Ok tt, s1).
Proof. vm_compute. reflexivity. Qed.
Lemma run_b : Reconcile ("ns", "b") s1 = (Ok tt, s2).
Proof. vm_compute. reflexivity. Qed.
Lemma run_a_again : Reconcile ("ns", "a") s1 = (Ok tt, s1').
Proof. vm_compute. reflexivity. Qed.

Lemma app_reconcile_converges_witness :
  exists d, deployments s1 !! ("ns", "a") = Some d /\ managed d /\
    dep_Image d = resolveAppImage (demo_app "a").
Proof.
  exact (proj1 (app_reconcile_converges ("ns", "a") (demo_app "a") s0 s1 eq_refl run_a)).
Defined.

Lemma app_reconcile_idempotent_witness :
  deployments s1' = deployments s1 /\ same_apps s1 s1'.
Proof.
  exact (app_reconcile_idempotent ("ns", "a") (demo_app "a") s0 s1 s1' eq_refl run_a run_a_again).
Defined.

Lemma apps_prune_each_other_witness :
  is_Some (deployments s1 !! ("ns", "a")) /\ deployments s2 !! ("ns", "a") = None.
Proof.
  refine (apps_prune_each_other ("ns", "a") ("ns", "b") (demo_app "a") (demo_app "b")
    s0 s1 s2 _ eq_refl eq_refl eq_refl run_a run_b). discriminate.
Defined.
End TwoApps.
