(* ===== verification/TenantController.v ===== *)
(** The Tenant controller: [kubeop-operator/controllers/tenant_controller.go], which
    keeps three RoleBindings in every namespace labelled with a tenant. *)

From Stdlib Require Import Ascii ZArith Lia.
From stdpp Require Import base gmap strings list.
From S2P Require Import Prelude GoStrings Kube AppController.

Definition labelTenant := "paas.kubeop.io/tenant".
Definition tenantOwnerClusterRole := "tenant-owner".
Definition tenantDeveloperClusterRole := "tenant-developer".
Definition tenantViewerClusterRole := "tenant-viewer".
Definition managedRoleBindingLabel := "rbac.kubeop.io/managed".

(** [rbacv1.RoleRef], [rbacv1.Subject] and [rbacv1.RoleBinding] *)
Record RoleRef := mkRoleRef { APIGroup : string; Kind : string; role_Name : string }.
Record Subject := mkSubject { subject_Kind : string; subject_Name : string }.
Record RoleBinding := mkRoleBinding {
  rb_Name : string;
  rb_Namespace : string;
  rb_Labels : strmap;
  rb_RoleRef : RoleRef;
  rb_Subjects : list Subject;
}.

Class TenantAPI (S : Type) := {
  api_get_Tenant : S -> string -> get_result string; (* the Tenant's name *)
  (** [List(MatchingLabels{labelTenant: tenant})] of namespaces *)
  api_list_Namespaces : string -> io S string (list ObjectMeta);
  (** [controllerutil.CreateOrUpdate] of the RoleBinding with this key *)
  api_CreateOrUpdate : key -> (RoleBinding -> RoleBinding) -> io S string unit;
}.

Section Controller.
Context {S : Type} `{api : TenantAPI S}.

Definition namespacesForTenant (tenant : string) : io S message (list ObjectMeta) :=
  wrap_err (fun err => Sprintf "list namespaces: %w" [err]) (api_list_Namespaces tenant).

(** The mutation [ensureRoleBinding] passes to [CreateOrUpdate]. *)
Definition syncBinding (tenant roleName group : string) (rb : RoleBinding) : RoleBinding :=
  mkRoleBinding (rb_Name rb) (rb_Namespace rb)
    (Some (<[managedRoleBindingLabel := "true"]>
      (<[labelTenant := tenant]> (default ∅ (rb_Labels rb)))))
    (mkRoleRef "rbac.authorization.k8s.io" "ClusterRole" roleName)
    [mkSubject "Group" group].

Definition bindingName (roleName : string) : string := "kubeop:" +:+ roleName.

Definition ensureRoleBinding (tenant ns roleName group : string) : io S message unit :=
  wrap_err (fun err => Sprintf "sync rolebinding %s/%s: %w" [ns; bindingName roleName; err])
    (api_CreateOrUpdate (ns, bindingName roleName) (syncBinding tenant roleName group)).

Definition Reconcile (name : string) : io S message unit := fun s =>
  match api_get_Tenant s name with
  | NotFound => (Ok tt, s)
  | GetFailed err => (Err (Sprintf "fetch tenant: %w" [err]), s)
  | Found tenant =>
      (namespaces ← namespacesForTenant tenant;
       for_each (fun ns =>
         _ ← ensureRoleBinding tenant (Name ns) tenantOwnerClusterRole
               ("tenant:" +:+ tenant +:+ ":owners");
         _ ← ensureRoleBinding tenant (Name ns) tenantDeveloperClusterRole
               ("tenant:" +:+ tenant +:+ ":developers");
         ensureRoleBinding tenant (Name ns) tenantViewerClusterRole
           ("tenant:" +:+ tenant +:+ ":viewers")) namespaces) s
  end.
End Controller.

(** The watch on namespaces; [None] for an object of another type. *)
Definition enqueueNamespace (ns : option ObjectMeta) : list string :=
  match ns with
  | None => []
  | Some m =>
      let tenant := GetLabel m labelTenant in
      if str_eqb tenant "" then [] else [tenant]
  end.

(** ** Specification *)

(** The roles of a tenant and the group each is bound to. *)
Definition tenant_roles (tenant : string) : list (string * string) :=
  [(tenantOwnerClusterRole, "tenant:" +:+ tenant +:+ ":owners");
   (tenantDeveloperClusterRole, "tenant:" +:+ tenant +:+ ":developers");
   (tenantViewerClusterRole, "tenant:" +:+ tenant +:+ ":viewers")].

(** The binding grants [role] to [group] and to nobody else. *)
Definition synced (tenant role group : string) (rb : RoleBinding) : Prop :=
  map_get (rb_Labels rb) labelTenant = tenant /\
  map_get (rb_Labels rb) managedRoleBindingLabel = "true" /\
  rb_RoleRef rb = mkRoleRef "rbac.authorization.k8s.io" "ClusterRole" role /\
  rb_Subjects rb = [mkSubject "Group" group].

Class TenantAPILaws (S : Type) `{api : TenantAPI S} := {
  bindings : S -> gmap key RoleBinding;
  namespaces : S -> gmap string ObjectMeta;
  get_Tenant_name s n t : api_get_Tenant s n = Found t -> t = n;
  list_Namespaces_done t s l s' : api_list_Namespaces t s = (Ok l, s') ->
    bindings s' = bindings s /\ namespaces s' = namespaces s /\
    forall m, m ∈ l <-> exists n, namespaces s !! n = Some m /\ Name m = n /\
                Labels m ≫= (.!! labelTenant) = Some t;
  CreateOrUpdate_done k f s s' : api_CreateOrUpdate k f s = (Ok tt, s') ->
    namespaces s' = namespaces s /\
    bindings s' = <[k := f (default (mkRoleBinding k.2 k.1 None (mkRoleRef "" "" "") [])
                             (bindings s !! k))]> (bindings s);
}.

(** ** Proofs *)

Lemma syncBinding_synced tenant role group rb :
  synced tenant role group (syncBinding tenant role group rb).
Proof.
  unfold synced, syncBinding, map_get. cbn. rewrite lookup_insert_eq.
  rewrite lookup_insert_ne by done. by rewrite lookup_insert_eq.
Qed.

Lemma bindingName_inj r r' : bindingName r = bindingName r' -> r = r'.
Proof.
  unfold bindingName. intros H%(f_equal (fun s => chars s)). apply chars_inj.
  rewrite !chars_app in H. by apply app_inv_head in H.
Qed.

Section Proofs.
Context {S : Type} `{api : TenantAPI S} `{laws : !TenantAPILaws S}.

(** Which bindings are in order, and that only those keys have changed. *)
Definition progress (s0 : S) (tenant : string) (dn : list (key * string)) (s : S) : Prop :=
  namespaces s = namespaces s0 /\
  (forall ns role group, ((ns, role), group) ∈ dn ->
     exists rb, bindings s !! (ns, bindingName role) = Some rb /\ synced tenant role group rb) /\
  (forall k, (forall ns role group, ((ns, role), group) ∈ dn -> k <> (ns, bindingName role)) ->
     bindings s !! k = bindings s0 !! k).

Lemma ensure_progress s0 tenant dn s s' ns role group :
  (forall ns' group', ((ns', role), group') ∈ dn -> group' = group) ->
  progress s0 tenant dn s -> ensureRoleBinding tenant ns role group s = (Ok tt, s') ->
  progress s0 tenant (dn ++ [((ns, role), group)]) s'.
Proof.
  intros Hgrp (Hn & Hs & Hk) (Hn' & Hb)%wrap_err_ok%CreateOrUpdate_done.
  split_and!; [congruence| |].
  - intros ns' role' group' [Hin|Hin]%elem_of_app.
    + destruct (decide ((ns', bindingName role') = (ns, bindingName role))) as [E|Hne].
      * rewrite Hb, E, lookup_insert_eq. eexists. split; [done|].
        apply pair_equal_spec in E as [-> ->%bindingName_inj].
        rewrite (Hgrp _ _ Hin). apply syncBinding_synced.
      * rewrite Hb, lookup_insert_ne by done. by apply Hs.
    + apply list_elem_of_singleton in Hin. injection Hin as -> -> ->.
      rewrite Hb, lookup_insert_eq. eexists. split; [done|]. apply syncBinding_synced.
  - intros k Hnot. rewrite Hb, lookup_insert_ne.
    + apply Hk. intros ns' role' group' Hin. eapply Hnot. apply elem_of_app. eauto.
    + symmetry. eapply Hnot. apply elem_of_app. right. by apply list_elem_of_singleton.
Qed.

(** The namespaces of [l] with the three roles each. *)
Definition grants (tenant : string) (l : list ObjectMeta) : list (key * string) :=
  m ← l; (fun rg : string * string => ((Name m, rg.1), rg.2)) <$> tenant_roles tenant.

Lemma grants_app tenant l x :
  grants tenant (l ++ [x]) = grants tenant l ++
    [((Name x, tenantOwnerClusterRole), "tenant:" +:+ tenant +:+ ":owners");
     ((Name x, tenantDeveloperClusterRole), "tenant:" +:+ tenant +:+ ":developers");
     ((Name x, tenantViewerClusterRole), "tenant:" +:+ tenant +:+ ":viewers")].
Proof. unfold grants. by rewrite bind_app. Qed.

Lemma elem_of_grants tenant l ns role group :
  ((ns, role), group) ∈ grants tenant l <->
  (exists m, m ∈ l /\ Name m = ns) /\ (role, group) ∈ tenant_roles tenant.
Proof.
  unfold grants. rewrite list_elem_of_bind. setoid_rewrite list_elem_of_fmap. split.
  - intros (m & ([r g] & E & Hr) & Hm). injection E as -> -> ->. eauto.
  - intros ((m & Hm & <-) & Hr). exists m. split; [|done]. by exists (role, group).
Qed.

(** A role determines its group. *)
Lemma role_group tenant role g g' :
  (role, g) ∈ tenant_roles tenant -> (role, g') ∈ tenant_roles tenant -> g = g'.
Proof.
  unfold tenant_roles. rewrite !elem_of_cons, !elem_of_nil.
  intros [E|[E|[E|[]]]] [E'|[E'|[E'|[]]]]; apply pair_equal_spec in E as [-> ->];
    apply pair_equal_spec in E' as [Er ->]; done.
Qed.

Lemma namespaces_done s0 tenant l s' :
  for_each (fun ns =>
    _ ← ensureRoleBinding tenant (Name ns) tenantOwnerClusterRole
          ("tenant:" +:+ tenant +:+ ":owners");
    _ ← ensureRoleBinding tenant (Name ns) tenantDeveloperClusterRole
          ("tenant:" +:+ tenant +:+ ":developers");
    ensureRoleBinding tenant (Name ns) tenantViewerClusterRole
      ("tenant:" +:+ tenant +:+ ":viewers")) l s0 = (Ok tt, s') ->
  progress s0 tenant (grants tenant l) s'.
Proof.
  apply (for_each_ok (fun dn s => progress s0 tenant (grants tenant dn) s)).
  { split_and!; [done| |done]. intros ns role group H. by apply not_elem_of_nil in H. }
  intros dn x s1 s2 Hp _ ([] & s3 & H1 & ([] & s4 & H2 & H3)%io_bind_ok)%io_bind_ok.
  rewrite grants_app. cbn [app].
  assert (forall (a b c : key * string) d, d ++ [a; b; c] = ((d ++ [a]) ++ [b]) ++ [c]) as Ha.
  { intros. by rewrite <- !app_assoc. }
  rewrite Ha. clear Ha.
  assert (forall ns role group, ((ns, role), group) ∈ grants tenant dn ->
    (role, group) ∈ tenant_roles tenant) as Hg by (intros ns r g H%elem_of_grants; tauto).
  eapply ensure_progress; [|eapply ensure_progress; [|eapply ensure_progress; [|exact Hp|exact H1]|exact H2]|exact H3].
  all: intros ns' g'; rewrite ?elem_of_app, ?list_elem_of_singleton; intros H;
    repeat (destruct H as [H|H]; [|by apply pair_equal_spec in H as [[= _ ?] ?]]);
    apply Hg in H; eapply role_group; [exact H|]; unfold tenant_roles; set_solver.
Qed.

(** A successful run works through the namespaces labelled with the tenant. *)
Lemma reconcile_progress tenant s s' :
  api_get_Tenant s tenant = Found tenant -> Reconcile tenant s = (Ok tt, s') ->
  exists l, progress s tenant (grants tenant l) s' /\
    forall m, m ∈ l <-> exists n, namespaces s !! n = Some m /\ Name m = n /\
              Labels m ≫= (.!! labelTenant) = Some tenant.
Proof.
  intros Hg. unfold Reconcile. rewrite Hg.
  intros (l & s1 & Hl & Hloop)%io_bind_ok.
  apply wrap_err_ok, list_Namespaces_done in Hl as (Eb & En & Hl).
  apply namespaces_done in Hloop as (Hn & Hs & Hk). exists l. split; [|done].
  split_and!; [congruence | done |]. intros k Hno. rewrite <- Eb. by apply Hk.
Qed.

(** C31: a successful reconciliation of a Tenant leaves, in every
    namespace labelled with it, three bindings that grant the owner, developer and viewer
    cluster roles to the groups tenant:<name>:owners, tenant:<name>:developers and
    tenant:<name>:viewers and to nobody else, and changes no other binding of any namespace. The
    groups come from the name of the Tenant alone: its specification lists no identities, and the
    controller binds none. *)
Theorem tenant_bindings_synced tenant s s' :
  api_get_Tenant s tenant = Found tenant -> Reconcile tenant s = (Ok tt, s') ->
  (forall n m role group, namespaces s !! n = Some m -> Name m = n ->
     Labels m ≫= (.!! labelTenant) = Some tenant -> (role, group) ∈ tenant_roles tenant ->
     exists rb, bindings s' !! (n, bindingName role) = Some rb /\ synced tenant role group rb) /\
  (forall k, (forall m role group, namespaces s !! k.1 = Some m -> Labels m ≫= (.!! labelTenant) = Some tenant ->
       (role, group) ∈ tenant_roles tenant -> k.2 <> bindingName role) ->
     bindings s' !! k = bindings s !! k).
Proof.
  intros Hg Hr. destruct (reconcile_progress _ _ _ Hg Hr) as (l & (_ & Hs & Hk) & Hl). split.
  - intros n m role group Hm Hn Ht Hin. apply Hs, elem_of_grants. split; [|done].
    exists m. split; [|done]. apply Hl. eauto.
  - intros k Hno. apply Hk. intros ns role group H ->.
    apply elem_of_grants in H as [(m & Hm & <-) Hin]. apply Hl in Hm as (n & Hm & <- & Ht).
    by eapply (Hno m role group).
Qed.

(** Labelling a namespace with a tenant enqueues exactly that
    tenant, and its next successful reconciliation creates the bindings there. *)
Theorem namespace_watch_syncs n m tenant s s' :
  namespaces s !! n = Some m -> Name m = n ->
  Labels m ≫= (.!! labelTenant) = Some tenant -> tenant <> "" ->
  api_get_Tenant s tenant = Found tenant ->
  for_each Reconcile (enqueueNamespace (Some m)) s = (Ok tt, s') ->
  forall role group, (role, group) ∈ tenant_roles tenant ->
  exists rb, bindings s' !! (n, bindingName role) = Some rb /\ synced tenant role group rb.
Proof.
  intros Hm Hn Ht Hne Hg. unfold enqueueNamespace, GetLabel. cbv zeta.
  rewrite (map_get_some _ _ _ Ht), (proj2 (str_eqb_neq _ _) Hne).
  intros ([] & s1 & Hr & Hret)%io_bind_ok role group Hin. injection Hret as ->.
  destruct (reconcile_progress _ _ _ Hg Hr) as (l & (_ & Hs & _) & Hl).
  apply Hs, elem_of_grants.
  split; [|done]. exists m. split; [apply Hl; eauto | done].
Qed.
End Proofs.

(** ** A server that satisfies the laws *)

Module RbacServer.
Record state := mkState {
  st_tenants : list string;
  st_namespaces : gmap string ObjectMeta;
  st_bindings : gmap key RoleBinding;
}.

#[export] Instance api : TenantAPI state := {|
  api_get_Tenant s n := if bool_decide (n ∈ st_tenants s) then Found n else NotFound;
  api_list_Namespaces t s :=
    (Ok (snd <$> List.filter (fun nm => bool_decide
       (Name nm.2 = nm.1 /\ Labels nm.2 ≫= (.!! labelTenant) = Some t))
       (map_to_list (st_namespaces s))), s);
  api_CreateOrUpdate k f s :=
    (Ok tt, mkState (st_tenants s) (st_namespaces s)
       (<[k := f (default (mkRoleBinding k.2 k.1 None (mkRoleRef "" "" "") [])
                   (st_bindings s !! k))]> (st_bindings s)));
|}.

#[export] Instance laws : TenantAPILaws state.
Proof.
  refine {| bindings := st_bindings; namespaces := st_namespaces |}.
  - intros s n t. cbn. case_bool_decide; naive_solver.
  - intros t s l s'. cbn. intros [= <- <-]. split_and!; [done..|]. intros m.
    rewrite list_elem_of_fmap. split.
    + intros ([n m'] & -> & Hf). rewrite list_elem_of_In, filter_In, <- list_elem_of_In in Hf.
      destruct Hf as [Hin [E Ht]%bool_decide_eq_true]. apply elem_of_map_to_list in Hin.
      cbn in *. eauto.
    + intros (n & Hm & E & Ht). exists (n, m). split; [done|].
      rewrite list_elem_of_In, filter_In, <- list_elem_of_In.
      split; [by apply elem_of_map_to_list | by apply bool_decide_eq_true].
  - intros k f s s'. cbn. by intros [= <-].
Defined.

Definition ns1 : ObjectMeta := mkMeta "ns1" "" (Some {[ labelTenant := "acme" ]}) None 1.
Definition s0 : state := mkState ["acme"] {[ "ns1" := ns1 ]} ∅.
Definition s1 : state := snd (Reconcile "acme" s0).

Lemma run : Reconcile "acme" s0 = (Ok tt, s1).
Proof. vm_compute. reflexivity. Qed.

Lemma run_watch : for_each Reconcile (enqueueNamespace (Some ns1)) s0 = (Ok tt, s1).
Proof. vm_compute. reflexivity. Qed.

Lemma tenant_bindings_synced_witness :
  exists rb, bindings s1 !! ("ns1", bindingName tenantViewerClusterRole) = Some rb /\
    synced "acme" tenantViewerClusterRole "tenant:acme:viewers" rb.
Proof.
  refine (proj1 (tenant_bindings_synced "acme" s0 s1 eq_refl run) "ns1" ns1 _ _ _ _ _ _);
    [reflexivity | reflexivity | reflexivity | unfold tenant_roles; set_solver].
Defined.

Lemma namespace_watch_syncs_witness :
  exists rb, bindings s1 !! ("ns1", bindingName tenantOwnerClusterRole) = Some rb /\
    synced "acme" tenantOwnerClusterRole "tenant:acme:owners" rb.
Proof.
  refine (namespace_watch_syncs "ns1" ns1 "acme" s0 s1 _ _ _ _ _ run_watch _ _ _);
    [reflexivity | reflexivity | reflexivity | discriminate | reflexivity |
     unfold tenant_roles; set_solver].
Defined.
End RbacServer.
