(* ===== verification/UsageWriter.v ===== *)
(** The usage writer: [kubeop-operator/controllers/usagewriter_controller.go], with the
    samples of [kubeop-operator/internal/metrics/provider.go].

    Metered quantities ([resource.Quantity]) and the API server are interfaces; the
    clock is an argument. *)

From Stdlib Require Import Ascii ZArith Lia.
From stdpp Require Import base gmap strings list fin_maps.
From S2P Require Import Prelude Utf8 GoStrings Hash Names GoTime Kube.

(** ** Names of BillingUsage objects *)

(** [BillingSubjectType], a string with three constants. *)
Inductive BillingSubjectType :=
| BillingSubjectTypeTenant
| BillingSubjectTypeProject
| BillingSubjectTypeApp.

Definition subject_string (t : BillingSubjectType) : string :=
  match t with
  | BillingSubjectTypeTenant => "tenant"
  | BillingSubjectTypeProject => "project"
  | BillingSubjectTypeApp => "app"
  end.

Definition DNS1123LabelMaxLength : nat := 63.

Definition namespaceKey (ns name : string) : string :=
  if blank ns then name else ns +:+ "/" +:+ name.

(** The replacer of [sanitizeName]: each of [/ : _ .] becomes a hyphen. *)
Definition replacer (s : string) : string :=
  of_chars ((fun c => if char_in "/:_." c then dash else c) <$> chars s).

(** The rune loop of [sanitizeName]. *)
Fixpoint sanitize_runes (lastDash : bool) (rs : list rune) : list ascii :=
  match rs with
  | [] => []
  | r :: rs =>
      if in_range 97 122 r || in_range 48 57 r then byte_of_Z r :: sanitize_runes false rs
      else if lastDash then sanitize_runes true rs
      else dash :: sanitize_runes true rs
  end.

Definition sanitizeName (value : string) : string :=
  let value := ToLower (TrimSpace value) in
  let value := replacer value in
  let sanitized := Trim (of_chars (sanitize_runes false (decode_runes (chars value)))) "-" in
  if str_eqb sanitized "" then "subject" else sanitized.

Definition sanitizeWindow (window : Time) : string :=
  ToLower (replace_char ":"%char dash (FormatHour window)).

Definition buildBillingUsageName (subjectType : BillingSubjectType) (subjectRef : string)
    (window : Time) : string :=
  let base := ToLower (subject_string subjectType) +:+ "-" +:+ sanitizeName subjectRef +:+ "-"
              +:+ sanitizeWindow window in
  if len base <=? DNS1123LabelMaxLength then base
  else
    let hash := sha1 (string_bytes base) in
    let suffix := hex_encode (take 4 hash) in
    let trimmedLength := DNS1123LabelMaxLength - len suffix - 1 in
    let trimmedLength := if trimmedLength <? 1 then 1 else trimmedLength in
    let prefix := sanitizeName (str_take trimmedLength base) in
    let prefix := if str_eqb prefix "" then "usage" else prefix in
    prefix +:+ "-" +:+ suffix.

Example usage_name_ex :
  buildBillingUsageName BillingSubjectTypeProject "Team/Web_App" 1709210096%Z
  = "project-team-web-app-2024-02-29t12".
Proof. vm_compute. reflexivity. Qed.

(** ** The names are labels *)

Lemma sanitize_runes_name last rs : name_bytes (sanitize_runes last rs).
Proof.
  revert last. induction rs as [|r rs IH]; intros last; cbn; [constructor|].
  destruct (_ || _) eqn:E; [|destruct last; [apply IH | constructor; [done | apply IH]]].
  constructor; [|apply IH]. apply alnum_name_char. unfold alnum.
  rewrite orb_true_iff, !in_range_true in E.
  by rewrite bz_byte_of_Z, orb_true_iff, !in_range_true by lia.
Qed.

Lemma sanitize_runes_length last rs : length (sanitize_runes last rs) <= length rs.
Proof.
  revert last. induction rs as [|r rs IH]; intros last; cbn; [lia|].
  specialize (IH false) as H1. specialize (IH true) as H2.
  destruct (_ || _); cbn; [lia|]. destruct last; cbn; lia.
Qed.

(** A sanitised name is a label up to its length. *)
Lemma sanitizeName_shape v :
  name_bytes (chars (sanitizeName v)) /\ head_alnum (chars (sanitizeName v)) = true /\
  head_alnum (rev (chars (sanitizeName v))) = true.
Proof.
  unfold sanitizeName. set (l := sanitize_runes _ _).
  assert (name_bytes l) as Hl by apply sanitize_runes_name.
  unfold Trim. rewrite !chars_of_chars. destruct (str_eqb _ "") eqn:E.
  { split; [by repeat constructor | done]. }
  apply str_eqb_neq in E. rewrite of_chars_nil in E. rewrite chars_of_chars.
  split; [by apply trim_by_Forall|]. by apply trimmed_ends.
Qed.

(** The bytes of a formatted hour. *)
Definition hour_byte (c : ascii) : Prop := (48 <= bz c <= 57)%Z \/ c = dash \/ c = "T"%char.

Definition window_byte (c : ascii) : ascii :=
  ascii_lower (if bool_decide (c = ":"%char) then dash else c).

Lemma FormatHour_bytes w : Forall hour_byte (chars (FormatHour w)).
Proof.
  unfold FormatHour, format_date. destruct (civil _) as [[y m] d]. rewrite chars_of_chars.
  unfold two, four. cbn [app].
  assert (forall n, hour_byte (dig n)) by (intros n; left; apply dig_bz).
  assert (hour_byte dash) by (right; by left). assert (hour_byte "T"%char) by (right; by right).
  rewrite !Forall_cons. split_and!; auto.
Qed.

Lemma sanitizeWindow_chars w : chars (sanitizeWindow w) = window_byte <$> chars (FormatHour w).
Proof.
  pose proof (FormatHour_bytes w) as H. unfold sanitizeWindow, replace_char, ToLower.
  rewrite chars_of_chars, (proj2 (is_ascii_Forall _)), chars_of_chars.
  - by rewrite <- list_fmap_compose.
  - apply Forall_fmap. eapply Forall_impl; [exact H|]. unfold ascii_byte, hour_byte. cbn.
    intros c Hc. case_bool_decide; [done|].
    destruct Hc as [?|[-> | ->]]; [lia | done | done].
Qed.

(** Decide a statement about the byte of a digit. *)
Ltac digit_cases c H :=
  byte_cases c; first [ vm_compute; reflexivity
    | exfalso; destruct H as [H1 H2]; first [apply H1; reflexivity | apply H2; reflexivity] ].

Lemma window_byte_name c : hour_byte c -> name_char (window_byte c) = true.
Proof.
  intros [H|[-> | ->]]; [|done..]. digit_cases c H.
Qed.

Lemma window_byte_digit n : alnum (window_byte (dig n)) = true.
Proof.
  pose proof (dig_bz n) as H. revert H. generalize (dig n). intros c H. digit_cases c H.
Qed.

Lemma sanitizeWindow_shape w :
  name_bytes (chars (sanitizeWindow w)) /\ head_alnum (rev (chars (sanitizeWindow w))) = true.
Proof.
  rewrite sanitizeWindow_chars. split.
  - apply Forall_fmap. eapply Forall_impl; [apply FormatHour_bytes|]. intros c. apply window_byte_name.
  - unfold FormatHour, format_date. destruct (civil _) as [[y m] d]. rewrite chars_of_chars.
    cbn -[dig window_byte alnum]. apply window_byte_digit.
Qed.

Lemma name_bytes_app l k : name_bytes (l ++ k) <-> name_bytes l /\ name_bytes k.
Proof. apply Forall_app. Qed.

(** Sanitising a string of name bytes does not make it longer than 54 bytes. *)
Lemma sanitizeName_length s n :
  name_bytes (chars s) -> len s <= n -> 7 <= n -> len (sanitizeName s) <= n.
Proof.
  intros Hn Hl H7. unfold sanitizeName.
  destruct (str_eqb _ "") eqn:E; [cbn; lia|]. clear E. unfold Trim, len. rewrite !chars_of_chars.
  etransitivity; [apply trim_by_length|]. etransitivity; [apply sanitize_runes_length|].
  pose proof (trim_space_Forall _ s Hn) as Ht. rewrite (name_bytes_lower _ Ht).
  unfold replacer. rewrite chars_of_chars.
  rewrite decode_runes_ascii, !length_fmap.
  - etransitivity; [apply trim_space_len | done].
  - apply Forall_fmap. eapply Forall_impl; [exact Ht|]. intros c Hc.
    change (ascii_byte (if char_in "/:_." c then dash else c)).
    destruct (char_in "/:_." c); [by apply name_char_ascii|]. by apply name_char_ascii.
Qed.

Lemma head_alnum_rev_app l k : head_alnum (rev k) = true -> head_alnum (rev (l ++ k)) = true.
Proof. intros H. rewrite rev_app_distr. by apply head_alnum_app. Qed.

(** The name of a BillingUsage is a DNS-1123 label of at most 63
    bytes, whatever the subject and the window. *)
Theorem billing_usage_name_label subjectType subjectRef window :
  dns1123_label (buildBillingUsageName subjectType subjectRef window) = true.
Proof.
  destruct (sanitizeName_shape subjectRef) as (Hs & Hsh & Hse).
  destruct (sanitizeWindow_shape window) as [Hw Hwe].
  apply dns1123_label_spec. unfold buildBillingUsageName. cbv zeta. set (base := ToLower _ +:+ _).
  assert (name_bytes (chars base) /\ head_alnum (chars base) = true /\
    head_alnum (rev (chars base)) = true) as (Hb & Hbh & Hbe).
  { unfold base. rewrite !chars_app. split_and!.
    - destruct subjectType; repeat (apply name_bytes_app; split); try done; by repeat constructor.
    - by destruct subjectType.
    - by repeat apply head_alnum_rev_app. }
  destruct (len base <=? _) eqn:El.
  - apply Nat.leb_le in El. split_and!; done.
  - set (suffix := hex_encode (take 4 _)).
    assert (len suffix = 8) as Hlen.
    { unfold suffix. rewrite hex_encode_len, length_take, sha1_length. done. }
    assert (alnum_bytes (chars suffix)) as Hsuf by apply hex_encode_alnum, Forall_take, sha1_ok.
    rewrite Hlen. change (DNS1123LabelMaxLength - 8 - 1) with 54. cbn [Nat.ltb Nat.leb].
    destruct (sanitizeName_shape (str_take 54 base)) as (Hp & Hph & Hpe).
    assert (str_eqb (sanitizeName (str_take 54 base)) "" = false) as ->.
    { apply str_eqb_neq. intros E. by rewrite E in Hph. }
    assert (len (sanitizeName (str_take 54 base)) <= 54) as Hpl.
    { apply sanitizeName_length; [|rewrite len_str_take; lia | lia].
      unfold str_take. rewrite chars_of_chars. by apply Forall_take. }
    rewrite !chars_app. split_and!.
    + repeat (apply name_bytes_app; split); [done | by repeat constructor | by apply alnum_name_bytes].
    + by apply head_alnum_app.
    + repeat apply head_alnum_rev_app. apply alnum_bytes_head_rev; [done|].
      intros E. unfold len in Hlen. by rewrite E in Hlen.
    + rewrite !length_app. unfold len in *. cbn. lia.
Qed.

(** Different subjects can share a BillingUsage name in the
    same window: the project x of namespace team-a, the project a-x of namespace team,
    the project of namespace team named a.x. *)
Theorem billing_usage_name_collision window :
  let name ns p := buildBillingUsageName BillingSubjectTypeProject (namespaceKey ns p) window in
  name "team-a" "x" = name "team" "a-x" /\ name "team" "a.x" = name "team" "a-x".
Proof. done. Qed.

(** ** Samples and totals *)

(** [resource.Quantity] *)
Class Quantity (Q : Type) := {
  q_zero : Q; (* resource.MustParse("0") *)
  q_Add : Q -> Q -> Q;
  q_Sign : Q -> Z;
  q_String : Q -> string;
}.

(** The value in nano-units, the finest a quantity has. *)
Class QuantityLaws (Q : Type) `{Quantity Q} := {
  q_val : Q -> Z;
  q_val_zero : q_val q_zero = 0%Z;
  q_val_add a b : q_val (q_Add a b) = (q_val a + q_val b)%Z;
  q_val_sign a : q_Sign a = 0%Z <-> q_val a = 0%Z;
}.

(** The five meters of a sample and of a total. *)
Inductive meter := CPU | Memory | Storage | Egress | LBHours.

#[export] Instance meter_eq_dec : EqDecision meter.
Proof. solve_decision. Defined.

Section Totals.
Context {Q : Type} `{quantity : Quantity Q}.

Record UsageSample := mkSample {
  Tenant : string;
  ProjectNamespace : string;
  sample_Project : string;
  AppNamespace : string;
  sample_App : string;
  sample_meter : meter -> Q;
}.

Record usageAccumulator := mkAcc { acc_meter : meter -> Q }.

Definition newUsageAccumulator : usageAccumulator := mkAcc (fun _ => q_zero).

Definition add (a : usageAccumulator) (sample : UsageSample) : usageAccumulator :=
  mkAcc (fun m =>
    if negb (Z.eqb (q_Sign (sample_meter sample m)) 0)
    then q_Add (acc_meter a m) (sample_meter sample m)
    else acc_meter a m).

(** [acc := totals[key]; if acc == nil { ... }; acc.add(sample)] *)
Definition addTo (key : string) (sample : UsageSample) (totals : gmap string usageAccumulator)
    : gmap string usageAccumulator :=
  <[key := add (default newUsageAccumulator (totals !! key)) sample]> totals.

Record Totals := mkTotals {
  tenantTotals : gmap string usageAccumulator;
  projectTotals : gmap string usageAccumulator;
  appTotals : gmap string usageAccumulator;
}.

(** One round of the aggregation loop of [Reconcile]. *)
Definition addSample (t : Totals) (sample : UsageSample) : Totals :=
  let tenant := TrimSpace (Tenant sample) in
  let project := TrimSpace (sample_Project sample) in
  let appName := TrimSpace (sample_App sample) in
  if str_eqb tenant "" || str_eqb project "" || str_eqb appName "" then t
  else mkTotals
    (addTo tenant sample (tenantTotals t))
    (addTo (namespaceKey (ProjectNamespace sample) project) sample (projectTotals t))
    (addTo (namespaceKey (AppNamespace sample) appName) sample (appTotals t)).

Definition aggregate (samples : list UsageSample) : Totals :=
  foldl addSample (mkTotals ∅ ∅ ∅) samples.

(** [totals := m[key]; if totals == nil { totals = newUsageAccumulator() }] *)
Definition totalsFor (m : gmap string usageAccumulator) (key : string) : usageAccumulator :=
  default newUsageAccumulator (m !! key).
End Totals.
Arguments UsageSample Q : clear implicits.
Arguments usageAccumulator Q : clear implicits.
Arguments Totals Q : clear implicits.

(** ** Conservation *)

Section Conservation.
Context {Q : Type} `{quantity : Quantity Q} `{laws : !QuantityLaws Q}.
Local Open Scope Z_scope.

(** A sample is billed when it names its tenant, project and app. *)
Definition billable (s : UsageSample Q) : bool :=
  negb (blank (Tenant s) || blank (sample_Project s) || blank (sample_App s)).

Definition tenant_key (s : UsageSample Q) : string := TrimSpace (Tenant s).
Definition project_key (s : UsageSample Q) : string :=
  namespaceKey (ProjectNamespace s) (TrimSpace (sample_Project s)).
Definition app_key (s : UsageSample Q) : string :=
  namespaceKey (AppNamespace s) (TrimSpace (sample_App s)).

(** What the samples that satisfy [P] amount to on meter [m]. *)
Definition usage_of (P : UsageSample Q -> bool) (m : meter) (l : list (UsageSample Q)) : Z :=
  foldr (fun s acc => (if P s then q_val (sample_meter s m) else 0) + acc) 0 l.

Definition acc_val (m : meter) (a : usageAccumulator Q) : Z := q_val (acc_meter a m).

Lemma acc_val_add m a s : acc_val m (add a s) = acc_val m a + q_val (sample_meter s m).
Proof.
  unfold acc_val, add. cbn. destruct (Z.eqb _ 0) eqn:E; cbn.
  - apply Z.eqb_eq, q_val_sign in E. lia.
  - apply q_val_add.
Qed.

Lemma totalsFor_addTo m key k s t :
  acc_val m (totalsFor (addTo key s t) k) =
  acc_val m (totalsFor t k) + if bool_decide (key = k) then q_val (sample_meter s m) else 0.
Proof.
  unfold totalsFor, addTo. case_bool_decide as E.
  - subst k. rewrite lookup_insert_eq. cbn. by rewrite acc_val_add.
  - rewrite lookup_insert_ne by done. lia.
Qed.

Lemma addSample_cases t s :
  addSample t s = if billable s then
    mkTotals (addTo (tenant_key s) s (tenantTotals t)) (addTo (project_key s) s (projectTotals t))
      (addTo (app_key s) s (appTotals t)) else t.
Proof.
  unfold addSample, billable, blank, tenant_key, project_key, app_key.
  by destruct (str_eqb _ "" || _ || _).
Qed.

(** Each of the three maps adds up the billable samples of each of its keys. *)
Lemma fold_totals (proj : Totals Q -> gmap string (usageAccumulator Q))
    (keyof : UsageSample Q -> string) m k :
  (forall t s, proj (addSample t s) = if billable s then addTo (keyof s) s (proj t) else proj t) ->
  forall l t, acc_val m (totalsFor (proj (foldl addSample t l)) k) =
    acc_val m (totalsFor (proj t) k) +
    usage_of (fun s => billable s && str_eqb (keyof s) k) m l.
Proof.
  intros Hstep l. induction l as [|s l IH]; intros t; cbn [foldl usage_of foldr]; [cbn; lia|].
  rewrite IH, Hstep. fold (usage_of (fun s => billable s && str_eqb (keyof s) k) m l).
  destruct (billable s); cbn [andb]; [|lia].
  rewrite totalsFor_addTo. unfold str_eqb. case_bool_decide; lia.
Qed.

Lemma acc_val_new m k : acc_val m (totalsFor ∅ k) = 0.
Proof. unfold totalsFor, acc_val. rewrite lookup_empty. cbn. apply q_val_zero. Qed.

Local Ltac totals_step := intros t s; rewrite addSample_cases; by destruct (billable s).

(** After the aggregation loop, the total of a tenant, project or app on
    every meter is exactly the sum over the samples that name tenant, project and app and
    belong to it; an unknown key has the zero total. *)
Theorem totals_exact samples m k :
  acc_val m (totalsFor (tenantTotals (aggregate samples)) k) =
    usage_of (fun s => billable s && str_eqb (tenant_key s) k) m samples /\
  acc_val m (totalsFor (projectTotals (aggregate samples)) k) =
    usage_of (fun s => billable s && str_eqb (project_key s) k) m samples /\
  acc_val m (totalsFor (appTotals (aggregate samples)) k) =
    usage_of (fun s => billable s && str_eqb (app_key s) k) m samples.
Proof.
  unfold aggregate. split_and!.
  - rewrite (fold_totals tenantTotals tenant_key); [cbn; rewrite acc_val_new; lia | totals_step].
  - rewrite (fold_totals projectTotals project_key); [cbn; rewrite acc_val_new; lia | totals_step].
  - rewrite (fold_totals appTotals app_key); [cbn; rewrite acc_val_new; lia | totals_step].
Qed.

(** The sum of a map of totals. *)
Definition grand_total (m : meter) (t : gmap string (usageAccumulator Q)) : Z :=
  map_fold (fun _ a acc => acc_val m a + acc) 0 t.

Lemma grand_total_insert m k a t :
  t !! k = None -> grand_total m (<[k := a]> t) = acc_val m a + grand_total m t.
Proof. intros Hk. unfold grand_total. rewrite map_fold_insert_L; [done | intros; lia | done]. Qed.

Lemma grand_total_addTo m key s t :
  grand_total m (addTo key s t) = grand_total m t + q_val (sample_meter s m).
Proof.
  unfold addTo. destruct (t !! key) as [a|] eqn:E; cbn [default].
  - rewrite <- (insert_delete_eq t key), grand_total_insert by apply lookup_delete_eq.
    rewrite acc_val_add. rewrite <- (insert_delete_id t key a E) at 2.
    rewrite grand_total_insert by apply lookup_delete_eq. cbn. lia.
  - rewrite grand_total_insert by done. rewrite acc_val_add. unfold acc_val at 1. cbn.
    rewrite q_val_zero. lia.
Qed.

Lemma fold_grand_total (proj : Totals Q -> gmap string (usageAccumulator Q)) keyof m :
  (forall t s, proj (addSample t s) = if billable s then addTo (keyof s) s (proj t) else proj t) ->
  forall l t, grand_total m (proj (foldl addSample t l)) =
    grand_total m (proj t) + usage_of billable m l.
Proof.
  intros Hstep l. induction l as [|s l IH]; intros t; cbn [foldl usage_of foldr]; [cbn; lia|].
  rewrite IH, Hstep. fold (usage_of billable m l).
  destruct (billable s); [|lia]. rewrite grand_total_addTo. lia.
Qed.

(** Usage is neither lost nor counted twice: on every meter the totals
    of all tenants, of all projects and of all apps each sum to the billable usage. *)
Theorem usage_conserved samples m :
  grand_total m (tenantTotals (aggregate samples)) = usage_of billable m samples /\
  grand_total m (projectTotals (aggregate samples)) = usage_of billable m samples /\
  grand_total m (appTotals (aggregate samples)) = usage_of billable m samples.
Proof.
  unfold aggregate. split_and!.
  - rewrite (fold_grand_total tenantTotals tenant_key); [done | totals_step].
  - rewrite (fold_grand_total projectTotals project_key); [done | totals_step].
  - rewrite (fold_grand_total appTotals app_key); [done | totals_step].
Qed.
End Conservation.

(** Quantities as integers. *)
Module IntQuantity.
#[export] Instance int_quantity : Quantity Z :=
  {| q_zero := 0%Z; q_Add := Z.add; q_Sign := Z.sgn; q_String := fun z => itoa (Z.to_nat z) |}.

#[export] Instance int_quantity_laws : QuantityLaws Z.
Proof. refine {| q_val := fun z => z |}; cbn; [done | done | intros a; lia]. Defined.

Definition sample (t ns p a : string) (cpu : Z) : UsageSample Z :=
  mkSample t ns p ns a (fun m => if bool_decide (m = CPU) then cpu else 0%Z).

Definition samples : list (UsageSample Z) :=
  [sample "acme" "web" "shop" "api" 250; sample " acme " "web" "shop" "ui" 100;
   sample "" "web" "shop" "ghost" 999; sample "beta" "b" "site" "ui" 7].

Lemma totals_exact_witness :
  acc_val CPU (totalsFor (tenantTotals (aggregate samples)) "acme") = 350%Z.
Proof. exact (proj1 (totals_exact samples CPU "acme")). Defined.

Lemma usage_conserved_witness :
  grand_total CPU (tenantTotals (aggregate samples)) = 357%Z.
Proof. exact (proj1 (usage_conserved samples CPU)). Defined.
End IntQuantity.
