(* ===== verification/UsageReconcile.v ===== *)
(** The reconciliation loop of the usage writer
    ([kubeop-operator/controllers/usagewriter_controller.go], [Reconcile] and the
    functions it writes with): totals to status and BillingUsage snapshots, failures
    to conditions. *)

From Stdlib Require Import Ascii ZArith Lia.
From stdpp Require Import base gmap strings list.
From S2P Require Import Prelude GoStrings Hash Names GoTime Kube AppController UsageWriter.

(** ** Objects *)

Section Objects.
Context {Q : Type}.

(** The parts of Tenant, Project and BillingUsage the writer reads or writes. *)
Record TenantObj := mkTenant {
  t_Name : string;
  t_Usage : option (usageAccumulator Q);
  t_Conditions : list Condition;
}.
Record ProjectObj := mkProjectObj {
  pr_Namespace : string;
  pr_Name : string;
  pr_Usage : option (usageAccumulator Q);
  pr_Conditions : list Condition;
}.
End Objects.
Arguments TenantObj Q : clear implicits.
Arguments ProjectObj Q : clear implicits.

Record BillingUsage := mkUsage {
  bu_SubjectType : option BillingSubjectType; (* None: the zero value "" *)
  bu_SubjectRef : string;
  bu_Window : string;
  bu_Meters : strmap;
  bu_Conditions : list Condition;
}.

Class UsageAPI (S Q : Type) := {
  list_Tenants : io S string (list (TenantObj Q));
  list_Projects : io S string (list (ProjectObj Q));
  list_Apps : io S string (list (string * string)); (* namespace, name *)
  (** [Status().Patch(ctx, obj, client.MergeFrom(original))] *)
  patch_Tenant : TenantObj Q -> io S string unit;
  patch_Project : ProjectObj Q -> io S string unit;
  patch_Usage : string -> BillingUsage -> io S string unit;
  (** [controllerutil.CreateOrUpdate] of the BillingUsage of that name *)
  CreateOrUpdate_Usage : string -> (BillingUsage -> BillingUsage) -> io S string BillingUsage;
}.

(** [if err := m; err != nil { errs = append(errs, err) }] for a sequence of steps. *)
Fixpoint run_all {S E} (ms : list (io S E unit)) (s : S) : list E * S :=
  match ms with
  | [] => ([], s)
  | m :: ms =>
      let '(r, s1) := m s in
      let '(errs, s2) := run_all ms s1 in
      (match r with Ok _ => errs | Err e => e :: errs end, s2)
  end.

(** ** Conditions *)

Definition usageAggregationCompleteReason := "UsageAggregationComplete".
Definition usageAggregationFailedReason := "UsageAggregationFailed".

Definition setUsageConditions `{ConditionSetter} (conditions : list Condition) (window : Time)
    (aggregationErr : option string) : list Condition :=
  let windowMsg := "Usage window " +:+ FormatRFC3339 window in
  match aggregationErr with
  | Some err =>
      let msg := windowMsg +:+ ": " +:+ err in
      let c := SetStatusCondition conditions
        (mkCondition "Reconciling" "False" usageAggregationFailedReason msg 0) in
      let c := SetStatusCondition c (mkCondition "Ready" "False" usageAggregationFailedReason msg 0) in
      SetStatusCondition c (mkCondition "Degraded" "True" usageAggregationFailedReason msg 0)
  | None =>
      let message := windowMsg +:+ " updated" in
      let c := SetStatusCondition conditions
        (mkCondition "Reconciling" "False" usageAggregationCompleteReason message 0) in
      let c := SetStatusCondition c
        (mkCondition "Ready" "True" usageAggregationCompleteReason message 0) in
      SetStatusCondition c
        (mkCondition "Degraded" "False" usageAggregationCompleteReason "Usage aggregation healthy" 0)
  end.

(** ** The loop *)

Section Writer.
Context {S Q : Type} `{quantity : Quantity Q} `{api : UsageAPI S Q} `{cs : ConditionSetter}.
Context (CollectUsage : Time -> result string (list (UsageSample Q))).

Definition updateTenantStatus (tenant : TenantObj Q) (totals : usageAccumulator Q)
    (window : Time) (aggregationErr : option string) : io S message unit :=
  wrap_err (fun err => Sprintf "patch tenant status %s: %w" [t_Name tenant; err])
    (patch_Tenant (mkTenant (t_Name tenant) (Some totals)
       (setUsageConditions (t_Conditions tenant) window aggregationErr))).

Definition updateProjectStatus (project : ProjectObj Q) (totals : usageAccumulator Q)
    (window : Time) (aggregationErr : option string) : io S message unit :=
  wrap_err (fun err => Sprintf "patch project status %s/%s: %w"
              [pr_Namespace project; pr_Name project; err])
    (patch_Project (mkProjectObj (pr_Namespace project) (pr_Name project) (Some totals)
       (setUsageConditions (pr_Conditions project) window aggregationErr))).

(** The meters of a total, as text. *)
Definition setMeters (totals : usageAccumulator Q) (m : gmap string string) : gmap string string :=
  <["lbHours" := q_String (acc_meter totals LBHours)]>
    (<["egress" := q_String (acc_meter totals Egress)]>
      (<["storage" := q_String (acc_meter totals Storage)]>
        (<["memory" := q_String (acc_meter totals Memory)]>
          (<["cpu" := q_String (acc_meter totals CPU)]> m)))).

Definition upsertBillingUsage (subjectType : BillingSubjectType) (subjectRef : string)
    (totals : usageAccumulator Q) (window : Time) (aggregationErr : option string)
    : io S message unit :=
  let name := buildBillingUsageName subjectType subjectRef window in
  usage ← wrap_err (fun err => Sprintf "sync billing usage %s/%s: %w"
                      [subject_string subjectType; subjectRef; err])
    (CreateOrUpdate_Usage name (fun usage =>
       mkUsage (Some subjectType) subjectRef (FormatHour window)
         (Some (setMeters totals (default ∅ (bu_Meters usage)))) (bu_Conditions usage)));
  wrap_err (fun err => Sprintf "patch billing usage status %s/%s: %w"
              [subject_string subjectType; subjectRef; err])
    (patch_Usage name (mkUsage (bu_SubjectType usage) (bu_SubjectRef usage) (bu_Window usage)
       (bu_Meters usage) (setUsageConditions (bu_Conditions usage) window aggregationErr))).

(** The bodies of the three loops of [Reconcile]. *)
Definition tenantSteps (totals : Totals Q) (window : Time) (tenant : TenantObj Q)
    : list (io S message unit) :=
  let t := totalsFor (tenantTotals totals) (t_Name tenant) in
  [updateTenantStatus tenant t window None;
   upsertBillingUsage BillingSubjectTypeTenant (t_Name tenant) t window None].

Definition projectSteps (totals : Totals Q) (window : Time) (project : ProjectObj Q)
    : list (io S message unit) :=
  let key := namespaceKey (pr_Namespace project) (pr_Name project) in
  let t := totalsFor (projectTotals totals) key in
  [updateProjectStatus project t window None;
   upsertBillingUsage BillingSubjectTypeProject key t window None].

Definition appSteps (totals : Totals Q) (window : Time) (app : string * string)
    : list (io S message unit) :=
  let key := namespaceKey app.1 app.2 in
  let t := totalsFor (appTotals totals) key in
  [upsertBillingUsage BillingSubjectTypeApp key t window None].

Definition updateConditionsOnError (window : Time) (aggregationErr : string) (s : S)
    : list message * S :=
  let '(errs1, s1) :=
    match list_Tenants s with
    | (Err err, s1) => ([Sprintf "list tenants: %w" [err]], s1)
    | (Ok tenants, s1) =>
        run_all ((fun tenant =>
          wrap_err (fun err => Sprintf "patch tenant status %s: %w" [t_Name tenant; err])
            (patch_Tenant (mkTenant (t_Name tenant) (t_Usage tenant)
               (setUsageConditions (t_Conditions tenant) window (Some aggregationErr)))))
          <$> tenants) s1
    end in
  let '(errs2, s2) :=
    match list_Projects s1 with
    | (Err err, s2) => ([Sprintf "list projects: %w" [err]], s2)
    | (Ok projects, s2) =>
        run_all ((fun project =>
          wrap_err (fun err => Sprintf "patch project status %s/%s: %w"
                      [pr_Namespace project; pr_Name project; err])
            (patch_Project (mkProjectObj (pr_Namespace project) (pr_Name project)
               (pr_Usage project)
               (setUsageConditions (pr_Conditions project) window (Some aggregationErr)))))
          <$> projects) s2
    end in
  (errs1 ++ errs2, s2).

(** The result carries the joined errors; the request is always requeued after the
    interval. *)
Definition Reconcile (now : Time) (s : S) : result (list message) unit * S :=
  let window := TruncateHour now in
  match CollectUsage window with
  | Err err =>
      let '(statusErrs, s') := updateConditionsOnError window err s in
      (Err (Sprintf "%w" [err] :: statusErrs), s')
  | Ok samples =>
      let totals := aggregate samples in
      match list_Tenants s with
      | (Err err, s1) => (Err [Sprintf "list tenants: %w" [err]], s1)
      | (Ok tenantList, s1) =>
          let '(errs1, s2) := run_all (tenantList ≫= tenantSteps totals window) s1 in
          match list_Projects s2 with
          | (Err err, s3) => (Err [Sprintf "list projects: %w" [err]], s3)
          | (Ok projectList, s3) =>
              let '(errs2, s4) := run_all (projectList ≫= projectSteps totals window) s3 in
              match list_Apps s4 with
              | (Err err, s5) => (Err [Sprintf "list apps: %w" [err]], s5)
              | (Ok appList, s5) =>
                  let '(errs3, s6) := run_all (appList ≫= appSteps totals window) s5 in
                  match errs1 ++ errs2 ++ errs3 with
                  | [] => (Ok tt, s6)
                  | errs => (Err errs, s6)
                  end
              end
          end
      end
  end.
End Writer.

(** ** What the writer relies on *)

Class UsageAPILaws (S Q : Type) `{api : UsageAPI S Q} := {
  tenants : S -> gmap string (TenantObj Q);
  projects : S -> gmap key (ProjectObj Q);
  apps : S -> list (string * string);
  usages : S -> gmap string BillingUsage;
  list_Tenants_done s l s' : list_Tenants s = (Ok l, s') ->
    (tenants s' = tenants s /\ projects s' = projects s /\ apps s' = apps s /\ usages s' = usages s) /\
    forall t, t ∈ l <-> tenants s !! t_Name t = Some t;
  list_Projects_done s l s' : list_Projects s = (Ok l, s') ->
    (tenants s' = tenants s /\ projects s' = projects s /\ apps s' = apps s /\ usages s' = usages s) /\
    forall p, p ∈ l <-> projects s !! (pr_Namespace p, pr_Name p) = Some p;
  list_Apps_done s l s' : list_Apps s = (Ok l, s') ->
    (tenants s' = tenants s /\ projects s' = projects s /\ apps s' = apps s /\ usages s' = usages s) /\
    l = apps s;
  patch_Tenant_done t s s' : patch_Tenant t s = (Ok tt, s') ->
    tenants s' = <[t_Name t := t]> (tenants s) /\
    projects s' = projects s /\ apps s' = apps s /\ usages s' = usages s;
  patch_Project_done p s s' : patch_Project p s = (Ok tt, s') ->
    projects s' = <[(pr_Namespace p, pr_Name p) := p]> (projects s) /\
    tenants s' = tenants s /\ apps s' = apps s /\ usages s' = usages s;
  CreateOrUpdate_Usage_done n f s u s' : CreateOrUpdate_Usage n f s = (Ok u, s') ->
    u = f (default (mkUsage None "" "" None []) (usages s !! n)) /\
    usages s' = <[n := u]> (usages s) /\
    tenants s' = tenants s /\ projects s' = projects s /\ apps s' = apps s;
  patch_Usage_done n u s s' : patch_Usage n u s = (Ok tt, s') ->
    usages s' = alter (fun u0 => mkUsage (bu_SubjectType u0) (bu_SubjectRef u0) (bu_Window u0)
                                   (bu_Meters u0) (bu_Conditions u)) n (usages s) /\
    tenants s' = tenants s /\ projects s' = projects s /\ apps s' = apps s;
}.

(** ** Facts *)

Lemma run_all_done {S E} (ms : list (io S E unit)) s s' :
  run_all ms s = ([], s') <-> for_each id ms s = (Ok tt, s').
Proof.
  revert s. induction ms as [|m ms IH]; intros s; cbn.
  { split; intros [= <-]; done. }
  unfold id at 1, mbind, io_bind. destruct (m s) as [[[]|e] s1].
  - rewrite <- IH. destruct (run_all ms s1) as [errs s2]. naive_solver.
  - destruct (run_all ms s1). naive_solver.
Qed.

Lemma for_each_app {S E A} (f : A -> io S E unit) l k s s' :
  for_each f (l ++ k) s = (Ok tt, s') <->
  exists s1, for_each f l s = (Ok tt, s1) /\ for_each f k s1 = (Ok tt, s').
Proof.
  revert s. induction l as [|x l IH]; intros s; cbn [app for_each].
  { split; [intros H; by exists s | by intros (s1 & [= <-] & H)]. }
  rewrite !io_bind_ok. setoid_rewrite io_bind_ok. setoid_rewrite IH.
  split; [intros (a & s1 & H1 & s2 & H2 & H3) | intros (s2 & (a & s1 & H1 & H2) & H3)]; eauto 10.
Qed.

(** A loop over the steps of each element runs the elements in turn. *)
Lemma run_steps_done {S E A} (Inv : list A -> S -> Prop) (steps : A -> list (io S E unit)) l s s' :
  Inv [] s ->
  (forall dn x s1 s2, Inv dn s1 -> x ∈ l -> for_each id (steps x) s1 = (Ok tt, s2) ->
     Inv (dn ++ [x]) s2) ->
  run_all (l ≫= steps) s = ([], s') -> Inv l s'.
Proof.
  intros H0 Hstep H%run_all_done.
  apply (for_each_ok Inv (fun x => for_each id (steps x)) l s); [done..|].
  clear H0 Hstep. revert s H. induction l as [|x l IH]; intros s; [done|].
  cbn. intros (s1 & Hx & Hl)%for_each_app. apply io_bind_ok. exists tt, s1.
  split; [done | by apply IH].
Qed.

(** A loop of one step per element. *)
Lemma run_map_done {S E A} (Inv : list A -> S -> Prop) (f : A -> io S E unit) l s s' :
  Inv [] s ->
  (forall dn x s1 s2, Inv dn s1 -> x ∈ l -> f x s1 = (Ok tt, s2) -> Inv (dn ++ [x]) s2) ->
  run_all (f <$> l) s = ([], s') -> Inv l s'.
Proof.
  intros H0 Hstep H. apply (run_steps_done Inv (fun x => [f x]) l s); [done| |].
  - intros dn x s1 s2 HI Hx. cbn. intros ([] & s3 & Hf & [= <-])%io_bind_ok. by eapply Hstep.
  - rewrite <- H. clear. revert s. induction l as [|x l IH]; intros s; [done|].
    cbn. unfold mbind in IH. by destruct (f x s) as [r s1]; rewrite IH.
Qed.

Section ConditionFacts.
Context `{cs : ConditionSetter} `{claws : !ConditionLaws}.

Definition status_of (t : string) (l : list Condition) : option string :=
  cond_Status <$> find_condition t l.

Definition healthy (l : list Condition) : Prop :=
  status_of "Ready" l = Some "True" /\ status_of "Degraded" l = Some "False".
Definition degraded (l : list Condition) : Prop :=
  status_of "Ready" l = Some "False" /\ status_of "Degraded" l = Some "True".

Lemma find_set_eq l c t : cond_Type c = t -> find_condition t (SetStatusCondition l c) = Some c.
Proof. intros <-. apply condition_set. Qed.

Lemma setUsageConditions_ok l w : healthy (setUsageConditions l w None).
Proof.
  unfold healthy, status_of, setUsageConditions. split.
  - rewrite condition_other by done. by erewrite find_set_eq.
  - by erewrite find_set_eq.
Qed.

Lemma setUsageConditions_failed l w e : degraded (setUsageConditions l w (Some e)).
Proof.
  unfold degraded, status_of, setUsageConditions. split.
  - rewrite condition_other by done. by erewrite find_set_eq.
  - by erewrite find_set_eq.
Qed.
End ConditionFacts.

Section Proofs.
Context {S Q : Type} `{quantity : Quantity Q} `{api : UsageAPI S Q} `{laws : !UsageAPILaws S Q}.
Context `{cs : ConditionSetter} `{claws : !ConditionLaws}.

(** A metered subject: what it is, its reference and its total. *)
Record subject := mkSubject {
  sub_type : BillingSubjectType;
  sub_ref : string;
  sub_totals : usageAccumulator Q;
}.

Definition sub_name (w : Time) (x : subject) : string :=
  buildBillingUsageName (sub_type x) (sub_ref x) w.

(** The snapshot of a subject. *)
Definition billed (w : Time) (x : subject) (u : BillingUsage) : Prop :=
  bu_SubjectType u = Some (sub_type x) /\ bu_SubjectRef u = sub_ref x /\
  bu_Window u = FormatHour w /\
  (exists m, bu_Meters u = Some (setMeters (sub_totals x) m)) /\ healthy (bu_Conditions u).

Lemma upsert_done x w s s' :
  upsertBillingUsage (sub_type x) (sub_ref x) (sub_totals x) w None s = (Ok tt, s') ->
  (exists u, usages s' = <[sub_name w x := u]> (usages s) /\ billed w x u) /\
  tenants s' = tenants s /\ projects s' = projects s /\ apps s' = apps s.
Proof.
  unfold upsertBillingUsage. fold (sub_name w x). cbv zeta.
  intros (u & s1 & Hc & Hp)%io_bind_ok.
  apply wrap_err_ok, CreateOrUpdate_Usage_done in Hc as (-> & Hu & Ht & Hpr & Ha).
  apply wrap_err_ok, patch_Usage_done in Hp as (Hu' & Ht' & Hpr' & Ha').
  split; [|split_and!; congruence]. eexists. split.
  - rewrite Hu', Hu. apply map_eq. intros n. destruct (decide (n = sub_name w x)) as [->|Hne].
    + by rewrite lookup_alter_eq, !lookup_insert_eq.
    + by rewrite lookup_alter_ne, !lookup_insert_ne.
  - split_and!; cbn; try done; [eauto | apply setUsageConditions_ok].
Qed.

(** The snapshots after some subjects were processed. *)
Definition snapshots (w : Time) (s0 : S) (dn : list subject) (s : S) : Prop :=
  (forall x, x ∈ dn -> (forall y, y ∈ dn -> sub_name w y = sub_name w x -> y = x) ->
     exists u, usages s !! sub_name w x = Some u /\ billed w x u) /\
  (forall n, (forall x, x ∈ dn -> sub_name w x <> n) -> usages s !! n = usages s0 !! n).

Lemma snapshots_step w s0 dn x s s' u :
  snapshots w s0 dn s -> usages s' = <[sub_name w x := u]> (usages s) -> billed w x u ->
  snapshots w s0 (dn ++ [x]) s'.
Proof.
  intros [Hb Hk] Hu Hx. split.
  - intros y Hy Huniq. rewrite Hu. destruct (decide (sub_name w x = sub_name w y)) as [E|Hne].
    + rewrite <- E, lookup_insert_eq. exists u. split; [done|].
      assert (x = y) as -> by (apply Huniq; [set_solver | done]). done.
    + rewrite lookup_insert_ne by done. apply Hb.
      * apply elem_of_app in Hy as [?|Hy%list_elem_of_singleton]; [done | by subst].
      * intros z Hz. apply Huniq. set_solver.
  - intros n Hn. rewrite Hu, lookup_insert_ne by (apply Hn; set_solver).
    apply Hk. intros y Hy. apply Hn. set_solver.
Qed.

Lemma snapshots_same w s0 dn s s' :
  usages s' = usages s -> snapshots w s0 dn s -> snapshots w s0 dn s'.
Proof. intros E [Hb Hk]. split; setoid_rewrite E; done. Qed.

(** The subjects of the three loops. *)
Definition tenant_subject (tot : Totals Q) (t : TenantObj Q) : subject :=
  mkSubject BillingSubjectTypeTenant (t_Name t) (totalsFor (tenantTotals tot) (t_Name t)).
Definition project_subject (tot : Totals Q) (p : ProjectObj Q) : subject :=
  let k := namespaceKey (pr_Namespace p) (pr_Name p) in
  mkSubject BillingSubjectTypeProject k (totalsFor (projectTotals tot) k).
Definition app_subject (tot : Totals Q) (a : string * string) : subject :=
  let k := namespaceKey a.1 a.2 in
  mkSubject BillingSubjectTypeApp k (totalsFor (appTotals tot) k).

Lemma tenants_loop tot w s0 dn0 l s s' :
  snapshots w s0 dn0 s -> run_all (l ≫= tenantSteps tot w) s = ([], s') ->
  snapshots w s0 (dn0 ++ (tenant_subject tot <$> l)) s' /\ projects s' = projects s /\
  apps s' = apps s /\
  (forall t, t ∈ l -> exists t', tenants s' !! t_Name t = Some t' /\
     t_Usage t' = Some (totalsFor (tenantTotals tot) (t_Name t)) /\ healthy (t_Conditions t')).
Proof.
  intros H0. apply (run_steps_done (fun dn s1 =>
    snapshots w s0 (dn0 ++ (tenant_subject tot <$> dn)) s1 /\ projects s1 = projects s /\
    apps s1 = apps s /\
    (forall t, t ∈ dn -> exists t', tenants s1 !! t_Name t = Some t' /\
       t_Usage t' = Some (totalsFor (tenantTotals tot) (t_Name t)) /\ healthy (t_Conditions t')))).
  { rewrite app_nil_r. split_and!; [done..|]. intros t Ht. by apply not_elem_of_nil in Ht. }
  intros dn x s1 s2 (Hs & Hp & Ha & Ht) _ ([] & s3 & H1 & ([] & s4 & H2 & Hret)%io_bind_ok)%io_bind_ok.
  injection Hret as ->. apply wrap_err_ok, patch_Tenant_done in H1 as (Et & Ep & Ea & Eu).
  apply (upsert_done (tenant_subject tot x)) in H2 as ((u & Hu & Hb) & Et' & Ep' & Ea').
  split_and!; [|congruence|congruence|].
  - rewrite fmap_app, app_assoc. eapply snapshots_step; [|exact Hu|done]. by eapply snapshots_same.
  - intros t [Hin| ->%list_elem_of_singleton]%elem_of_app; rewrite Et', Et; cbn.
    + destruct (decide (t_Name t = t_Name x)) as [E|Hne].
      * rewrite E, lookup_insert_eq. eexists. split_and!; [done..|]. apply setUsageConditions_ok.
      * rewrite lookup_insert_ne by done. by apply Ht.
    + rewrite lookup_insert_eq. eexists. split_and!; [done..|]. apply setUsageConditions_ok.
Qed.

Lemma projects_loop tot w s0 dn0 l s s' :
  snapshots w s0 dn0 s -> run_all (l ≫= projectSteps tot w) s = ([], s') ->
  snapshots w s0 (dn0 ++ (project_subject tot <$> l)) s' /\ tenants s' = tenants s /\
  apps s' = apps s /\
  (forall p, p ∈ l -> exists p', projects s' !! (pr_Namespace p, pr_Name p) = Some p' /\
     pr_Usage p' = Some (totalsFor (projectTotals tot) (namespaceKey (pr_Namespace p) (pr_Name p))) /\
     healthy (pr_Conditions p')).
Proof.
  intros H0. apply (run_steps_done (fun dn s1 =>
    snapshots w s0 (dn0 ++ (project_subject tot <$> dn)) s1 /\ tenants s1 = tenants s /\
    apps s1 = apps s /\
    (forall p, p ∈ dn -> exists p', projects s1 !! (pr_Namespace p, pr_Name p) = Some p' /\
       pr_Usage p' = Some (totalsFor (projectTotals tot) (namespaceKey (pr_Namespace p) (pr_Name p))) /\
       healthy (pr_Conditions p')))).
  { rewrite app_nil_r. split_and!; [done..|]. intros p Hp. by apply not_elem_of_nil in Hp. }
  intros dn x s1 s2 (Hs & Ht & Ha & Hp) _ ([] & s3 & H1 & ([] & s4 & H2 & Hret)%io_bind_ok)%io_bind_ok.
  injection Hret as ->. apply wrap_err_ok, patch_Project_done in H1 as (Ep & Et & Ea & Eu).
  apply (upsert_done (project_subject tot x)) in H2 as ((u & Hu & Hb) & Et' & Ep' & Ea').
  split_and!; [|congruence|congruence|].
  - rewrite fmap_app, app_assoc. eapply snapshots_step; [|exact Hu|done]. by eapply snapshots_same.
  - intros p [Hin| ->%list_elem_of_singleton]%elem_of_app; rewrite Ep', Ep; cbn.
    + destruct (decide ((pr_Namespace p, pr_Name p) = (pr_Namespace x, pr_Name x))) as [E|Hne].
      * rewrite E, lookup_insert_eq. apply pair_equal_spec in E as [-> ->].
        eexists. split_and!; [done..|]. apply setUsageConditions_ok.
      * rewrite lookup_insert_ne by done. by apply Hp.
    + rewrite lookup_insert_eq. eexists. split_and!; [done..|]. apply setUsageConditions_ok.
Qed.

Lemma apps_loop tot w s0 dn0 l s s' :
  snapshots w s0 dn0 s -> run_all (l ≫= appSteps tot w) s = ([], s') ->
  snapshots w s0 (dn0 ++ (app_subject tot <$> l)) s' /\ tenants s' = tenants s /\
  projects s' = projects s.
Proof.
  intros H0. apply (run_steps_done (fun dn s1 =>
    snapshots w s0 (dn0 ++ (app_subject tot <$> dn)) s1 /\ tenants s1 = tenants s /\
    projects s1 = projects s)).
  { by rewrite app_nil_r. }
  intros dn x s1 s2 (Hs & Ht & Hp) _ ([] & s3 & H1 & Hret)%io_bind_ok. injection Hret as ->.
  apply (upsert_done (app_subject tot x)) in H1 as ((u & Hu & Hb) & Et & Ep & _).
  split_and!; [|congruence|congruence].
  rewrite fmap_app, app_assoc. by eapply snapshots_step.
Qed.

(** The subjects of a state. *)
Definition metered (s : S) (tot : Totals Q) (x : subject) : Prop :=
  (exists t, tenants s !! t_Name t = Some t /\ x = tenant_subject tot t) \/
  (exists p, projects s !! (pr_Namespace p, pr_Name p) = Some p /\ x = project_subject tot p) \/
  (exists a, a ∈ apps s /\ x = app_subject tot a).

Lemma snapshots_metered w s (P : subject -> Prop) dn s' :
  (forall x, x ∈ dn <-> P x) -> snapshots w s dn s' ->
  (forall x, P x -> (forall y, P y -> sub_name w y = sub_name w x -> y = x) ->
     exists u, usages s' !! sub_name w x = Some u /\ billed w x u) /\
  (forall n, (forall x, P x -> sub_name w x <> n) -> usages s' !! n = usages s !! n).
Proof.
  intros HP [Hb Hk]. split.
  - intros x Hx Hu. apply Hb; [by apply HP|]. intros y Hy. apply Hu. by apply HP.
  - intros n Hn. apply Hk. intros x Hx. apply Hn. by apply HP.
Qed.

(** C13: when the reconciliation succeeds, every Tenant and Project
    has its aggregated total as usage and is Ready; every metered tenant, project and app
    whose BillingUsage name no other subject shares has a snapshot of the window with its
    own reference and the meters of its own total; and no other BillingUsage changes. *)
Theorem usage_snapshot_written CollectUsage now s s' :
  Reconcile CollectUsage now s = (Ok tt, s') ->
  let w := TruncateHour now in
  exists samples, CollectUsage w = Ok samples /\ let tot := aggregate samples in
  (forall t, tenants s !! t_Name t = Some t -> exists t', tenants s' !! t_Name t = Some t' /\
     t_Usage t' = Some (totalsFor (tenantTotals tot) (t_Name t)) /\ healthy (t_Conditions t')) /\
  (forall p, projects s !! (pr_Namespace p, pr_Name p) = Some p ->
     exists p', projects s' !! (pr_Namespace p, pr_Name p) = Some p' /\
     pr_Usage p' = Some (totalsFor (projectTotals tot) (namespaceKey (pr_Namespace p) (pr_Name p))) /\
     healthy (pr_Conditions p')) /\
  (forall x, metered s tot x ->
     (forall y, metered s tot y -> sub_name w y = sub_name w x -> y = x) ->
     exists u, usages s' !! sub_name w x = Some u /\ billed w x u) /\
  (forall n, (forall x, metered s tot x -> sub_name w x <> n) -> usages s' !! n = usages s !! n).
Proof.
  intros Hr w. revert Hr. unfold Reconcile. fold w. cbv zeta.
  destruct (CollectUsage w) as [samples|e]; [|by destruct (updateConditionsOnError _ _ _)].
  set (tot := aggregate samples).
  destruct (list_Tenants s) as [[lt|e] s1] eqn:E1; [|done].
  apply list_Tenants_done in E1 as [(Et1 & Ep1 & Ea1 & Eu1) Hlt].
  destruct (run_all _ s1) as [errs1 s2] eqn:R1.
  destruct (list_Projects s2) as [[lp|e] s3] eqn:E2; [|done].
  apply list_Projects_done in E2 as [(Et2 & Ep2 & Ea2 & Eu2) Hlp].
  destruct (run_all _ s3) as [errs2 s4] eqn:R2.
  destruct (list_Apps s4) as [[la|e] s5] eqn:E3; [|done].
  apply list_Apps_done in E3 as [(Et3 & Ep3 & Ea3 & Eu3) ->].
  destruct (run_all _ s5) as [errs3 s6] eqn:R3.
  destruct (errs1 ++ errs2 ++ errs3) eqn:Ee; [|done]. intros [= <-].
  apply app_nil_iff in Ee as [-> [-> ->]%app_nil_iff].
  apply (tenants_loop tot w s []) in R1 as (Hs1 & Pp1 & Pa1 & Ht).
  2: { apply (snapshots_same w s [] s); [done|]. split; [|done].
       intros x Hx. by apply not_elem_of_nil in Hx. }
  apply (projects_loop tot w s (tenant_subject tot <$> lt)) in R2 as (Hs2 & Pt2 & Pa2 & Hp);
    [|by eapply snapshots_same].
  apply (apps_loop tot w s ((tenant_subject tot <$> lt) ++ (project_subject tot <$> lp)))
    in R3 as (Hs3 & Pt3 & Pp3); [|by eapply snapshots_same].
  exists samples. split; [done|].
  split; [intros t Hin; rewrite Pt3, Et3, Pt2, Et2; by apply Ht, Hlt|].
  assert (projects s2 = projects s) as Eps by congruence. rewrite Eps in Hlp.
  split; [intros p Hin; rewrite Pp3, Ep3; by apply Hp, Hlp|].
  eapply (snapshots_metered w s); [|exact Hs3]. intros x.
  rewrite !elem_of_app, !list_elem_of_fmap. unfold metered.
  assert (apps s4 = apps s) as -> by congruence.
  setoid_rewrite Hlt. setoid_rewrite Hlp. naive_solver.
Qed.

(** The status loops of the failure path. *)
Definition degradeTenant (w : Time) (e : string) (tenant : TenantObj Q) : io S message unit :=
  wrap_err (fun err => Sprintf "patch tenant status %s: %w" [t_Name tenant; err])
    (patch_Tenant (mkTenant (t_Name tenant) (t_Usage tenant)
       (setUsageConditions (t_Conditions tenant) w (Some e)))).

Definition degradeProject (w : Time) (e : string) (project : ProjectObj Q) : io S message unit :=
  wrap_err (fun err => Sprintf "patch project status %s/%s: %w"
              [pr_Namespace project; pr_Name project; err])
    (patch_Project (mkProjectObj (pr_Namespace project) (pr_Name project) (pr_Usage project)
       (setUsageConditions (pr_Conditions project) w (Some e)))).

Lemma degrade_tenants w e l s s' :
  (forall t, t ∈ l <-> tenants s !! t_Name t = Some t) ->
  run_all (degradeTenant w e <$> l) s = ([], s') ->
  usages s' = usages s /\ projects s' = projects s /\
  forall t, t ∈ l -> exists t', tenants s' !! t_Name t = Some t' /\
    t_Usage t' = t_Usage t /\ degraded (t_Conditions t').
Proof.
  intros Hl H. eapply (run_map_done (fun dn s1 => usages s1 = usages s /\ projects s1 = projects s /\
    forall t, t ∈ dn -> t ∈ l /\ exists t', tenants s1 !! t_Name t = Some t' /\
      t_Usage t' = t_Usage t /\ degraded (t_Conditions t'))) in H as (Hu & Hp & Ht).
  - split_and!; [done..|]. intros t Hin. by apply Ht.
  - split_and!; [done..|]. intros t Ht. by apply not_elem_of_nil in Ht.
  - intros dn x s1 s2 (Hu & Hp & Ht) Hx (Et & Ep & _ & Eu)%wrap_err_ok%patch_Tenant_done.
    split_and!; [congruence..|]. cbn in Et. rewrite Et. intros t Hin.
    assert (t ∈ l) as Htl.
    { apply elem_of_app in Hin as [Hin| ->%list_elem_of_singleton]; [by apply Ht | done]. }
    split; [done|]. destruct (decide (t_Name t = t_Name x)) as [E|Hne].
    + assert (t = x) as -> by (apply Hl in Htl, Hx; rewrite E in Htl; congruence).
      rewrite lookup_insert_eq. eexists. split_and!; [done..|]. apply setUsageConditions_failed.
    + rewrite lookup_insert_ne by done. apply Ht.
      apply elem_of_app in Hin as [?| ->%list_elem_of_singleton]; done.
Qed.

Lemma degrade_projects w e l s s' :
  (forall p, p ∈ l <-> projects s !! (pr_Namespace p, pr_Name p) = Some p) ->
  run_all (degradeProject w e <$> l) s = ([], s') ->
  usages s' = usages s /\ tenants s' = tenants s /\
  forall p, p ∈ l -> exists p', projects s' !! (pr_Namespace p, pr_Name p) = Some p' /\
    pr_Usage p' = pr_Usage p /\ degraded (pr_Conditions p').
Proof.
  intros Hl H. eapply (run_map_done (fun dn s1 => usages s1 = usages s /\ tenants s1 = tenants s /\
    forall p, p ∈ dn -> p ∈ l /\ exists p', projects s1 !! (pr_Namespace p, pr_Name p) = Some p' /\
      pr_Usage p' = pr_Usage p /\ degraded (pr_Conditions p'))) in H as (Hu & Ht & Hp).
  - split_and!; [done..|]. intros p Hin. by apply Hp.
  - split_and!; [done..|]. intros p Hp. by apply not_elem_of_nil in Hp.
  - intros dn x s1 s2 (Hu & Ht & Hp) Hx (Ep & Et & _ & Eu)%wrap_err_ok%patch_Project_done.
    split_and!; [congruence..|]. cbn in Ep. rewrite Ep. intros p Hin.
    assert (p ∈ l) as Hpl.
    { apply elem_of_app in Hin as [Hin| ->%list_elem_of_singleton]; [by apply Hp | done]. }
    split; [done|].
    destruct (decide ((pr_Namespace p, pr_Name p) = (pr_Namespace x, pr_Name x))) as [E|Hne].
    + assert (p = x) as -> by (apply Hl in Hpl, Hx; rewrite E in Hpl; congruence).
      rewrite lookup_insert_eq. eexists. split_and!; [done..|]. apply setUsageConditions_failed.
    + rewrite lookup_insert_ne by done. apply Hp.
      apply elem_of_app in Hin as [?| ->%list_elem_of_singleton]; done.
Qed.

(** When the samples cannot be collected, the reconciliation
    reports the error; if the status writes go through, every Tenant and Project keeps its
    last usage but turns not Ready and Degraded, and no BillingUsage changes. *)
Theorem usage_failure_degrades CollectUsage now s r s' e :
  CollectUsage (TruncateHour now) = Err e -> Reconcile CollectUsage now s = (r, s') ->
  exists errs, r = Err (Sprintf "%w" [e] :: errs) /\ (errs = [] ->
  usages s' = usages s /\
  (forall t, tenants s !! t_Name t = Some t -> exists t', tenants s' !! t_Name t = Some t' /\
     t_Usage t' = t_Usage t /\ degraded (t_Conditions t')) /\
  (forall p, projects s !! (pr_Namespace p, pr_Name p) = Some p ->
     exists p', projects s' !! (pr_Namespace p, pr_Name p) = Some p' /\
     pr_Usage p' = pr_Usage p /\ degraded (pr_Conditions p'))).
Proof.
  intros Hc. unfold Reconcile. cbv zeta. rewrite Hc.
  destruct (updateConditionsOnError _ e s) as [errs s1] eqn:E. intros [= <- <-].
  exists errs. split; [done|]. intros ->. revert E. unfold updateConditionsOnError.
  destruct (list_Tenants s) as [[lt|e1] s2] eqn:E1;
    [|destruct (list_Projects s2) as [[lp|e2] s3]; [by case_match | done]].
  apply list_Tenants_done in E1 as [(Et1 & Ep1 & Ea1 & Eu1) Hlt].
  rewrite <- Et1 in Hlt. fold (degradeTenant (TruncateHour now) e).
  destruct (run_all _ s2) as [errs1 s3] eqn:R1.
  destruct (list_Projects s3) as [[lp|e2] s4] eqn:E2; [|by destruct errs1].
  apply list_Projects_done in E2 as [(Et2 & Ep2 & Ea2 & Eu2) Hlp]. rewrite <- Ep2 in Hlp.
  fold (degradeProject (TruncateHour now) e).
  destruct (run_all _ s4) as [errs2 s5] eqn:R2. intros [= [-> ->]%app_nil_iff <-].
  apply (degrade_tenants _ _ _ _ _ Hlt) in R1 as (Hu1 & Hp1 & Ht).
  apply (degrade_projects _ _ _ _ _ Hlp) in R2 as (Hu2 & Ht2 & Hp).
  split_and!; [congruence| |].
  - intros t Hin. rewrite Ht2, Et2. apply Ht, Hlt. by rewrite Et1.
  - intros p Hin. apply Hp, Hlp. by rewrite Ep2, Hp1, Ep1.
Qed.
End Proofs.

(** ** A server that satisfies the laws *)

Module UsageServer.
Import IntQuantity ConditionList.

Record state := mkState {
  st_tenants : gmap string (TenantObj Z);
  st_projects : gmap key (ProjectObj Z);
  st_apps : list (string * string);
  st_usages : gmap string BillingUsage;
}.

(** The values stored under the key [keyof] computes from them. *)
Definition values {K A} `{Countable K} (keyof : A -> K) (m : gmap K A) : list A :=
  snd <$> List.filter (fun kv => bool_decide (keyof kv.2 = kv.1)) (map_to_list m).

Lemma elem_of_values {K A} `{Countable K} (keyof : A -> K) (m : gmap K A) a :
  a ∈ values keyof m <-> m !! keyof a = Some a.
Proof.
  unfold values. rewrite list_elem_of_fmap. split.
  - intros ([k v] & -> & Hf). rewrite list_elem_of_In, filter_In, <- list_elem_of_In in Hf.
    destruct Hf as [Hin E%bool_decide_eq_true]. apply elem_of_map_to_list in Hin.
    cbn in *. by rewrite E.
  - intros Ha. exists (keyof a, a). split; [done|].
    rewrite list_elem_of_In, filter_In, <- list_elem_of_In.
    split; [by apply elem_of_map_to_list | by apply bool_decide_eq_true].
Qed.

#[export] Instance api : UsageAPI state Z := {|
  list_Tenants s := (Ok (values t_Name (st_tenants s)), s);
  list_Projects s := (Ok (values (fun p => (pr_Namespace p, pr_Name p)) (st_projects s)), s);
  list_Apps s := (Ok (st_apps s), s);
  patch_Tenant t s :=
    (Ok tt, mkState (<[t_Name t := t]> (st_tenants s)) (st_projects s) (st_apps s) (st_usages s));
  patch_Project p s :=
    (Ok tt, mkState (st_tenants s) (<[(pr_Namespace p, pr_Name p) := p]> (st_projects s))
              (st_apps s) (st_usages s));
  patch_Usage n u s :=
    (Ok tt, mkState (st_tenants s) (st_projects s) (st_apps s)
       (alter (fun u0 => mkUsage (bu_SubjectType u0) (bu_SubjectRef u0) (bu_Window u0)
                           (bu_Meters u0) (bu_Conditions u)) n (st_usages s)));
  CreateOrUpdate_Usage n f s :=
    let u := f (default (mkUsage None "" "" None []) (st_usages s !! n)) in
    (Ok u, mkState (st_tenants s) (st_projects s) (st_apps s) (<[n := u]> (st_usages s)));
|}.

#[export] Instance laws : UsageAPILaws state Z.
Proof.
  refine {| tenants := st_tenants; projects := st_projects; apps := st_apps; usages := st_usages |};
    cbn.
  - intros s l s' [= <- <-]. split; [done|]. intros t. apply elem_of_values.
  - intros s l s' [= <- <-]. split; [done|]. intros p.
    apply (elem_of_values (fun p => (pr_Namespace p, pr_Name p))).
  - by intros s l s' [= <- <-].
  - by intros t s s' [= <-].
  - by intros p s s' [= <-].
  - by intros n f s u s' [= <- <-].
  - by intros n u s s' [= <-].
Defined.

(** One tenant with one project and two apps. *)
Definition acme : TenantObj Z := mkTenant "acme" None [].
Definition shop : ProjectObj Z := mkProjectObj "web" "shop" None [].
Definition s0 : state :=
  mkState {[ "acme" := acme ]} {[ ("web", "shop") := shop ]} [("web", "api"); ("web", "ui")] ∅.
Definition collect_ok (_ : Time) : result string (list (UsageSample Z)) := Ok samples.
Definition collect_failed (_ : Time) : result string (list (UsageSample Z)) := Err "metrics down".
Definition now : Time := 1709210096%Z.
Definition s1 : state := snd (Reconcile collect_ok now s0).
Definition s2 : state := snd (Reconcile collect_failed now s0).

Example demo_snapshot :
  (fun u => bu_Meters u ≫= (.!! "cpu")) <$> usages s1 !! "app-web-api-2024-02-29t12"
  = Some (Some "250").
Proof. vm_compute. reflexivity. Qed.

Lemma usage_snapshot_written_witness :
  exists t', tenants s1 !! "acme" = Some t' /\
    t_Usage t' = Some (totalsFor (tenantTotals (aggregate samples)) "acme") /\
    healthy (t_Conditions t').
Proof.
  assert (Reconcile collect_ok now s0 = (Ok tt, s1)) as Hrun by (vm_compute; reflexivity).
  destruct (usage_snapshot_written collect_ok now s0 s1 Hrun) as (l & Hl & Ht & _).
  injection Hl as <-. exact (Ht acme eq_refl).
Defined.

Lemma usage_failure_degrades_witness :
  exists t', tenants s2 !! "acme" = Some t' /\ t_Usage t' = t_Usage acme /\
    degraded (t_Conditions t').
Proof.
  assert (Reconcile collect_failed now s0 = (Err [Sprintf "%w" ["metrics down"]], s2)) as Hrun
    by (vm_compute; reflexivity).
  destruct (usage_failure_degrades collect_failed now s0 _ s2 _ eq_refl Hrun) as (errs & E & H).
  injection E as <-. exact (proj1 (proj2 (H eq_refl)) acme eq_refl).
Defined.
End UsageServer.
