(* ===== verification/Metrics.v ===== *)
(** The meter: [MetricsServerProvider] of [kubeop-operator/internal/metrics/metricsserver.go],
    and what the usage writer makes of its samples.

    The namespaces and the readings of the metrics API are arguments; the client of a provider,
    which answers with the readings of a namespace, may be missing. *)

From Stdlib Require Import Ascii ZArith Lia.
From stdpp Require Import base gmap strings list fin_maps.
From S2P Require Import Prelude Utf8 GoStrings GoTime Kube UsageWriter UsageReconcile.

Definition tenantLabelKey : string := "paas.kubeop.io/tenant".
Definition projectLabelKey : string := "paas.kubeop.io/project".
Definition appLabelKey : string := "paas.kubeop.io/app".

(** A label of a map; an absent one is empty. *)
Definition label (k : string) (m : gmap string string) : string := default "" (m !! k).

Fixpoint firstNonEmpty (values : list string) : string :=
  match values with [] => "" | v :: values => if blank v then firstNonEmpty values else v end.

Inductive list_error := ListNotFound (text : string) | ListFailed (text : string).

Section Provider.
Context {Q : Type} `{quantity : Quantity Q}.

Record Namespace := mkNamespace { ns_Name : string; ns_Labels : gmap string string }.
(** The containers of a pod with their [Usage]. *)
Record PodMetrics := mkPodMetrics { pm_Namespace : string; pm_Labels : gmap string string; pm_Containers : list (gmap string Q) }.

Context (PodMetricses : string -> result list_error (list PodMetrics)).

Definition resource_of (m : meter) : option string :=
  match m with CPU => Some "cpu" | Memory => Some "memory" | _ => None end.

(** [if q, ok := container.Usage[...]; ok { sample.CPU.Add(q) }] *)
Definition add_usage (m : meter) (q : Q) (usage : gmap string Q) : Q :=
  match resource_of m ≫= (usage !!.) with Some v => q_Add q v | None => q end.
Definition add_container (s : UsageSample Q) (usage : gmap string Q) : UsageSample Q :=
  mkSample (Tenant s) (ProjectNamespace s) (sample_Project s) (AppNamespace s) (sample_App s)
    (fun m => add_usage m (sample_meter s m) usage).

Definition sample_key (ns app : string) : string := ns +:+ "/" +:+ app.

(** One pod of a namespace. *)
Definition add_pod (ns : Namespace) (samples : gmap string (UsageSample Q)) (metric : PodMetrics) : gmap string (UsageSample Q) :=
  let tenant := firstNonEmpty [label tenantLabelKey (pm_Labels metric); label tenantLabelKey (ns_Labels ns)] in
  let project := firstNonEmpty [label projectLabelKey (pm_Labels metric); label projectLabelKey (ns_Labels ns)] in
  let app := label appLabelKey (pm_Labels metric) in
  if blank tenant || blank project || blank app then samples
  else
    let key := sample_key (pm_Namespace metric) app in
    let sample := match samples !! key with
                  | Some sample => sample
                  | None => mkSample tenant (pm_Namespace metric) project (pm_Namespace metric) app (fun _ => q_zero)
                  end in
    <[key := foldl add_container sample (pm_Containers metric)]> samples.

Fixpoint collect (l : list Namespace) (samples : gmap string (UsageSample Q)) : result string (gmap string (UsageSample Q)) :=
  match l with
  | [] => Ok samples
  | ns :: l =>
      match PodMetricses (ns_Name ns) with
      | Err (ListNotFound e) => Err ("metrics API unavailable: " +:+ e)
      | Err (ListFailed e) => Err ("list pod metrics for namespace " +:+ ns_Name ns +:+ ": " +:+ e)
      | Ok items => collect l (foldl (add_pod ns) samples items)
      end
  end.

(** ** What was read *)

(** The readings of all namespaces, in the order of the loop. *)
Fixpoint readings (l : list Namespace) : list (Namespace * PodMetrics) :=
  match l with
  | [] => []
  | ns :: l => match PodMetricses (ns_Name ns) with Ok items => ((ns,.) <$> items) ++ readings l | Err _ => readings l end
  end.

Definition pod_app (e : Namespace * PodMetrics) : string := label appLabelKey (pm_Labels e.2).
(** A pod is metered when its labels, or those of its namespace, name tenant and project and its own the app. *)
Definition metered (e : Namespace * PodMetrics) : bool :=
  negb (blank (firstNonEmpty [label tenantLabelKey (pm_Labels e.2); label tenantLabelKey (ns_Labels e.1)]) ||
        blank (firstNonEmpty [label projectLabelKey (pm_Labels e.2); label projectLabelKey (ns_Labels e.1)]) || blank (pod_app e)).
End Provider.
Arguments PodMetrics Q : clear implicits.

(** [range_order] is the order in which a [range] visits the samples. *)
Definition CollectUsage {Q : Type} `{quantity : Quantity Q} (namespaces : result string (list Namespace))
    (client : option (string -> result list_error (list (PodMetrics Q))))
    (range_order : list (UsageSample Q) -> list (UsageSample Q)) (window : Time) : result string (list (UsageSample Q)) :=
  match client with
  | None => Err "metrics client is not configured"
  | Some PodMetricses =>
      match namespaces with
      | Err e => Err ("list namespaces: " +:+ e)
      | Ok l => match collect PodMetricses l ∅ with Err e => Err e | Ok samples => Ok (range_order (snd <$> map_to_list samples)) end
      end
  end.

(** ** Conservation *)

Section Conservation.
Context {Q : Type} `{quantity : Quantity Q} `{laws : !QuantityLaws Q}.
Local Open Scope Z_scope.

Definition usage_val (m : meter) (usage : gmap string Q) : Z := from_option q_val 0 (resource_of m ≫= (usage !!.)).
Definition pod_usage (m : meter) (p : PodMetrics Q) : Z := foldr (fun c acc => usage_val m c + acc) 0 (pm_Containers p).

(** What the metered pods whose namespace and app satisfy [P] use. *)
Definition pods_usage (P : string -> string -> bool) (m : meter) (l : list (Namespace * PodMetrics Q)) : Z :=
  foldr (fun e acc => (if metered e && P (pm_Namespace e.2) (pod_app e) then pod_usage m e.2 else 0) + acc) 0 l.

Definition of_app (P : string -> string -> bool) (s : UsageSample Q) : bool := P (AppNamespace s) (sample_App s).

Definition map_usage (P : UsageSample Q -> bool) (m : meter) (t : gmap string (UsageSample Q)) : Z :=
  usage_of P m (snd <$> map_to_list t).

(** A sample is stored under the key of its namespace and app. *)
Definition keyed (t : gmap string (UsageSample Q)) : Prop :=
  forall k s, t !! k = Some s -> k = sample_key (AppNamespace s) (sample_App s) /\ billable s = true /\ "/"%char ∉ chars (AppNamespace s).

Lemma usage_of_perm P m (l k : list (UsageSample Q)) : l ≡ₚ k -> usage_of P m l = usage_of P m k.
Proof. induction 1; cbn; unfold usage_of in *; lia. Qed.

Lemma map_usage_insert P m k s t : t !! k = None ->
  map_usage P m (<[k := s]> t) = (if P s then q_val (sample_meter s m) else 0) + map_usage P m t.
Proof.
  intros Hk. unfold map_usage. rewrite (usage_of_perm _ _ _ (snd <$> ((k, s) :: map_to_list t))); [done|].
  apply fmap_Permutation, map_to_list_insert, Hk.
Qed.

Lemma map_usage_update P m k s s' t : t !! k = Some s -> P s = P s' ->
  map_usage P m (<[k := s']> t) = map_usage P m t + if P s then q_val (sample_meter s' m) - q_val (sample_meter s m) else 0.
Proof.
  intros Hk HP. rewrite <- (insert_delete_eq t k), map_usage_insert by apply lookup_delete_eq.
  rewrite <- (insert_delete_id t k s Hk) at 2. rewrite map_usage_insert by apply lookup_delete_eq.
  rewrite HP. destruct (P s'); lia.
Qed.

Lemma add_containers m cs : forall s : UsageSample Q,
  q_val (sample_meter (foldl add_container s cs) m) = q_val (sample_meter s m) + foldr (fun c acc => usage_val m c + acc) 0 cs.
Proof.
  induction cs as [|c cs IH]; intros s; cbn [foldl foldr]; [lia|]. rewrite IH. cbn. unfold add_usage, usage_val.
  destruct (resource_of m ≫= _); cbn; rewrite ?q_val_add; lia.
Qed.

Lemma add_containers_fields cs : forall s : UsageSample Q, let s' := foldl add_container s cs in
  Tenant s' = Tenant s /\ sample_Project s' = sample_Project s /\ AppNamespace s' = AppNamespace s /\ sample_App s' = sample_App s.
Proof. induction cs as [|c cs IH]; intros s; cbn [foldl]; [done|]. destruct (IH (add_container s c)) as (? & ? & ? & ?). done. Qed.

Lemma sample_key_inj ns app ns' app' : "/"%char ∉ chars ns -> "/"%char ∉ chars ns' ->
  sample_key ns app = sample_key ns' app' -> ns = ns' /\ app = app'.
Proof.
  unfold sample_key. intros Hn Hn' H%(f_equal chars). rewrite !chars_app in H. cbn in H.
  assert (Hg : forall l l' k k', "/"%char ∉ l -> "/"%char ∉ l' -> l ++ "/"%char :: k = l' ++ "/"%char :: k' -> l = l' /\ k = k').
  { clear. intros l. induction l as [|c l IH]; intros [|c' l'] k k' Hl Hl'; cbn; intros Heq; simplify_eq; [done|set_solver..|].
    destruct (IH l' k k') as [-> ->]; [set_solver..|done|done]. }
  apply Hg in H as [H1 H2]; [|done..]. split; by apply chars_inj.
Qed.

Lemma billable_fields (s s' : UsageSample Q) :
  Tenant s' = Tenant s -> sample_Project s' = sample_Project s -> sample_App s' = sample_App s -> billable s' = billable s.
Proof. unfold billable. by intros -> -> ->. Qed.

Lemma add_pod_spec P m ns p t : keyed t -> "/"%char ∉ chars (pm_Namespace p) ->
  keyed (add_pod ns t p) /\
  map_usage (of_app P) m (add_pod ns t p) =
    map_usage (of_app P) m t + if metered (ns, p) && P (pm_Namespace p) (pod_app (ns, p)) then pod_usage m p else 0.
Proof.
  intros Hk Hns. unfold add_pod, metered, pod_app. cbn [fst snd].
  destruct (blank _ || blank _ || blank _) eqn:E; cbn [negb andb]; [split; [done|lia]|].
  set (app := label appLabelKey (pm_Labels p)) in *. set (key := sample_key (pm_Namespace p) app).
  set (sample := match t !! key with Some s => s | None => _ end).
  destruct (add_containers_fields (pm_Containers p) sample) as (H1 & H2 & H3 & H4).
  assert (Hs : AppNamespace sample = pm_Namespace p /\ sample_App sample = app /\ billable sample = true).
  { unfold sample. destruct (t !! key) as [s|] eqn:Es.
    - destruct (Hk _ _ Es) as (Hkey & Hb & Hn). apply sample_key_inj in Hkey as [-> ->]; done.
    - unfold billable. cbn [Tenant sample_Project sample_App AppNamespace]. by rewrite E. }
  destruct Hs as (Ha & Hb & Hbill). split.
  - intros k s [[<- <-]|[Hne Hl]]%lookup_insert_Some; [|by apply Hk].
    rewrite (billable_fields sample), H3, H4, Ha, Hb by done. done.
  - assert (HP : of_app P (foldl add_container sample (pm_Containers p)) = P (pm_Namespace p) app)
      by (unfold of_app; by rewrite H3, H4, Ha, Hb).
    destruct (t !! key) as [s|] eqn:Es.
    + rewrite (map_usage_update _ _ _ s); [|done|rewrite HP; unfold of_app; subst sample; by rewrite Ha, Hb].
      unfold of_app at 2. subst sample. rewrite Ha, Hb, add_containers. unfold pod_usage. destruct (P _ _); lia.
    + rewrite map_usage_insert by done. rewrite HP, add_containers. subst sample. cbn [sample_meter]. rewrite q_val_zero.
      unfold pod_usage. destruct (P _ _); lia.
Qed.

Lemma add_pods_spec P m ns l : forall t, keyed t -> (forall p, p ∈ l -> "/"%char ∉ chars (pm_Namespace p)) ->
  keyed (foldl (add_pod ns) t l) /\
  map_usage (of_app P) m (foldl (add_pod ns) t l) = map_usage (of_app P) m t + pods_usage P m ((ns,.) <$> l).
Proof.
  induction l as [|p l IH]; intros t Hk Hn; cbn [foldl]; [cbn; split; [done|lia]|].
  destruct (add_pod_spec P m ns p t) as [Hk' Hu]; [done|apply Hn; left|].
  destruct (IH (add_pod ns t p)) as [Hk'' Hu']; [done|intros q Hq; apply Hn; by right|].
  split; [done|]. rewrite Hu', Hu, fmap_cons. unfold pods_usage. cbn [foldr fst snd]. lia.
Qed.

Lemma pods_usage_app P m l k : pods_usage P m (l ++ k) = pods_usage P m l + pods_usage P m k.
Proof. unfold pods_usage. induction l as [|e l IH]; cbn [app foldr]; [lia|]. rewrite IH. lia. Qed.

Section Collected.
Context (PodMetricses : string -> result list_error (list (PodMetrics Q))).
(** Names of namespaces are labels and hold no slash. *)
Context (names : forall n items p, PodMetricses n = Ok items -> p ∈ items -> "/"%char ∉ chars (pm_Namespace p)).

Lemma collect_spec P m l : forall t t', keyed t -> collect PodMetricses l t = Ok t' ->
  keyed t' /\ map_usage (of_app P) m t' = map_usage (of_app P) m t + pods_usage P m (readings PodMetricses l).
Proof.
  induction l as [|ns l IH]; intros t t' Hk; cbn [collect readings]; [intros [= <-]; cbn; split; [done|lia]|].
  destruct (PodMetricses (ns_Name ns)) as [items|[e|e]] eqn:E; [|done..]. intros H.
  destruct (add_pods_spec P m ns items t Hk) as [Hk' Hu]; [intros p; by eapply names|].
  destruct (IH _ _ Hk' H) as [Hk'' Hu']. split; [done|]. rewrite Hu', Hu, pods_usage_app. lia.
Qed.

Lemma collected_usage P m namespaces order window out : (forall l, order l ≡ₚ l) ->
  CollectUsage (Ok namespaces) (Some PodMetricses) order window = Ok out ->
  usage_of (fun s => billable s && of_app P s) m out = pods_usage P m (readings PodMetricses namespaces).
Proof.
  intros Ho. unfold CollectUsage. destruct (collect _ _ _) as [t|] eqn:E; [|done]. intros [= <-].
  rewrite (usage_of_perm _ _ _ _ (Ho _)). destruct (collect_spec P m namespaces ∅ t) as [Hk Hu]; [by intros ??|done|].
  change (map_usage (of_app P) m ∅) with 0 in Hu. rewrite Z.add_0_l in Hu. rewrite <- Hu. unfold map_usage.
  assert (Hb : Forall (fun s => billable s = true) (snd <$> map_to_list t)).
  { apply Forall_fmap, Forall_forall. intros [k' s] Hin%elem_of_map_to_list. by apply Hk in Hin as (_ & ? & _). }
  induction Hb as [|s l Hs Hl IH]; [done|]. cbn [usage_of foldr].
  fold (usage_of (fun s => billable s && of_app P s) m l). fold (usage_of (of_app P) m l). by rewrite IH, Hs.
Qed.

(** C14: From the meter to the bill nothing is lost and nothing counted twice: after a
    successful reading the totals of all tenants, of all projects and of all apps each sum to
    what the pods with tenancy labels use, on CPU and memory, and stay at zero on the other
    meters; and the total of an app is what its own pods use. *)
Theorem usage_metered namespaces order window out m :
  (forall l, order l ≡ₚ l) -> CollectUsage (Ok namespaces) (Some PodMetricses) order window = Ok out ->
  let pods := readings PodMetricses namespaces in
  let all := pods_usage (fun _ _ => true) m pods in
  grand_total m (tenantTotals (aggregate out)) = all /\ grand_total m (projectTotals (aggregate out)) = all /\
  grand_total m (appTotals (aggregate out)) = all /\
  forall k, acc_val m (totalsFor (appTotals (aggregate out)) k) =
    pods_usage (fun ns app => str_eqb (namespaceKey ns (TrimSpace app)) k) m pods.
Proof.
  intros Ho H pods all. destruct (usage_conserved out m) as (H1 & H2 & H3).
  assert (Hall : usage_of billable m out = all).
  { unfold all, pods. rewrite <- (collected_usage _ m _ _ _ _ Ho H). clear. induction out as [|s l IH]; [done|]. cbn [usage_of foldr].
    fold (usage_of billable m l). fold (usage_of (fun s => billable s && of_app (fun _ _ => true) s) m l). rewrite IH. by destruct (billable s). }
  rewrite H1, H2, H3, Hall. split_and!; [done..|]. intros k. rewrite (proj2 (proj2 (totals_exact _ _ _))). by apply (collected_usage _ m) in H as <-.
Qed.
End Collected.
End Conservation.

(** ** A reading *)

Module MeterDemo.
Import IntQuantity.
Definition pod (ns t app : string) (cpu : Z) : PodMetrics Z :=
  mkPodMetrics ns {[tenantLabelKey := t; projectLabelKey := "shop"; appLabelKey := app]} [{["cpu" := cpu]}; {["memory" := 7%Z]}].
Definition server (ns : string) : result list_error (list (PodMetrics Z)) :=
  if str_eqb ns "web" then Ok [pod "web" "acme" "api" 5; pod "web" "acme" "ui" 3; pod "web" "beta" "api" 4]
  else Ok [pod "ops" "acme" "" 9].
Definition everywhere : list Namespace := [mkNamespace "web" ∅; mkNamespace "ops" ∅].

Lemma server_names n items p : server n = Ok items -> p ∈ items -> "/"%char ∉ chars (pm_Namespace p).
Proof.
  assert (Hw : ("/"%char ∉ chars "web") /\ ("/"%char ∉ chars "ops")) by (split; by apply (bool_decide_unpack _)).
  unfold server. destruct (str_eqb n "web"); intros [= <-] Hp; repeat (apply elem_of_cons in Hp as [->|Hp]; [apply Hw|]); by apply elem_of_nil in Hp.
Qed.

Lemma read : exists out, CollectUsage (Ok everywhere) (Some server) (fun l => l) 0%Z = Ok out.
Proof. eexists. vm_compute. reflexivity. Qed.

Lemma usage_metered_witness : exists out,
  CollectUsage (Ok everywhere) (Some server) (fun l => l) 0%Z = Ok out /\
  grand_total CPU (tenantTotals (aggregate out)) = 12%Z /\ acc_val CPU (totalsFor (appTotals (aggregate out)) "web/api") = 9%Z.
Proof.
  destruct read as [out Hout]. exists out. split; [exact Hout|].
  destruct (usage_metered server server_names everywhere (fun l => l) 0%Z out CPU (fun l => reflexivity l) Hout) as (H1 & _ & _ & H2).
  split; [exact H1|exact (H2 "web/api")].
Defined.

(** Two pods with the same namespace and app label but different tenants: the first pays for both. *)
Example first_pod_pays :
  match CollectUsage (Ok everywhere) (Some server) (fun l => l) 0%Z with
  | Ok out => (fun s => (Tenant s, sample_App s, sample_meter s CPU)) <$> out
  | Err _ => []
  end = [("acme", "ui", 3%Z); ("acme", "api", 9%Z)].
Proof. vm_compute. reflexivity. Qed.
End MeterDemo.
