(* ===== verification/Attachments.v ===== *)
(** References from a container to ConfigMaps and Secrets:
    [internal/service/apps.go], [normalizeAttachmentKeys], [AttachConfigMapEnv],
    [DetachConfigMapEnv], [AttachSecretEnv] and [DetachSecretEnv]. *)

From Stdlib Require Import Ascii ZArith Lia.
From stdpp Require Import base gmap strings list.
From S2P Require Import Prelude GoStrings.

(** ** Containers *)

(** A key of a named ConfigMap or Secret. *)
Record KeySelector := mkKeySelector { sel_Name : string; sel_Key : string }.

(** [corev1.EnvVarSource]; [other_ref] stands for the field and resource references. *)
Record EnvVarSource := mkEnvVarSource {
  ConfigMapKeyRef : option KeySelector;
  SecretKeyRef : option KeySelector;
  other_ref : option string;
}.

(** [corev1.EnvVar] *)
Record EnvVar := mkEnvVar {
  ev_Name : string;
  ev_Value : string;
  ev_ValueFrom : option EnvVarSource;
}.

(** [corev1.EnvFromSource] *)
Record EnvFromSource := mkEnvFromSource {
  ef_Prefix : string;
  ConfigMapRef : option string;
  SecretRef : option string;
}.

Record Container := mkContainer {
  c_Name : string;
  c_Image : string;
  EnvFrom : list EnvFromSource;
  Env : list EnvVar;
}.

Definition set_EnvFrom (c : Container) (l : list EnvFromSource) : Container :=
  mkContainer (c_Name c) (c_Image c) l (Env c).
Definition set_Env (c : Container) (l : list EnvVar) : Container :=
  mkContainer (c_Name c) (c_Image c) (EnvFrom c) l.

(** ** Operations *)

(** The loop of [normalizeAttachmentKeys]; [seen] as in the code. *)
Fixpoint normalize_keys (seen : list string) (keys : list string) : list string :=
  match keys with
  | [] => []
  | k :: keys =>
      let k := TrimSpace k in
      if str_eqb k "" then normalize_keys seen keys
      else if existsb (str_eqb k) seen then normalize_keys seen keys
      else k :: normalize_keys (k :: seen) keys
  end.

Definition normalizeAttachmentKeys (keys : list string) : list string := normalize_keys [] keys.

(** [for i := range ctn.Env { if ctn.Env[i].Name == envName { ...; break } }]: the first
    variable of that name takes the reference; otherwise one is appended. *)
Fixpoint attach_var (envName : string) (src : EnvVarSource) (env : list EnvVar) : list EnvVar :=
  match env with
  | [] => [mkEnvVar envName "" (Some src)]
  | ev :: env =>
      if str_eqb (ev_Name ev) envName then mkEnvVar (ev_Name ev) "" (Some src) :: env
      else ev :: attach_var envName src env
  end.

(** The loop over the keys. *)
Definition attach_keys (mk : string -> EnvVarSource) (prefix : string) (keys : list string)
    (env : list EnvVar) : list EnvVar :=
  foldl (fun env key =>
    let envName := if negb (str_eqb prefix "") then prefix +:+ key else key in
    attach_var envName (mk key) env) env keys.

Definition configMapKey (name key : string) : EnvVarSource :=
  mkEnvVarSource (Some (mkKeySelector name key)) None None.
Definition secretKey (name key : string) : EnvVarSource :=
  mkEnvVarSource None (Some (mkKeySelector name key)) None.

(** [ref != nil && ref.Name == name] *)
Definition names (ref : option string) (name : string) : bool :=
  match ref with Some n => str_eqb n name | None => false end.
Definition selects (ref : option KeySelector) (name : string) : bool :=
  match ref with Some s => str_eqb (sel_Name s) name | None => false end.

Definition AttachConfigMapEnv (ctn : Container) (name : string) (keys : list string)
    (prefix : string) : Container :=
  let prefix := TrimSpace prefix in
  let keys := normalizeAttachmentKeys keys in
  if length keys =? 0 then
    if existsb (fun src => names (ConfigMapRef src) name) (EnvFrom ctn) then ctn
    else set_EnvFrom ctn (EnvFrom ctn ++ [mkEnvFromSource "" (Some name) None])
  else set_Env ctn (attach_keys (configMapKey name) prefix keys (Env ctn)).

Definition DetachConfigMapEnv (ctn : Container) (name : string) : Container :=
  let filteredFrom := List.filter (fun src => negb (names (ConfigMapRef src) name)) (EnvFrom ctn) in
  let filteredEnv := List.filter (fun ev =>
    negb (match ev_ValueFrom ev with
          | Some src => selects (ConfigMapKeyRef src) name
          | None => false
          end)) (Env ctn) in
  set_Env (set_EnvFrom ctn filteredFrom) filteredEnv.

Definition AttachSecretEnv (ctn : Container) (name : string) (keys : list string)
    (prefix : string) : Container :=
  let prefix := TrimSpace prefix in
  let keys := normalizeAttachmentKeys keys in
  if length keys =? 0 then
    if existsb (fun src => names (SecretRef src) name) (EnvFrom ctn) then ctn
    else set_EnvFrom ctn (EnvFrom ctn ++ [mkEnvFromSource "" None (Some name)])
  else set_Env ctn (attach_keys (secretKey name) prefix keys (Env ctn)).

Definition DetachSecretEnv (ctn : Container) (name : string) : Container :=
  let filteredFrom := List.filter (fun src => negb (names (SecretRef src) name)) (EnvFrom ctn) in
  let filteredEnv := List.filter (fun ev =>
    negb (match ev_ValueFrom ev with
          | Some src => selects (SecretKeyRef src) name
          | None => false
          end)) (Env ctn) in
  set_Env (set_EnvFrom ctn filteredFrom) filteredEnv.

Example attach_ex :
  Env (AttachConfigMapEnv (mkContainer "app" "img" [] [mkEnvVar "APP_a" "old" None])
    "cfg" ["a"; " b "; "a"; ""] " APP_ ") =
  [mkEnvVar "APP_a" "" (Some (configMapKey "cfg" "a"));
   mkEnvVar "APP_b" "" (Some (configMapKey "cfg" "b"))].
Proof. vm_compute. reflexivity. Qed.

(** ** Normalised keys *)

Lemma existsb_elem x l : existsb (str_eqb x) l = true <-> x ∈ l.
Proof.
  rewrite existsb_exists. setoid_rewrite str_eqb_eq. setoid_rewrite list_elem_of_In. naive_solver.
Qed.

Lemma normalize_keys_spec keys : forall seen,
  NoDup (normalize_keys seen keys) /\
  forall k, k ∈ normalize_keys seen keys <->
    (k ∉ seen) /\ k <> "" /\ exists raw, raw ∈ keys /\ k = TrimSpace raw.
Proof.
  induction keys as [|raw keys IH]; intros seen; cbn.
  { split; [constructor|]. intros k. split; [by intros ?%not_elem_of_nil|].
    intros (_ & _ & r & Hr & _). by apply not_elem_of_nil in Hr. }
  destruct (str_eqb (TrimSpace raw) "") eqn:E0; rewrite ?str_eqb_eq, ?str_eqb_neq in E0.
  { destruct (IH seen) as [Hn Hk]. split; [done|]. intros k. rewrite Hk.
    setoid_rewrite elem_of_cons. naive_solver. }
  destruct (existsb _ seen) eqn:E1.
  { apply existsb_elem in E1. destruct (IH seen) as [Hn Hk]. split; [done|]. intros k. rewrite Hk.
    setoid_rewrite elem_of_cons. naive_solver. }
  assert (TrimSpace raw ∉ seen) as Hs by (intros H%existsb_elem; congruence).
  destruct (IH (TrimSpace raw :: seen)) as [Hn Hk]. split.
  - constructor; [|done]. rewrite Hk, elem_of_cons. naive_solver.
  - intros k. rewrite elem_of_cons, Hk, elem_of_cons. setoid_rewrite elem_of_cons.
    destruct (decide (k = TrimSpace raw)) as [->|]; naive_solver.
Qed.

Lemma normalizeAttachmentKeys_spec keys k :
  k ∈ normalizeAttachmentKeys keys <->
  k <> "" /\ (exists raw, raw ∈ keys /\ k = TrimSpace raw).
Proof.
  unfold normalizeAttachmentKeys. rewrite (proj2 (normalize_keys_spec keys [])).
  split; [tauto|]. split; [apply not_elem_of_nil | done].
Qed.

(** ** Variables *)

(** The variable a container shows under a name: the first of that name. *)
Definition env_get (n : string) (env : list EnvVar) : option EnvVar :=
  List.find (fun ev => str_eqb (ev_Name ev) n) env.

Lemma env_get_attach n m src env :
  env_get m (attach_var n src env) =
    if bool_decide (m = n) then Some (mkEnvVar n "" (Some src)) else env_get m env.
Proof.
  unfold env_get. destruct (decide (m = n)) as [->|Hne].
  - rewrite bool_decide_true by done. induction env as [|ev env IH]; cbn.
    + by rewrite str_eqb_refl.
    + destruct (str_eqb (ev_Name ev) n) eqn:E; cbn; rewrite E; [|done].
      apply str_eqb_eq in E. by rewrite E.
  - rewrite bool_decide_false by done. induction env as [|ev env IH]; cbn.
    + by rewrite (proj2 (str_eqb_neq n m)) by done.
    + destruct (str_eqb (ev_Name ev) n) eqn:E; cbn; [|by rewrite IH].
      apply str_eqb_eq in E. rewrite E. by rewrite (proj2 (str_eqb_neq n m)) by done.
Qed.

(** The name a key is attached under. *)
Definition env_name (prefix key : string) : string :=
  if negb (str_eqb prefix "") then prefix +:+ key else key.

Lemma str_app_inj (p a b : string) : p +:+ a = p +:+ b -> a = b.
Proof.
  intros H%(f_equal (fun s => chars s)). apply chars_inj. rewrite !chars_app in H.
  by apply app_inv_head in H.
Qed.

Lemma env_name_inj prefix k k' : env_name prefix k = env_name prefix k' -> k = k'.
Proof. unfold env_name. destruct (negb _); [apply str_app_inj | done]. Qed.

Lemma env_get_attach_keys mk prefix keys env n :
  NoDup keys ->
  env_get n (attach_keys mk prefix keys env) =
    match List.find (fun k => str_eqb (env_name prefix k) n) keys with
    | Some k => Some (mkEnvVar n "" (Some (mk k)))
    | None => env_get n env
    end.
Proof.
  intros Hd. revert env. induction Hd as [|k keys Hk _ IH]; intros env; [done|].
  unfold attach_keys in *. cbn [foldl List.find]. rewrite IH. fold (env_name prefix k).
  rewrite env_get_attach. destruct (List.find _ keys) as [k'|] eqn:Ef.
  - apply find_some in Ef as [Hin E%str_eqb_eq]. destruct (str_eqb (env_name prefix k) n) eqn:E'; [|done].
    apply str_eqb_eq in E'. assert (k = k') as -> by (apply (env_name_inj prefix); congruence).
    by apply list_elem_of_In in Hin.
  - unfold str_eqb. repeat case_bool_decide; congruence.
Qed.

(** ** What attaching and detaching do *)

(** Attaching by key, for either kind of object. *)
Definition keyed (mk : string -> EnvVarSource) (ctn ctn' : Container) (prefix : string)
    (keys : list string) : Prop :=
  EnvFrom ctn' = EnvFrom ctn /\
  (forall k, k ∈ keys -> env_get (env_name prefix k) (Env ctn') =
     Some (mkEnvVar (env_name prefix k) "" (Some (mk k)))) /\
  (forall n, (forall k, k ∈ keys -> env_name prefix k <> n) ->
     env_get n (Env ctn') = env_get n (Env ctn)).

Lemma attach_keys_keyed mk ctn prefix raw :
  keyed mk ctn (set_Env ctn (attach_keys mk prefix (normalizeAttachmentKeys raw) (Env ctn)))
    prefix (normalizeAttachmentKeys raw).
Proof.
  pose proof (proj1 (normalize_keys_spec raw [])) as Hd.
  change (normalize_keys [] raw) with (normalizeAttachmentKeys raw) in Hd.
  split; [done|]. cbn [Env set_Env]. split.
  - intros k Hk. rewrite env_get_attach_keys by done.
    destruct (List.find _ _) as [k'|] eqn:E.
    + apply find_some in E as [_ E%str_eqb_eq]. by apply env_name_inj in E as ->.
    + apply list_elem_of_In in Hk. eapply find_none in E; [|exact Hk]. by rewrite str_eqb_refl in E.
  - intros n Hn. rewrite env_get_attach_keys by done.
    destruct (List.find _ _) as [k'|] eqn:E; [|done].
    apply find_some in E as [Hin E%str_eqb_eq]. apply list_elem_of_In in Hin. by apply Hn in Hin.
Qed.

(** With keys, after attaching a ConfigMap or Secret every requested key
    (trimmed, prefixed) is a variable that refers to that key of that object, and every
    other variable and the whole-object references are as before; without keys the
    container refers to the whole object and its variables are unchanged. *)
Theorem attach_env_spec ctn name raw prefix :
  let keys := normalizeAttachmentKeys raw in
  let p := TrimSpace prefix in
  let cm := AttachConfigMapEnv ctn name raw prefix in
  let sec := AttachSecretEnv ctn name raw prefix in
  (keys <> [] -> keyed (configMapKey name) ctn cm p keys /\ keyed (secretKey name) ctn sec p keys) /\
  (keys = [] -> Env cm = Env ctn /\ Env sec = Env ctn /\
     (exists src, src ∈ EnvFrom cm /\ ConfigMapRef src = Some name) /\
     (exists src, src ∈ EnvFrom sec /\ SecretRef src = Some name) /\
     EnvFrom ctn `prefix_of` EnvFrom cm /\ EnvFrom ctn `prefix_of` EnvFrom sec).
Proof.
  cbv zeta. unfold AttachConfigMapEnv, AttachSecretEnv. split.
  - intros Hk. destruct (length _ =? 0) eqn:E.
    { apply Nat.eqb_eq, nil_length_inv in E. done. }
    split; apply attach_keys_keyed.
  - intros ->. cbn [length Nat.eqb].
    assert (forall f : EnvFromSource -> option string,
      existsb (fun src => names (f src) name) (EnvFrom ctn) = true ->
      exists src, src ∈ EnvFrom ctn /\ f src = Some name) as Hin.
    { intros f (src & Hs & H)%existsb_exists. exists src. split; [by apply list_elem_of_In|].
      unfold names in H. destruct (f src); [|done]. by apply str_eqb_eq in H as ->. }
    assert (forall l (x : EnvFromSource), x ∈ l ++ [x]) as Hlast
      by (intros; apply elem_of_app; right; by apply list_elem_of_singleton).
    destruct (existsb (fun src => names (ConfigMapRef src) name) _) eqn:E1,
      (existsb (fun src => names (SecretRef src) name) _) eqn:E2; cbn; split_and!;
      try done; try (by apply Hin); try (by eexists; split; [apply Hlast|]); by eexists.
Qed.

Lemma attach_var_id n src env :
  env_get n env = Some (mkEnvVar n "" (Some src)) -> attach_var n src env = env.
Proof.
  unfold env_get. induction env as [|ev env IH]; cbn; [done|].
  destruct (str_eqb (ev_Name ev) n) eqn:E; [|intros H; by rewrite IH].
  apply str_eqb_eq in E. rewrite E. by intros [= ->].
Qed.

Lemma attach_keys_id mk prefix keys env :
  (forall k, k ∈ keys -> env_get (env_name prefix k) env =
     Some (mkEnvVar (env_name prefix k) "" (Some (mk k)))) ->
  attach_keys mk prefix keys env = env.
Proof.
  unfold attach_keys. induction keys as [|k keys IH]; [done|]. intros H. cbn [foldl].
  fold (env_name prefix k). rewrite attach_var_id by (apply H; set_solver).
  apply IH. intros k' Hk'. apply H. set_solver.
Qed.

Lemma attach_keys_again mk prefix raw ctn :
  let env := attach_keys mk prefix (normalizeAttachmentKeys raw) (Env ctn) in
  attach_keys mk prefix (normalizeAttachmentKeys raw) env = env.
Proof. apply attach_keys_id. apply (attach_keys_keyed mk ctn prefix raw). Qed.

(** Attaching the same object with the same keys twice is attaching it
    once. *)
Theorem attach_idempotent ctn name raw prefix :
  AttachConfigMapEnv (AttachConfigMapEnv ctn name raw prefix) name raw prefix =
    AttachConfigMapEnv ctn name raw prefix /\
  AttachSecretEnv (AttachSecretEnv ctn name raw prefix) name raw prefix =
    AttachSecretEnv ctn name raw prefix.
Proof.
  unfold AttachConfigMapEnv, AttachSecretEnv. cbv zeta.
  destruct (length (normalizeAttachmentKeys raw) =? 0).
  - split.
    + destruct (existsb _ (EnvFrom ctn)) eqn:E; [by rewrite E|].
      cbn [EnvFrom set_EnvFrom]. rewrite existsb_app. cbn. by rewrite str_eqb_refl, !orb_true_r.
    + destruct (existsb _ (EnvFrom ctn)) eqn:E; [by rewrite E|].
      cbn [EnvFrom set_EnvFrom]. rewrite existsb_app. cbn. by rewrite str_eqb_refl, !orb_true_r.
  - unfold set_Env. cbn. by rewrite !attach_keys_again.
Qed.

(** ** Detaching undoes attaching *)

Lemma attach_var_new n src env :
  env_get n env = None -> attach_var n src env = env ++ [mkEnvVar n "" (Some src)].
Proof.
  unfold env_get. induction env as [|ev env IH]; cbn; [done|].
  destruct (str_eqb (ev_Name ev) n); [done|]. intros H. by rewrite IH.
Qed.

Lemma attach_keys_new mk prefix keys : NoDup keys -> forall env,
  (forall k, k ∈ keys -> env_get (env_name prefix k) env = None) ->
  attach_keys mk prefix keys env =
    env ++ ((fun k => mkEnvVar (env_name prefix k) "" (Some (mk k))) <$> keys).
Proof.
  unfold attach_keys. induction 1 as [|k keys Hk _ IH]; intros env Hn; cbn [foldl fmap list_fmap].
  { by rewrite app_nil_r. }
  fold (env_name prefix k). rewrite attach_var_new by (apply Hn; set_solver).
  rewrite IH; [by rewrite <- app_assoc|]. intros k' Hk'. unfold env_get. rewrite <- (Hn k') by set_solver.
  rewrite <- attach_var_new with (src := mk k) by (apply Hn; set_solver).
  fold (env_get (env_name prefix k') (attach_var (env_name prefix k) (mk k) env)).
  rewrite env_get_attach, bool_decide_false; [done|]. intros E%env_name_inj. by subst.
Qed.

(** The container has no reference to the object and no variable under the names. *)
Definition free_of (names_it : EnvFromSource -> bool) (selects_it : EnvVarSource -> bool)
    (ctn : Container) (prefix : string) (keys : list string) : Prop :=
  existsb names_it (EnvFrom ctn) = false /\
  (forall ev src, ev ∈ Env ctn -> ev_ValueFrom ev = Some src -> selects_it src = false) /\
  (forall k, k ∈ keys -> env_get (env_name prefix k) (Env ctn) = None).

Lemma filter_all {A} (f : A -> bool) l : (forall x, x ∈ l -> f x = true) -> List.filter f l = l.
Proof.
  induction l as [|x l IH]; [done|]. intros H. cbn. rewrite H by set_solver.
  rewrite IH; [done|]. intros y Hy. apply H. set_solver.
Qed.

Lemma filter_none {A} (f : A -> bool) l : (forall x, x ∈ l -> f x = false) -> List.filter f l = [].
Proof.
  induction l as [|x l IH]; [done|]. intros H. cbn. rewrite H by set_solver.
  apply IH. intros y Hy. apply H. set_solver.
Qed.

Section Detach.
Context (names_it : EnvFromSource -> bool) (selects_it : EnvVarSource -> bool).
Context (mk : string -> EnvVarSource) (new_from : EnvFromSource).
Hypothesis mk_selected : forall k, selects_it (mk k) = true.
Hypothesis from_named : names_it new_from = true.

Lemma detach_attached ctn prefix raw :
  let keys := normalizeAttachmentKeys raw in
  free_of names_it selects_it ctn prefix keys ->
  let ctn' := if length keys =? 0 then
      if existsb names_it (EnvFrom ctn) then ctn else set_EnvFrom ctn (EnvFrom ctn ++ [new_from])
    else set_Env ctn (attach_keys mk prefix keys (Env ctn)) in
  set_Env (set_EnvFrom ctn' (List.filter (fun src => negb (names_it src)) (EnvFrom ctn')))
    (List.filter (fun ev => negb (match ev_ValueFrom ev with
       | Some src => selects_it src | None => false end)) (Env ctn')) = ctn.
Proof.
  intros keys (Hf & Hs & Hn). cbv zeta.
  assert (List.filter (fun src => negb (names_it src)) (EnvFrom ctn) = EnvFrom ctn) as Ef.
  { apply filter_all. intros x Hx. apply negb_true_iff. rewrite <- not_true_iff_false.
    intros H. apply not_true_iff_false in Hf. apply Hf, existsb_exists. exists x.
    split; [by apply list_elem_of_In | done]. }
  assert (List.filter (fun ev => negb (match ev_ValueFrom ev with
       | Some src => selects_it src | None => false end)) (Env ctn) = Env ctn) as Ee.
  { apply filter_all. intros ev Hev. apply negb_true_iff.
    destruct (ev_ValueFrom ev) as [src|] eqn:E; [by eapply Hs | done]. }
  destruct (length keys =? 0).
  - rewrite Hf. cbn [EnvFrom Env set_EnvFrom set_Env]. rewrite List.filter_app, Ef, Ee. cbn.
    rewrite from_named. cbn. rewrite app_nil_r. by destruct ctn.
  - cbn [EnvFrom Env set_EnvFrom set_Env].
    rewrite (attach_keys_new mk prefix keys) by (done || apply normalize_keys_spec).
    rewrite List.filter_app, Ef, Ee, (filter_none _ (_ <$> keys)).
    + rewrite app_nil_r. by destruct ctn.
    + intros ev (k & -> & _)%list_elem_of_fmap. cbn. by rewrite mk_selected.
Qed.
End Detach.

(** Detaching right after attaching gives the original container
    back, when it had no reference to the object and no variable of the attached names. *)
Theorem detach_undoes_attach ctn name raw prefix :
  (free_of (fun src => names (ConfigMapRef src) name) (fun src => selects (ConfigMapKeyRef src) name)
     ctn (TrimSpace prefix) (normalizeAttachmentKeys raw) ->
   DetachConfigMapEnv (AttachConfigMapEnv ctn name raw prefix) name = ctn) /\
  (free_of (fun src => names (SecretRef src) name) (fun src => selects (SecretKeyRef src) name)
     ctn (TrimSpace prefix) (normalizeAttachmentKeys raw) ->
   DetachSecretEnv (AttachSecretEnv ctn name raw prefix) name = ctn).
Proof.
  split; intros H.
  - eapply (detach_attached _ _ (configMapKey name) (mkEnvFromSource "" (Some name) None)) in H;
      [exact H | intros k; apply str_eqb_refl | apply str_eqb_refl].
  - eapply (detach_attached _ _ (secretKey name) (mkEnvFromSource "" None (Some name))) in H;
      [exact H | intros k; apply str_eqb_refl | apply str_eqb_refl].
Qed.
