(* ===== verification/Events.v ===== *)
(** Project events: [internal/service/events.go].

    The event store and the generator of ids are the interface [EventStore]; the
    caller's identity and the configuration are arguments. *)

From Stdlib Require Import Ascii ZArith Lia.
From stdpp Require Import base gmap strings list.
From S2P Require Import Prelude GoStrings Kube.

(** ** Metadata *)

(** A value of type [any]: a string, a nested map (keys are distinct, in some order), a list
    or any other value. *)
Inductive any :=
| AString (s : string)
| AMap (m : list (string * any))
| AList (l : list any)
| AOther (repr : string).

Definition Meta := list (string * any).

Definition shouldRedactKey (key : string) : bool :=
  let lowered := ToLower key in
  Contains lowered "secret" || Contains lowered "token" || Contains lowered "password".

(** [redactMeta] of a nested map; other values are kept. *)
Fixpoint redact_value (v : any) : any :=
  match v with
  | AMap m =>
      AMap (List.map (fun '(k, v) =>
        (k, if shouldRedactKey k then AString "[redacted]" else redact_value v)) m)
  | _ => v
  end.

Definition redactMeta (meta : Meta) : Meta :=
  List.map (fun '(k, v) =>
    (k, if shouldRedactKey k then AString "[redacted]" else redact_value v)) meta.

Definition cloneMeta (meta : Meta) : Meta := meta.

(** ** Events *)

Record EventInput := mkEventInput {
  in_ProjectID : string;
  in_AppID : string;
  in_ActorUserID : string;
  in_Kind : string;
  in_Severity : string;
  in_Message : string;
  in_Meta : Meta;
}.

Record ProjectEvent := mkEvent {
  e_ID : string;
  e_ProjectID : string;
  e_AppID : string;
  e_ActorUserID : string;
  e_Kind : string;
  e_Severity : string;
  e_Message : string;
  e_Meta : Meta;
  (** in microseconds *)
  e_At : Z;
}.

Definition SeverityInfo := "INFO".
Definition maxEventIngestBatch : nat := 500.

(** The configuration the code reads; [None] for a nil pointer. *)
Record EventConfig := mkEventConfig {
  EventsDBEnabled : bool;
  EventsBridgeEnabled : bool;
}.

Class EventStore (S : Type) := {
  newUUID : S -> string * S;
  (** [time.Now] *)
  event_Now : S -> Z;
  InsertProjectEvent : ProjectEvent -> io S string ProjectEvent;
}.

Record EventIngestError := mkIngestError { err_Index : Z; err_Error : message }.

Record EventIngestSummary := mkSummary {
  ClusterID : string;
  Total : nat;
  Accepted : nat;
  Dropped : nat;
  Status : string;
  Errors : list EventIngestError;
}.

Section Events.
Context {S : Type} `{store : EventStore S}.
Context (cfg : option EventConfig) (actorFromContext : string).

Definition set_meta (e : ProjectEvent) (m : Meta) : ProjectEvent :=
  mkEvent (e_ID e) (e_ProjectID e) (e_AppID e) (e_ActorUserID e) (e_Kind e) (e_Severity e)
    (e_Message e) m (e_At e).
Definition set_at (e : ProjectEvent) (at_ : Z) : ProjectEvent :=
  mkEvent (e_ID e) (e_ProjectID e) (e_AppID e) (e_ActorUserID e) (e_Kind e) (e_Severity e)
    (e_Message e) (e_Meta e) at_.

Definition AppendProjectEvent (ev : EventInput) : io S string ProjectEvent := fun s =>
  let projectID := TrimSpace (in_ProjectID ev) in
  if str_eqb projectID "" then (Err "project id required", s)
  else
    let kind := TrimSpace (in_Kind ev) in
    if str_eqb kind "" then (Err "kind required", s)
    else
      let message := TrimSpace (in_Message ev) in
      if str_eqb message "" then (Err "message required", s)
      else
        let severity := ToUpper (TrimSpace (in_Severity ev)) in
        let severity := if str_eqb severity "" then SeverityInfo else severity in
        let actor := TrimSpace (in_ActorUserID ev) in
        let actor := if str_eqb actor "" then actorFromContext else actor in
        let appID := TrimSpace (in_AppID ev) in
        let meta := cloneMeta (in_Meta ev) in
        let '(id, s1) := newUUID s in
        let evt := mkEvent id projectID appID actor kind severity message meta 0 in
        let eventsEnabled := match cfg with Some c => EventsDBEnabled c | None => true end in
        if negb eventsEnabled then (Ok (set_at (set_meta evt (redactMeta (e_Meta evt))) (event_Now s1)), s1)
        else match InsertProjectEvent evt s1 with
             | (Err err, s2) => (Err err, s2)
             | (Ok stored, s2) => (Ok (set_meta stored (redactMeta (e_Meta stored))), s2)
             end.

(** The events of a page as [ListProjectEvents] returns them. *)
Definition presentEvents (events : list ProjectEvent) : list ProjectEvent :=
  (fun e => mkEvent (e_ID e) (e_ProjectID e) (e_AppID e) (e_ActorUserID e) (TrimSpace (e_Kind e))
              (ToUpper (TrimSpace (e_Severity e))) (e_Message e) (redactMeta (e_Meta e)) (e_At e)) <$> events.

Definition trimInput (ev : EventInput) : EventInput :=
  mkEventInput (TrimSpace (in_ProjectID ev)) (TrimSpace (in_AppID ev)) (TrimSpace (in_ActorUserID ev))
    (TrimSpace (in_Kind ev)) (TrimSpace (in_Severity ev)) (TrimSpace (in_Message ev)) (in_Meta ev).

Definition drop_event (sm : EventIngestSummary) (idx : Z) (m : message) : EventIngestSummary :=
  mkSummary (ClusterID sm) (Total sm) (Accepted sm) (1 + Dropped sm) (Status sm)
    (Errors sm ++ [mkIngestError idx m]).

(** The loop of [IngestProjectEvents]. *)
Fixpoint ingest_loop (idx : Z) (events : list EventInput) (sm : EventIngestSummary) (s : S)
    : EventIngestSummary * S :=
  match events with
  | [] => (sm, s)
  | evt :: events =>
      let evt := trimInput evt in
      if str_eqb (in_ProjectID evt) "" || str_eqb (in_Kind evt) "" || str_eqb (in_Message evt) "" then
        ingest_loop (idx + 1) events
          (drop_event sm idx (Msg "projectId, kind, and message are required")) s
      else match AppendProjectEvent evt s with
           | (Err err, s1) => ingest_loop (idx + 1) events (drop_event sm idx (Sprintf "%v" [err])) s1
           | (Ok _, s1) =>
               ingest_loop (idx + 1) events
                 (mkSummary (ClusterID sm) (Total sm) (1 + Accepted sm) (Dropped sm) (Status sm)
                    (Errors sm)) s1
           end
  end.

Inductive ingest_error := NotInitialised | ErrEventBridgeDisabled.

Definition IngestProjectEvents (clusterID : string) (events : list EventInput) (s : S)
    : EventIngestSummary * option ingest_error * S :=
  let summary := mkSummary (TrimSpace clusterID) (length events) 0 0 "" [] in
  match cfg with
  | None => (summary, Some NotInitialised, s)
  | Some cfg =>
      if negb (EventsBridgeEnabled cfg) then
        (mkSummary (ClusterID summary) (Total summary) 0 (Total summary) "ignored" [],
         Some ErrEventBridgeDisabled, s)
      else if length events =? 0 then (summary, None, s)
      else
        let '(summary, events) :=
          if maxEventIngestBatch <? Total summary then
            let dropped := Total summary - maxEventIngestBatch in
            let sm := drop_event summary (-1)
              (Sprintf "batch exceeds limit of %d; dropping %d events"
                 [itoa maxEventIngestBatch; itoa dropped]) in
            let events := take maxEventIngestBatch events in
            (mkSummary (ClusterID sm) (length events + dropped) (Accepted sm) dropped (Status sm)
               (Errors sm), events)
          else (summary, events) in
        let '(summary, s') := ingest_loop 0 events summary s in
        (summary, None, s')
  end.
End Events.

(** ** Redaction *)

(** Induction over values with the values of a nested map. *)
Fixpoint any_ind' (P : any -> Prop) (Hs : forall s, P (AString s))
    (Hm : forall m, Forall (fun kv => P (snd kv)) m -> P (AMap m))
    (Hl : forall l, P (AList l)) (Ho : forall r, P (AOther r)) (v : any) : P v :=
  match v with
  | AString s => Hs s
  | AMap m => Hm m ((fix go m := match m return Forall (fun kv => P (snd kv)) m with
      | [] => Forall_nil_2 _
      | (k, v) :: m => Forall_cons_2 _ (k, v) m (any_ind' P Hs Hm Hl Ho v) (go m)
      end) m)
  | AList l => Hl l
  | AOther r => Ho r
  end.

(** No secret key of a map, at any nesting of maps, shows its value. *)
Inductive redacted : any -> Prop :=
| redacted_string s : redacted (AString s)
| redacted_list l : redacted (AList l)
| redacted_other r : redacted (AOther r)
| redacted_map m :
    (forall k v, (k, v) ∈ m -> shouldRedactKey k = true -> v = AString "[redacted]") ->
    (forall k v, (k, v) ∈ m -> shouldRedactKey k = false -> redacted v) ->
    redacted (AMap m).

Lemma redact_value_redacted v : redacted (redact_value v).
Proof.
  induction v as [s|m IH|l|r] using any_ind'; cbn; constructor;
    intros k v Hin; apply list_elem_of_fmap in Hin as ([k' v'] & E & Hin); injection E as -> ->.
  - by intros ->.
  - intros ->. rewrite Forall_forall in IH. by apply (IH (k', v')).
Qed.

Lemma redact_value_idem v : redact_value (redact_value v) = redact_value v.
Proof.
  induction v as [s|m IH|l|r] using any_ind'; cbn; [done| |done|done]. f_equal.
  induction IH as [|[k v] m Hv _ IHm]; cbn in *; [done|]. f_equal; [|done]. f_equal.
  by destruct (shouldRedactKey k).
Qed.

(** Following keys through nested maps. *)
Fixpoint path_get (path : list string) (v : any) : option any :=
  match path with
  | [] => Some v
  | k :: path =>
      match v with
      | AMap m => match List.find (fun kv => str_eqb (fst kv) k) m with
                  | Some kv => path_get path (snd kv)
                  | None => None
                  end
      | _ => None
      end
  end.

Lemma redact_find m k :
  List.find (fun kv => str_eqb (fst kv) k) (redactMeta m) =
  (fun kv => (fst kv, if shouldRedactKey (fst kv) then AString "[redacted]" else redact_value (snd kv)))
    <$> List.find (fun kv => str_eqb (fst kv) k) m.
Proof. induction m as [|[k' v] m IH]; cbn; [done|]. by destruct (str_eqb k' k). Qed.

(** Redaction hides the value of every key that mentions secret, token or
    password, at every nesting of maps; a path without such a key leads to the same value as
    before, redacted in turn; keys and their order are kept; redacting again changes
    nothing. *)
Theorem redact_meta_spec meta :
  redacted (AMap (redactMeta meta)) /\
  (forall path, Forall (fun k => shouldRedactKey k = false) path ->
     path_get path (AMap (redactMeta meta)) = redact_value <$> path_get path (AMap meta)) /\
  fst <$> redactMeta meta = fst <$> meta /\
  redactMeta (redactMeta meta) = redactMeta meta.
Proof.
  assert (forall m, AMap (redactMeta m) = redact_value (AMap m)) as Hm by done.
  split_and!.
  - apply (redact_value_redacted (AMap meta)).
  - intros path Hp. rewrite Hm. generalize (AMap meta) as v.
    induction Hp as [|k path Hk _ IH]; intros v; [done|]. destruct v as [s|m|l|r]; try done.
    rewrite <- Hm. cbn [path_get]. rewrite redact_find.
    destruct (List.find _ m) as [[k' v']|] eqn:E; [|done]. cbn.
    apply find_some in E as [_ E%str_eqb_eq]. cbn in E. subst k'. by rewrite Hk, IH.
  - clear. unfold redactMeta. induction meta as [|[k v] meta IH]; [done|]. cbn. f_equal. exact IH.
  - pose proof (redact_value_idem (AMap meta)) as H. rewrite <- !Hm in H. by injection H.
Qed.

(** A map inside a list is not reached: its password stays. *)
Example redact_list_leak :
  redactMeta [("items", AList [AMap [("password", AString "hunter2")]])] =
  [("items", AList [AMap [("password", AString "hunter2")]])].
Proof. vm_compute. reflexivity. Qed.

(** ** Ingestion *)

Section Ingest.
Context {S : Type} `{store : EventStore S}.
Context (cfg : option EventConfig) (actor : string).

Lemma ingest_loop_counts events : forall idx sm s,
  let sm' := fst (ingest_loop cfg actor idx events sm s) in
  Accepted sm' + Dropped sm' = Accepted sm + Dropped sm + length events /\
  Total sm' = Total sm /\ Dropped sm <= Dropped sm'.
Proof.
  induction events as [|e events IH]; intros idx sm s; cbn [ingest_loop length]; [cbn; lia|].
  cbv zeta. case_match.
  - destruct (IH (idx + 1)%Z (drop_event sm idx (Msg "projectId, kind, and message are required")) s)
      as [H1 H2]. cbn in *. lia.
  - destruct (AppendProjectEvent cfg actor (trimInput e) s) as [[ev|err] s1].
    + match goal with |- context [ingest_loop _ _ _ _ ?sm1 _] => destruct (IH (idx + 1)%Z sm1 s1) as [H1 H2] end.
      cbn in *. lia.
    + match goal with |- context [ingest_loop _ _ _ _ ?sm1 _] => destruct (IH (idx + 1)%Z sm1 s1) as [H1 H2] end.
      cbn in *. lia.
Qed.

(** Whatever the batch, the summary counts every event of the
    upload: it is accepted or dropped, the total is the size of the upload, and at most 500
    are accepted. *)
Theorem ingest_accounts_for_all clusterID events s :
  match IngestProjectEvents cfg actor clusterID events s with
  | (sm, None, _) =>
      Accepted sm + Dropped sm = length events /\ Total sm = length events /\
      Accepted sm <= maxEventIngestBatch
  | (sm, Some ErrEventBridgeDisabled, s') =>
      Accepted sm = 0 /\ Dropped sm = length events /\ s' = s
  | (_, Some NotInitialised, s') => cfg = None /\ s' = s
  end.
Proof.
  unfold IngestProjectEvents. destruct cfg as [c|] eqn:Ec; [|done].
  destruct (negb (EventsBridgeEnabled c)); [done|].
  destruct (length events =? 0) eqn:E0.
  { apply Nat.eqb_eq in E0. cbn. rewrite E0. unfold maxEventIngestBatch. lia. }
  cbn [Total]. destruct (maxEventIngestBatch <? length events) eqn:Eb.
  - apply Nat.ltb_lt in Eb.
    match goal with |- context [ingest_loop ?c ?a ?i ?es ?sm ?st] =>
      pose proof (ingest_loop_counts es i sm st) as H end.
    rewrite Ec in H. cbv zeta in H. destruct (ingest_loop _ _ _ _ _ _) as [sm s'].
    cbn [fst Accepted Dropped Total drop_event] in H. rewrite length_take in H. lia.
  - apply Nat.ltb_ge in Eb.
    match goal with |- context [ingest_loop ?c ?a ?i ?es ?sm ?st] =>
      pose proof (ingest_loop_counts es i sm st) as H end.
    rewrite Ec in H. cbv zeta in H. destruct (ingest_loop _ _ _ _ _ _) as [sm s']. cbn in *. lia.
Qed.
End Ingest.
