(* ===== verification/Maintenance.v ===== *)
(** Maintenance mode: [internal/service/maintenance.go], with the errors the service returns.

    The row of the database is the interface [MaintenanceStore]. *)

From Stdlib Require Import Ascii ZArith Lia.
From stdpp Require Import base strings list.
From S2P Require Import Prelude GoStrings Kube.

Record MaintenanceState := mkMaintenance {
  m_Enabled : bool;
  m_Message : string;
  m_UpdatedAt : Z;
  m_UpdatedBy : string;
}.

Inductive op_error :=
| MaintenanceError (Message : string)
| OpError (m : message).

(** An error of a callee, returned as it is. *)
Definition plain (err : string) : op_error := OpError (Sprintf "%v" [err]).
Definition errors_New (text : string) : op_error := OpError (Msg text).

(** [MaintenanceError.Error] *)
Definition MaintenanceError_text (Message : string) : message :=
  if str_eqb (TrimSpace Message) "" then Msg "maintenance mode enabled"
  else Sprintf "%s: %s" ["maintenance mode enabled"; TrimSpace Message].

(** ** The gate *)

Class MaintenanceStore (S : Type) := {
  (** the maintenance loader, [s.st.GetMaintenanceState] by default *)
  load_Maintenance : S -> result string MaintenanceState;
  store_UpdateMaintenance : bool -> string -> string -> io S string MaintenanceState;
}.

(** [return err] *)
Definition lift {S A} (m : io S string A) : io S op_error A := wrap_err plain m.
Definition ask {S A} (f : S -> result string A) : io S op_error A :=
  lift (fun s => (f s, s)).

Section Gate.
Context {S : Type} `{store : MaintenanceStore S}.

Definition GetMaintenanceState : io S op_error MaintenanceState := ask load_Maintenance.

Definition UpdateMaintenanceState (actor : string) (enabled : bool) (text : string)
    : io S op_error MaintenanceState :=
  let msg := TrimSpace text in
  if 512 <? len msg then
    fail (OpError (Sprintf "%w: message must be 512 characters or fewer" ["invalid maintenance input"]))
  else
    let actor := TrimSpace actor in
    let actor := if str_eqb actor "" then "system" else actor in
    lift (store_UpdateMaintenance enabled msg actor).

Definition ensureMaintenanceAllows : io S op_error unit :=
  state ← ask load_Maintenance;
  if negb (m_Enabled state) then mret tt
  else fail (MaintenanceError (m_Message state)).

Lemma lift_inv {A} (m : io S string A) s r s' : lift m s = (r, s') ->
  exists r0, m s = (r0, s') /\ r = match r0 with Ok a => Ok a | Err e => Err (plain e) end.
Proof. unfold lift, wrap_err. destruct (m s) as [[a|e] s1]; intros [= <- <-]; eauto. Qed.

Lemma ask_inv {A} (f : S -> result string A) s r s' : ask f s = (r, s') ->
  s' = s /\ r = match f s with Ok a => Ok a | Err e => Err (plain e) end.
Proof. unfold ask. intros (r0 & [= <- <-] & ->)%lift_inv. done. Qed.

Lemma ensure_inv s r s' : ensureMaintenanceAllows s = (r, s') ->
  s' = s /\ (r = Ok tt <-> exists st, load_Maintenance s = Ok st /\ m_Enabled st = false).
Proof.
  unfold ensureMaintenanceAllows.
  intros [(e & [-> H]%ask_inv & ->) | (st & s1 & [-> H]%ask_inv & Hk)]%io_bind_case;
    destruct (load_Maintenance s) as [st'|err]; try done.
  - split; [done|]. split; [done|]. naive_solver.
  - injection H as <-. destruct (m_Enabled st) eqn:E; cbn in Hk; injection Hk as <- <-; (split; [done|]).
    + split; [done|]. intros (st0 & [= <-] & H). congruence.
    + split; eauto.
Qed.
End Gate.
