(* ===== verification/AppOps.v ===== *)
(** The operations on a deployed application: of [internal/service/apps.go], [ScaleApp],
    [UpdateAppImage], [RolloutRestartApp], [AttachConfigMapToApp], [DetachConfigMapFromApp],
    [AttachSecretToApp], [DetachSecretFromApp] with [updateAppDeployment], [loadAppCRD] and
    [mirrorAppCRD], and [apply] of [internal/service/service.go].

    The database and the clusters are the interface [AppOpsAPI]; what the operations rely on
    is [AppOpsLaws].  Log lines are not modelled; the clock is an argument. *)

From Stdlib Require Import Ascii ZArith Lia.
From stdpp Require Import base gmap strings list pretty.
From S2P Require Import Prelude GoStrings Names Kube AppController Attachments Events Maintenance.

(** ** Data *)

(** [store.Project] and [store.App] *)
Record StoreProject := mkStoreProject {
  p_ID : string;
  p_ClusterID : string;
  p_Namespace : string;
}.

Record StoreApp := mkStoreApp {
  a_ID : string;
  a_ProjectID : string;
  a_Name : string;
  (** the [kubeName] string of the app's source, when it has one *)
  a_KubeName : option string;
}.

Definition kubeName (a : StoreApp) : string := appKubeName (a_KubeName a) (a_Name a).

(** [appsv1.Deployment], as far as the service touches it. *)
Record SvcDeployment := mkSvcDeployment {
  d_GVK : option string;
  d_Namespace : string;
  d_Name : string;
  d_Annotations : strmap;
  d_ManagedFields : list string;
  d_Replicas : option Z;
  d_Containers : list Attachments.Container;
}.

(** The App custom resource with the fields of its metadata and spec that only the service
    reads. *)
Record AppCR := mkAppCR {
  cr_app : Kube.App;
  cr_UID : string;
  cr_ResourceVersion : string;
  cr_Kind : string;
  cr_Replicas : option Z;
}.

(** [store.K8sCRD]; spec and status as values, the hash of the encoded spec apart. *)
Record K8sCRD := mkK8sCRD {
  k_ClusterID : string;
  k_ProjectID : string;
  k_Kind : string;
  k_Namespace : string;
  k_Name : string;
  k_UID : string;
  k_ResourceVersion : string;
  k_SpecHash : string;
  k_Spec : AppSpec * option Z;
  k_Status : AppStatus;
}.

(** ** The database and the clusters *)

Class AppOpsAPI (S C : Type) := {
  ops_maintenance :: MaintenanceStore S;
  store_GetProject : S -> string -> result string StoreProject;
  store_GetApp : S -> string -> result string StoreApp;
  UpsertK8sCRD : K8sCRD -> io S string unit;
  (** [s.km.GetOrCreate] with the loader of the cluster's kubeconfig *)
  GetOrCreate : string -> io S string C;
  get_SvcDeployment : S -> C -> string -> string -> get_result SvcDeployment;
  get_AppCR : S -> C -> string -> string -> get_result AppCR;
  (** [apiutil.GVKForObject] of a Deployment in the client's scheme *)
  GVKForDeployment : C -> result string string;
  (** [Patch] with [crclient.Apply], [ForceOwnership] and the owner [kubeop] *)
  patch_Apply : C -> SvcDeployment -> io S string unit;
  update_AppCR : C -> AppCR -> io S string AppCR;
  (** the hex digest of the JSON encoding of a spec *)
  specHash : AppSpec * option Z -> string;
}.

Section Service.
Context {S C : Type} `{api : AppOpsAPI S C} `{events : EventStore S}.
Context (cfg : option EventConfig) (actor : string).

(** ** Writing to the cluster *)

Definition set_GVK (d : SvcDeployment) (gvk : option string) : SvcDeployment :=
  mkSvcDeployment gvk (d_Namespace d) (d_Name d) (d_Annotations d) (d_ManagedFields d)
    (d_Replicas d) (d_Containers d).
Definition set_ManagedFields (d : SvcDeployment) (l : list string) : SvcDeployment :=
  mkSvcDeployment (d_GVK d) (d_Namespace d) (d_Name d) (d_Annotations d) l
    (d_Replicas d) (d_Containers d).
Definition set_Replicas (d : SvcDeployment) (r : option Z) : SvcDeployment :=
  mkSvcDeployment (d_GVK d) (d_Namespace d) (d_Name d) (d_Annotations d) (d_ManagedFields d)
    r (d_Containers d).
Definition set_Annotations (d : SvcDeployment) (a : strmap) : SvcDeployment :=
  mkSvcDeployment (d_GVK d) (d_Namespace d) (d_Name d) a (d_ManagedFields d)
    (d_Replicas d) (d_Containers d).
Definition set_Containers (d : SvcDeployment) (l : list Attachments.Container) : SvcDeployment :=
  mkSvcDeployment (d_GVK d) (d_Namespace d) (d_Name d) (d_Annotations d) (d_ManagedFields d)
    (d_Replicas d) l.

Definition apply (c : C) (obj : SvcDeployment) : io S string unit :=
  let obj := set_ManagedFields obj [] in
  match d_GVK obj with
  | Some _ => patch_Apply c obj
  | None =>
      match GVKForDeployment c with
      | Ok gvk => patch_Apply c (set_GVK obj (Some gvk))
      | Err err => fail err
      end
  end.

Definition loadAppCRD (c : C) (namespace name : string) (s : S) : get_result AppCR :=
  get_AppCR s c namespace name.

(** A failure to store the mirror is logged only. *)
Definition mirrorAppCRD (project : StoreProject) (app : StoreApp) (crd : AppCR)
    : io S op_error unit := fun s =>
  let spec := (app_Spec (cr_app crd), cr_Replicas crd) in
  let kind := if str_eqb (TrimSpace (cr_Kind crd)) "" then "App" else cr_Kind crd in
  let record := mkK8sCRD (p_ClusterID project) (p_ID project) kind
    (Namespace (app_meta (cr_app crd))) (Name (app_meta (cr_app crd))) (cr_UID crd)
    (cr_ResourceVersion crd) (specHash spec) spec (app_Status (cr_app crd)) in
  (Ok tt, snd (UpsertK8sCRD record s)).

(** The common opening: the project, the app, and that the one owns the other. *)
Definition owned_app (projectID appID : string) : io S op_error (StoreProject * StoreApp) :=
  p ← ask (fun s => store_GetProject s projectID);
  a ← ask (fun s => store_GetApp s appID);
  if negb (str_eqb (a_ProjectID a) projectID) then fail (errors_New "app does not belong to project")
  else mret (p, a).

Definition blank_deployment (namespace name : string) : SvcDeployment :=
  mkSvcDeployment None namespace name None [] None [].

Definition updateAppDeployment (projectID appID : string)
    (mutate : SvcDeployment -> result string SvcDeployment)
    : io S op_error (StoreProject * StoreApp) :=
  pa ← owned_app projectID appID;
  let '(p, a) := pa in
  c ← lift (GetOrCreate (p_ClusterID p));
  dep ← ask (fun s =>
    match get_SvcDeployment s c (p_Namespace p) (kubeName a) with
    | Found dep => Ok dep
    | NotFound => Ok (blank_deployment (p_Namespace p) (kubeName a))
    | GetFailed err => Err err
    end);
  dep ← ask (fun _ => mutate dep);
  _ ← lift (apply c dep);
  mret (p, a).

Definition emit (ev : EventInput) : io S op_error unit :=
  _ ← lift (AppendProjectEvent cfg actor ev);
  mret tt.

(** ** Scaling and changing the image *)

(** The edit of a custom resource: the version must be given and be the current one. *)
Definition edit_crd (p : StoreProject) (a : StoreApp) (c : C) (resourceVersion : string)
    (edit : AppCR -> AppCR) (crd : AppCR) : io S op_error (StoreProject * StoreApp) :=
  if str_eqb (TrimSpace resourceVersion) "" then
    fail (errors_New "resourceVersion required for CRD-managed apps")
  else if negb (str_eqb resourceVersion (cr_ResourceVersion crd)) then
    fail (OpError (Sprintf "resourceVersion mismatch: current %s" [cr_ResourceVersion crd]))
  else
    crd' ← lift (update_AppCR c (edit crd));
    _ ← mirrorAppCRD p a crd';
    mret (p, a).

Definition set_cr_Replicas (r : Z) (crd : AppCR) : AppCR :=
  mkAppCR (cr_app crd) (cr_UID crd) (cr_ResourceVersion crd) (cr_Kind crd) (Some r).

Definition set_cr_Image (image : string) (crd : AppCR) : AppCR :=
  let app := cr_app crd in
  let spec := app_Spec app in
  mkAppCR (mkApp (app_meta app)
      (mkAppSpec (app_Type spec) (Source spec) (Version spec) (VersionRange spec) image
         (ValuesRefs spec) (SecretsRefs spec) (ServiceProfile spec) (IngressRefs spec))
      (app_Status app))
    (cr_UID crd) (cr_ResourceVersion crd) (cr_Kind crd) (cr_Replicas crd).

(** The body [ScaleApp] and [UpdateAppImage] share: the custom resource when there is one,
    the Deployment otherwise. *)
Definition edit_app (projectID appID resourceVersion : string) (edit : AppCR -> AppCR)
    (mutate : SvcDeployment -> result string SvcDeployment)
    : io S op_error (StoreProject * StoreApp) :=
  pa ← owned_app projectID appID;
  let '(p, a) := pa in
  c ← lift (GetOrCreate (p_ClusterID p));
  found ← ask (fun s => Ok (loadAppCRD c (p_Namespace p) (kubeName a) s));
  match found with
  | Found crd => edit_crd p a c resourceVersion edit crd
  | GetFailed err => fail (plain err)
  | NotFound => updateAppDeployment projectID appID mutate
  end.

Definition mutate_scale (replicas : Z) (dep : SvcDeployment) : result string SvcDeployment :=
  Ok (set_Replicas dep (Some replicas)).

Definition mutate_image (image : string) (dep : SvcDeployment) : result string SvcDeployment :=
  let ctns := match d_Containers dep with
    | [] => [mkContainer "app" "" [] []]
    | ctns => ctns
    end in
  Ok (set_Containers dep match ctns with
    | c :: rest => mkContainer (c_Name c) image (EnvFrom c) (Env c) :: rest
    | [] => []
    end).

Definition ScaleApp (projectID appID resourceVersion : string) (replicas : Z)
    : io S op_error unit :=
  _ ← ensureMaintenanceAllows;
  pa ← edit_app projectID appID resourceVersion (set_cr_Replicas replicas) (mutate_scale replicas);
  let '(p, a) := pa in
  emit (mkEventInput projectID appID "" "app_scaled" SeverityInfo ("scaled app " +:+ a_Name a)
    [("replicas", AOther (pretty replicas)); ("cluster_id", AString (p_ClusterID p));
     ("namespace", AString (p_Namespace p)); ("app_name", AString (a_Name a))]).

Definition UpdateAppImage (projectID appID resourceVersion image : string) : io S op_error unit :=
  _ ← ensureMaintenanceAllows;
  let image := TrimSpace image in
  if str_eqb image "" then fail (errors_New "image required")
  else
    pa ← edit_app projectID appID resourceVersion (set_cr_Image image) (mutate_image image);
    let '(p, a) := pa in
    emit (mkEventInput projectID appID "" "app_image_updated" SeverityInfo
      ("updated image for " +:+ a_Name a)
      [("image", AString image); ("cluster_id", AString (p_ClusterID p));
       ("namespace", AString (p_Namespace p)); ("app_name", AString (a_Name a))]).

(** ** Restarting *)

Definition mutate_restart (ts : string) (dep : SvcDeployment) : result string SvcDeployment :=
  let annotations := default ∅ (d_Annotations dep) in
  Ok (set_Annotations dep (Some (<["kubeop.io/redeploy" := ts]> annotations))).

Definition RolloutRestartApp (ts projectID appID : string) : io S op_error unit :=
  _ ← ensureMaintenanceAllows;
  pa ← updateAppDeployment projectID appID (mutate_restart ts);
  let '(p, a) := pa in
  emit (mkEventInput projectID appID "" "app_rollout_restarted" SeverityInfo
    ("rollout restarted for " +:+ a_Name a)
    [("cluster_id", AString (p_ClusterID p)); ("namespace", AString (p_Namespace p));
     ("app_name", AString (a_Name a)); ("redeploy_at", AString ts)]).

(** ** Attaching and detaching *)

(** The closures of the four operations: the first container is edited. *)
Definition mutate_first (absent : string) (f : Attachments.Container -> Attachments.Container)
    (dep : SvcDeployment) : result string SvcDeployment :=
  match d_Containers dep with
  | [] => Err absent
  | c :: rest => Ok (set_Containers dep (f c :: rest))
  end.

Definition attached_event (kind what name projectID appID prefix : string) (keys : list string)
    (p : StoreProject) (a : StoreApp) : EventInput :=
  let mode := if 0 <? length keys then "keys" else "envFrom" in
  mkEventInput projectID appID "" kind SeverityInfo (what +:+ " " +:+ name +:+ " attached")
    [(what, AString name); ("mode", AString mode); ("keys", AList (AString <$> keys));
     ("prefix", AString prefix); ("cluster_id", AString (p_ClusterID p));
     ("namespace", AString (p_Namespace p)); ("app_name", AString (a_Name a))].

Definition detached_event (kind what name projectID appID : string)
    (p : StoreProject) (a : StoreApp) : EventInput :=
  mkEventInput projectID appID "" kind SeverityInfo (what +:+ " " +:+ name +:+ " detached")
    [(what, AString name); ("cluster_id", AString (p_ClusterID p));
     ("namespace", AString (p_Namespace p)); ("app_name", AString (a_Name a))].

Definition AttachConfigMapToApp (projectID appID name : string) (keys : list string)
    (prefix : string) : io S op_error unit :=
  let name := TrimSpace name in
  if str_eqb name "" then fail (errors_New "name is required")
  else
    let keys := normalizeAttachmentKeys keys in
    let prefix := TrimSpace prefix in
    pa ← updateAppDeployment projectID appID
      (mutate_first "app has no containers to attach configmap"
         (fun c => AttachConfigMapEnv c name keys prefix));
    let '(p, a) := pa in
    emit (attached_event "app_configmap_attached" "configmap" name projectID appID prefix keys p a).

Definition DetachConfigMapFromApp (projectID appID name : string) : io S op_error unit :=
  let name := TrimSpace name in
  if str_eqb name "" then fail (errors_New "name is required")
  else
    pa ← updateAppDeployment projectID appID
      (mutate_first "app has no containers to detach configmap" (fun c => DetachConfigMapEnv c name));
    let '(p, a) := pa in
    emit (detached_event "app_configmap_detached" "configmap" name projectID appID p a).

Definition AttachSecretToApp (projectID appID name : string) (keys : list string)
    (prefix : string) : io S op_error unit :=
  let name := TrimSpace name in
  if str_eqb name "" then fail (errors_New "name is required")
  else
    let keys := normalizeAttachmentKeys keys in
    let prefix := TrimSpace prefix in
    pa ← updateAppDeployment projectID appID
      (mutate_first "app has no containers to attach secret"
         (fun c => AttachSecretEnv c name keys prefix));
    let '(p, a) := pa in
    emit (attached_event "app_secret_attached" "secret" name projectID appID prefix keys p a).

Definition DetachSecretFromApp (projectID appID name : string) : io S op_error unit :=
  let name := TrimSpace name in
  if str_eqb name "" then fail (errors_New "name is required")
  else
    pa ← updateAppDeployment projectID appID
      (mutate_first "app has no containers to detach secret" (fun c => DetachSecretEnv c name));
    let '(p, a) := pa in
    emit (detached_event "app_secret_detached" "secret" name projectID appID p a).

(** ** The operations as data *)

Inductive app_op :=
| OpScale (resourceVersion : string) (replicas : Z)
| OpImage (resourceVersion image : string)
| OpRestart (ts : string)
| OpAttachConfigMap (name : string) (keys : list string) (prefix : string)
| OpDetachConfigMap (name : string)
| OpAttachSecret (name : string) (keys : list string) (prefix : string)
| OpDetachSecret (name : string).

Definition run_op (projectID appID : string) (op : app_op) : io S op_error unit :=
  match op with
  | OpScale rv n => ScaleApp projectID appID rv n
  | OpImage rv image => UpdateAppImage projectID appID rv image
  | OpRestart ts => RolloutRestartApp ts projectID appID
  | OpAttachConfigMap name keys prefix => AttachConfigMapToApp projectID appID name keys prefix
  | OpDetachConfigMap name => DetachConfigMapFromApp projectID appID name
  | OpAttachSecret name keys prefix => AttachSecretToApp projectID appID name keys prefix
  | OpDetachSecret name => DetachSecretFromApp projectID appID name
  end.
End Service.

(** ** What the database and the clusters promise *)

(** What a client sends to a cluster. *)
Inductive sent_obj :=
| Applied (d : SvcDeployment)
| Updated (crd : AppCR).

Definition obj_key (o : sent_obj) : string * string :=
  match o with
  | Applied d => (d_Namespace d, d_Name d)
  | Updated crd => (Namespace (app_meta (cr_app crd)), Name (app_meta (cr_app crd)))
  end.

(** [sent] is the history of the objects the clusters have received, with the cluster.  A
    write that reports an error may have been received or not. *)
Class AppOpsLaws (S C : Type) `{api : AppOpsAPI S C} `{events : EventStore S} := {
  cluster_of : C -> string;
  sent : S -> list (string * sent_obj);
  GetOrCreate_client id s c s' : GetOrCreate id s = (Ok c, s') -> cluster_of c = id;
  GetOrCreate_frame id s r s' : GetOrCreate id s = (r, s') ->
    sent s' = sent s /\
    (forall i, store_GetProject s' i = store_GetProject s i) /\
    (forall i, store_GetApp s' i = store_GetApp s i) /\
    (forall (c : C) ns n, get_SvcDeployment s' c ns n = get_SvcDeployment s c ns n) /\
    (forall (c : C) ns n, get_AppCR s' c ns n = get_AppCR s c ns n);
  get_SvcDeployment_key s c ns n d :
    get_SvcDeployment s c ns n = Found d -> d_Namespace d = ns /\ d_Name d = n;
  get_AppCR_key s c ns n crd : get_AppCR s c ns n = Found crd ->
    Namespace (app_meta (cr_app crd)) = ns /\ Name (app_meta (cr_app crd)) = n;
  patch_sent c d s r s' : patch_Apply c d s = (r, s') ->
    sent s' = sent s ++ [(cluster_of c, Applied d)] \/ is_ok r = false /\ sent s' = sent s;
  update_sent c crd s r s' : update_AppCR c crd s = (r, s') ->
    sent s' = sent s ++ [(cluster_of c, Updated crd)] \/ is_ok r = false /\ sent s' = sent s;
  upsert_sent k s r s' : UpsertK8sCRD k s = (r, s') -> sent s' = sent s;
  uuid_sent s id s' : newUUID s = (id, s') -> sent s' = sent s;
  event_sent e s r s' : InsertProjectEvent e s = (r, s') -> sent s' = sent s;
  maintenance_stored enabled msg who s st s' :
    store_UpdateMaintenance enabled msg who s = (Ok st, s') ->
    load_Maintenance s' = Ok st /\ m_Enabled st = enabled /\ m_Message st = msg /\
    m_UpdatedBy st = who;
}.

(** ** The intended effect of an operation *)

(** The change of the Deployment. *)
Definition mutation (op : app_op) (d : SvcDeployment) : result string SvcDeployment :=
  match op with
  | OpScale _ n => mutate_scale n d
  | OpImage _ image => mutate_image (TrimSpace image) d
  | OpRestart ts => mutate_restart ts d
  | OpAttachConfigMap name keys prefix =>
      mutate_first "app has no containers to attach configmap" (fun c =>
        AttachConfigMapEnv c (TrimSpace name) (normalizeAttachmentKeys keys) (TrimSpace prefix)) d
  | OpDetachConfigMap name =>
      mutate_first "app has no containers to detach configmap"
        (fun c => DetachConfigMapEnv c (TrimSpace name)) d
  | OpAttachSecret name keys prefix =>
      mutate_first "app has no containers to attach secret" (fun c =>
        AttachSecretEnv c (TrimSpace name) (normalizeAttachmentKeys keys) (TrimSpace prefix)) d
  | OpDetachSecret name =>
      mutate_first "app has no containers to detach secret"
        (fun c => DetachSecretEnv c (TrimSpace name)) d
  end.

(** The change of the custom resource and the version it asks for. *)
Definition crd_edit (op : app_op) : option (string * (AppCR -> AppCR)) :=
  match op with
  | OpScale rv n => Some (rv, set_cr_Replicas n)
  | OpImage rv image => Some (rv, set_cr_Image (TrimSpace image))
  | _ => None
  end.

(** The operations that maintenance mode stops. *)
Definition gated (op : app_op) : bool :=
  match op with OpScale _ _ | OpImage _ _ | OpRestart _ => true | _ => false end.

(** [d0] is [d] as [apply] sends it: without managed fields and with a kind. *)
Definition as_applied (d d0 : SvcDeployment) : Prop :=
  d_GVK d0 <> None /\ d0 = set_GVK (set_ManagedFields d []) (d_GVK d0).

Section Effects.
Context {S C : Type} `{laws : AppOpsLaws S C}.

Definition owned (s : S) (projectID appID : string) (p : StoreProject) (a : StoreApp) : Prop :=
  store_GetProject s projectID = Ok p /\ store_GetApp s appID = Ok a /\ a_ProjectID a = projectID.

(** The Deployment an operation starts from. *)
Definition current (s : S) (c : C) (p : StoreProject) (a : StoreApp) (d : SvcDeployment) : Prop :=
  match get_SvcDeployment s c (p_Namespace p) (kubeName a) with
  | Found d' => d = d'
  | NotFound => d = blank_deployment (p_Namespace p) (kubeName a)
  | GetFailed _ => False
  end.

Inductive deployment_effect (s : S) (projectID appID : string)
    (mutate : SvcDeployment -> result string SvcDeployment) : string * sent_obj -> Prop :=
| effect_applied p a c d d' d0 :
    owned s projectID appID p a -> cluster_of c = p_ClusterID p ->
    current s c p a d -> mutate d = Ok d' -> as_applied d' d0 ->
    deployment_effect s projectID appID mutate (p_ClusterID p, Applied d0).

Inductive crd_effect (s : S) (projectID appID resourceVersion : string)
    (edit : AppCR -> AppCR) : string * sent_obj -> Prop :=
| effect_updated p a c crd :
    owned s projectID appID p a -> cluster_of c = p_ClusterID p ->
    get_AppCR s c (p_Namespace p) (kubeName a) = Found crd ->
    cr_ResourceVersion crd = resourceVersion -> TrimSpace resourceVersion <> "" ->
    crd_effect s projectID appID resourceVersion edit (p_ClusterID p, Updated (edit crd)).

Definition crd_absent (s : S) (projectID appID : string) : Prop :=
  exists p a c, owned s projectID appID p a /\ cluster_of c = p_ClusterID p /\
    get_AppCR s c (p_Namespace p) (kubeName a) = NotFound.

(** An operation edits the custom resource when there is one and it looks for it, the
    Deployment otherwise. *)
Definition op_effect (s : S) (projectID appID : string) (op : app_op) (e : string * sent_obj) : Prop :=
  match crd_edit op with
  | Some (rv, edit) =>
      crd_effect s projectID appID rv edit e \/
      crd_absent s projectID appID /\ deployment_effect s projectID appID (mutation op) e
  | None => deployment_effect s projectID appID (mutation op) e
  end.

(** One object sent, as intended; or an error with nothing sent. *)
Definition sends {A} (P : string * sent_obj -> Prop) (s : S) (r : result op_error A) (s' : S) : Prop :=
  (exists e, P e /\ sent s' = sent s ++ [e]) \/ is_ok r = false /\ sent s' = sent s.

(** ** Stepping through the code *)

Lemma sends_weaken {A B} (P : string * sent_obj -> Prop) s (r : result op_error A) s1
    (r' : result op_error B) s' :
  sends P s r s1 -> sent s' = sent s1 -> (is_ok r = false -> is_ok r' = false) -> sends P s r' s'.
Proof. intros [(e & He & Hs) | [Hr Hs]] E Hok; [left; exists e | right]; rewrite E; auto. Qed.

Lemma owned_app_inv projectID appID s r s' : owned_app projectID appID s = (r, s') ->
  s' = s /\ match r with
            | Ok (p, a) => owned s projectID appID p a
            | Err _ => forall p a, ~ owned s projectID appID p a
            end.
Proof.
  unfold owned_app, owned.
  intros [(e & [-> H]%ask_inv & ->) | (p & s1 & [-> H]%ask_inv & Hk)]%io_bind_case.
  { split; [done|]. destruct (store_GetProject _ _); naive_solver. }
  apply io_bind_case in Hk as [(e & [-> Ha]%ask_inv & ->) | (a & s1 & [-> Ha]%ask_inv & Hk)].
  { split; [done|]. destruct (store_GetApp _ _); naive_solver. }
  destruct (store_GetProject s projectID) as [p0|]; [|done]. injection H as <-.
  destruct (store_GetApp s appID) as [a0|]; [|done]. injection Ha as <-.
  destruct (str_eqb (a_ProjectID a) projectID) eqn:E; cbn in Hk; injection Hk as <- <-.
  - apply str_eqb_eq in E. done.
  - apply str_eqb_neq in E. naive_solver.
Qed.

Lemma apply_sends c d s r s' : apply c d s = (r, s') ->
  (exists d0, as_applied d d0 /\ sent s' = sent s ++ [(cluster_of c, Applied d0)]) \/
  is_ok r = false /\ sent s' = sent s.
Proof.
  unfold apply, as_applied. destruct (d_GVK (set_ManagedFields d [])) as [g|] eqn:Eg.
  - intros [H|H]%patch_sent; [left | by right]. exists (set_ManagedFields d []).
    split; [|done]. rewrite Eg. split; [done|]. unfold set_GVK. destruct d; cbn in *; by subst.
  - destruct (GVKForDeployment c) as [g|e]; [|intros [= <- <-]; by right].
    intros [H|H]%patch_sent; [left | by right]. eexists. split; [|exact H]. done.
Qed.

Lemma owned_frame s s1 projectID appID p a :
  (forall i, store_GetProject s1 i = store_GetProject s i) ->
  (forall i, store_GetApp s1 i = store_GetApp s i) ->
  owned s1 projectID appID p a <-> owned s projectID appID p a.
Proof. intros H1 H2. unfold owned. by rewrite H1, H2. Qed.

Lemma updateAppDeployment_sends projectID appID mutate s r s' :
  updateAppDeployment projectID appID mutate s = (r, s') ->
  sends (deployment_effect s projectID appID mutate) s r s'.
Proof.
  unfold updateAppDeployment. intros H.
  apply io_bind_case in H as [(e & [-> _]%owned_app_inv & ->) | ([p a] & s0 & [-> Ho]%owned_app_inv & H)];
    [by right|].
  apply io_bind_case in H as [(e & (r0 & Hg & _)%lift_inv & ->) | (c & s1 & (r0 & Hg & E)%lift_inv & H)];
    [right; split; [done|]; by eapply GetOrCreate_frame|].
  destruct r0 as [c'|]; [|done]. injection E as <-.
  pose proof (GetOrCreate_client _ _ _ _ Hg) as Hc.
  apply GetOrCreate_frame in Hg as (Hs & _ & _ & Hd & _).
  apply io_bind_case in H as [(e & [-> _]%ask_inv & ->) | (d & s2 & [-> Ed]%ask_inv & H)]; [by right|].
  apply io_bind_case in H as [(e & [-> _]%ask_inv & ->) | (d' & s2 & [-> Em]%ask_inv & H)]; [by right|].
  destruct (mutate d) as [d''|] eqn:Ed'; [|done]. injection Em as ->.
  assert (current s c p a d) as Hcur.
  { unfold current. rewrite <- Hd. destruct (get_SvcDeployment s1 c _ _); naive_solver. }
  apply io_bind_case in H as [(e & (r0 & Ha & Er)%lift_inv & ->) | ([] & s2 & (r0 & Ha & Er)%lift_inv & H)].
  - apply apply_sends in Ha as [(d0 & Hd0 & Ha) | [_ Ha]]; [left | right; by rewrite Ha].
    eexists. split; [by econstructor|]. by rewrite Ha, Hs, Hc.
  - injection H as <- <-. destruct r0 as [[]|]; [|done].
    apply apply_sends in Ha as [(d0 & Hd0 & Ha) | [Hf _]]; [left | done].
    eexists. split; [by econstructor|]. by rewrite Ha, Hs, Hc.
Qed.

Lemma mirror_ok p a crd s r s' : mirrorAppCRD p a crd s = (r, s') -> r = Ok tt /\ sent s' = sent s.
Proof.
  unfold mirrorAppCRD. destruct (UpsertK8sCRD _ s) as [r0 s1] eqn:E. intros [= <- <-].
  split; [done|]. by eapply upsert_sent.
Qed.

Lemma edit_crd_sends p a c rv edit crd s r s' :
  edit_crd p a c rv edit crd s = (r, s') ->
  sends (fun e => e = (cluster_of c, Updated (edit crd)) /\ cr_ResourceVersion crd = rv /\
                  TrimSpace rv <> "") s r s'.
Proof.
  unfold edit_crd. case_match eqn:Et; [intros [= <- <-]; by right|].
  case_match eqn:Ev; [intros [= <- <-]; by right|]. breflect. apply str_eqb_eq in Ev. intros H.
  apply io_bind_case in H as [(e & (r0 & Hu & E)%lift_inv & ->) | (crd' & s1 & (r0 & Hu & E)%lift_inv & H)].
  - apply update_sent in Hu as [Hu | [_ Hu]]; [left | by right].
    eexists. split; [|exact Hu]. auto.
  - destruct r0; [|done]. apply update_sent in Hu as [Hu | [Hf _]]; [|done].
    apply io_bind_case in H as [(e & [Hm _]%mirror_ok & _) | ([] & s2 & [_ Hm]%mirror_ok & H)]; [done|].
    injection H as <- <-. left. rewrite Hm. eexists. split; [|exact Hu]. auto.
Qed.

Lemma deployment_effect_frame s s1 projectID appID mutate e :
  (forall i, store_GetProject s1 i = store_GetProject s i) ->
  (forall i, store_GetApp s1 i = store_GetApp s i) ->
  (forall (c : C) ns n, get_SvcDeployment s1 c ns n = get_SvcDeployment s c ns n) ->
  deployment_effect s1 projectID appID mutate e -> deployment_effect s projectID appID mutate e.
Proof.
  intros H1 H2 H3 [p a c d d' d0 Ho Hc Hd Hm Ha]. apply (effect_applied _ _ _ _ p a c d d'); auto.
  - by apply (owned_frame s s1).
  - unfold current in *. by rewrite <- H3.
Qed.

Lemma edit_app_sends projectID appID rv edit mutate s r s' :
  edit_app projectID appID rv edit mutate s = (r, s') ->
  sends (fun e => crd_effect s projectID appID rv edit e \/
    crd_absent s projectID appID /\ deployment_effect s projectID appID mutate e) s r s'.
Proof.
  unfold edit_app. intros H.
  apply io_bind_case in H as [(e & [-> _]%owned_app_inv & ->) | ([p a] & s0 & [-> Ho]%owned_app_inv & H)];
    [by right|].
  apply io_bind_case in H as [(e & (r0 & Hg & _)%lift_inv & ->) | (c & s1 & (r0 & Hg & E)%lift_inv & H)];
    [right; split; [done|]; by eapply GetOrCreate_frame|].
  destruct r0 as [c'|]; [|done]. injection E as <-.
  pose proof (GetOrCreate_client _ _ _ _ Hg) as Hc.
  apply GetOrCreate_frame in Hg as (Hs & Hp & Ha & Hd & Hr).
  apply io_bind_case in H as [(e & [_ E]%ask_inv & _) | (f & s2 & [-> E]%ask_inv & H)]; [done|].
  injection E as ->. unfold loadAppCRD in H.
  destruct (get_AppCR s1 c (p_Namespace p) (kubeName a)) as [crd| |err] eqn:Ef.
  - apply edit_crd_sends in H as [(e & (-> & Hv & Ht) & H) | [Hf H]]; [left | right; by rewrite H, Hs].
    eexists. split; [left|by rewrite H, Hs, Hc]. econstructor; eauto. by rewrite <- Hr.
  - apply updateAppDeployment_sends in H as [(e & He & H) | [Hf H]]; [left | right; by rewrite H, Hs].
    exists e. split; [right|by rewrite H, Hs]. split; [|by eapply deployment_effect_frame].
    exists p, a, c. by rewrite <- Hr.
  - injection H as <- <-. by right.
Qed.

Context (cfg : option EventConfig) (actor : string).

Lemma emit_sent ev s r s' : emit cfg actor ev s = (r, s') -> sent s' = sent s.
Proof.
  assert (forall r0 s1, AppendProjectEvent cfg actor ev s = (r0, s1) -> sent s1 = sent s) as Ha.
  { unfold AppendProjectEvent. intros r0 s1. cbv zeta. repeat (case_match; [by intros [= _ <-]|]).
    destruct (newUUID s) as [id s2] eqn:Eu. apply uuid_sent in Eu.
    repeat (case_match; [by intros [= _ <-]|]).
    destruct (InsertProjectEvent _ s2) as [[st|err] s3] eqn:Ei; apply event_sent in Ei;
      intros [= _ <-]; by rewrite Ei. }
  unfold emit. intros [(e & (r0 & H & _)%lift_inv & _) | (x & s1 & (r0 & H & _)%lift_inv & [= _ <-])]%io_bind_case;
    by eapply Ha.
Qed.

(** A body that sends, followed by the event. *)
Lemma sends_emit {A} (P : string * sent_obj -> Prop) (m : io S op_error A) (ev : A -> EventInput) s r s' :
  (forall r0 s1, m s = (r0, s1) -> sends P s r0 s1) ->
  (x ← m; emit cfg actor (ev x)) s = (r, s') -> sends P s r s'.
Proof.
  intros Hm [(e & H & ->) | (x & s1 & H & He)]%io_bind_case; apply Hm in H; [|].
  - destruct H as [H | [_ H]]; [by left | by right].
  - eapply sends_weaken; [exact H | by eapply emit_sent | done].
Qed.

Lemma gate_sends {A} (P : string * sent_obj -> Prop) (m : io S op_error A) s r s' :
  (forall r0 s1, m s = (r0, s1) -> sends P s r0 s1) ->
  (_ ← ensureMaintenanceAllows; m) s = (r, s') -> sends P s r s'.
Proof.
  intros Hm [(e & [-> _]%ensure_inv & ->) | (x & s1 & [-> _]%ensure_inv & H)]%io_bind_case; [by right|].
  by apply Hm.
Qed.

Lemma run_op_sends projectID appID op s r s' :
  run_op cfg actor projectID appID op s = (r, s') ->
  sends (op_effect s projectID appID op) s r s'.
Proof.
  assert (forall mutate ev r s',
    (pa ← updateAppDeployment projectID appID mutate; let '(p, a) := pa in emit cfg actor (ev p a)) s = (r, s') ->
    sends (deployment_effect s projectID appID mutate) s r s') as Hup.
  { intros mutate ev r1 s1 H. apply (sends_emit _ (updateAppDeployment projectID appID mutate)
      (fun pa => ev pa.1 pa.2)); [intros ??; apply updateAppDeployment_sends|].
    rewrite <- H. unfold mbind, io_bind. by destruct (updateAppDeployment _ _ _ s) as [[[]|] ?]. }
  assert (forall rv edit mutate ev r s',
    (pa ← edit_app projectID appID rv edit mutate; let '(p, a) := pa in emit cfg actor (ev p a)) s = (r, s') ->
    sends (fun e => crd_effect s projectID appID rv edit e \/
      crd_absent s projectID appID /\ deployment_effect s projectID appID mutate e) s r s') as Hed.
  { intros rv edit mutate ev r1 s1 H. apply (sends_emit _ (edit_app projectID appID rv edit mutate)
      (fun pa => ev pa.1 pa.2)); [intros ??; apply edit_app_sends|].
    rewrite <- H. unfold mbind, io_bind. by destruct (edit_app _ _ _ _ _ s) as [[[]|] ?]. }
  destruct op as [rv n|rv image|ts|name keys prefix|name|name keys prefix|name]; cbn [run_op];
    unfold op_effect; cbn [crd_edit].
  - apply gate_sends. intros r0 s1. apply (Hed rv _ _ (fun p a => _)).
  - apply gate_sends. intros r0 s1. cbv zeta. destruct (str_eqb (TrimSpace image) ""); [intros [= <- <-]; by right|].
    apply (Hed rv _ _ (fun p a => _)).
  - apply gate_sends. intros r0 s1. apply (Hup _ (fun p a => _)).
  - unfold AttachConfigMapToApp. cbv zeta. case_match; [intros [= <- <-]; by right|].
    apply (Hup _ (fun p a => _)).
  - unfold DetachConfigMapFromApp. cbv zeta. case_match; [intros [= <- <-]; by right|].
    apply (Hup _ (fun p a => _)).
  - unfold AttachSecretToApp. cbv zeta. case_match; [intros [= <- <-]; by right|].
    apply (Hup _ (fun p a => _)).
  - unfold DetachSecretFromApp. cbv zeta. case_match; [intros [= <- <-]; by right|].
    apply (Hup _ (fun p a => _)).
Qed.
End Effects.

(** ** The guarantees *)

Section Guarantees.
Context {S C : Type} `{laws : AppOpsLaws S C}.
Context (cfg : option EventConfig) (actor : string).

(** C24: an operation on a deployed application that succeeds has sent exactly one
    object: the custom resource with the edit, when the operation looks for one and finds it,
    and then only under its current, non-blank resourceVersion; otherwise the current
    Deployment (a blank one when there is none) with the operation's change.  One that fails
    has sent that object or nothing. *)
Theorem app_op_effect projectID appID op s r s' :
  run_op cfg actor projectID appID op s = (r, s') ->
  match r with
  | Ok _ => exists e, op_effect s projectID appID op e /\ sent s' = sent s ++ [e]
  | Err _ => sent s' = sent s \/ exists e, op_effect s projectID appID op e /\ sent s' = sent s ++ [e]
  end.
Proof. intros [H | [Hr H]]%run_op_sends; destruct r; naive_solver. Qed.

Lemma mutation_key op d d' : mutation op d = Ok d' ->
  d_Namespace d' = d_Namespace d /\ d_Name d' = d_Name d.
Proof.
  destruct op; cbn; unfold mutate_scale, mutate_image, mutate_restart, mutate_first;
    try (intros [= <-]; done); destruct (d_Containers d); try done; intros [= <-]; done.
Qed.

Lemma deployment_effect_key s projectID appID op e :
  deployment_effect s projectID appID (mutation op) e ->
  exists p a, owned s projectID appID p a /\ e.1 = p_ClusterID p /\
    obj_key e.2 = (p_Namespace p, kubeName a).
Proof.
  intros [p a c d d' d0 Ho Hc Hd [Hn1 Hn2]%mutation_key [_ Ha]]. exists p, a. split_and!; [done..|].
  cbn. rewrite Ha. cbn. rewrite Hn1, Hn2. unfold current in Hd.
  destruct (get_SvcDeployment _ _ _ _) eqn:E; [|by rewrite Hd | done].
  apply get_SvcDeployment_key in E as [E1 E2]. by rewrite Hd, E1, E2.
Qed.

Lemma op_effect_key s projectID appID op e : op_effect s projectID appID op e ->
  exists p a, owned s projectID appID p a /\ e.1 = p_ClusterID p /\
    obj_key e.2 = (p_Namespace p, kubeName a).
Proof.
  unfold op_effect. destruct (crd_edit op) as [[rv edit]|] eqn:Ee; [|apply deployment_effect_key].
  intros [[p a c crd Ho Hc Hg Hv Ht] | [_ H]]; [|by eapply deployment_effect_key].
  exists p, a. split_and!; [done..|]. apply get_AppCR_key in Hg as [H1 H2].
  assert (app_meta (cr_app (edit crd)) = app_meta (cr_app crd)) as Em.
  { destruct op; cbn in Ee; try done; by injection Ee as <- <-. }
  cbn. by rewrite Em, H1, H2.
Qed.

(** C25: whatever an operation sends goes to the cluster and the namespace of the
    project in the request, under the name of the application in the request, and only when
    the application belongs to the project; for an application of another project, or one
    that is not there, the operation fails and sends nothing. *)
Theorem app_ops_confined projectID appID op s r s' :
  run_op cfg actor projectID appID op s = (r, s') ->
  (forall e, e ∈ sent s' -> e ∈ sent s \/
     exists p a, store_GetProject s projectID = Ok p /\ store_GetApp s appID = Ok a /\
       a_ProjectID a = projectID /\ e.1 = p_ClusterID p /\
       obj_key e.2 = (p_Namespace p, kubeName a)) /\
  ((forall a, store_GetApp s appID = Ok a -> a_ProjectID a <> projectID) ->
     is_ok r = false /\ sent s' = sent s).
Proof.
  intros [(e & He & Hs) | [Hr Hs]]%run_op_sends; rewrite Hs; (split; [|]).
  - intros e' [H | ->%list_elem_of_singleton]%elem_of_app; [by left | right].
    apply op_effect_key in He as (p & a & (H1 & H2 & H3) & H4 & H5). eauto 10.
  - intros Hn. apply op_effect_key in He as (p & a & (H1 & H2 & H3) & _). by destruct (Hn a).
  - auto.
  - done.
Qed.

(** The message of an accepted toggle has at most 512 bytes and a
    recorded author; after switching maintenance on, scaling, changing the image and
    restarting are refused with that message and change nothing; after switching it off the
    guard passes. *)
Theorem maintenance_freezes enabled text s st s' :
  UpdateMaintenanceState actor enabled text s = (Ok st, s') ->
  len (m_Message st) <= 512 /\ m_UpdatedBy st <> "" /\
  (if enabled then
     forall projectID appID op, gated op = true ->
       run_op cfg actor projectID appID op s' = (Err (MaintenanceError (TrimSpace text)), s')
   else ensureMaintenanceAllows s' = (Ok tt, s')).
Proof.
  unfold UpdateMaintenanceState. cbv zeta. destruct (512 <? _) eqn:El; [done|].
  apply Nat.ltb_ge in El. intros (r0 & H & E)%lift_inv. destruct r0; [|done]. injection E as <-.
  apply maintenance_stored in H as (Hl & He & Hm & Hb). rewrite Hm, Hb. split; [done|]. split.
  { destruct (str_eqb (TrimSpace actor) "") eqn:Ea; [done|]. by apply str_eqb_neq. }
  assert (ensureMaintenanceAllows s' =
    (if enabled then Err (MaintenanceError (TrimSpace text)) else Ok tt, s')) as Hg.
  { unfold ensureMaintenanceAllows, mbind, io_bind, ask, lift, wrap_err. rewrite Hl, He, Hm.
    by destruct enabled. }
  destruct enabled; [|done]. intros projectID appID op Hop. destruct op; try done; cbn [run_op];
    unfold ScaleApp, UpdateAppImage, RolloutRestartApp, mbind, io_bind; by rewrite Hg.
Qed.

(** A successful image update of an application that has a custom
    resource has sent the resource with the new image; the Deployment that the operator
    derives from the resource is the same as before the update. *)
Theorem image_update_not_rolled_out projectID appID rv image s s' p a :
  store_GetProject s projectID = Ok p -> store_GetApp s appID = Ok a ->
  (forall c : C, cluster_of c = p_ClusterID p ->
     exists crd, get_AppCR s c (p_Namespace p) (kubeName a) = Found crd) ->
  UpdateAppImage cfg actor projectID appID rv image s = (Ok tt, s') ->
  exists c crd crd', get_AppCR s c (p_Namespace p) (kubeName a) = Found crd /\
    sent s' = sent s ++ [(p_ClusterID p, Updated crd')] /\
    Image (app_Spec (cr_app crd')) = TrimSpace image /\
    buildDesiredResources (cr_app crd') = buildDesiredResources (cr_app crd).
Proof.
  intros Hp Ha Hc H. apply (run_op_sends cfg actor projectID appID (OpImage rv image)) in H
    as [(e & He & Hs) | [Hf _]]; [|done].
  unfold op_effect in He. cbn [crd_edit] in He. destruct He as [He | [(p' & a' & c & Ho & Hcl & Hn) _]].
  - destruct He as [p' a' c crd (Hp' & Ha' & _) Hcl Hg _ _].
    rewrite Hp in Hp'. injection Hp' as <-. rewrite Ha in Ha'. injection Ha' as <-.
    exists c, crd, (set_cr_Image (TrimSpace image) crd). by split_and!.
  - destruct Ho as (Hp' & Ha' & _). rewrite Hp in Hp'. injection Hp' as <-.
    rewrite Ha in Ha'. injection Ha' as <-. destruct (Hc c Hcl) as [crd Hcrd]. congruence.
Qed.
End Guarantees.

(** ** A server that satisfies the laws *)

Module OpsServer.
Record state := mkState {
  st_maintenance : MaintenanceState;
  st_projects : gmap string StoreProject;
  st_apps : gmap string StoreApp;
  st_deployments : gmap (string * string * string) SvcDeployment;
  st_crds : gmap (string * string * string) AppCR;
  st_sent : list (string * sent_obj);
  st_events : list ProjectEvent;
}.

Definition set_maintenance (s : state) (m : MaintenanceState) : state :=
  mkState m (st_projects s) (st_apps s) (st_deployments s) (st_crds s) (st_sent s) (st_events s).
Definition add_event (s : state) (e : ProjectEvent) : state :=
  mkState (st_maintenance s) (st_projects s) (st_apps s) (st_deployments s) (st_crds s) (st_sent s)
    (st_events s ++ [e]).

(** Objects are stored under their own key. *)
Definition norm_dep (ns n : string) (d : SvcDeployment) : SvcDeployment :=
  mkSvcDeployment (d_GVK d) ns n (d_Annotations d) (d_ManagedFields d) (d_Replicas d) (d_Containers d).
Definition norm_crd (ns n : string) (x : AppCR) : AppCR :=
  let m := app_meta (cr_app x) in
  mkAppCR (mkApp (mkMeta n ns (Labels m) (Annotations m) (Generation m)) (app_Spec (cr_app x))
      (app_Status (cr_app x)))
    (cr_UID x) (cr_ResourceVersion x) (cr_Kind x) (cr_Replicas x).

#[export] Instance maintenance : MaintenanceStore state := {|
  load_Maintenance s := Ok (st_maintenance s);
  store_UpdateMaintenance enabled msg who s :=
    let m := mkMaintenance enabled msg (m_UpdatedAt (st_maintenance s) + 1)%Z who in
    (Ok m, set_maintenance s m);
|}.

#[export] Instance api : AppOpsAPI state string := {|
  ops_maintenance := maintenance;
  store_GetProject s id := match st_projects s !! id with Some p => Ok p | None => Err "no rows" end;
  store_GetApp s id := match st_apps s !! id with Some a => Ok a | None => Err "no rows" end;
  UpsertK8sCRD _ s := (Ok tt, s);
  GetOrCreate id s := (Ok id, s);
  get_SvcDeployment s c ns n := match st_deployments s !! (c, ns, n) with
    | Some d => Found (norm_dep ns n d) | None => NotFound end;
  get_AppCR s c ns n := match st_crds s !! (c, ns, n) with
    | Some x => Found (norm_crd ns n x) | None => NotFound end;
  GVKForDeployment _ := Ok "apps/v1, Kind=Deployment";
  patch_Apply c d s := (Ok tt,
    mkState (st_maintenance s) (st_projects s) (st_apps s)
      (<[(c, d_Namespace d, d_Name d) := d]> (st_deployments s)) (st_crds s)
      (st_sent s ++ [(c, Applied d)]) (st_events s));
  update_AppCR c x s := (Ok x,
    let m := app_meta (cr_app x) in
    mkState (st_maintenance s) (st_projects s) (st_apps s) (st_deployments s)
      (<[(c, Namespace m, Name m) := x]> (st_crds s)) (st_sent s ++ [(c, Updated x)]) (st_events s));
  specHash _ := "";
|}.

#[export] Instance event_store : EventStore state := {|
  newUUID s := ("id-" +:+ itoa (length (st_events s)), s);
  event_Now _ := 0%Z;
  InsertProjectEvent e s := (Ok e, add_event s e);
|}.

#[export] Instance ops_laws : AppOpsLaws state string.
Proof.
  refine {| cluster_of := fun c => c; sent := st_sent |}; cbn.
  - by intros id s c s' [= -> _].
  - by intros id s r s' [= _ <-].
  - intros s c ns n d. destruct (_ !! _); [|done]. by intros [= <-].
  - intros s c ns n x. destruct (_ !! _); [|done]. by intros [= <-].
  - intros c d s r s' [= _ <-]. by left.
  - intros c x s r s' [= _ <-]. by left.
  - by intros k s r s' [= _ <-].
  - by intros s id s' [= _ <-].
  - by intros e s r s' [= _ <-].
  - by intros enabled msg who s st s' [= <- <-].
Defined.

(** A project with one plain application and one managed through a custom resource. *)
Definition web : StoreApp := mkStoreApp "app-1" "proj-1" "web" None.
Definition api_app : StoreApp := mkStoreApp "app-2" "proj-1" "api" (Some "api-cr").
Definition proj : StoreProject := mkStoreProject "proj-1" "cluster-a" "team-ns".
Definition web_dep : SvcDeployment :=
  mkSvcDeployment None "team-ns" "web" None ["manager"] (Some 1%Z)
    [mkContainer "app" "nginx:1" [] []].
Definition api_cr : AppCR :=
  mkAppCR (mkApp (mkMeta "api-cr" "team-ns" None None 1)
      (mkAppSpec "raw" (Some (mkAppSource "ghcr.io/acme/api" "" "v1")) "" "" "" [] [] None [])
      (mkAppStatus "" "" [] 0 0 [])) "uid-1" "42" "App" None.
Definition world (on : bool) : state :=
  mkState (mkMaintenance on "upgrade" 0 "ops") {["proj-1" := proj]}
    {["app-1" := web; "app-2" := api_app]} {[("cluster-a", "team-ns", "web") := web_dep]}
    {[("cluster-a", "team-ns", "api-cr") := api_cr]} [] [].

Lemma app_op_effect_witness :
  match fst (run_op None "alice" "proj-1" "app-2" (OpScale "42" 3) (world false)) with
  | Ok _ => exists e, op_effect (world false) "proj-1" "app-2" (OpScale "42" 3) e /\
      st_sent (snd (run_op None "alice" "proj-1" "app-2" (OpScale "42" 3) (world false))) = [] ++ [e]
  | Err _ => False
  end /\
  is_ok (fst (run_op None "alice" "proj-1" "app-2" (OpScale "41" 3) (world false))) = false.
Proof.
  split; [|vm_compute; reflexivity].
  pose proof (app_op_effect (laws := ops_laws) None "alice" "proj-1" "app-2" (OpScale "42" 3) (world false) _ _
    (surjective_pairing _)) as H.
  assert (is_ok (fst (run_op None "alice" "proj-1" "app-2" (OpScale "42" 3) (world false))) = true) as E
    by (vm_compute; reflexivity).
  destruct (fst (run_op None "alice" "proj-1" "app-2" (OpScale "42" 3) (world false))); [exact H | discriminate E].
Defined.

Lemma app_ops_confined_witness :
  st_sent (snd (run_op None "alice" "proj-2" "app-1" (OpRestart "t") (world false))) = [] /\
  is_ok (fst (run_op None "alice" "proj-2" "app-1" (OpRestart "t") (world false))) = false /\
  is_ok (fst (run_op None "alice" "proj-1" "app-1" (OpRestart "t") (world false))) = true.
Proof.
  destruct (app_ops_confined (laws := ops_laws) None "alice" "proj-2" "app-1" (OpRestart "t") (world false) _ _
    (surjective_pairing _)) as [_ H].
  destruct H as [H1 H2].
  { intros a Ha. injection Ha as <-. discriminate. }
  split; [exact H2|]. split; [exact H1|]. vm_compute. reflexivity.
Defined.

Lemma maintenance_freezes_witness :
  run_op None "alice" "proj-1" "app-1" (OpScale "" 2)
    (snd (UpdateMaintenanceState "alice" true " upgrade " (world false))) =
  (Err (MaintenanceError "upgrade"), snd (UpdateMaintenanceState "alice" true " upgrade " (world false))).
Proof.
  destruct (maintenance_freezes (laws := ops_laws) None "alice" true " upgrade " (world false)
    (mkMaintenance true "upgrade" 1 "alice")
    (snd (UpdateMaintenanceState "alice" true " upgrade " (world false)))) as (_ & _ & H).
  { vm_compute. reflexivity. }
  exact (H "proj-1" "app-1" (OpScale "" 2) eq_refl).
Defined.

Lemma image_update_not_rolled_out_witness :
  exists crd crd',
    st_sent (snd (UpdateAppImage None "alice" "proj-1" "app-2" "42" "ghcr.io/acme/api:v2" (world false))) =
      [] ++ [("cluster-a", Updated crd')] /\
    Image (app_Spec (cr_app crd')) = "ghcr.io/acme/api:v2" /\
    buildDesiredResources (cr_app crd') = buildDesiredResources (cr_app crd).
Proof.
  destruct (image_update_not_rolled_out (laws := ops_laws) None "alice" "proj-1" "app-2" "42"
    "ghcr.io/acme/api:v2" (world false)
    (snd (UpdateAppImage None "alice" "proj-1" "app-2" "42" "ghcr.io/acme/api:v2" (world false)))
    proj api_app) as (c & crd & crd' & _ & H).
  - reflexivity.
  - reflexivity.
  - intros c Hc. cbn in Hc. subst c. eexists. reflexivity.
  - vm_compute. reflexivity.
  - exists crd, crd'. exact H.
Defined.

(** Maintenance does not stop attaching: no operation of that family asks for it. *)
Example attach_during_maintenance :
  let '(r, s) := run_op None "alice" "proj-1" "app-1" (OpAttachSecret "db" [] "") (world true) in
  r = Ok tt /\ length (st_sent s) = 1.
Proof. vm_compute. split; reflexivity. Qed.
End OpsServer.
