(* ===== verification/Aes.v ===== *)
(** The block cipher and the authenticated mode of the Go standard library that
    [internal/crypto/crypto.go] uses: [crypto/aes] and [cipher.NewGCM] with the standard
    nonce and tag sizes, and [crypto/sha256].  Executable, checked against published test
    vectors; the facts proved do not depend on the cipher. *)

From Stdlib Require Import Ascii NArith ZArith Lia.
From stdpp Require Import base strings list.
From S2P Require Import Prelude Utf8 Hash.

Local Open Scope Z_scope.

(** ** SHA-256 *)

Definition rotr32 (n z : Z) : Z := rotl32 (32 - n) z.

(** The constants, from their definition: the first 32 bits of the fractional parts of the cube
    roots of the first sixty-four primes, and of the square roots of the first eight. *)
Fixpoint cbrt_from (bits : nat) (n r : Z) : Z :=
  match bits with
  | O => r
  | S bits =>
      let r' := r + 2 ^ Z.of_nat bits in
      cbrt_from bits n (if r' ^ 3 <=? n then r' else r)
  end.

Definition prime (n : nat) : bool := (2 <=? n)%nat && forallb (fun d => negb (n mod d =? 0)%nat) (seq 2 (n - 2)).
Definition primes : list Z := Z.of_nat <$> List.filter prime (seq 0 312).

Definition sha256_k : list Z :=
  Eval vm_compute in (fun p => cbrt_from 40 (p * 2 ^ 96) 0 mod 2 ^ 32) <$> primes.

Definition sha256_state : Type := Z * Z * Z * Z * Z * Z * Z * Z.

Definition sha256_init : sha256_state :=
  Eval vm_compute in
    match (fun p => Z.sqrt (p * 2 ^ 64) mod 2 ^ 32) <$> take 8 primes with
    | [a; b; c; d; e; f; g; h] => (a, b, c, d, e, f, g, h)
    | _ => (0, 0, 0, 0, 0, 0, 0, 0)
    end.

(** Message schedule, most recent word first. *)
Fixpoint sha256_expand (n : nat) (w : list Z) : list Z :=
  match n with
  | O => w
  | S n =>
      let x := nth 14 w 0 in
      let y := nth 1 w 0 in
      let s0 := Z.lxor (Z.lxor (rotr32 7 x) (rotr32 18 x)) (Z.shiftr x 3) in
      let s1 := Z.lxor (Z.lxor (rotr32 17 y) (rotr32 19 y)) (Z.shiftr y 10) in
      sha256_expand n (w32 (nth 15 w 0 + s0 + nth 6 w 0 + s1) :: w)
  end.

Definition sha256_round (st : sha256_state) (kw : Z * Z) : sha256_state :=
  let '(a, b, c, d, e, f, g, h) := st in
  let s1 := Z.lxor (Z.lxor (rotr32 6 e) (rotr32 11 e)) (rotr32 25 e) in
  let ch := Z.lxor (Z.land e f) (Z.land (not32 e) g) in
  let t1 := h + s1 + ch + fst kw + snd kw in
  let s0 := Z.lxor (Z.lxor (rotr32 2 a) (rotr32 13 a)) (rotr32 22 a) in
  let maj := Z.lxor (Z.lxor (Z.land a b) (Z.land a c)) (Z.land b c) in
  (w32 (t1 + s0 + maj), a, b, c, w32 (d + t1), e, f, g).

Definition sha256_block (st : sha256_state) (block : bytes) : sha256_state :=
  let w := rev (sha256_expand 48 (rev (be_word <$> chunks 4 16 block))) in
  let '(a, b, c, d, e, f, g, h) := st in
  let '(a', b', c', d', e', f', g', h') := foldl sha256_round st (zip sha256_k w) in
  (w32 (a + a'), w32 (b + b'), w32 (c + c'), w32 (d + d'),
   w32 (e + e'), w32 (f + f'), w32 (g + g'), w32 (h + h')).

(** [sha256.Sum256] *)
Definition sha256 (m : bytes) : bytes :=
  let p := sha_pad m in
  let '(a, b, c, d, e, f, g, h) := foldl sha256_block sha256_init (chunks 64 (length p) p) in
  [a; b; c; d; e; f; g; h] ≫= be_bytes4.

Lemma sha256_length m : length (sha256 m) = 32%nat.
Proof.
  unfold sha256. by destruct (foldl _ _ _) as [[[[[[[a b] c] d] e] f] g] h].
Qed.

Lemma sha256_ok m : Forall byte_ok (sha256 m).
Proof.
  unfold sha256. destruct (foldl _ _ _) as [[[[[[[a b] c] d] e] f] g] h].
  repeat (apply Forall_cons; split); try done; unfold byte_ok; apply Z.mod_pos_bound; lia.
Qed.

Example sha256_abc : hex_encode (sha256 (string_bytes "abc")) =
  "ba7816bf8f01cfea414140de5dae2223b00361a396177a9cb410ff61f20015ad".
Proof. vm_compute. reflexivity. Qed.

(** ** AES *)

(** Multiplication by [x], and multiplication, in the field of AES. *)
Definition xtime (b : Z) : Z :=
  let b := 2 * b in if b <? 256 then b else Z.lxor b 0x11b.

Fixpoint gf_mul (n : nat) (a b : Z) : Z :=
  match n with
  | O => 0
  | S n => Z.lxor (if Z.testbit b 0 then a else 0) (gf_mul n (xtime a) (Z.shiftr b 1))
  end.

Definition gmul (a b : Z) : Z := gf_mul 8 a b.

Definition zrange (n : nat) : list Z := Z.of_nat <$> seq 0 n.

(** The S-box: the inverse in the field, then the affine map. *)
Definition gf_inv (a : Z) : Z :=
  default 0 (List.find (fun b => gmul a b =? 1) (zrange 256)).

Definition rotl8 (n b : Z) : Z := Z.lor (Z.shiftl b n mod 256) (Z.shiftr b (8 - n)).

Definition sbox_of (a : Z) : Z :=
  let b := gf_inv a in
  Z.lxor 0x63 (Z.lxor b (Z.lxor (rotl8 1 b) (Z.lxor (rotl8 2 b) (Z.lxor (rotl8 3 b) (rotl8 4 b))))).

Definition sbox_table : list Z := Eval vm_compute in sbox_of <$> zrange 256.

Definition sbox (b : Z) : Z := nth (Z.to_nat b) sbox_table 0.

Definition xor_bytes (a b : bytes) : bytes := zip_with Z.lxor a b.

(** The key schedule: the last words first; [nk] words of key. *)
Fixpoint key_words (nk n : nat) (i : nat) (rcon : Z) (w : list bytes) : list bytes :=
  match n with
  | O => w
  | S n =>
      let temp := hd [] w in
      let r := (i mod nk)%nat in
      let '(temp, rcon) :=
        if (r =? 0)%nat then
          (match sbox <$> (drop 1 temp ++ take 1 temp) with
           | b :: t => Z.lxor b rcon :: t
           | [] => []
           end, xtime rcon)
        else if (6 <? nk)%nat && (r =? 4)%nat then (sbox <$> temp, rcon)
        else (temp, rcon) in
      key_words nk n (S i) rcon (xor_bytes (nth (nk - 1) w []) temp :: w)
  end.

Definition expand_key (key : bytes) : list bytes :=
  let nk := (length key / 4)%nat in
  let rounds := (nk + 6)%nat in
  let words := rev (key_words nk (4 * (rounds + 1) - nk) nk 1 (rev (chunks 4 nk key))) in
  (fun i => concat (take 4 (drop (4 * i) words))) <$> seq 0 (rounds + 1).

Definition shift_rows (s : bytes) : bytes :=
  (fun i => nth i s 0) <$> [0;5;10;15;4;9;14;3;8;13;2;7;12;1;6;11]%nat.

Definition mix_column (c : bytes) : bytes :=
  match c with
  | [a; b; c; d] =>
      [Z.lxor (gmul a 2) (Z.lxor (gmul b 3) (Z.lxor c d));
       Z.lxor a (Z.lxor (gmul b 2) (Z.lxor (gmul c 3) d));
       Z.lxor a (Z.lxor b (Z.lxor (gmul c 2) (gmul d 3)));
       Z.lxor (gmul a 3) (Z.lxor b (Z.lxor c (gmul d 2)))]
  | _ => []
  end.

Definition mix_columns (s : bytes) : bytes := concat (mix_column <$> chunks 4 4 s).

Fixpoint aes_rounds (s : bytes) (keys : list bytes) : bytes :=
  match keys with
  | [] => s
  | [k] => xor_bytes (shift_rows (sbox <$> s)) k
  | k :: keys => aes_rounds (xor_bytes (mix_columns (shift_rows (sbox <$> s))) k) keys
  end.

(** The sixteen bytes of a 128-bit number. *)
Definition block16 (z : Z) : bytes := (fun i => Z.shiftr z (8 * (15 - i)) mod 256) <$> zrange 16.

(** One block, as a 128-bit number. *)
Definition aes_encrypt (keys : list bytes) (z : Z) : Z :=
  match keys with
  | [] => 0
  | k :: keys => be_word (aes_rounds (xor_bytes (block16 z) k) keys)
  end.

(** FIPS 197, appendix C.3 *)
Example aes256_vector :
  aes_encrypt (expand_key (zrange 32)) 0x00112233445566778899aabbccddeeff =
  0x8ea2b7ca516745bfeafc49904b496089.
Proof. vm_compute. reflexivity. Qed.

(** FIPS 197, appendix C.1 *)
Example aes128_vector :
  aes_encrypt (expand_key (zrange 16)) 0x00112233445566778899aabbccddeeff =
  0x69c4e0d86a7b0430d8cdb78070b4c55a.
Proof. vm_compute. reflexivity. Qed.

(** ** Galois/Counter mode *)

(** Multiplication in the field of GHASH (bit 127 is the coefficient of 1). *)
Fixpoint ghash_mul (n : nat) (x v : Z) (acc : Z) : Z :=
  match n with
  | O => acc
  | S n =>
      let acc := if Z.testbit x (Z.of_nat n) then Z.lxor acc v else acc in
      let v' := Z.shiftr v 1 in
      ghash_mul n x (if Z.testbit v 0 then Z.lxor v' (Z.shiftl 0xe1 120) else v') acc
  end.

(** A block of at most sixteen bytes, filled with zeros. *)
Definition ghash_block (b : bytes) : Z := be_word b * 256 ^ (16 - Z.of_nat (length b)).

Definition ghash (h : Z) (aad ct : bytes) : Z :=
  let blocks := (ghash_block <$> chunks 16 (length aad) aad)
    ++ (ghash_block <$> chunks 16 (length ct) ct)
    ++ [Z.of_nat (length aad) * 8 * 2 ^ 64 + Z.of_nat (length ct) * 8] in
  foldl (fun y b => ghash_mul 128 (Z.lxor y b) h 0) 0 blocks.

Section GCM.
Context (encrypt : Z -> Z).

Definition gcm_nonce_size : nat := 12.
Definition gcm_tag_size : nat := 16.

(** The counter block of a twelve-byte nonce; the counter is the low 32 bits. *)
Definition counter_block (nonce : bytes) (i : Z) : Z := be_word nonce * 2 ^ 32 + i mod 2 ^ 32.

Definition keystream (nonce : bytes) (n : nat) : bytes :=
  seq 0 n ≫= fun i => block16 (encrypt (counter_block nonce (Z.of_nat i + 2))).

Definition gcm_crypt (nonce data : bytes) : bytes :=
  xor_bytes data (keystream nonce (length data / 16 + 1)).

Definition gcm_tag (nonce aad ct : bytes) : bytes :=
  block16 (Z.lxor (ghash (encrypt 0) aad ct) (encrypt (counter_block nonce 1))).

(** [gcm.Seal(nil, nonce, plaintext, aad)] *)
Definition gcm_seal (nonce plaintext aad : bytes) : bytes :=
  let ct := gcm_crypt nonce plaintext in ct ++ gcm_tag nonce aad ct.

(** [gcm.Open(nil, nonce, ciphertext, aad)]; [None] is an authentication failure. *)
Definition gcm_open (nonce ciphertext aad : bytes) : option bytes :=
  if (length ciphertext <? gcm_tag_size)%nat then None
  else
    let n := (length ciphertext - gcm_tag_size)%nat in
    let ct := take n ciphertext in
    if bool_decide (drop n ciphertext = gcm_tag nonce aad ct) then Some (gcm_crypt nonce ct)
    else None.
End GCM.

(** ** Decryption undoes encryption *)

Lemma block16_length z : length (block16 z) = 16%nat.
Proof. done. Qed.

Lemma block16_ok z : Forall byte_ok (block16 z).
Proof. apply Forall_fmap, Forall_true. intros i. apply Z.mod_pos_bound. lia. Qed.

Lemma xor_bytes_length a b : (length a <= length b)%nat -> length (xor_bytes a b) = length a.
Proof. intros H. unfold xor_bytes. rewrite length_zip_with. lia. Qed.

Lemma xor_bytes_twice a b : (length a <= length b)%nat -> xor_bytes (xor_bytes a b) b = a.
Proof.
  revert b. induction a as [|x a IH]; intros [|y b] H; cbn in *; try done; [lia|].
  rewrite Z.lxor_assoc, Z.lxor_nilpotent, Z.lxor_0_r. f_equal. apply IH. lia.
Qed.

Section Proofs.
Context (encrypt : Z -> Z).

Lemma keystream_length nonce n : length (keystream encrypt nonce n) = (16 * n)%nat.
Proof.
  unfold keystream. assert (forall i f, (forall j, length (f j) = 16%nat) ->
    length (seq i n ≫= (f : nat -> bytes)) = (16 * n)%nat) as H; [|by apply H].
  induction n as [|n IH]; intros i f Hf; [done|].
  cbn [seq]. rewrite bind_cons, length_app, Hf, IH by done. lia.
Qed.

Lemma keystream_enough nonce (data : bytes) :
  (length data <= length (keystream encrypt nonce (length data / 16 + 1)))%nat.
Proof.
  rewrite keystream_length. pose proof (Nat.div_mod_eq (length data) 16).
  pose proof (Nat.mod_upper_bound (length data) 16 ltac:(lia)). lia.
Qed.

Lemma gcm_crypt_length nonce data : length (gcm_crypt encrypt nonce data) = length data.
Proof. apply xor_bytes_length, keystream_enough. Qed.

Lemma gcm_crypt_twice nonce data : gcm_crypt encrypt nonce (gcm_crypt encrypt nonce data) = data.
Proof.
  unfold gcm_crypt at 1. rewrite gcm_crypt_length. apply xor_bytes_twice, keystream_enough.
Qed.

Lemma gcm_seal_length nonce plaintext aad :
  length (gcm_seal encrypt nonce plaintext aad) = (length plaintext + gcm_tag_size)%nat.
Proof. unfold gcm_seal. by rewrite length_app, gcm_crypt_length. Qed.

Lemma gcm_open_seal nonce plaintext aad :
  gcm_open encrypt nonce (gcm_seal encrypt nonce plaintext aad) aad = Some plaintext.
Proof.
  unfold gcm_open. rewrite gcm_seal_length.
  destruct (_ <? _)%nat eqn:E; [apply Nat.ltb_lt in E; lia|]. clear E.
  replace (length plaintext + gcm_tag_size - gcm_tag_size)%nat with (length plaintext) by lia.
  unfold gcm_seal. rewrite <- (gcm_crypt_length nonce plaintext).
  rewrite take_app_length, drop_app_length, bool_decide_true by done. by rewrite gcm_crypt_twice.
Qed.

(** What opens was sealed: the tag is the one of the text returned. *)
Lemma gcm_open_inv nonce ciphertext aad p :
  gcm_open encrypt nonce ciphertext aad = Some p -> ciphertext = gcm_seal encrypt nonce p aad.
Proof.
  unfold gcm_open, gcm_seal. destruct (_ <? _)%nat eqn:E; [done|]. apply Nat.ltb_ge in E.
  case_bool_decide as Ht; [|done]. intros [= <-]. rewrite gcm_crypt_twice, <- Ht.
  by rewrite take_drop.
Qed.
End Proofs.
