(* ===== verification/Crypto.v ===== *)
(** Encryption at rest: [internal/crypto/crypto.go], with [encoding/base64] and
    [encoding/hex] of the Go standard library. *)

From Stdlib Require Import Ascii NArith ZArith Lia.
From stdpp Require Import base strings list.
From S2P Require Import Prelude Utf8 Hash Aes.

Local Open Scope Z_scope.

#[local] Ltac Zify.zify_post_hook ::= Z.to_euclidean_division_equations.

(** ** base64.StdEncoding *)

Definition b64_digit (d : Z) : ascii :=
  byte_of_Z (if d <? 26 then 65 + d else if d <? 52 then 71 + d else if d <? 62 then d - 4
             else if d =? 62 then 43 else 47).

Definition b64_val (c : ascii) : option Z :=
  let z := bz c in
  if in_range 65 90 z then Some (z - 65)
  else if in_range 97 122 z then Some (z - 71)
  else if in_range 48 57 z then Some (z + 4)
  else if z =? 43 then Some 62
  else if z =? 47 then Some 63
  else None.

(** [EncodeToString] *)
Fixpoint b64_chars (l : bytes) : list ascii :=
  match l with
  | a :: b :: c :: l =>
      b64_digit (a / 4) :: b64_digit (a mod 4 * 16 + b / 16) ::
      b64_digit (b mod 16 * 4 + c / 64) :: b64_digit (c mod 64) :: b64_chars l
  | [a; b] =>
      [b64_digit (a / 4); b64_digit (a mod 4 * 16 + b / 16); b64_digit (b mod 16 * 4); "="%char]
  | [a] => [b64_digit (a / 4); b64_digit (a mod 4 * 16); "="%char; "="%char]
  | [] => []
  end.

Definition b64_encode (l : bytes) : string := of_chars (b64_chars l).

(** [DecodeString]: line breaks are skipped; [None] is a CorruptInputError. *)
Fixpoint b64_quanta (l : list ascii) : option bytes :=
  match l with
  | [] => Some []
  | c0 :: c1 :: c2 :: c3 :: l =>
      d0 ← b64_val c0;
      d1 ← b64_val c1;
      if bool_decide (c2 = "="%char) then
        if bool_decide (c3 = "="%char /\ l = []) then Some [d0 * 4 + d1 / 16] else None
      else
        d2 ← b64_val c2;
        if bool_decide (c3 = "="%char) then
          if bool_decide (l = []) then Some [d0 * 4 + d1 / 16; d1 mod 16 * 16 + d2 / 4] else None
        else
          d3 ← b64_val c3;
          rest ← b64_quanta l;
          Some (d0 * 4 + d1 / 16 :: d1 mod 16 * 16 + d2 / 4 :: d2 mod 4 * 64 + d3 :: rest)
  | _ => None
  end.

Definition b64_decode (s : string) : option bytes :=
  b64_quanta (List.filter (fun c => negb ((bz c =? 10) || (bz c =? 13))) (chars s)).

(** ** hex.DecodeString *)

Definition hex_val (c : ascii) : option Z :=
  let z := bz c in
  if in_range 48 57 z then Some (z - 48)
  else if in_range 97 102 z then Some (z - 87)
  else if in_range 65 70 z then Some (z - 55)
  else None.

Fixpoint hex_pairs (l : list ascii) : option bytes :=
  match l with
  | [] => Some []
  | c0 :: c1 :: l =>
      d0 ← hex_val c0;
      d1 ← hex_val c1;
      rest ← hex_pairs l;
      Some (d0 * 16 + d1 :: rest)
  | [_] => None
  end.

Definition hex_decode (s : string) : option bytes := hex_pairs (chars s).

(** Test case 4 of the GCM specification. *)
Example gcm_vector :
  (key ← hex_decode "feffe9928665731c6d6a8f9467308308";
   nonce ← hex_decode "cafebabefacedbaddecaf888";
   aad ← hex_decode "feedfacedeadbeeffeedfacedeadbeefabaddad2";
   pt ← hex_decode "d9313225f88406e5a55909c5aff5269a86a7a9531534f7da2e4c303d8a318a721c3c0c95956809532fcf0e2449a6b525b16aedf5aa0de657ba637b39";
   Some (hex_encode (gcm_seal (aes_encrypt (expand_key key)) nonce pt aad))) =
  Some "42831ec2217774244b7221b784d0d49ce3aa212f2c02a4e035c17e2329aca12e21d514b25466931c7d8f6a5aac84aa051ba30b396a0aac973d58e0915bc94fbc3221a5db94fae95ae7121a47".
Proof. vm_compute. reflexivity. Qed.

(** ** crypto.go *)

Definition key_of_bytes (b : bytes) : bytes :=
  if (32 <=? length b)%nat then take 32 b else sha256 b.

Definition DeriveKey (s : string) : bytes :=
  match b64_decode s with
  | Some b => key_of_bytes b
  | None =>
      match hex_decode s with
      | Some b => key_of_bytes b
      | None => sha256 (string_bytes s)
      end
  end.

(** [aes.NewCipher]: the block function, or a KeySizeError. *)
Definition NewCipher (key : bytes) : result string (Z -> Z) :=
  if bool_decide (length key ∈ [16; 24; 32]%nat) then Ok (aes_encrypt (expand_key key))
  else Err "crypto/aes: invalid key size".

Definition kcfg_v1 : bytes := string_bytes "kcfg-v1".

(** [rand] is what reading the nonce from [rand.Reader] gives. *)
Definition EncryptAESGCM (rand : result string bytes) (plaintext key : bytes) : result string bytes :=
  block ← NewCipher key;
  nonce ← rand;
  Ok (nonce ++ gcm_seal block nonce plaintext kcfg_v1).

Definition DecryptAESGCM (data key : bytes) : result string bytes :=
  block ← NewCipher key;
  if (length data <? gcm_nonce_size + gcm_tag_size)%nat then Err "ciphertext too short"
  else
    let nonce := take gcm_nonce_size data in
    let ct := drop gcm_nonce_size data in
    match gcm_open block nonce ct kcfg_v1 with
    | Some pt => Ok pt
    | None => Err "cipher: message authentication failed"
    end.

(** ** Keys *)

Lemma key_of_bytes_length b : length (key_of_bytes b) = 32%nat.
Proof.
  unfold key_of_bytes. destruct (32 <=? length b)%nat eqn:E; [|apply sha256_length].
  apply Nat.leb_le in E. rewrite length_take. lia.
Qed.

(** Every setting of the key gives an AES-256 key. *)
Lemma DeriveKey_length s : length (DeriveKey s) = 32%nat.
Proof.
  unfold DeriveKey. destruct (b64_decode s); [apply key_of_bytes_length|].
  destruct (hex_decode s); [apply key_of_bytes_length | apply sha256_length].
Qed.

Lemma NewCipher_derived s : NewCipher (DeriveKey s) = Ok (aes_encrypt (expand_key (DeriveKey s))).
Proof. unfold NewCipher. rewrite DeriveKey_length. done. Qed.

(** ** base64 round trip *)

(** A property of the first numbers, checked one by one. *)
Lemma zrange_check (f : Z -> bool) n d :
  forallb f (zrange n) = true -> 0 <= d < Z.of_nat n -> f d = true.
Proof.
  intros H Hd. rewrite forallb_forall in H. apply H. apply list_elem_of_In. unfold zrange.
  apply list_elem_of_fmap. exists (Z.to_nat d). split; [lia|]. apply elem_of_seq. lia.
Qed.

Lemma b64_val_digit d : 0 <= d < 64 -> b64_val (b64_digit d) = Some d.
Proof.
  intros H. pose proof (zrange_check (fun d => match b64_val (b64_digit d) with
    | Some e => d =? e | None => false end) 64 d eq_refl H) as Hc. cbv beta in Hc.
  destruct (b64_val _); [|done]. by apply Z.eqb_eq in Hc as ->.
Qed.

Lemma b64_digit_plain d : 0 <= d < 64 ->
  bool_decide (b64_digit d = "="%char) = false /\ (bz (b64_digit d) =? 10) || (bz (b64_digit d) =? 13) = false.
Proof.
  intros H. pose proof (zrange_check (fun d => negb (bool_decide (b64_digit d = "="%char)) &&
    negb ((bz (b64_digit d) =? 10) || (bz (b64_digit d) =? 13))) 64 d eq_refl H) as Hc.
  apply andb_true_iff in Hc as [H1 H2]. by rewrite negb_true_iff in H1, H2.
Qed.

Lemma b64_digit_pad d : 0 <= d < 64 -> bool_decide (b64_digit d = "="%char) = false.
Proof. apply b64_digit_plain. Qed.

Lemma b64_digit_line d : 0 <= d < 64 -> (bz (b64_digit d) =? 10) || (bz (b64_digit d) =? 13) = false.
Proof. apply b64_digit_plain. Qed.

(** Induction by groups of three. *)
Lemma three_ind {A} (P : list A -> Prop) :
  P [] -> (forall a, P [a]) -> (forall a b, P [a; b]) ->
  (forall a b c l, P l -> P (a :: b :: c :: l)) -> forall l, P l.
Proof.
  intros H0 H1 H2 H3. assert (forall l, P l /\ (forall a, P (a :: l)) /\ (forall a b, P (a :: b :: l))) as H.
  { induction l as [|x l (IH1 & IH2 & IH3)]; split_and!; auto. }
  intros l. apply H.
Qed.

Lemma b64_quanta_chars l : Forall byte_ok l -> b64_quanta (b64_chars l) = Some l.
Proof.
  induction l as [|a|a b|a b c l IH] using three_ind; [done|..]; intros Hl;
    decompose_Forall_hyps; unfold byte_ok in *; cbn [b64_chars b64_quanta].
  - rewrite !b64_val_digit by lia. cbn. repeat f_equal. lia.
  - rewrite !b64_val_digit by lia. cbn [mbind option_bind]. rewrite b64_digit_pad by lia.
    rewrite ?b64_val_digit by lia. cbn. repeat f_equal; lia.
  - rewrite !b64_val_digit by lia. cbn [mbind option_bind].
    rewrite ?b64_digit_pad, ?b64_val_digit by lia.
    cbn [mbind option_bind]. rewrite IH by done. cbn. repeat f_equal; lia.
Qed.

Lemma b64_chars_plain l : Forall byte_ok l ->
  List.filter (fun c => negb ((bz c =? 10) || (bz c =? 13))) (b64_chars l) = b64_chars l.
Proof.
  induction l as [|a|a b|a b c l IH] using three_ind; [done|..]; intros Hl;
    decompose_Forall_hyps; unfold byte_ok in *; cbn [b64_chars List.filter];
    rewrite !b64_digit_line by lia; cbn [negb]; [done..|].
  by rewrite IH.
Qed.

Lemma b64_decode_encode l : Forall byte_ok l -> b64_decode (b64_encode l) = Some l.
Proof.
  intros Hl. unfold b64_decode, b64_encode. rewrite chars_of_chars, b64_chars_plain by done.
  by apply b64_quanta_chars.
Qed.

(** ** Encryption round trip *)

Lemma DecryptAESGCM_open key block nonce c :
  NewCipher key = Ok block -> length nonce = gcm_nonce_size -> (gcm_tag_size <= length c)%nat ->
  DecryptAESGCM (nonce ++ c) key =
  match gcm_open block nonce c kcfg_v1 with
  | Some pt => Ok pt
  | None => Err "cipher: message authentication failed"
  end.
Proof.
  intros Hk Hn Hc. unfold DecryptAESGCM. rewrite Hk. cbn [mbind result_bind].
  rewrite length_app, Hn. destruct (_ <? _)%nat eqn:E; [apply Nat.ltb_lt in E; lia|].
  by rewrite take_app_length', drop_app_length' by done.
Qed.

(** What was encrypted with a twelve-byte nonce is read back. *)
Lemma decrypt_encrypt setting rand plaintext c :
  (forall nonce, rand = Ok nonce -> length nonce = gcm_nonce_size) ->
  EncryptAESGCM rand plaintext (DeriveKey setting) = Ok c -> DecryptAESGCM c (DeriveKey setting) = Ok plaintext.
Proof.
  intros Hr. unfold EncryptAESGCM. rewrite NewCipher_derived. cbn [mbind result_bind].
  destruct rand as [nonce|e]; [|done]. intros [= <-].
  rewrite (DecryptAESGCM_open _ _ _ _ (NewCipher_derived setting)), gcm_open_seal; [done|by apply Hr|].
  rewrite gcm_seal_length. lia.
Qed.

(** C26: with the key derived from any setting and any twelve random bytes,
    encryption succeeds, its output is 28 bytes longer than the text, and decryption with the
    key of the same setting gives the text back; conversely, whatever decrypts is the output
    of encrypting the result with the nonce it carries, so a change to a stored value is
    either an authentication failure or another output of the encryption. *)
Theorem crypto_roundtrip setting plaintext nonce :
  length nonce = gcm_nonce_size ->
  (exists c, EncryptAESGCM (Ok nonce) plaintext (DeriveKey setting) = Ok c /\
     length c = (length plaintext + 28)%nat /\
     DecryptAESGCM c (DeriveKey setting) = Ok plaintext) /\
  (forall c p, DecryptAESGCM c (DeriveKey setting) = Ok p ->
     EncryptAESGCM (Ok (take gcm_nonce_size c)) p (DeriveKey setting) = Ok c).
Proof.
  intros Hn. unfold EncryptAESGCM. rewrite NewCipher_derived. cbn [mbind result_bind]. split.
  - eexists. split; [done|]. split.
    { rewrite length_app, Hn, gcm_seal_length. unfold gcm_nonce_size, gcm_tag_size. lia. }
    apply (decrypt_encrypt setting (Ok nonce)); [by intros n [= <-]|].
    unfold EncryptAESGCM. by rewrite NewCipher_derived.
  - intros c p. unfold DecryptAESGCM. rewrite NewCipher_derived. cbn [mbind result_bind].
    destruct (_ <? _)%nat; [done|]. destruct (gcm_open _ _ _ _) as [pt|] eqn:E; [|done].
    intros [= <-]. apply gcm_open_inv in E. by rewrite <- E, take_drop.
Qed.

Lemma crypto_roundtrip_witness :
  exists c, EncryptAESGCM (Ok (zrange 12)) (string_bytes "kubeconfig") (DeriveKey "secret") = Ok c /\
    length c = 38%nat /\ DecryptAESGCM c (DeriveKey "secret") = Ok (string_bytes "kubeconfig").
Proof.
  exact (proj1 (crypto_roundtrip "secret" (string_bytes "kubeconfig") (zrange 12) eq_refl)).
Defined.

(** ** Hexadecimal keys *)

Definition is_hex (c : ascii) : Prop := exists d, hex_val c = Some d.

Lemma hex_is_b64 c : is_hex c ->
  (exists d, b64_val c = Some d) /\ bool_decide (c = "="%char) = false /\ (bz c =? 10) || (bz c =? 13) = false.
Proof. intros [d Hd]. byte_cases c; vm_compute in Hd; try discriminate; split_and!; eauto; by eexists. Qed.

Lemma hex_quanta l : Forall is_hex l -> (length l mod 4 = 0)%nat ->
  exists b, b64_quanta l = Some b /\ length b = (length l / 4 * 3)%nat.
Proof.
  remember (length l / 4)%nat as n eqn:En. revert l En.
  induction n as [|n IH]; intros l En Hl Hm; pose proof (Nat.div_mod_eq (length l) 4) as Hd.
  - destruct l; [by exists []|]. cbn [length] in *. lia.
  - destruct l as [|c0 [|c1 [|c2 [|c3 l]]]]; cbn [length] in *; try lia.
    replace (S (S (S (S (length l))))) with (length l + 1 * 4)%nat in * by lia.
    rewrite Nat.Div0.mod_add in Hm. rewrite Nat.div_add in En by lia.
    decompose_Forall_hyps.
    repeat match goal with H : is_hex ?c |- _ => apply hex_is_b64 in H as ([? ?] & ? & ?) end.
    destruct (IH l) as (b & Hb & Hlen); [lia|done|done|].
    cbn [b64_quanta]. repeat match goal with H : b64_val _ = _ |- _ => rewrite H; clear H end.
    cbn [mbind option_bind]. repeat match goal with H : bool_decide _ = _ |- _ => rewrite H; clear H end.
    rewrite Hb. eexists. split; [done|]. cbn. lia.
Qed.

(** A key written as hexadecimal digits whose number is a multiple of
    four, such as the 64 digits of a 32-byte key, is never read as hexadecimal: it is decoded
    as base64. *)
Theorem hex_key_read_as_base64 s :
  Forall is_hex (chars s) -> (len s mod 4 = 0)%nat ->
  exists b, b64_decode s = Some b /\ length b = (len s / 4 * 3)%nat /\ DeriveKey s = key_of_bytes b.
Proof.
  intros Hh Hm. unfold DeriveKey, b64_decode.
  replace (List.filter _ (chars s)) with (chars s).
  - destruct (hex_quanta (chars s) Hh Hm) as (b & Hb & Hl). rewrite Hb. eauto.
  - symmetry. clear Hm. induction Hh as [|c l Hc _ IH]; [done|]. cbn [List.filter].
    apply hex_is_b64 in Hc as (_ & _ & ->). cbn [negb]. by f_equal.
Qed.

Lemma hex_key_read_as_base64_witness :
  (exists b, b64_decode "deadbeef" = Some b /\ length b = 6%nat /\ DeriveKey "deadbeef" = key_of_bytes b) /\
  hex_decode "deadbeef" = Some [222; 173; 190; 239].
Proof.
  split; [|vm_compute; reflexivity]. apply (hex_key_read_as_base64 "deadbeef"); [|reflexivity].
  repeat constructor; eexists; vm_compute; reflexivity.
Defined.
