(* ===== verification/Json.v ===== *)
(** [encoding/json] of the Go standard library for maps from strings to strings, and
    [internal/service/quota.go], which stores quota overrides in that form.

    Text is read as a sequence of UTF-8 pieces: a complete sequence, or a byte that is not
    part of one (which the decoder replaces by U+FFFD). *)

From Stdlib Require Import Ascii NArith ZArith Lia.
From stdpp Require Import base gmap strings list sorting.
From S2P Require Import Prelude Utf8 GoStrings Hash.

Local Open Scope Z_scope.

(** ** UTF-8 pieces *)

Inductive piece := Good (l : list ascii) | Bad (c : ascii).

Fixpoint utf8_pieces (l : list ascii) : list piece :=
  match l with
  | [] => []
  | c1 :: l1 =>
      if bz c1 <? 128 then Good [c1] :: utf8_pieces l1
      else match l1 with
      | [] => [Bad c1]
      | c2 :: l2 =>
          if in_range 194 223 (bz c1) && is_cont c2 then Good [c1; c2] :: utf8_pieces l2
          else match l2 with
          | [] => Bad c1 :: utf8_pieces l1
          | c3 :: l3 =>
              if in_range 224 239 (bz c1) && second_ok c1 c2 && is_cont c3
              then Good [c1; c2; c3] :: utf8_pieces l3
              else match l3 with
              | [] => Bad c1 :: utf8_pieces l1
              | c4 :: l4 =>
                  if in_range 240 244 (bz c1) && second_ok c1 c2 && is_cont c3 && is_cont c4
                  then Good [c1; c2; c3; c4] :: utf8_pieces l4
                  else Bad c1 :: utf8_pieces l1
              end
          end
      end
  end.

(** The text with U+FFFD for every stray byte. *)
Definition fix_piece (p : piece) : list ascii :=
  match p with Good l => l | Bad _ => encode_rune rune_error end.

Definition to_valid_utf8 (s : string) : string := of_chars (utf8_pieces (chars s) ≫= fix_piece).

(** ** Marshalling *)

Definition hex4 (z : Z) : list ascii :=
  [hex_digit (z / 4096 mod 16); hex_digit (z / 256 mod 16); hex_digit (z / 16 mod 16); hex_digit (z mod 16)].

Definition backslash_char : ascii := ascii_of_nat 92.
Definition quote_char : ascii := ascii_of_nat 34.

Definition u_escape (z : Z) : list ascii := backslash_char :: "u"%char :: hex4 z.

Definition escape_byte (c : ascii) : list ascii :=
  let z := bz c in
  if (z =? 92) || (z =? 34) then [backslash_char; c]
  else if z =? 8 then [backslash_char; "b"%char]
  else if z =? 12 then [backslash_char; "f"%char]
  else if z =? 10 then [backslash_char; "n"%char]
  else if z =? 13 then [backslash_char; "r"%char]
  else if z =? 9 then [backslash_char; "t"%char]
  else if (z <? 32) || (z =? 60) || (z =? 62) || (z =? 38) then u_escape z
  else [c].

Definition escape_piece (p : piece) : list ascii :=
  match p with
  | Good [c] => escape_byte c
  | Good l =>
      if bool_decide (l = encode_rune 8232) then u_escape 8232
      else if bool_decide (l = encode_rune 8233) then u_escape 8233
      else l
  | Bad _ => u_escape rune_error
  end.

Definition json_quote (s : string) : list ascii :=
  quote_char :: (utf8_pieces (chars s) ≫= escape_piece) ++ [quote_char].

Definition entry_le (a b : string * string) : Prop := str_le a.1 b.1.

#[export] Instance entry_le_dec a b : Decision (entry_le a b) := str_le_dec a.1 b.1.

Definition sorted_entries (m : gmap string string) : list (string * string) :=
  merge_sort entry_le (map_to_list m).

Definition json_entry (e : string * string) : list ascii :=
  json_quote e.1 ++ ":"%char :: json_quote e.2.

Fixpoint json_entries (l : list (string * string)) : list ascii :=
  match l with
  | [] => []
  | [e] => json_entry e
  | e :: l => json_entry e ++ ","%char :: json_entries l
  end.

(** [json.Marshal] of a [map[string]string]: keys in order. *)
Definition json_Marshal (m : gmap string string) : string :=
  of_chars ("{"%char :: json_entries (sorted_entries m) ++ ["}"%char]).

(** ** Parsing *)

Inductive json :=
| JNull
| JBool (b : bool)
| JNum (lexeme : list ascii)
| JStr (s : list ascii)
| JArr (l : list json)
| JObj (l : list (list ascii * json)).

Definition hex_value (c : ascii) : option Z :=
  let z := bz c in
  if in_range 48 57 z then Some (z - 48)
  else if in_range 97 102 z then Some (z - 87)
  else if in_range 65 70 z then Some (z - 55)
  else None.

Definition hex4_value (a b c d : ascii) : option Z :=
  a ← hex_value a; b ← hex_value b; c ← hex_value c; d ← hex_value d;
  Some (((a * 16 + b) * 16 + c) * 16 + d).

(** The rune of an escape and, for a surrogate, of the one that must follow. *)
Definition is_surrogate (r : Z) : bool := in_range 55296 57343 r.

Definition surrogate_pair (r r2 : Z) : option Z :=
  if in_range 55296 56319 r && in_range 56320 57343 r2
  then Some ((r - 55296) * 1024 + (r2 - 56320) + 65536) else None.

(** The rest of a string literal, up to its closing quote. *)
Fixpoint parse_string (l : list piece) : option (list ascii * list piece) :=
  match l with
  | [] => None
  | Bad _ :: l => '(s, r) ← parse_string l; Some (encode_rune rune_error ++ s, r)
  | Good [c] :: l =>
      if bz c =? 34 then Some ([], l)
      else if bz c =? 92 then
        match l with
        | Good [e] :: l =>
            let z := bz e in
            if (z =? 34) || (z =? 92) || (z =? 47) then '(s, r) ← parse_string l; Some (e :: s, r)
            else if z =? 98 then '(s, r) ← parse_string l; Some (byte_of_Z 8 :: s, r)
            else if z =? 102 then '(s, r) ← parse_string l; Some (byte_of_Z 12 :: s, r)
            else if z =? 110 then '(s, r) ← parse_string l; Some (byte_of_Z 10 :: s, r)
            else if z =? 114 then '(s, r) ← parse_string l; Some (byte_of_Z 13 :: s, r)
            else if z =? 116 then '(s, r) ← parse_string l; Some (byte_of_Z 9 :: s, r)
            else if z =? 117 then
              match l with
              | Good [h1] :: Good [h2] :: Good [h3] :: Good [h4] :: l =>
                  u ← hex4_value h1 h2 h3 h4;
                  if is_surrogate u then
                    let lone := '(s, r) ← parse_string l; Some (encode_rune rune_error ++ s, r) in
                    match l with
                    | Good [b] :: Good [v] :: Good [k1] :: Good [k2] :: Good [k3] :: Good [k4] :: l' =>
                        if (bz b =? 92) && (bz v =? 117) then
                          match hex4_value k1 k2 k3 k4 with
                          | Some u2 =>
                              match surrogate_pair u u2 with
                              | Some r0 => '(s, r) ← parse_string l'; Some (encode_rune r0 ++ s, r)
                              | None => lone
                              end
                          | None => lone
                          end
                        else lone
                    | _ => lone
                    end
                  else '(s, r) ← parse_string l; Some (encode_rune u ++ s, r)
              | _ => None
              end
            else None
        | _ => None
        end
      else if bz c <? 32 then None
      else '(s, r) ← parse_string l; Some (c :: s, r)
  | Good p :: l => '(s, r) ← parse_string l; Some (p ++ s, r)
  end.

Definition is_json_space (p : piece) : bool :=
  match p with
  | Good [c] => (bz c =? 32) || (bz c =? 9) || (bz c =? 13) || (bz c =? 10)
  | _ => false
  end.

Fixpoint skip_space (l : list piece) : list piece :=
  match l with
  | p :: l' => if is_json_space p then skip_space l' else l
  | [] => []
  end.

(** The first piece, when it is the character. *)
Definition char_piece (c : ascii) (l : list piece) : option (list piece) :=
  match l with
  | Good [d] :: l => if bool_decide (c = d) then Some l else None
  | _ => None
  end.

Fixpoint literal (word : list ascii) (l : list piece) : option (list piece) :=
  match word with
  | [] => Some l
  | c :: word => l ← char_piece c l; literal word l
  end.

Fixpoint digits (l : list piece) : list ascii * list piece :=
  match l with
  | Good [c] :: l' => if in_range 48 57 (bz c) then let '(d, r) := digits l' in (c :: d, r) else ([], l)
  | _ => ([], l)
  end.

(** A number: sign, integer part without leading zeros, fraction, exponent. *)
Definition number (l : list piece) : option (list ascii * list piece) :=
  let '(sign, l) := match char_piece "-"%char l with Some l => (["-"%char], l) | None => ([], l) end in
  let '(int, l) := digits l in
  match int with
  | [] => None
  | c :: rest =>
      if (bz c =? 48) && negb (bool_decide (rest = [])) then None
      else
        '(frac, l) ← match char_piece "."%char l with
          | Some l => let '(d, l) := digits l in
              if bool_decide (d = []) then None else Some ("."%char :: d, l)
          | None => Some ([], l)
          end;
        '(ex, l) ← match (match char_piece "e"%char l with Some l => Some l | None => char_piece "E"%char l end) with
          | Some l =>
              let '(sg, l) := match char_piece "+"%char l with
                | Some l => (["+"%char], l)
                | None => match char_piece "-"%char l with Some l => (["-"%char], l) | None => ([], l) end
                end in
              let '(d, l) := digits l in
              if bool_decide (d = []) then None else Some ("e"%char :: sg ++ d, l)
          | None => Some ([], l)
          end;
        Some (sign ++ int ++ frac ++ ex, l)
  end.

(** The scanner's limit on nesting. *)
Definition maxNestingDepth : nat := 10000.

(** A value, after white space; the fuel bounds the number of values. *)
Fixpoint value (fuel depth : nat) (l : list piece) : option (json * list piece) :=
  match fuel with
  | O => None
  | S fuel =>
      let l := skip_space l in
      match char_piece "{"%char l with
      | Some l =>
          if (maxNestingDepth <=? depth)%nat then None
          else match char_piece "}"%char (skip_space l) with
          | Some l => Some (JObj [], l)
          | None => '(es, l) ← members fuel (S depth) l; Some (JObj es, l)
          end
      | None =>
      match char_piece "["%char l with
      | Some l =>
          if (maxNestingDepth <=? depth)%nat then None
          else match char_piece "]"%char (skip_space l) with
          | Some l => Some (JArr [], l)
          | None => '(vs, l) ← elements fuel (S depth) l; Some (JArr vs, l)
          end
      | None =>
      match char_piece quote_char l with
      | Some l => '(s, l) ← parse_string l; Some (JStr s, l)
      | None =>
      match literal (chars "null") l with
      | Some l => Some (JNull, l)
      | None =>
      match literal (chars "true") l with
      | Some l => Some (JBool true, l)
      | None =>
      match literal (chars "false") l with
      | Some l => Some (JBool false, l)
      | None => '(n, l) ← number l; Some (JNum n, l)
      end end end end end end
  end
with members (fuel depth : nat) (l : list piece) : option (list (list ascii * json) * list piece) :=
  match fuel with
  | O => None
  | S fuel =>
      l ← char_piece quote_char (skip_space l);
      '(k, l) ← parse_string l;
      l ← char_piece ":"%char (skip_space l);
      '(v, l) ← value fuel depth l;
      let l := skip_space l in
      match char_piece ","%char l with
      | Some l => '(es, l) ← members fuel depth l; Some ((k, v) :: es, l)
      | None => l ← char_piece "}"%char l; Some ([(k, v)], l)
      end
  end
with elements (fuel depth : nat) (l : list piece) : option (list json * list piece) :=
  match fuel with
  | O => None
  | S fuel =>
      '(v, l) ← value fuel depth l;
      let l := skip_space l in
      match char_piece ","%char l with
      | Some l => '(vs, l) ← elements fuel depth l; Some (v :: vs, l)
      | None => l ← char_piece "]"%char l; Some ([v], l)
      end
  end.

(** The whole text is one value. *)
Definition json_parse (s : string) : option json :=
  '(v, r) ← value (2 * len s + 2) 0 (utf8_pieces (chars s));
  if bool_decide (skip_space r = []) then Some v else None.

(** The entry of a [map[string]string]: null is the zero value. *)
Definition string_value (v : json) : option string :=
  match v with
  | JStr s => Some (of_chars s)
  | JNull => Some ""
  | _ => None
  end.

Fixpoint decode_members (l : list (list ascii * json)) (m : gmap string string)
    : option (gmap string string) :=
  match l with
  | [] => Some m
  | (k, v) :: l => s ← string_value v; decode_members l (<[of_chars k := s]> m)
  end.

(** [json.Unmarshal] into an empty [map[string]string]. *)
Definition json_Unmarshal (s : string) : result string (gmap string string) :=
  match json_parse s with
  | None => Err "invalid JSON"
  | Some JNull => Ok ∅
  | Some (JObj l) =>
      match decode_members l ∅ with
      | Some m => Ok m
      | None => Err "cannot unmarshal into a string"
      end
  | Some _ => Err "cannot unmarshal into a map"
  end.

(** A struct of string fields: a member goes to the field with its name, in any case of letters;
    null leaves the field as it is, members without a field are skipped. *)
Definition set_field (fields : list string) (m : gmap string string) (e : list ascii * json) : option (gmap string string) :=
  match List.find (EqualFold (of_chars e.1)) fields with
  | None => Some m
  | Some f =>
      match e.2 with
      | JStr s => Some (<[f := of_chars s]> m)
      | JNull => Some m
      | _ => None
      end
  end.

Fixpoint set_fields (fields : list string) (m : gmap string string) (l : list (list ascii * json)) : option (gmap string string) :=
  match l with
  | [] => Some m
  | e :: l => m ← set_field fields m e; set_fields fields m l
  end.

Definition json_Unmarshal_struct (fields : list string) (s : string) : result string (gmap string string) :=
  match json_parse s with
  | None => Err "invalid JSON"
  | Some JNull => Ok ∅
  | Some (JObj l) =>
      match set_fields fields ∅ l with
      | Some m => Ok m
      | None => Err "cannot unmarshal into a string"
      end
  | Some _ => Err "cannot unmarshal into a struct"
  end.

(** [json.Marshal] of a struct of string fields with [omitempty]. *)
Definition json_Marshal_struct (l : list (string * string)) : string :=
  of_chars ("{"%char :: json_entries (List.filter (fun e => negb (str_eqb e.2 "")) l) ++ ["}"%char]).

(** ** quota.go *)

(** A map as the order in which a [range] visits it, keys distinct. *)
Abbreviation GoMap := (list (string * string)).

Definition clean_overrides (overrides : GoMap) : gmap string string :=
  foldl (fun m '(k, v) =>
    let key := TrimSpace k in
    if str_eqb key "" then m else <[key := TrimSpace v]> m) ∅ overrides.

Definition EncodeQuotaOverrides (overrides : GoMap) : result string (option string) :=
  if (length overrides =? 0)%nat then Ok None
  else
    let cleaned := clean_overrides overrides in
    if bool_decide (cleaned = ∅) then Ok None else Ok (Some (json_Marshal cleaned)).

(** [raw] is nil for a NULL column. *)
Definition DecodeQuotaOverrides (raw : option string) : result string (gmap string string) :=
  let raw := default "" raw in
  if str_eqb (TrimSpace raw) "" then Ok ∅
  else match json_Unmarshal raw with
       | Ok m => Ok m
       | Err err => Err ("decode quota overrides: " +:+ err)
       end.

Example overrides_encode_ex :
  EncodeQuotaOverrides [(" pods ", "10"); ("", "x"); ("limits.cpu", " 2 ")] =
  Ok (Some (of_chars (List.map (fun c => if bool_decide (c = "'"%char) then quote_char else c)
    (chars "{'limits.cpu':'2','pods':'10'}")))).
Proof. vm_compute. reflexivity. Qed.

(** ** Pieces *)

Inductive seq_ok : list ascii -> Prop :=
| seq1 c : bz c < 128 -> seq_ok [c]
| seq2 c1 c2 : in_range 194 223 (bz c1) && is_cont c2 = true -> seq_ok [c1; c2]
| seq3 c1 c2 c3 :
    in_range 224 239 (bz c1) && second_ok c1 c2 && is_cont c3 = true -> seq_ok [c1; c2; c3]
| seq4 c1 c2 c3 c4 :
    in_range 240 244 (bz c1) && second_ok c1 c2 && is_cont c3 && is_cont c4 = true ->
    seq_ok [c1; c2; c3; c4].

Definition piece_ok (p : piece) : Prop :=
  match p with Good l => seq_ok l | Bad _ => True end.

Lemma pieces_seq p r : seq_ok p -> utf8_pieces (p ++ r) = Good p :: utf8_pieces r.
Proof.
  intros [c H|c1 c2 H|c1 c2 c3 H|c1 c2 c3 c4 H]; cbn [app utf8_pieces].
  - by rewrite (proj2 (Z.ltb_lt _ _) H).
  - pose proof H as [Hr _]%andb_true_iff. apply in_range_true in Hr.
    rewrite (proj2 (Z.ltb_ge (bz c1) 128)) by lia. by rewrite H.
  - pose proof H as [[Hr _]%andb_true_iff _]%andb_true_iff. apply in_range_true in Hr.
    rewrite (proj2 (Z.ltb_ge (bz c1) 128)) by lia.
    rewrite (proj2 (in_range_false 194 223 (bz c1))) by lia. cbn [andb]. by rewrite H.
  - pose proof H as [[[Hr _]%andb_true_iff _]%andb_true_iff _]%andb_true_iff. apply in_range_true in Hr.
    rewrite (proj2 (Z.ltb_ge (bz c1) 128)) by lia.
    rewrite (proj2 (in_range_false 194 223 (bz c1))), (proj2 (in_range_false 224 239 (bz c1))) by lia.
    cbn [andb]. by rewrite H.
Qed.

Lemma pieces_ok l : Forall piece_ok (utf8_pieces l).
Proof.
  remember (length l) as n eqn:Hn. revert l Hn.
  induction n as [n IH] using (well_founded_induction Wf_nat.lt_wf); intros l ->.
  assert (forall k, (length k < length l)%nat -> Forall piece_ok (utf8_pieces k)) as IH'.
  { intros k Hk. by eapply IH. }
  destruct l as [|c1 l1]; cbn [utf8_pieces]; [constructor|]. cbn [length] in IH'.
  repeat case_match; constructor; try (apply IH'; cbn [length]; lia); cbn; try constructor; try done.
  by apply Z.ltb_lt.
Qed.

(** ** Strings *)

Lemma pieces_ascii l r : Forall ascii_byte l ->
  utf8_pieces (l ++ r) = ((fun c => Good [c]) <$> l) ++ utf8_pieces r.
Proof.
  induction 1 as [|c l Hc _ IH]; [done|]. change ((c :: l) ++ r) with ([c] ++ (l ++ r)).
  rewrite pieces_seq by by constructor. by rewrite IH.
Qed.

(** Reading the escape of a piece gives the piece. *)
Definition reads (text result : list ascii) : Prop := forall rest,
  parse_string (utf8_pieces (text ++ rest)) =
  '(s, r) ← parse_string (utf8_pieces rest); Some (result ++ s, r).

Lemma reads_byte c : ascii_byte c -> reads (escape_byte c) [c].
Proof.
  unfold ascii_byte. intros Hc rest. byte_cases c; try (vm_compute in Hc; discriminate Hc); reflexivity.
Qed.

Lemma reads_rune_error : reads (u_escape rune_error) (encode_rune rune_error).
Proof. intros rest. reflexivity. Qed.

Lemma reads_8232 : reads (u_escape 8232) (encode_rune 8232).
Proof. intros rest. reflexivity. Qed.

Lemma reads_8233 : reads (u_escape 8233) (encode_rune 8233).
Proof. intros rest. reflexivity. Qed.

Lemma reads_piece p : piece_ok p -> reads (escape_piece p) (fix_piece p).
Proof.
  destruct p as [l|c]; [|intros _; apply reads_rune_error]. intros H. cbn in H.
  destruct H as [c H|c1 c2 H|c1 c2 c3 H|c1 c2 c3 c4 H]; [by apply reads_byte|..];
    cbn [escape_piece fix_piece];
    (case_bool_decide as E; [rewrite E; apply reads_8232|]);
    (case_bool_decide as E'; [rewrite E'; apply reads_8233|]);
    intros rest; rewrite pieces_seq by (constructor; assumption); reflexivity.
Qed.

Lemma parse_quoted s rest :
  parse_string (utf8_pieces (((utf8_pieces (chars s) ≫= escape_piece) ++ [quote_char]) ++ rest)) =
  Some (chars (to_valid_utf8 s), utf8_pieces rest).
Proof.
  unfold to_valid_utf8. rewrite chars_of_chars. rewrite <- app_assoc. cbn [app].
  induction (pieces_ok (chars s)) as [|p ps Hp _ IH]; [reflexivity|].
  rewrite !bind_cons, <- app_assoc, (reads_piece p Hp), IH. reflexivity.
Qed.

(** A quoted string after its opening quote. *)
Lemma quote_pieces s rest :
  utf8_pieces (json_quote s ++ rest) =
  Good [quote_char] ::
    utf8_pieces (((utf8_pieces (chars s) ≫= escape_piece) ++ [quote_char]) ++ rest).
Proof.
  unfold json_quote. change (utf8_pieces (([quote_char] ++ (((utf8_pieces (chars s) ≫= escape_piece) ++ [quote_char]) ++ rest)))
    = Good [quote_char] :: utf8_pieces (((utf8_pieces (chars s) ≫= escape_piece) ++ [quote_char]) ++ rest)).
  by apply pieces_seq, seq1.
Qed.

(** ** Objects *)

Definition parsed_entry (e : string * string) : list ascii * json :=
  (chars (to_valid_utf8 e.1), JStr (chars (to_valid_utf8 e.2))).

Lemma value_string fuel depth s rest :
  value (S fuel) depth (utf8_pieces (json_quote s ++ rest)) =
  Some (JStr (chars (to_valid_utf8 s)), utf8_pieces rest).
Proof.
  rewrite quote_pieces. cbn [value]. change (skip_space (Good [quote_char] :: ?x)) with (Good [quote_char] :: x).
  change (char_piece "{"%char (Good [quote_char] :: ?x)) with (@None (list piece)).
  change (char_piece "["%char (Good [quote_char] :: ?x)) with (@None (list piece)).
  change (char_piece quote_char (Good [quote_char] :: ?x)) with (Some x).
  cbv iota beta. rewrite parse_quoted. reflexivity.
Qed.

Lemma members_entries l : forall fuel depth rest,
  l <> [] -> (S (length l) < fuel)%nat ->
  members fuel depth (utf8_pieces (json_entries l ++ "}"%char :: rest)) =
  Some (parsed_entry <$> l, utf8_pieces rest).
Proof.
  induction l as [|e l IH]; intros fuel depth rest Hne Hf; [done|].
  destruct fuel as [|fuel]; [cbn in Hf; lia|]. cbn [length] in Hf.
  assert (forall tail, members (S fuel) depth (utf8_pieces (json_entry e ++ tail)) =
    let l0 := skip_space (utf8_pieces tail) in
    match char_piece ","%char l0 with
    | Some l1 => '(es, l2) ← members fuel depth l1; Some (parsed_entry e :: es, l2)
    | None => l1 ← char_piece "}"%char l0; Some ([parsed_entry e], l1)
    end) as Hstep.
  { intros tail. unfold json_entry. rewrite <- app_assoc, quote_pieces. cbn [members].
    change (skip_space (Good [quote_char] :: ?x)) with (Good [quote_char] :: x).
    change (char_piece quote_char (Good [quote_char] :: ?x)) with (Some x).
    cbn [mbind option_bind]. rewrite parse_quoted. cbn [mbind option_bind].
    change ((":"%char :: json_quote e.2) ++ tail) with ([":"%char] ++ (json_quote e.2 ++ tail)).
    rewrite (pieces_seq [":"%char]) by by constructor.
    change (skip_space (Good [":"%char] :: ?x)) with (Good [":"%char] :: x).
    change (char_piece ":"%char (Good [":"%char] :: ?x)) with (Some x). cbn [mbind option_bind].
    destruct fuel as [|fuel]; [lia|]. rewrite value_string. reflexivity. }
  destruct l as [|e' l].
  - cbn [json_entries]. rewrite Hstep. cbv zeta.
    change ("}"%char :: rest) with (["}"%char] ++ rest). rewrite (pieces_seq ["}"%char]) by by constructor.
    reflexivity.
  - change (json_entries (e :: e' :: l)) with (json_entry e ++ ","%char :: json_entries (e' :: l)).
    rewrite <- app_assoc, Hstep. cbv zeta.
    change ((","%char :: json_entries (e' :: l)) ++ "}"%char :: rest)
      with ([","%char] ++ (json_entries (e' :: l) ++ "}"%char :: rest)).
    rewrite (pieces_seq [","%char]) by by constructor.
    change (skip_space (Good [","%char] :: ?x)) with (Good [","%char] :: x).
    change (char_piece ","%char (Good [","%char] :: ?x)) with (Some x). cbv iota beta.
    rewrite IH by (done || (cbn in *; lia)). reflexivity.
Qed.

Lemma entries_length l : (length l <= length (json_entries l))%nat.
Proof.
  induction l as [|e [|e' l] IH]; [done|cbn; rewrite ?length_app; cbn; lia|].
  change (json_entries (e :: e' :: l)) with (json_entry e ++ ","%char :: json_entries (e' :: l)).
  rewrite length_app. cbn [length] in *. lia.
Qed.

(** The text of an object with these members. *)
Definition json_object (l : list (string * string)) : string := of_chars ("{"%char :: json_entries l ++ ["}"%char]).

(** The parser reads back what the encoder wrote, up to stray bytes. *)
Lemma parse_object l : json_parse (json_object l) = Some (JObj (parsed_entry <$> l)).
Proof.
  destruct (decide (l = [])) as [->|Hne]; [reflexivity|].
  unfold json_parse, json_object, len. rewrite chars_of_chars.
  pose proof (entries_length l) as Hlen.
  replace (2 * _ + 2)%nat with (S (2 * length (json_entries l) + 5)).
  2:{ cbn [length]. rewrite length_app. cbn [length]. lia. }
  change ("{"%char :: json_entries l ++ ["}"%char]) with (["{"%char] ++ (json_entries l ++ ["}"%char])).
  rewrite (pieces_seq ["{"%char]) by by constructor. cbn [value].
  change (skip_space (Good ["{"%char] :: ?x)) with (Good ["{"%char] :: x).
  change (char_piece "{"%char (Good ["{"%char] :: ?x)) with (Some x). cbv iota beta.
  replace (maxNestingDepth <=? 0)%nat with false by reflexivity.
  replace (char_piece "}"%char (skip_space (utf8_pieces (json_entries l ++ ["}"%char])))) with (@None (list piece)).
  - rewrite members_entries by (done || lia). reflexivity.
  - destruct l as [|e [|e' l]]; [done|..]; cbn [json_entries]; unfold json_entry;
      rewrite <- !app_assoc, quote_pieces; reflexivity.
Qed.

Lemma parse_Marshal m : json_parse (json_Marshal m) = Some (JObj (parsed_entry <$> sorted_entries m)).
Proof. apply parse_object. Qed.

(** ** Round trips *)

Lemma decode_parsed l : forall acc,
  decode_members (parsed_entry <$> l) acc =
  Some (foldl (fun m e => <[to_valid_utf8 e.1 := to_valid_utf8 e.2]> m) acc l).
Proof.
  induction l as [|e l IH]; intros acc; [done|]. cbn. rewrite !of_chars_chars. apply IH.
Qed.

Definition valid_utf8 (s : string) : Prop := to_valid_utf8 s = s.

#[export] Instance valid_utf8_dec s : Decision (valid_utf8 s).
Proof. unfold valid_utf8. apply _. Defined.

Lemma foldl_insert_entries (m : gmap string string) :
  foldl (fun m e => <[e.1 := e.2]> m) ∅ (sorted_entries m) = m.
Proof.
  assert (forall l : list (string * string), foldl (fun m e => <[e.1 := e.2]> m) (∅ : gmap string string) l =
    list_to_map (rev l)) as ->.
  { induction l as [|e l IH] using rev_ind; [done|]. by rewrite foldl_app, rev_app_distr, IH. }
  rewrite <- (list_to_map_to_list m) at 2.
  assert (rev (sorted_entries m) ≡ₚ map_to_list m) as Hp.
  { rewrite <- Permutation_rev. apply merge_sort_Permutation. }
  apply list_to_map_proper; [|done]. rewrite Hp. apply NoDup_fst_map_to_list.
Qed.

Lemma Unmarshal_Marshal m : map_Forall (fun k v => valid_utf8 k /\ valid_utf8 v) m ->
  json_Unmarshal (json_Marshal m) = Ok m.
Proof.
  intros Hv. unfold json_Unmarshal. rewrite parse_Marshal, decode_parsed.
  f_equal. rewrite <- (foldl_insert_entries m) at 2.
  assert (Forall (fun e => valid_utf8 e.1 /\ valid_utf8 e.2) (sorted_entries m)) as Hf.
  { unfold sorted_entries. rewrite merge_sort_Permutation. rewrite Forall_forall. intros [k v] Hin.
    apply elem_of_map_to_list in Hin. by apply (Hv k v). }
  generalize (∅ : gmap string string) as acc.
  induction Hf as [|e l [H1 H2] _ IH]; intros acc; [done|]. cbn. rewrite H1, H2. apply IH.
Qed.

Lemma Marshal_not_blank m : TrimSpace (json_Marshal m) <> "".
Proof.
  eapply (trim_space_solid_head _ "{"%char).
  - unfold json_Marshal. by rewrite chars_of_chars.
  - reflexivity.
Qed.

Lemma overrides_stored overrides :
  map_Forall (fun k v => valid_utf8 k /\ valid_utf8 v) (clean_overrides overrides) ->
  exists raw, EncodeQuotaOverrides overrides = Ok raw /\
    DecodeQuotaOverrides raw = Ok (clean_overrides overrides) /\
    (raw = None <-> clean_overrides overrides = ∅).
Proof.
  intros Hv. unfold EncodeQuotaOverrides.
  destruct (length overrides =? 0)%nat eqn:El.
  { apply Nat.eqb_eq, nil_length_inv in El as ->. by exists None. }
  case_bool_decide as Ee; [exists None; by rewrite Ee|].
  exists (Some (json_Marshal (clean_overrides overrides))). split; [done|].
  unfold DecodeQuotaOverrides. cbn [default from_option id].
  rewrite (proj2 (str_eqb_neq _ _) (Marshal_not_blank _)), Unmarshal_Marshal by done. done.
Qed.

(** What is stored for quota overrides is read back as the cleaned
    overrides: names and values trimmed, entries without a name dropped; nothing is stored
    when none is left.  The strings must be valid UTF-8 (stray bytes would be replaced). *)
Theorem quota_overrides_roundtrip overrides :
  map_Forall (fun k v => valid_utf8 k /\ valid_utf8 v) (clean_overrides overrides) ->
  exists raw, EncodeQuotaOverrides overrides = Ok raw /\
    DecodeQuotaOverrides raw = Ok (clean_overrides overrides) /\
    (raw = None <-> clean_overrides overrides = ∅).
Proof. apply overrides_stored. Qed.

Lemma quota_overrides_roundtrip_witness :
  exists raw, EncodeQuotaOverrides [(" pods ", "10"); ("limits.cpu", " 2 ")] = Ok raw /\
    DecodeQuotaOverrides raw = Ok (clean_overrides [(" pods ", "10"); ("limits.cpu", " 2 ")]) /\
    (raw = None <-> clean_overrides [(" pods ", "10"); ("limits.cpu", " 2 ")] = ∅).
Proof.
  apply (quota_overrides_roundtrip [(" pods ", "10"); ("limits.cpu", " 2 ")]).
  apply (bool_decide_eq_true_1 _). vm_compute. reflexivity.
Defined.

(** ** Structs *)

Lemma set_fields_entries fields k : forall acc,
  Forall (fun e => valid_utf8 e.1 /\ valid_utf8 e.2) k ->
  (forall f, f ∈ (fst <$> k) -> List.find (EqualFold f) fields = Some f) -> NoDup (fst <$> k) ->
  exists m, set_fields fields acc (parsed_entry <$> List.filter (fun e => negb (str_eqb e.2 "")) k) = Some m /\
    (forall f, f ∉ (fst <$> k) -> m !! f = acc !! f) /\
    ((forall e, e ∈ k -> acc !! e.1 = None) -> Forall (fun e => default "" (m !! e.1) = e.2) k).
Proof.
  induction k as [|[f v] k IH]; intros acc Hv Hfind Hd; [by exists acc|].
  inversion Hv as [|? ? [Hf Hs] Hv']; subst. inversion Hd as [|? ? Hni Hd']; subst. cbn in Hf, Hs, Hni.
  assert (Hfind' : forall g, g ∈ (fst <$> k) -> List.find (EqualFold g) fields = Some g) by (intros; apply Hfind; by right).
  cbn [List.filter snd]. destruct (str_eqb v "") eqn:Ev; cbn [negb].
  - apply str_eqb_eq in Ev as ->. destruct (IH acc Hv' Hfind' Hd') as (m & Hm & Hk & Ha). exists m. split; [done|]. split.
    + intros g Hg. apply Hk. set_solver.
    + intros Hn. apply Forall_cons. split; [|apply Ha; intros; apply Hn; by right].
      cbn. rewrite (Hk f Hni). pose proof (Hn (f, "")) as H. cbn in H. by rewrite H by by left.
  - destruct (IH (<[f := v]> acc) Hv' Hfind' Hd') as (m & Hm & Hk & Ha). exists m. split.
    + cbn. unfold set_field, parsed_entry. cbn [fst snd]. rewrite !of_chars_chars, Hf, Hs.
      rewrite (Hfind f) by (by left). done.
    + split.
      * intros g Hg. rewrite Hk by set_solver. apply lookup_insert_ne. set_solver.
      * intros Hn. apply Forall_cons. split; [cbn; by rewrite (Hk f Hni), lookup_insert_eq|].
        apply Ha. intros e He. rewrite lookup_insert_ne; [by apply Hn; right|]. intros ->. apply Hni.
        apply list_elem_of_fmap. eauto.
Qed.

(** A struct is read back as it was written. *)
Lemma Unmarshal_struct_Marshal (l : list (string * string)) :
  NoDup (fst <$> l) -> Forall (fun e => valid_utf8 e.1 /\ valid_utf8 e.2) l ->
  (forall f, f ∈ (fst <$> l) -> List.find (EqualFold f) (fst <$> l) = Some f) ->
  exists m, json_Unmarshal_struct (fst <$> l) (json_Marshal_struct l) = Ok m /\ Forall (fun e => default "" (m !! e.1) = e.2) l.
Proof.
  intros Hd Hv Hfind. unfold json_Unmarshal_struct, json_Marshal_struct.
  fold (json_object (List.filter (fun e => negb (str_eqb e.2 "")) l)). rewrite parse_object.
  destruct (set_fields_entries (fst <$> l) l ∅ Hv Hfind Hd) as (m & Hm & _ & Ha). rewrite Hm.
  exists m. split; [done|]. by apply Ha.
Qed.
