(* ===== verification/Quota.v ===== *)
(** What a tenant namespace is given: the quota, limit range, network policies and role of
    [internal/service/service.go] and [internal/service/manifests.go].

    [resource.ParseQuantity] is a third-party parser, a parameter; [resource.MustParse] panics
    where it fails, and [None] is that panic. *)

From Stdlib Require Import Ascii ZArith Lia.
From stdpp Require Import base gmap strings list.
From S2P Require Import Prelude GoStrings Config.

(** ** Comma-separated settings *)

Definition parseCSV (raw : string) : list string :=
  let raw := TrimSpace raw in
  if str_eqb raw "" then []
  else List.filter (fun part => negb (str_eqb part "")) (TrimSpace <$> Split raw ","%char).

Definition parse_pair (segment : string) : option (string * string) :=
  match Cut segment "="%char with
  | None => None
  | Some (key, val) =>
      let key := TrimSpace key in
      let val := TrimSpace val in
      if str_eqb key "" || str_eqb val "" then None else Some (key, val)
  end.

(** The last of several segments with the same key wins. *)
Definition parseResourcePairs (raw : string) : gmap string string :=
  foldl (fun out segment => match parse_pair segment with Some (k, v) => <[k := v]> out | None => out end)
    ∅ (parseCSV raw).

Definition buildQuotaScopes (raw : string) : list string := sort_Strings (parseCSV raw).

(** [ScopeName], [Operator] and [Values] of the one expression; [None] for a nil selector. *)
Record ScopeRequirement := mkScope { ScopeName : string; ScopeOperator : string; ScopeValues : list string }.

Definition buildPriorityClassSelector (raw : string) : option (list ScopeRequirement) :=
  match parseCSV raw with
  | [] => None
  | values => Some [mkScope "PriorityClass" "In" (sort_Strings values)]
  end.

(** ** Quantities *)

(** [corev1.ResourceList] *)
Abbreviation ResourceList Q := (gmap string Q).

Section Quantities.
Context {Quantity : Type} (ParseQuantity : string -> option Quantity).

Definition resourceMustParse (s : string) : option Quantity := ParseQuantity s.

Definition setResourceQuantity (rl : ResourceList Quantity) (name raw : string) : option (ResourceList Quantity) :=
  let raw := TrimSpace raw in
  if str_eqb raw "" then Some rl
  else q ← resourceMustParse raw; Some (<[name := q]> rl).

Fixpoint set_all (rl : ResourceList Quantity) (entries : list (string * string)) : option (ResourceList Quantity) :=
  match entries with
  | [] => Some rl
  | (name, raw) :: entries => rl ← setResourceQuantity rl name raw; set_all rl entries
  end.

(** [for name, val := range parseResourcePairs(raw)] *)
Definition applyExtendedResources (rl : ResourceList Quantity) (raw : string) : option (ResourceList Quantity) :=
  set_all rl (map_to_list (parseResourcePairs raw)).

Definition quota_entries (cfg : Config) : list (string * string) :=
  [("requests.cpu", cfg_NamespaceQuotaRequestsCPU cfg);
   ("limits.cpu", cfg_NamespaceQuotaLimitsCPU cfg);
   ("requests.memory", cfg_NamespaceQuotaRequestsMemory cfg);
   ("limits.memory", cfg_NamespaceQuotaLimitsMemory cfg);
   ("requests.ephemeral-storage", cfg_NamespaceQuotaRequestsEphemeral cfg);
   ("limits.ephemeral-storage", cfg_NamespaceQuotaLimitsEphemeral cfg);
   ("pods", cfg_NamespaceQuotaPods cfg);
   ("services", cfg_NamespaceQuotaServices cfg);
   ("services.loadbalancers", cfg_NamespaceQuotaServicesLoadBalancers cfg);
   ("configmaps", cfg_NamespaceQuotaConfigMaps cfg);
   ("secrets", cfg_NamespaceQuotaSecrets cfg);
   ("persistentvolumeclaims", cfg_NamespaceQuotaPVCs cfg);
   ("requests.storage", cfg_NamespaceQuotaRequestsStorage cfg);
   ("count/deployments.apps", cfg_NamespaceQuotaDeployments cfg);
   ("count/replicasets.apps", cfg_NamespaceQuotaReplicaSets cfg);
   ("count/statefulsets.apps", cfg_NamespaceQuotaStatefulSets cfg);
   ("count/jobs.batch", cfg_NamespaceQuotaJobs cfg);
   ("count/cronjobs.batch", cfg_NamespaceQuotaCronJobs cfg);
   ("count/ingresses.networking.k8s.io", cfg_NamespaceQuotaIngresses cfg)].

(** [overrides]: the entries of the map, in the order the range visits them. *)
Definition defaultQuota (cfg : Config) (overrides : list (string * string)) : option (ResourceList Quantity) :=
  set_all ∅ (quota_entries cfg ++ overrides).

Record LimitRangeItem := mkLimits {
  lim_Type : string; lim_Max : ResourceList Quantity; lim_Min : ResourceList Quantity;
  lim_Default : ResourceList Quantity; lim_DefaultRequest : ResourceList Quantity
}.

(** A list with the plain settings and then the extended ones. *)
Definition limits (cpu memory ephemeral ext : string) : option (ResourceList Quantity) :=
  rl ← set_all ∅ [("cpu", cpu); ("memory", memory); ("ephemeral-storage", ephemeral)];
  applyExtendedResources rl ext.

Definition defaultLimitRange (cfg : Config) : option (list LimitRangeItem) :=
  cmax ← limits (cfg_NamespaceLRContainerMaxCPU cfg) (cfg_NamespaceLRContainerMaxMemory cfg)
           (cfg_NamespaceLRContainerMaxEphemeral cfg) (cfg_NamespaceLRExtMax cfg);
  cmin ← limits (cfg_NamespaceLRContainerMinCPU cfg) (cfg_NamespaceLRContainerMinMemory cfg)
           (cfg_NamespaceLRContainerMinEphemeral cfg) (cfg_NamespaceLRExtMin cfg);
  cdef ← limits (cfg_NamespaceLRContainerDefaultCPU cfg) (cfg_NamespaceLRContainerDefaultMemory cfg)
           (cfg_NamespaceLRContainerDefaultEphemeral cfg) (cfg_NamespaceLRExtDefault cfg);
  creq ← limits (cfg_NamespaceLRContainerDefaultRequestCPU cfg) (cfg_NamespaceLRContainerDefaultRequestMemory cfg)
           (cfg_NamespaceLRContainerDefaultRequestEphemeral cfg) (cfg_NamespaceLRExtDefaultRequest cfg);
  pmax ← limits (cfg_NamespaceQuotaLimitsCPU cfg) (cfg_NamespaceQuotaLimitsMemory cfg)
           (cfg_NamespaceQuotaLimitsEphemeral cfg) (cfg_NamespaceLRExtMax cfg);
  pmin ← limits (cfg_NamespaceLRContainerMinCPU cfg) (cfg_NamespaceLRContainerMinMemory cfg)
           (cfg_NamespaceLRContainerMinEphemeral cfg) (cfg_NamespaceLRExtMin cfg);
  Some [mkLimits "Container" cmax cmin cdef creq; mkLimits "Pod" pmax pmin ∅ ∅].

Definition projectLimitRange (cfg : Config) : option (list LimitRangeItem) :=
  rcpu ← resourceMustParse (cfg_ProjectLRRequestCPU cfg);
  rmem ← resourceMustParse (cfg_ProjectLRRequestMemory cfg);
  lcpu ← resourceMustParse (cfg_ProjectLRLimitCPU cfg);
  lmem ← resourceMustParse (cfg_ProjectLRLimitMemory cfg);
  Some [mkLimits "Container" ∅ ∅ {["cpu" := lcpu; "memory" := lmem]} {["cpu" := rcpu; "memory" := rmem]}].

(** ** Scopes *)

Definition notBestEffort_resources : list string :=
  ["requests.cpu"; "limits.cpu"; "requests.memory"; "limits.memory"; "requests.ephemeral-storage";
   "limits.ephemeral-storage"].

Definition hasUnsupportedResourcesForNotBestEffort (hard : ResourceList Quantity) : bool :=
  existsb (fun name => negb (existsb (str_eqb name) notBestEffort_resources)) ((map_to_list hard).*1).

Definition hasUnsupportedResourcesForBestEffort (hard : ResourceList Quantity) : bool :=
  existsb (fun name => negb (str_eqb name "pods")) ((map_to_list hard).*1).

Definition unsupported_scope (hard : ResourceList Quantity) (scope : string) : bool :=
  if str_eqb scope "NotBestEffort" then hasUnsupportedResourcesForNotBestEffort hard
  else if str_eqb scope "BestEffort" then hasUnsupportedResourcesForBestEffort hard
  else false.

(** The scopes that stay and the scopes that are dropped. *)
Definition filterQuotaScopes (hard : ResourceList Quantity) (scopes : list string) : list string * list string :=
  (List.filter (fun scope => negb (unsupported_scope hard scope)) scopes,
   List.filter (unsupported_scope hard) scopes).

(** ** The objects *)

Definition namespaceQuotaObjectName := "tenant-quota".
Definition namespaceLimitRangeName := "tenant-limits".
Definition managedBy : gmap string string := {["managed-by" := "kubeop-operator"]}.

Record ResourceQuota := mkQuota {
  rq_Name : string; rq_Namespace : string; rq_Annotations : gmap string string;
  rq_Hard : ResourceList Quantity; rq_Scopes : list string; rq_ScopeSelector : option (list ScopeRequirement)
}.

Record LimitRange := mkLimitRange {
  lr_Name : string; lr_Namespace : string; lr_Annotations : gmap string string;
  lr_Limits : list LimitRangeItem
}.

Definition set_Hard (rq : ResourceQuota) (hard : ResourceList Quantity) : ResourceQuota :=
  mkQuota (rq_Name rq) (rq_Namespace rq) (rq_Annotations rq) hard (rq_Scopes rq) (rq_ScopeSelector rq).

Definition configureNamespaceResourceQuota (cfg : Config) (rq : ResourceQuota) (overrides : list (string * string))
    : option ResourceQuota :=
  hard ← defaultQuota cfg overrides;
  let '(scopes, dropped) := filterQuotaScopes hard (buildQuotaScopes (cfg_NamespaceQuotaScopes cfg)) in
  Some (mkQuota (rq_Name rq) (rq_Namespace rq) (rq_Annotations rq) hard scopes
    (buildPriorityClassSelector (cfg_NamespaceQuotaPriorityClasses cfg))).

(** [Err] for the returned error, [None] for a panic. *)
Definition buildNamespaceLimitPolicyObjects (cfg : Config) (namespace : string) (overrides : list (string * string))
    : result string (option (ResourceQuota * LimitRange)) :=
  let ns := TrimSpace namespace in
  if str_eqb ns "" then Err "namespace is required"
  else Ok (rq ← configureNamespaceResourceQuota cfg
                  (mkQuota namespaceQuotaObjectName ns managedBy ∅ [] None) overrides;
           items ← defaultLimitRange cfg;
           Some (rq, mkLimitRange namespaceLimitRangeName ns managedBy items)).
End Quantities.

Arguments LimitRangeItem Quantity : clear implicits.
Arguments ResourceQuota Quantity : clear implicits.
Arguments LimitRange Quantity : clear implicits.

(** ** manifests.go *)

(** [MatchLabels] of a selector; [None] for a nil selector. *)
Definition Selector := option (gmap string string).

Record PolicyPeer := mkPeer { peer_Namespaces : Selector; peer_Pods : Selector }.
Record PolicyPort := mkPort { port_Protocol : string; port_Number : Z }.
Record PolicyRule := mkPolicyRule { rule_Peers : list PolicyPeer; rule_Ports : list PolicyPort }.

(** The pod selector of each policy is empty. *)
Record NetworkPolicy := mkNetworkPolicy {
  np_Name : string; np_Namespace : string; np_PolicyTypes : list string;
  np_Ingress : list PolicyRule; np_Egress : list PolicyRule
}.

Definition BuildTenantNetworkPolicies (cfg : Config) (namespace : string) : list NetworkPolicy :=
  let deny := mkNetworkPolicy "default-deny" namespace ["Ingress"; "Egress"] [] [] in
  let dns := mkNetworkPolicy "allow-dns" namespace ["Egress"] []
    [mkPolicyRule [mkPeer (Some {[cfg_DNSNamespaceLabelKey cfg := cfg_DNSNamespaceLabelValue cfg]})
                          (Some {[cfg_DNSPodLabelKey cfg := cfg_DNSPodLabelValue cfg]})]
                  [mkPort "UDP" 53]] in
  [deny; dns] ++
  (if negb (str_eqb (cfg_IngressNamespaceLabelKey cfg) "") && negb (str_eqb (cfg_IngressNamespaceLabelValue cfg) "")
   then [mkNetworkPolicy "allow-from-ingress" namespace ["Ingress"]
           [mkPolicyRule [mkPeer (Some {[cfg_IngressNamespaceLabelKey cfg := cfg_IngressNamespaceLabelValue cfg]})
                                 None] []] []]
   else []).

Record RoleRule := mkRoleRule { APIGroups : list string; Resources : list string; Verbs : list string }.
Record ServiceAccount := mkServiceAccount { sa_Name : string; sa_Namespace : string }.
Record Role := mkRole { role_Name : string; role_Namespace : string; role_Rules : list RoleRule }.
Record Subject := mkSubject { sub_Kind : string; sub_Name : string; sub_Namespace : string }.
Record RoleRef := mkRoleRef { ref_APIGroup : string; ref_Kind : string; ref_Name : string }.
Record RoleBinding := mkRoleBinding {
  rb_Name : string; rb_Namespace : string; rb_Subjects : list Subject; rb_RoleRef : RoleRef
}.

Definition BuildNamespaceRBAC (namespace saName roleName rbName : string) (rules : list RoleRule)
    : ServiceAccount * Role * RoleBinding :=
  (mkServiceAccount saName namespace,
   mkRole roleName namespace rules,
   mkRoleBinding rbName namespace [mkSubject "ServiceAccount" saName namespace]
     (mkRoleRef "rbac.authorization.k8s.io" "Role" roleName)).

Definition all_verbs := ["get"; "list"; "watch"; "create"; "update"; "delete"].

Definition defaultRoleRules : list RoleRule :=
  [mkRoleRule [""] ["pods"; "services"; "configmaps"; "secrets"; "persistentvolumeclaims"; "events"] all_verbs;
   mkRoleRule ["apps"] ["deployments"; "replicasets"; "statefulsets"; "daemonsets"] all_verbs;
   mkRoleRule ["apps"] ["deployments/scale"; "statefulsets/scale"] ["get"; "patch"; "update"];
   mkRoleRule ["networking.k8s.io"] ["ingresses"] ["get"; "list"; "watch"];
   mkRoleRule ["batch"] ["jobs"; "cronjobs"] all_verbs].

(** ** The quota that results *)

Section QuotaProofs.
Context {Quantity : Type} (ParseQuantity : string -> option Quantity).

(** The value an entry sets: blank ones set nothing. *)
Definition quantity_text (raw : string) : option string :=
  if str_eqb (TrimSpace raw) "" then None else Some (TrimSpace raw).

(** The last entry for [k] that sets something. *)
Fixpoint last_set (entries : list (string * string)) (k : string) : option string :=
  match entries with
  | [] => None
  | (name, raw) :: entries =>
      match last_set entries k with
      | Some v => Some v
      | None => if decide (name = k) then quantity_text raw else None
      end
  end.

Lemma set_all_app rl l1 l2 :
  set_all ParseQuantity rl (l1 ++ l2) = set_all ParseQuantity rl l1 ≫= fun rl => set_all ParseQuantity rl l2.
Proof.
  revert rl. induction l1 as [|[n r] l1 IH]; intros rl; [done|]. cbn.
  destruct (setResourceQuantity _ _ _ _); cbn; [apply IH|done].
Qed.

Definition unparsable (entry : string * string) : Prop :=
  exists v, quantity_text entry.2 = Some v /\ ParseQuantity v = None.

Lemma set_all_None rl entries :
  set_all ParseQuantity rl entries = None <-> Exists unparsable entries.
Proof.
  revert rl. induction entries as [|[n r] entries IH]; intros rl; cbn [set_all]; [by rewrite Exists_nil|].
  rewrite Exists_cons. unfold setResourceQuantity, resourceMustParse, unparsable at 1, quantity_text. cbn [snd].
  destruct (str_eqb (TrimSpace r) ""); cbn.
  - rewrite IH. split; [by right|]. by intros [(v & Hv & _)|H].
  - destruct (ParseQuantity (TrimSpace r)) eqn:Eq; cbn.
    + rewrite IH. split; [by right|]. intros [(v & [= <-] & Hp)|H]; [congruence|done].
    + split; [|done]. intros _. left. eauto.
Qed.

Lemma set_all_lookup rl entries rl' k :
  set_all ParseQuantity rl entries = Some rl' ->
  rl' !! k = match last_set entries k with Some v => ParseQuantity v | None => rl !! k end.
Proof.
  revert rl. induction entries as [|[n r] entries IH]; intros rl; cbn; [by intros [= ->]|].
  intros (rl1 & Hs & Hr)%bind_Some. rewrite (IH _ Hr). destruct (last_set entries k) as [v|]; [done|].
  unfold setResourceQuantity, resourceMustParse in Hs. unfold quantity_text.
  destruct (str_eqb (TrimSpace r) "").
  - injection Hs as ->. by destruct (decide (n = k)).
  - apply bind_Some in Hs as (q & Hq & [= <-]).
    destruct (decide (n = k)) as [->|Hn]; [by rewrite lookup_insert_eq, Hq|by rewrite lookup_insert_ne].
Qed.

Lemma last_set_app l1 l2 k :
  last_set (l1 ++ l2) k = match last_set l2 k with Some v => Some v | None => last_set l1 k end.
Proof.
  induction l1 as [|[n r] l1 IH]; cbn; [by destruct (last_set l2 k)|].
  rewrite IH. by destruct (last_set l2 k).
Qed.

Lemma last_set_NoDup entries k : NoDup entries.*1 ->
  last_set entries k = (list_to_map entries : gmap string string) !! k ≫= quantity_text.
Proof.
  induction entries as [|[n r] entries IH]; cbn; [by rewrite lookup_empty|].
  intros [Hn Hd]%NoDup_cons. rewrite IH by done. destruct (decide (n = k)) as [->|Hne].
  - rewrite lookup_insert_eq, (proj1 (not_elem_of_list_to_map entries k)) by done. done.
  - rewrite lookup_insert_ne by done. by destruct (_ ≫= _).
Qed.

(** The text of the limit a configuration with overrides sets for a resource. *)
Definition quota_text (cfg : Config) (overrides : gmap string string) (k : string) : option string :=
  match overrides !! k ≫= quantity_text with
  | Some v => Some v
  | None => (list_to_map (quota_entries cfg) : gmap string string) !! k ≫= quantity_text
  end.

Lemma quota_text_last cfg overrides k : NoDup overrides.*1 ->
  last_set (quota_entries cfg ++ overrides) k = quota_text cfg (list_to_map overrides) k.
Proof.
  intros Hd. rewrite last_set_app, !last_set_NoDup; [done| |done].
  apply (bool_decide_unpack _). by vm_compute.
Qed.

Lemma default_quota_lookup cfg overrides hard k :
  NoDup overrides.*1 -> defaultQuota ParseQuantity cfg overrides = Some hard ->
  hard !! k = quota_text cfg (list_to_map overrides) k ≫= ParseQuantity.
Proof.
  intros Hd H. rewrite (set_all_lookup _ _ _ _ H), quota_text_last, lookup_empty by done.
  by destruct (quota_text _ _ _).
Qed.

Lemma default_quota_panics cfg overrides :
  defaultQuota ParseQuantity cfg overrides = None <-> Exists unparsable (quota_entries cfg ++ overrides).
Proof. apply set_all_None. Qed.

(** The quota of a namespace has, for each resource, the override when there is one that is not
    blank and the configured default otherwise; building it panics exactly when one of the
    values to be set does not parse, so a quantity a client of the API sends can panic the
    request; and the order in which Go visits the map of overrides does not matter. *)
Theorem default_quota_spec (cfg : Config) (overrides : list (string * string)) :
  NoDup overrides.*1 ->
  (forall hard k, defaultQuota ParseQuantity cfg overrides = Some hard ->
     hard !! k = quota_text cfg (list_to_map overrides) k ≫= ParseQuantity) /\
  (defaultQuota ParseQuantity cfg overrides = None <-> Exists unparsable (quota_entries cfg ++ overrides)) /\
  (forall overrides', overrides ≡ₚ overrides' ->
     defaultQuota ParseQuantity cfg overrides = defaultQuota ParseQuantity cfg overrides').
Proof.
  intros Hd. split; [by eauto using default_quota_lookup|]. split; [apply default_quota_panics|].
  intros ov' Hp. assert (Hd' : NoDup ov'.*1) by by rewrite <- Hp.
  assert (Hn : defaultQuota ParseQuantity cfg overrides = None <-> defaultQuota ParseQuantity cfg ov' = None).
  { rewrite !default_quota_panics, !Exists_exists. by setoid_rewrite Hp. }
  destruct (defaultQuota ParseQuantity cfg overrides) as [h|] eqn:E1,
    (defaultQuota ParseQuantity cfg ov') as [h'|] eqn:E2; [|by destruct Hn as [_ Hn]; specialize (Hn eq_refl)|
      by destruct Hn as [Hn _]; specialize (Hn eq_refl)|reflexivity].
  f_equal. apply map_eq. intros k. rewrite (default_quota_lookup _ _ _ k Hd E1), (default_quota_lookup _ _ _ k Hd' E2).
  by rewrite (list_to_map_proper overrides ov').
Qed.
End QuotaProofs.

(** Quantities that are decimal integers. *)
Definition parse_ex : string -> option Z := Atoi.

Lemma default_quota_spec_witness :
  quota_text zero_config (list_to_map [("pods", " 7 "); ("gpu", "")]) "pods" = Some "7" /\
  defaultQuota parse_ex zero_config [("pods", " 7 "); ("gpu", "")] =
  defaultQuota parse_ex zero_config [("gpu", ""); ("pods", " 7 ")].
Proof.
  split; [by vm_compute|].
  apply (default_quota_spec parse_ex zero_config [("pods", " 7 "); ("gpu", "")]).
  - apply (bool_decide_unpack _). by vm_compute.
  - apply perm_swap.
Defined.

(** ** Isolation

    Who may talk to a pod, by the documented meaning of a set of network policies: a direction
    no policy of the namespace governs is open, otherwise some rule must admit the peer. *)

Record Endpoint := mkEndpoint {
  ep_Namespace : string; ep_NamespaceLabels : gmap string string; ep_PodLabels : gmap string string
}.

Definition peer_matches (ns : string) (peer : PolicyPeer) (e : Endpoint) : Prop :=
  match peer_Namespaces peer with Some l => l ⊆ ep_NamespaceLabels e | None => ep_Namespace e = ns end /\
  match peer_Pods peer with Some l => l ⊆ ep_PodLabels e | None => True end.

Definition rule_admits (ns : string) (r : PolicyRule) (e : Endpoint) (proto : string) (port : Z) : Prop :=
  (rule_Peers r = [] \/ Exists (fun p => peer_matches ns p e) (rule_Peers r)) /\
  (rule_Ports r = [] \/ mkPort proto port ∈ rule_Ports r).

Definition rules_of (direction : string) (np : NetworkPolicy) : list PolicyRule :=
  if str_eqb direction "Ingress" then np_Ingress np else np_Egress np.

Definition traffic_allowed (policies : list NetworkPolicy) (ns direction : string) (e : Endpoint)
    (proto : string) (port : Z) : Prop :=
  let governing := List.filter (fun np => str_eqb (np_Namespace np) ns && existsb (str_eqb direction) (np_PolicyTypes np)) policies in
  governing = [] \/
  Exists (fun np => Exists (fun r => rule_admits ns r e proto port) (rules_of direction np)) governing.

Lemma Exists_one {A} (P : A -> Prop) x : Exists P [x] <-> P x.
Proof. rewrite Exists_cons, Exists_nil. tauto. Qed.

(** A governed direction, the default denial aside. *)
Lemma governed {A} (P : A -> Prop) deny l : ~ P deny -> (deny :: l = [] \/ Exists P (deny :: l)) <-> Exists P l.
Proof. intros H. rewrite Exists_cons. split; [intros [?|[?|?]]; done|auto]. Qed.

(** The policies of a tenant namespace leave its pods one way out, DNS over UDP to the configured
    pods, and one way in, from the namespaces that carry the configured ingress label; with no
    such label configured nothing may come in. *)
Theorem tenant_isolation (cfg : Config) (ns : string) (e : Endpoint) (proto : string) (port : Z) :
  let policies := BuildTenantNetworkPolicies cfg ns in
  (traffic_allowed policies ns "Egress" e proto port <->
   ep_NamespaceLabels e !! cfg_DNSNamespaceLabelKey cfg = Some (cfg_DNSNamespaceLabelValue cfg) /\
   ep_PodLabels e !! cfg_DNSPodLabelKey cfg = Some (cfg_DNSPodLabelValue cfg) /\ proto = "UDP" /\ port = 53%Z) /\
  (traffic_allowed policies ns "Ingress" e proto port <->
   cfg_IngressNamespaceLabelKey cfg <> "" /\ cfg_IngressNamespaceLabelValue cfg <> "" /\
   ep_NamespaceLabels e !! cfg_IngressNamespaceLabelKey cfg = Some (cfg_IngressNamespaceLabelValue cfg)).
Proof.
  cbv zeta. unfold BuildTenantNetworkPolicies, traffic_allowed.
  assert (Hdeny : forall d, ~ Exists (fun r => rule_admits ns r e proto port)
    (rules_of d (mkNetworkPolicy "default-deny" ns ["Ingress"; "Egress"] [] [])))
    by (intros d; unfold rules_of; destruct (str_eqb d "Ingress"); by intros H%Exists_nil).
  destruct (negb (str_eqb (cfg_IngressNamespaceLabelKey cfg) "") && _) eqn:Ei;
    cbn [List.filter np_Namespace app]; rewrite str_eqb_refl; cbn [andb existsb np_PolicyTypes];
    (split; (etransitivity; [apply governed, Hdeny|]); rewrite ?Exists_nil;
      [etransitivity; [apply Exists_one|]; etransitivity; [apply Exists_one|];
       unfold rule_admits; cbn [rule_Peers rule_Ports]; rewrite Exists_one; unfold peer_matches;
       cbn [peer_Namespaces peer_Pods]; rewrite !map_singleton_subseteq_l, list_elem_of_singleton; naive_solver|]).
  - apply andb_true_iff in Ei as [Hk%negb_true_iff%str_eqb_neq Hv%negb_true_iff%str_eqb_neq].
    etransitivity; [apply Exists_one|]. etransitivity; [apply Exists_one|].
    unfold rule_admits; cbn [rule_Peers rule_Ports]. rewrite Exists_one. unfold peer_matches.
    cbn [peer_Namespaces peer_Pods]. rewrite map_singleton_subseteq_l. naive_solver.
  - split; [done|]. intros (Hk%str_eqb_neq & Hv%str_eqb_neq & _).
    by rewrite Hk, Hv in Ei.
Qed.

(** What a set of rules lets its subject do; a star stands for anything. *)
Definition listed (x : string) (l : list string) : bool := existsb (str_eqb "*") l || existsb (str_eqb x) l.
Definition rbac_permits (rules : list RoleRule) (group resource verb : string) : bool :=
  existsb (fun r => listed group (APIGroups r) && listed resource (Resources r) && listed verb (Verbs r)) rules.

(** The role bound to a tenant's service account lets it change workloads and their
    configuration only: no verb is granted on quotas, limit ranges, network policies, roles,
    bindings, namespaces or service accounts, ingresses can only be read, and the binding names
    that account of that namespace and nothing else. *)
Theorem tenant_role_confined (ns sa role rb verb : string) :
  let '(account, r, b) := BuildNamespaceRBAC ns sa role rb defaultRoleRules in
  Forall (fun gr => rbac_permits (role_Rules r) gr.1 gr.2 verb = false)
    [("", "resourcequotas"); ("", "limitranges"); ("", "namespaces"); ("", "serviceaccounts");
     ("", "serviceaccounts/token"); ("", "nodes"); ("networking.k8s.io", "networkpolicies");
     ("rbac.authorization.k8s.io", "roles"); ("rbac.authorization.k8s.io", "rolebindings");
     ("rbac.authorization.k8s.io", "clusterrolebindings")] /\
  rbac_permits (role_Rules r) "networking.k8s.io" "ingresses" verb = existsb (str_eqb verb) ["get"; "list"; "watch"] /\
  rb_Subjects b = [mkSubject "ServiceAccount" (sa_Name account) (sa_Namespace account)] /\
  sa_Namespace account = ns /\ role_Namespace r = ns /\ rb_Namespace b = ns /\
  ref_Kind (rb_RoleRef b) = "Role" /\ ref_Name (rb_RoleRef b) = role_Name r.
Proof.
  cbn [BuildNamespaceRBAC role_Rules]. split; [repeat constructor|]. split; [|done].
  apply orb_false_r.
Qed.

(** With the default settings the documented default scope is never applied: the quota counts
    pods and services, which the scope is taken not to support. *)
Lemma default_scope_dropped {Q} (hard : ResourceList Q) :
  is_Some (hard !! "pods") ->
  (filterQuotaScopes (Quantity := Q) hard (buildQuotaScopes "NotBestEffort")) = ([], ["NotBestEffort"]).
Proof.
  intros [q Hq]. unfold filterQuotaScopes.
  assert (Hu : unsupported_scope hard "NotBestEffort" = true).
  { unfold unsupported_scope, hasUnsupportedResourcesForNotBestEffort. cbn [str_eqb bool_decide].
    apply existsb_exists. exists "pods". split; [|done].
    apply list_elem_of_In, list_elem_of_fmap. exists ("pods", q). split; [done|]. by apply elem_of_map_to_list. }
  replace (buildQuotaScopes "NotBestEffort") with ["NotBestEffort"] by by vm_compute.
  cbn [List.filter]. by rewrite Hu.
Qed.
