(* ===== verification/Kubeconfig.v ===== *)
(** The kubeconfigs handed to tenants: [buildNamespaceScopedKubeconfig], [extractYAMLScalar],
    [extractServer] and [extractCABase64] of [internal/service/service.go]. *)

From Stdlib Require Import Ascii ZArith Lia.
From stdpp Require Import base sets strings list.
From S2P Require Import Prelude Utf8 GoStrings Hash Crypto.

(** ** strings.Index *)

(** The text before and after the first occurrence of [p]. *)
Fixpoint find_sub (p l : list ascii) : option (list ascii * list ascii) :=
  if prefix_of_list p l then Some ([], drop (length p) l)
  else match l with
  | [] => None
  | c :: l => match find_sub p l with Some (a, b) => Some (c :: a, b) | None => None end
  end.

(** ** service.go *)

Definition nl : string := String "010" "".

Definition extractYAMLScalar (kc key : string) : string :=
  match find_sub (chars key) (chars kc) with
  | None => ""
  | Some (_, rest) =>
      let rest := TrimSpace (of_chars rest) in
      match find_sub (chars nl) (chars rest) with
      | Some (line, _) => of_chars line
      | None => rest
      end
  end.

Definition extractServer (kc : string) : string := extractYAMLScalar kc "server:".
Definition extractCABase64 (kc : string) : string := extractYAMLScalar kc "certificate-authority-data:".

Definition buildNamespaceScopedKubeconfig (server caBase64 namespace userLabel clusterLabel token : string)
    : result string string :=
  if str_eqb server "" then Err "cluster server is required"
  else if str_eqb caBase64 "" then Err "cluster CA is required"
  else Ok (
    "apiVersion: v1" +:+ nl +:+ "kind: Config" +:+ nl +:+
    "clusters:" +:+ nl +:+
    "- cluster:" +:+ nl +:+
    "    certificate-authority-data: " +:+ caBase64 +:+
    nl +:+ "    server: " +:+ server +:+
    nl +:+ "  name: " +:+ clusterLabel +:+ nl +:+
    "contexts:" +:+ nl +:+ "- context:" +:+ nl +:+ "    cluster: " +:+ clusterLabel +:+
    nl +:+ "    namespace: " +:+ namespace +:+
    nl +:+ "    user: " +:+ userLabel +:+
    nl +:+ "  name: " +:+ clusterLabel +:+ nl +:+
    "current-context: " +:+ clusterLabel +:+
    nl +:+ "users:" +:+ nl +:+ "- name: " +:+ userLabel +:+
    nl +:+ "  user:" +:+ nl +:+ "    token: " +:+ token +:+ nl).

Example scrape_ex :
  (fun r => match r with Ok kc => (extractServer kc, extractCABase64 kc) | Err _ => ("", "") end)
    (buildNamespaceScopedKubeconfig "https://10.0.0.1:6443" "Q0E=" "ns" "u" "c" "t") =
  ("https://10.0.0.1:6443", "Q0E=").
Proof. by vm_compute. Qed.

(** ** Reading back a line *)

Lemma prefix_of_list_app p l : prefix_of_list p (p ++ l) = true.
Proof. apply prefix_of_list_spec. eauto. Qed.

(** The first occurrence is the one after [a] when none starts in [a]. *)
Lemma find_sub_app p a b :
  (forall a1 c a2, a = a1 ++ c :: a2 -> prefix_of_list p (c :: a2 ++ b) = false) ->
  find_sub p (a ++ b) = (fun '(x, y) => (a ++ x, y)) <$> find_sub p b.
Proof.
  induction a as [|c a IH]; intros H; cbn [app].
  { by destruct (find_sub p b) as [[]|]. }
  cbn [find_sub]. rewrite (H [] c a eq_refl), IH; [by destruct (find_sub p b) as [[]|]|].
  intros a1 d a2 ->. by apply (H (c :: a1) d a2).
Qed.

Lemma find_sub_here p l : find_sub p (p ++ l) = Some ([], l).
Proof. destruct (p ++ l) eqn:E; cbn; by rewrite <- E, prefix_of_list_app, drop_app_length. Qed.

(** No occurrence starts in a stretch without the last byte of [p] that is followed by a byte
    that is not in [p]. *)
Lemma find_sub_skip p q a x l :
  q ∉ a -> x ∉ p ++ [q] -> find_sub (p ++ [q]) (a ++ x :: l) = (fun '(u, v) => (a ++ u, v)) <$> find_sub (p ++ [q]) (x :: l).
Proof.
  intros Hq Hx. apply find_sub_app. intros a1 c a2 ->. apply not_true_is_false.
  intros [k Hk]%prefix_of_list_spec. change (c :: a2 ++ x :: l) with ((c :: a2) ++ x :: l) in Hk.
  apply app_eq_inv in Hk as [(m & H1 & H2)|(m & H1 & H2)].
  - apply Hq. apply elem_of_app. right. rewrite H1. set_solver.
  - destruct m as [|y m]; cbn in H2; [|injection H2 as -> _; apply Hx; rewrite H1; set_solver].
    apply Hq. rewrite app_nil_r in H1. apply elem_of_app. right. rewrite <- H1. set_solver.
Qed.

Lemma find_sub_cons p c l a b :
  prefix_of_list p (c :: l) = false -> find_sub p l = Some (a, b) -> find_sub p (c :: l) = Some (c :: a, b).
Proof. intros H1 H2. cbn [find_sub]. by rewrite H1, H2. Qed.

Lemma strip_stops p2 p3 c l m :
  space1 c = false -> (forall a, p2 a c = false /\ p2 c a = false) ->
  (forall a b, p3 a b c = false /\ p3 a c b = false /\ p3 c a b = false) ->
  exists k, strip p2 p3 (l ++ c :: m) = k ++ c :: m.
Proof.
  intros H1 H2 H3. remember (length l) as n eqn:Hn. revert l Hn.
  induction n as [n IH] using (well_founded_induction Wf_nat.lt_wf); intros l ->.
  destruct l as [|a l]; cbn.
  { rewrite H1. exists []. destruct m as [|b m]; [done|]. rewrite (proj2 (H2 b)).
    destruct m as [|d m]; [done|]. by rewrite (proj2 (proj2 (H3 b d))). }
  destruct (space1 a); [apply (IH (length l)); cbn; lia|].
  destruct l as [|b l]; cbn.
  { rewrite (proj1 (H2 a)). exists [a]. destruct m as [|d m]; [done|]. by rewrite (proj1 (proj2 (H3 a d))). }
  destruct (p2 a b); [apply (IH (length l)); cbn; lia|].
  destruct l as [|d l]; cbn; [rewrite (proj1 (H3 a b)); by exists [a; b]|].
  destruct (p3 a b d); [apply (IH (length l)); cbn; lia | by exists (a :: b :: d :: l)].
Qed.

Lemma trim_right_stops a d b : solid d = true ->
  exists b1 b2, trim_right_space (a ++ d :: b) = a ++ d :: b1 /\ b = b1 ++ b2.
Proof.
  intros Hd. unfold solid in Hd. rewrite andb_true_iff, negb_true_iff, Z.ltb_lt in Hd. destruct Hd as [Hc H1].
  assert (Hr : exists k, trim_right_space (a ++ d :: b) = a ++ d :: k).
  { unfold trim_right_space. rewrite rev_app_distr. cbn [rev]. rewrite <- app_assoc. cbn [app].
    edestruct (strip_stops (fun a b => space2 b a) (fun a b c => space3 c b a) d (rev b) (rev a)) as [k ->]; [done|..].
    - intros x. unfold space2. rewrite !(proj2 (Z.eqb_neq (bz d) _)) by lia. by rewrite andb_false_r.
    - intros x y. unfold space3, in_range. repeat rewrite (proj2 (Z.eqb_neq (bz d) _)) by lia.
      rewrite !(proj2 (Z.leb_gt _ (bz d))) by lia. by rewrite !andb_false_r.
    - exists (rev k). rewrite rev_app_distr. cbn [rev]. by rewrite rev_involutive, <- app_assoc. }
  destruct Hr as [k Hk]. destruct (trim_right_prefix (a ++ d :: b)) as [r Hr]. rewrite Hk in Hr.
  exists k, r. split; [done|]. rewrite <- app_assoc in Hr. by apply app_inv_head in Hr as [= ->].
Qed.

Definition scalar (v : string) : Prop := v <> "" /\ Forall (fun c => solid c = true) (chars v).

Lemma solid_not_nl c : solid c = true -> c <> "010"%char.
Proof. by intros H ->. Qed.

(** The value of a line, whatever follows it. *)
Lemma scalar_line v post : scalar v ->
  let rest := TrimSpace (of_chars (" "%char :: chars v ++ post)) in
  (post = [] \/ exists p, post = "010"%char :: p) ->
  match find_sub (chars nl) (chars rest) with Some (line, _) => of_chars line | None => rest end = v.
Proof.
  intros [Hne Hs] rest Hpost. subst rest. unfold TrimSpace. rewrite !chars_of_chars.
  destruct (chars v) as [|c l] eqn:Ev; [by apply chars_nil in Ev|].
  assert (Hl : trim_left_space (" "%char :: (c :: l) ++ post) = (c :: l) ++ post).
  { apply Forall_cons in Hs as [Hc _]. change (strip space2 space3 (c :: (l ++ post)) = c :: l ++ post).
    by apply strip_id, solid_no_space_head. }
  rewrite Hl. destruct (exists_last (l := c :: l)) as (a & d & Ea); [done|]. rewrite Ea in *.
  apply Forall_app in Hs as Hs2. destruct Hs2 as [_ [Hd _]%Forall_cons].
  rewrite <- app_assoc. cbn [app]. destruct (trim_right_stops a d post Hd) as (b1 & b2 & -> & Hb).
  assert (Hn : "010"%char ∉ a ++ [d]).
  { intros Hin. apply (proj1 (Forall_forall _ _) Hs) in Hin. by apply solid_not_nl in Hin. }
  replace (a ++ d :: b1) with ((a ++ [d]) ++ b1) by by rewrite <- app_assoc.
  rewrite find_sub_app; cbn [nl chars].
  2: { intros a1 x a2 Hx. cbn. apply andb_false_intro1. apply bool_decide_eq_false. intros Hc. apply Hn. rewrite Hx, Hc. apply elem_of_app. right. left. }
  destruct b1 as [|x b1]; cbn; [by rewrite app_nil_r, <- Ev, of_chars_chars|].
  destruct Hpost as [->|[p ->]]; [by apply (f_equal length) in Hb|]. injection Hb as <- _. cbn.
  rewrite bool_decide_eq_true_2 by done. cbn. by rewrite app_nil_r, <- Ev, of_chars_chars.
Qed.

Lemma extract_line kc key v pre post :
  scalar v -> (post = [] \/ exists p, post = "010"%char :: p) ->
  find_sub (chars key) (chars kc) = Some (pre, " "%char :: chars v ++ post) -> extractYAMLScalar kc key = v.
Proof. intros Hv Hp Hf. unfold extractYAMLScalar. rewrite Hf. by apply scalar_line. Qed.

Lemma b64_digit_solid z : (0 <= z < 64)%Z -> solid (b64_digit z) = true /\ b64_digit z <> ":"%char.
Proof.
  intros Hz. assert (H : forallb (fun z => solid (b64_digit z) && negb (bool_decide (b64_digit z = ":"%char)))
    (Z.of_nat <$> seq 0 64) = true) by by vm_compute.
  rewrite forallb_forall in H. specialize (H z). rewrite andb_true_iff, negb_true_iff, bool_decide_eq_false in H.
  apply H, list_elem_of_In, list_elem_of_fmap. exists (Z.to_nat z). split; [lia|]. apply elem_of_seq. lia.
Qed.

(** An encoding is one word without a colon. *)
Lemma b64_chars_word l : Forall byte_ok l ->
  Forall (fun c => solid c = true /\ c <> ":"%char) (b64_chars l).
Proof.
  remember (length l) as n eqn:Hn. revert l Hn.
  induction n as [n IH] using (well_founded_induction Wf_nat.lt_wf); intros l -> Hl.
  destruct l as [|a [|b [|c l]]]; cbn [b64_chars];
    repeat match goal with H : Forall _ (_ :: _) |- _ => apply Forall_cons in H as [? H] end;
    unfold byte_ok in *; repeat (apply Forall_cons; split); try apply Forall_nil_2;
    try (split; [reflexivity|discriminate]); try (apply b64_digit_solid; Z.to_euclidean_division_equations; lia).
  apply (IH (length l)); cbn; [lia|done|done].
Qed.

Lemma b64_scalar l : Forall byte_ok l -> l <> [] -> scalar (b64_encode l) /\ ":"%char ∉ chars (b64_encode l).
Proof.
  intros Hl Hne. unfold scalar, b64_encode. rewrite chars_of_chars. pose proof (b64_chars_word l Hl) as Hw. split.
  - split; [|eapply Forall_impl; [exact Hw|naive_solver]]. rewrite of_chars_nil. by destruct l as [|a [|b [|c l]]].
  - intros Hin. by apply (proj1 (Forall_forall _ _) Hw) in Hin as [_ ?].
Qed.

(** A tenant kubeconfig is refused exactly when the server or the certificate is empty; from one
    that is built for a server that is one word and the encoding of a certificate, the scrapers
    read back that server and that certificate, whatever the labels, namespace and token are. *)
Theorem kubeconfig_scrape (server namespace user cluster token : string) (ca : bytes) :
  Forall (fun c => solid c = true) (chars server) -> Forall byte_ok ca ->
  match buildNamespaceScopedKubeconfig server (b64_encode ca) namespace user cluster token with
  | Err _ => server = "" \/ ca = []
  | Ok kc => server <> "" /\ ca <> [] /\ extractServer kc = server /\ b64_decode (extractCABase64 kc) = Some ca
  end.
Proof.
  intros Hs Hca. unfold buildNamespaceScopedKubeconfig.
  destruct (str_eqb server "") eqn:E1; [left; by apply str_eqb_eq|]. apply str_eqb_neq in E1.
  destruct (decide (ca = [])) as [->|Hne]; [by right|]. destruct (b64_scalar ca Hca Hne) as [Hsc Hcol].
  rewrite (proj2 (str_eqb_neq (b64_encode ca) "")) by apply Hsc.
  split; [done|]. split; [done|]. split.
  - eapply (extract_line _ _ server); [done|right|]; [eauto|].
    autorewrite with gostr. cbn [chars nl app].
    repeat (eapply find_sub_cons; [reflexivity|]).
    etransitivity; [apply (find_sub_skip (chars "server") ":"%char); [done|cbn; set_solver]|].
    apply fmap_Some. eexists (_, _). split; [|reflexivity].
    repeat (eapply find_sub_cons; [reflexivity|]). exact (find_sub_here (chars "server:") _).
  - unfold extractCABase64. erewrite (extract_line _ _ (b64_encode ca)); [by apply b64_decode_encode|done|right; eauto|].
    autorewrite with gostr. cbn [chars nl app].
    repeat (eapply find_sub_cons; [reflexivity|]). exact (find_sub_here (chars "certificate-authority-data:") _).
Qed.


Lemma kubeconfig_scrape_witness :
  match buildNamespaceScopedKubeconfig "https://10.0.0.1:6443" (b64_encode [67; 65]%Z) "tenant-ns" "server: x" "c" "t" with
  | Ok kc => extractServer kc = "https://10.0.0.1:6443" /\ b64_decode (extractCABase64 kc) = Some [67; 65]%Z
  | Err _ => False
  end.
Proof.
  pose proof (kubeconfig_scrape "https://10.0.0.1:6443" "tenant-ns" "server: x" "c" "t" [67; 65]%Z) as H.
  destruct (buildNamespaceScopedKubeconfig _ _ _ _ _ _) as [kc|e] eqn:E; [|by vm_compute in E].
  destruct H as (_ & _ & H); [|repeat constructor; lia|exact H].
  repeat constructor.
Defined.
