(* ===== verification/Workload.v ===== *)
(** The objects an application is deployed as, and the pure helpers of the deployment:
    of [internal/service/apps.go], [Flavor], [builtinFlavors], [AppPort],
    [RenderedObjectSummary], [DefaultContainerSecurityContext], [splitYAMLDocs],
    [decodeManifestDocuments], [summariseObjects], [isNamespacedKind], [parseInt], [getString]
    and [getMapString].

    Of the Kubernetes types the fields are kept that the code reads or writes. *)

From Stdlib Require Import Ascii ZArith Lia.
From stdpp Require Import base gmap strings list.
From S2P Require Import Prelude Utf8 GoStrings Kube Attachments Events.

Abbreviation labels := (gmap string string).

(** ** Objects *)

(** [corev1.SecurityContext] *)
Record ContainerSecurity := mkContainerSecurity {
  AllowPrivilegeEscalation : option bool;
  SeccompType : string;
  RunAsNonRoot : option bool;
  ReadOnlyRootFilesystem : option bool;
  DropCapabilities : list string;
}.

(** [corev1.Container]; the protocol of every port is TCP. *)
Record AppContainer (Q : Type) := mkAppContainer {
  ac_Name : string;
  ac_Image : string;
  ac_Security : ContainerSecurity;
  ac_Requests : gmap string Q;
  ac_Limits : gmap string Q;
  ac_Env : list EnvVar;
  ac_EnvFrom : list EnvFromSource;
  ac_Ports : list Z;
}.
Arguments mkAppContainer {Q}.
Arguments ac_Name {Q}.
Arguments ac_Image {Q}.
Arguments ac_Security {Q}.
Arguments ac_Requests {Q}.
Arguments ac_Limits {Q}.
Arguments ac_Env {Q}.
Arguments ac_EnvFrom {Q}.
Arguments ac_Ports {Q}.

(** [appsv1.Deployment] *)
Record AppDeployment (Q : Type) := mkAppDeployment {
  dp_Namespace : string;
  dp_Name : string;
  dp_Labels : labels;
  dp_Annotations : labels;
  dp_Replicas : option Z;
  dp_Selector : labels;
  dp_TemplateLabels : labels;
  dp_Containers : list (AppContainer Q);
}.
Arguments mkAppDeployment {Q}.
Arguments dp_Namespace {Q}.
Arguments dp_Name {Q}.
Arguments dp_Labels {Q}.
Arguments dp_Annotations {Q}.
Arguments dp_Replicas {Q}.
Arguments dp_Selector {Q}.
Arguments dp_TemplateLabels {Q}.
Arguments dp_Containers {Q}.

(** [corev1.ServicePort]; an empty protocol means TCP. *)
Record ServicePort := mkServicePort { sp_Port : Z; sp_TargetPort : Z; sp_Protocol : string }.

(** ConfigMaps and Secrets of a project. *)
Record ConfigObject := mkConfigObject { cm_Namespace : string; cm_Name : string; cm_Labels : labels; cm_Data : gmap string string }.
Record SecretObject := mkSecretObject {
  so_Namespace : string; so_Name : string; so_Labels : labels; so_Type : string; so_StringData : gmap string string
}.

(** [corev1.Service] *)
Record AppService := mkAppService {
  sv_Namespace : string;
  sv_Name : string;
  sv_Labels : labels;
  sv_Annotations : labels;
  sv_Ports : list ServicePort;
  sv_Type : string;
  sv_Selector : labels;
}.

(** One rule of [netv1.Ingress] with the path [/] and a Service as backend. *)
Record IngressRule := mkIngressRule { ir_Host : string; ir_Service : string; ir_Port : Z }.

Record AppIngress := mkAppIngress {
  ig_Namespace : string;
  ig_Name : string;
  ig_Labels : labels;
  ig_Annotations : labels;
  ig_Rules : list IngressRule;
  (** hosts and the name of the Secret *)
  ig_TLS : list (list string * string);
}.

(** [unstructured.Unstructured]; [un_Object] is the content apart from the named fields. *)
Record Unstructured := mkUnstructured {
  un_APIVersion : string;
  un_Kind : string;
  un_Namespace : string;
  un_Name : string;
  un_GenerateName : string;
  un_Labels : labels;
  un_Object : Meta;
}.

(** ** Flavors and ports *)

Record Flavor := mkFlavor { fl_CPU : string; fl_Memory : string; fl_Replicas : Z; fl_PVCSize : string }.

Definition builtinFlavors : gmap string Flavor :=
  {["f1-small" := mkFlavor "200m" "256Mi" 1 "";
    "f2-medium" := mkFlavor "500m" "512Mi" 2 "";
    "f3-large" := mkFlavor "1" "1Gi" 2 "5Gi"]}.

Record AppPort := mkAppPort { ContainerPort : Z; ServicePort_ : Z; Protocol : string; ServiceType : string }.

(** ** Manifests *)

Record RenderedObjectSummary := mkRendered { ro_Kind : string; ro_Name : string; ro_Namespace : string }.

#[export] Instance rendered_eq_dec : EqDecision RenderedObjectSummary.
Proof. solve_decision. Defined.

Definition newline : string := String "010" "".

(** The loop of [splitYAMLDocs]; [cur] is nil when it is empty. *)
Fixpoint split_docs (cur lines : list string) : list string :=
  match lines with
  | [] => match cur with [] => [] | _ => [Join cur newline] end
  | ln :: lines =>
      if str_eqb (TrimSpace ln) "---" then Join cur newline :: split_docs [] lines
      else split_docs (cur ++ [ln]) lines
  end.

Definition splitYAMLDocs (s : string) : list string := split_docs [] (Split s "010"%char).

Definition nsKinds : list string :=
  ["Deployment"; "StatefulSet"; "DaemonSet"; "Service"; "ConfigMap"; "Secret"; "Ingress"; "Job"; "CronJob";
   "PersistentVolumeClaim"; "ServiceAccount"; "Role"; "RoleBinding"].

Definition isNamespacedKind (kind : string) : bool := existsb (fun k => str_eqb k kind) nsKinds.

Section Decode.
(** [yaml.YAMLToJSON] followed by [UnmarshalJSON] *)
Context (decode_yaml : string -> result string Unstructured).

Fixpoint decode_docs (parts : list string) : result string (list Unstructured) :=
  match parts with
  | [] => Ok []
  | doc :: parts =>
      if str_eqb (TrimSpace doc) "" then decode_docs parts
      else u ← decode_yaml doc; rest ← decode_docs parts; Ok (u :: rest)
  end.

Definition decodeManifestDocuments (raw : string) : result string (list Unstructured) := decode_docs (splitYAMLDocs raw).
End Decode.

(** The body of the loop of [summariseObjects]. *)
Definition object_name (obj : Unstructured) : string :=
  let name := TrimSpace (un_Name obj) in
  if str_eqb name "" then TrimSpace (un_GenerateName obj) else name.

Definition summarise (defaultNamespace : string) (obj : Unstructured) : RenderedObjectSummary :=
  mkRendered (un_Kind obj) (object_name obj)
    (if str_eqb (un_Namespace obj) "" && isNamespacedKind (un_Kind obj) then defaultNamespace else un_Namespace obj).

Definition summariseObjects (objs : list Unstructured) (defaultNamespace : string)
    : list RenderedObjectSummary * list string :=
  (summarise defaultNamespace <$> objs,
   (fun obj => "object kind " +:+ un_Kind obj +:+ " is missing name") <$>
     List.filter (fun obj => str_eqb (object_name obj) "") objs).

(** ** Small helpers *)

Definition DefaultContainerSecurityContext (level : string) : ContainerSecurity :=
  let lvl := ToLower (TrimSpace level) in
  if str_eqb lvl "restricted"
  then mkContainerSecurity (Some false) "RuntimeDefault" (Some true) (Some true) ["ALL"]
  else mkContainerSecurity (Some false) "RuntimeDefault" None None [].

Definition lookup_meta (m : Meta) (k : string) : option any := snd <$> List.find (fun e => str_eqb e.1 k) m.

(** [out[k] = v] *)
Fixpoint set_key (k : string) (v : any) (m : Meta) : Meta :=
  match m with
  | [] => [(k, v)]
  | (k', v') :: m => if str_eqb k' k then (k, v) :: m else (k', v') :: set_key k v m
  end.

Definition int32_range (z : Z) : bool := (-2147483648 <=? z)%Z && (z <=? 2147483647)%Z.

Definition getString (m : Meta) (k : string) : string :=
  match lookup_meta m k with Some (AString v) => v | _ => "" end.

Fixpoint get_path (cur : any) (path : list string) : string :=
  match path with
  | [] => match cur with AString s => s | _ => "" end
  | p :: path =>
      match cur with
      | AMap m => match lookup_meta m p with Some v => get_path v path | None => "" end
      | _ => ""
      end
  end.

Definition getMapString (m : Meta) (path : list string) : string := get_path (AMap m) path.

Definition is_digit (c : ascii) : bool := (48 <=? nat_of_ascii c)%nat && (nat_of_ascii c <=? 57)%nat.

Fixpoint leading_digits (l : list ascii) : list ascii :=
  match l with
  | c :: l => if is_digit c then c :: leading_digits l else []
  | [] => []
  end.

Definition decimal (l : list ascii) : Z :=
  foldl (fun n c => (10 * n + Z.of_nat (nat_of_ascii c - 48))%Z) 0%Z l.

Definition int64_range (z : Z) : bool := (-9223372036854775808 <=? z)%Z && (z <=? 9223372036854775807)%Z.

(** [fmt.Sscanf] with [%d]: a sign and the longest run of digits; what follows is not read. *)
Definition parseInt (s : string) : option Z :=
  let '(neg, l) := match chars (TrimSpace s) with
                   | "-"%char :: l => (true, l)
                   | "+"%char :: l => (false, l)
                   | l => (false, l)
                   end in
  match leading_digits l with
  | [] => None
  | ds => let z := if neg then (- decimal ds)%Z else decimal ds in
          if int64_range z then Some z else None
  end.

(** ** Lemmas *)

Example parse_int_prefix : parseInt " 5abc" = Some 5%Z /\ parseInt "x5" = None /\ parseInt "-3" = Some (-3)%Z.
Proof. done. Qed.

(** Setting the namespace as the deployment does leaves the summary as it was. *)
Lemma summarise_set_namespace ns (u v : Unstructured) :
  un_Kind v = un_Kind u -> un_Name v = un_Name u -> un_GenerateName v = un_GenerateName u ->
  un_Namespace v = (if isNamespacedKind (un_Kind u) && str_eqb (un_Namespace u) "" then ns else un_Namespace u) ->
  mkRendered (un_Kind v) (object_name v) (un_Namespace v) = summarise ns u.
Proof.
  intros Hk Hn Hg Hns. unfold summarise, object_name. rewrite Hk, Hn, Hg, Hns, andb_comm. done.
Qed.
