(* ===== verification/Documents.v ===== *)
(** JSON documents and the decoding of structs by [encoding/json], for the bodies of requests and
    responses.

    Numbers of documents without a type stay as they are written. *)

From Stdlib Require Import Ascii ZArith Lia.
From stdpp Require Import base gmap strings list.
From S2P Require Import Prelude Utf8 GoStrings Json Config Events Workload.

(** ** Documents *)

Fixpoint any_of_json (v : json) : any :=
  match v with
  | JNull => AOther "null"
  | JBool b => AOther (if b then "true" else "false")
  | JNum n => AOther (of_chars n)
  | JStr s => AString (of_chars s)
  | JArr l => AList (List.map any_of_json l)
  | JObj l => AMap (List.map (fun '(k, v) => (of_chars k, any_of_json v)) l)
  end.

(** The value as an [interface{}]: of several members with a key the last is kept. *)
Fixpoint as_any (v : any) : any :=
  match v with
  | AMap m => AMap (foldl (fun acc e => set_key e.1 e.2 acc) [] (List.map (fun '(k, x) => (k, as_any x)) m))
  | AList l => AList (List.map as_any l)
  | _ => v
  end.

Inductive decoded := DecodeEOF | DecodeFailed | Decoded (v : any).

(** The first value of a text; what follows it is not looked at. *)
Definition first_value (s : string) : decoded :=
  match skip_space (utf8_pieces (chars s)) with
  | [] => DecodeEOF
  | l => match value (2 * len s + 2) 0 l with Some (v, _) => Decoded (any_of_json v) | None => DecodeFailed end
  end.

(** [json.NewDecoder(r.Body).Decode] up to the type of the target. *)
Definition decode_body (b : result string string) : decoded :=
  match b with Ok s => first_value s | Err _ => DecodeFailed end.

(** The same through [http.MaxBytesReader]: beyond the limit reading fails. *)
Definition decode_limited (limit : nat) (b : result string string) : decoded :=
  match b with
  | Err _ => DecodeFailed
  | Ok s => if (len s <=? limit)%nat then first_value s
            else match first_value (of_chars (take limit (chars s))) with DecodeEOF => DecodeFailed | d => d end
  end.

(** ** Fields of structs

    A member sets the field whose name it folds to, in the order of the document; [null] leaves
    texts, numbers and structs as they are and makes pointers, maps and slices nil. *)

Definition is_null (v : any) : bool := match v with AOther r => str_eqb r "null" | _ => false end.

Definition members_of (m : Meta) (name : string) : list any :=
  snd <$> List.filter (fun e => EqualFold e.1 name) m.

Definition decode_field {A} (zero : A) (f : A -> any -> option A) (m : Meta) (name : string) : option A :=
  foldl (fun acc v => a ← acc; f a v) (Some zero) (members_of m name).

Definition doc_text : Meta -> string -> option string := decode_field "" (fun s v =>
  match v with AString t => Some t | _ => if is_null v then Some s else None end).

Definition int32_of (v : any) : option Z :=
  match v with AOther r => z ← Atoi r; if int32_range z then Some z else None | _ => None end.

Definition doc_int : Meta -> string -> option Z := decode_field 0%Z (fun z v => if is_null v then Some z else int32_of v).

Definition doc_opt_int : Meta -> string -> option (option Z) :=
  decode_field None (fun _ v => if is_null v then Some None else Some <$> int32_of v).

Definition doc_bool : Meta -> string -> option bool := decode_field false (fun b v =>
  match v with
  | AOther r => if str_eqb r "true" then Some true else if str_eqb r "false" then Some false
                else if str_eqb r "null" then Some b else None
  | _ => None
  end).

Definition any_text (v : any) : option string :=
  match v with AString t => Some t | _ => if is_null v then Some "" else None end.

Definition doc_strings : Meta -> string -> option (gmap string string) := decode_field ∅ (fun acc v =>
  match v with
  | AMap l => foldl (fun acc e => a ← acc; t ← any_text e.2; Some (<[e.1 := t]> a)) (Some acc) l
  | _ => if is_null v then Some ∅ else None
  end).

Definition doc_list {A} (f : any -> option A) : Meta -> string -> option (list A) := decode_field [] (fun _ v =>
  match v with AList l => mapM f l | _ => if is_null v then Some [] else None end).

Definition doc_meta : Meta -> string -> option Meta := decode_field [] (fun acc v =>
  match v with
  | AMap l => Some (foldl (fun acc e => set_key e.1 (as_any e.2) acc) acc l)
  | _ => if is_null v then Some [] else None
  end).

(** The same with nil told from the empty map. *)
Definition doc_opt_meta : Meta -> string -> option (option Meta) := decode_field None (fun acc v =>
  match v with
  | AMap l => Some (Some (foldl (fun acc e => set_key e.1 (as_any e.2) acc) (default [] acc) l))
  | _ => if is_null v then Some None else None
  end).

(** The members of a struct: those of all objects that set it. *)
Definition doc_struct {A} (f : Meta -> option A) (m : Meta) (name : string) : option A :=
  ms ← decode_field [] (fun acc v => match v with AMap l => Some (acc ++ l) | _ => if is_null v then Some acc else None end) m name;
  f ms.

Definition doc_ptr {A} (f : Meta -> option A) (m : Meta) (name : string) : option (option A) :=
  ms ← decode_field None (fun acc v =>
         match v with AMap l => Some (Some (default [] acc ++ l)) | _ => if is_null v then Some None else None end) m name;
  match ms with Some l => Some <$> f l | None => Some None end.

(** A struct that is a whole value. *)
Definition struct_value {A} (f : Meta -> option A) (v : any) : option A :=
  match v with AMap m => f m | _ => if is_null v then f [] else None end.

(** [Decode(&req)]: [None] when it returns an error. *)
Definition Decode {A} (f : Meta -> option A) (b : result string string) : option A :=
  match decode_body b with Decoded v => struct_value f v | _ => None end.

(** The same where [io.EOF] is no error. *)
Definition decode_optional {A} (f : Meta -> option A) (b : result string string) : option A :=
  match decode_body b with Decoded v => struct_value f v | DecodeEOF => f [] | DecodeFailed => None end.
