(* ===== verification/Dns.v ===== *)
(** DNS records: [internal/dns/providers.go], the three providers and their selection.

    A request is its method, address, headers and the value that is marshalled into its body; a
    response has a status and the first JSON value of its body.  Errors of [url.Parse] are shown
    without the address.  The services behind the providers are the interface [DnsHttp]. *)

From Stdlib Require Import Ascii ZArith Lia.
From stdpp Require Import base gmap strings list.
From S2P Require Import Prelude Utf8 GoStrings NetURL NetIP Config Events Documents.

(** ** Data *)

Record HTTPProvider := mkHTTPProvider { hp_baseURL : string; hp_apiKey : string }.
Record CloudflareProvider := mkCloudflareProvider { cf_baseURL : string; cf_apiToken : string; cf_zoneID : string }.
Record PowerDNSProvider := mkPowerDNSProvider {
  pd_baseURL : string; pd_apiKey : string; pd_serverID : string; pd_zone : string
}.
Inductive Provider := HTTP (p : HTTPProvider) | Cloudflare (p : CloudflareProvider) | PowerDNS (p : PowerDNSProvider).

Record recordPayload := mkRecordPayload { rp_Type : string; rp_Value : string }.
Record ensurePayload := mkEnsurePayload { en_FQDN : string; en_TTL : Z; en_Records : list recordPayload }.

Record cloudflareRecord := mkCloudflareRecord {
  cr_ID : string; cr_Type : string; cr_Name : string; cr_Content : string; cr_TTL : Z
}.

Record powerDNSRRSet := mkRRSet {
  rs_Name : string; rs_Type : string; rs_TTL : Z; rs_ChangeType : string;
  (** content and whether it is disabled *)
  rs_Records : list (string * bool)
}.

Inductive dns_body :=
| NoBody
| EnsureBody (p : ensurePayload)
(** type, name, content, ttl and [proxied] *)
| RecordBody (type name content : string) (ttl : Z) (proxied : bool)
| ZoneBody (rrsets : list powerDNSRRSet).

Record dns_request := mkDnsRequest { dr_Method : string; dr_URL : string; dr_Header : list (string * string); dr_Body : dns_body }.
Record dns_response := mkDnsResponse { ds_StatusCode : Z; ds_Status : string; ds_Body : decoded }.

Class DnsHttp (S : Type) := {
  dns_Do : dns_request -> io S string dns_response;
  (** the order in which a [range] visits the entries of a map *)
  range_order : list (string * string) -> list (string * string);
}.

(** ** Text *)

(** [strings.TrimRight] with a cutset of one character *)
Definition TrimRight (s : string) (c : ascii) : string :=
  of_chars (rev (drop_while (Ascii.eqb c) (rev (chars s)))).

Definition ensureTrailingDot (value : string) : string :=
  let value := TrimSpace value in
  if str_eqb value "" || HasSuffix value "." then value else value +:+ ".".

(** [path.Join] *)
Definition path_Join (l : list string) : string :=
  match List.filter (fun e => negb (str_eqb e "")) l with [] => "" | l => path_Clean (Join l "/") end.

Definition set_path (u : URL) (p : string) : URL :=
  mkURL (Scheme u) (Opaque u) (User u) (Host u) p (RawPath u) (OmitHost u) (ForceQuery u) (RawQuery u) (Fragment u) (RawFragment u).
Definition set_query (u : URL) (q : string) : URL :=
  mkURL (Scheme u) (Opaque u) (User u) (Host u) (Path u) (RawPath u) (OmitHost u) (ForceQuery u) q (Fragment u) (RawFragment u).

(** [Values.Set] *)
Definition Values_Set (k v : string) (q : Values) : Values := List.filter (fun e => negb (str_eqb e.1 k)) q ++ [(k, v)].

Definition url_text {A} (r : result url_error A) : result string A :=
  match r with Ok a => Ok a | Err e => Err (url_error_text e) end.

(** [url.JoinPath(base, elem)] *)
Definition url_JoinPath (base elem : string) : result string string :=
  u ← url_text (url_Parse base);
  let first := EscapedPath u in
  let p := if HasPrefix first "/" then path_Join [first; elem] else of_chars (drop 1 (chars (path_Join ["/" +:+ first; elem]))) in
  let p := if HasSuffix elem "/" && negb (HasSuffix p "/") then p +:+ "/" else p in
  match setPath u p with Ok u => Ok (URL_String u) | Err _ => Ok (URL_String u) end.

(** ** NewProvider *)

Definition NewProvider (cfg : Config) : option Provider :=
  let provider := ToLower (TrimSpace (cfg_DNSProvider cfg)) in
  if str_eqb provider "" || str_eqb provider "http" then
    let baseURL := TrimSpace (cfg_DNSAPIURL cfg) in
    let apiKey := TrimSpace (cfg_DNSAPIKey cfg) in
    if str_eqb baseURL "" || str_eqb apiKey "" then None else Some (HTTP (mkHTTPProvider (TrimRight baseURL "/") apiKey))
  else if str_eqb provider "cloudflare" then
    let baseURL := TrimSpace (cfg_CloudflareAPIBase cfg) in
    let token := TrimSpace (cfg_CloudflareAPIToken cfg) in
    let zoneID := TrimSpace (cfg_CloudflareZoneID cfg) in
    if str_eqb baseURL "" || str_eqb token "" || str_eqb zoneID "" then None
    else Some (Cloudflare (mkCloudflareProvider (TrimRight baseURL "/") token zoneID))
  else if str_eqb provider "powerdns" then
    let baseURL := TrimSpace (cfg_PowerDNSAPIURL cfg) in
    let apiKey := TrimSpace (cfg_PowerDNSAPIKey cfg) in
    let serverID := TrimSpace (cfg_PowerDNSServerID cfg) in
    let zone := TrimSpace (cfg_PowerDNSZone cfg) in
    if str_eqb baseURL "" || str_eqb apiKey "" || str_eqb serverID "" || str_eqb zone "" then None
    else Some (PowerDNS (mkPowerDNSProvider (TrimRight baseURL "/") apiKey serverID (ensureTrailingDot zone)))
  else None.

(** ** Addresses *)

Definition Is6 (a : Addr) : bool := match a with V6 _ _ => true | _ => false end.
Definition record_type (a : Addr) : string := if Is6 a then "AAAA" else "A".

(** Type and value of the valid addresses. *)
Definition records_of (addrs : list Addr) : list (string * string) :=
  (fun a => (record_type a, Addr_String a)) <$> List.filter IsValid addrs.

Section Providers.
Context {S : Type} `{http : DnsHttp S}.
Local Abbreviation dns := (io S string).

(** [http.NewRequest] and [Do]; the address is parsed once more. *)
Definition send (r : dns_request) : dns dns_response :=
  match url_text (url_Parse (dr_URL r)) with Err e => fail e | Ok _ => dns_Do r end.

Definition ret {A} (r : result string A) : dns A := fun s => (r, s).

Definition is_2xx (r : dns_response) : bool := (200 <=? ds_StatusCode r)%Z && (ds_StatusCode r <? 300)%Z.

Definition no_addresses (host : string) : dns unit := fail ("no valid ip addresses for " +:+ host).

(** *** HTTPProvider *)

Definition api_error_text (r : dns_response) : string :=
  default "" (match ds_Body r with Decoded v => struct_value (fun m => doc_text m "error") v | _ => None end).

(** The outcome of an answer. *)
Definition http_outcome (what : string) (r : dns_response) : dns unit :=
  if is_2xx r then mret tt
  else let e := api_error_text r in
       if negb (str_eqb e "") then fail ("dns api " +:+ what +:+ " failed: " +:+ ds_Status r +:+ " (" +:+ e +:+ ")")
       else fail ("dns api " +:+ what +:+ " failed: " +:+ ds_Status r).

Definition http_EnsureRecords (p : HTTPProvider) (host : string) (addrs : list Addr) (ttl : Z) : dns unit :=
  if str_eqb host "" || bool_decide (addrs = []) then mret tt
  else match records_of addrs with
  | [] => no_addresses host
  | l =>
      endpoint ← ret (url_JoinPath (hp_baseURL p) "records");
      resp ← send (mkDnsRequest "PUT" endpoint
               [("Content-Type", "application/json"); ("Authorization", "Bearer " +:+ hp_apiKey p)]
               (EnsureBody (mkEnsurePayload host ttl ((fun e => mkRecordPayload e.1 e.2) <$> l))));
      http_outcome "ensure" resp
  end.

Definition http_DeleteRecords (p : HTTPProvider) (host : string) : dns unit :=
  if str_eqb host "" then mret tt
  else
    u ← ret (url_text (url_Parse (hp_baseURL p)));
    let u := set_path u (TrimRight (Path u) "/" +:+ "/records") in
    let u := set_query u (Encode (Values_Set "fqdn" host (Query u))) in
    resp ← send (mkDnsRequest "DELETE" (URL_String u) [("Authorization", "Bearer " +:+ hp_apiKey p)] NoBody);
    http_outcome "delete" resp.

(** *** CloudflareProvider *)

Definition doc_int64 : Meta -> string -> option Z := decode_field 0%Z (fun z v =>
  if is_null v then Some z else match v with AOther r => Atoi r | _ => None end).

Definition decode_record (m : Meta) : option cloudflareRecord :=
  id ← doc_text m "id"; type ← doc_text m "type"; name ← doc_text m "name"; content ← doc_text m "content"; ttl ← doc_int64 m "ttl";
  Some (mkCloudflareRecord id type name content ttl).

(** [success], [errors] and [result] of [cloudflareListResponse]; those of the other answers
    hold one record. *)
Definition cloudflareListResponse (m : Meta) : option (bool * list string * list cloudflareRecord) :=
  ok ← doc_bool m "success"; errs ← doc_list (struct_value (fun m => doc_text m "message")) m "errors";
  result ← doc_list (struct_value decode_record) m "result";
  Some (ok, errs, result).
Definition cloudflareMutationResponse (m : Meta) : option (bool * list string) :=
  ok ← doc_bool m "success"; errs ← doc_list (struct_value (fun m => doc_text m "message")) m "errors";
  _ ← doc_struct decode_record m "result";
  Some (ok, errs).

Definition joinCloudflareErrors (errs : list string) : string :=
  match List.filter (fun m => negb (str_eqb m "")) (TrimSpace <$> errs) with
  | [] => "unknown error"
  | msgs => Join msgs "; "
  end.

Definition decode_json {A} (f : Meta -> option A) (r : dns_response) : dns A :=
  match ds_Body r with
  | Decoded v => match struct_value f v with Some a => mret a | None => fail "json" end
  | _ => fail "json"
  end.

(** The address of the records of the zone, or of one of them. *)
Definition records_url (p : CloudflareProvider) (more : list string) : result string URL :=
  u ← url_text (url_Parse (cf_baseURL p));
  Ok (set_path u (path_Join ([Path u; "zones"; cf_zoneID p; "dns_records"] ++ more))).

Definition authorization (p : CloudflareProvider) : string * string := ("Authorization", "Bearer " +:+ cf_apiToken p).

Definition list_request (p : CloudflareProvider) (host : string) : result string dns_request :=
  u ← records_url p [];
  Ok (mkDnsRequest "GET" (URL_String (set_query u (Encode (Values_Set "name" host (Query u))))) [authorization p] NoBody).
Definition create_request (p : CloudflareProvider) (host type value : string) (ttl : Z) : result string dns_request :=
  u ← records_url p [];
  Ok (mkDnsRequest "POST" (URL_String u) [("Content-Type", "application/json"); authorization p] (RecordBody type host value ttl false)).
Definition delete_request (p : CloudflareProvider) (id : string) : result string dns_request :=
  u ← records_url p [id];
  Ok (mkDnsRequest "DELETE" (URL_String u) [authorization p] NoBody).

Definition listRecords (p : CloudflareProvider) (host : string) : dns (list cloudflareRecord) :=
  req ← ret (list_request p host);
  resp ← send req;
  if negb (is_2xx resp) then fail ("cloudflare api list failed: " +:+ ds_Status resp)
  else
    out ← decode_json cloudflareListResponse resp;
    let '(ok, errs, result) := out in
    if negb ok then fail ("cloudflare api list failed: " +:+ joinCloudflareErrors errs) else mret result.

(** A request that changes a record. *)
Definition mutate (what : string) (req : result string dns_request) : dns unit :=
  req ← ret req;
  resp ← send req;
  if negb (is_2xx resp) then fail ("cloudflare api " +:+ what +:+ " failed: " +:+ ds_Status resp)
  else
    out ← decode_json cloudflareMutationResponse resp;
    if negb out.1 then fail ("cloudflare api " +:+ what +:+ " failed: " +:+ joinCloudflareErrors out.2) else mret tt.

Definition createRecord (p : CloudflareProvider) (host type value : string) (ttl : Z) : dns unit :=
  mutate "create" (create_request p host type value ttl).

Definition deleteRecord (p : CloudflareProvider) (id : string) : dns unit :=
  if str_eqb id "" then mret tt else mutate "delete" (delete_request p id).

Definition is_address (type : string) : bool := str_eqb type "A" || str_eqb type "AAAA".

Definition hasCloudflareRecord (records : list cloudflareRecord) (host type value : string) : bool :=
  existsb (fun r => str_eqb (cr_Name r) host && str_eqb (cr_Type r) type && str_eqb (cr_Content r) value) records.

Definition wanted (desired : list (string * string)) (r : cloudflareRecord) : bool :=
  existsb (fun e => str_eqb e.1 (cr_Type r) && str_eqb e.2 (cr_Content r)) desired.

(** A record that should no longer exist. *)
Definition drop_stale (p : CloudflareProvider) (host : string) (desired : list (string * string)) (r : cloudflareRecord) : dns unit :=
  if negb (str_eqb (cr_Name r) host) then mret tt
  else if negb (is_address (cr_Type r)) then mret tt
  else if wanted desired r then mret tt else deleteRecord p (cr_ID r).

Definition add_missing (p : CloudflareProvider) (host : string) (existing : list cloudflareRecord) (ttl : Z) (e : string * string) : dns unit :=
  if hasCloudflareRecord existing host e.1 e.2 then mret tt else createRecord p host e.1 e.2 ttl.

Definition record_ttl (ttl : Z) : Z := if (ttl <=? 0)%Z then 300%Z else ttl.

Definition cloudflare_EnsureRecords (p : CloudflareProvider) (host : string) (addrs : list Addr) (ttl : Z) : dns unit :=
  if str_eqb host "" || bool_decide (addrs = []) then mret tt
  else
    let ttl := record_ttl ttl in
    match remove_dups (records_of addrs) with
    | [] => no_addresses host
    | desired =>
        existing ← listRecords p host;
        _ ← for_each (drop_stale p host desired) existing;
        for_each (add_missing p host existing ttl) (range_order desired)
    end.

Definition drop_address (p : CloudflareProvider) (host : string) (r : cloudflareRecord) : dns unit :=
  if negb (str_eqb (cr_Name r) host) then mret tt
  else if negb (is_address (cr_Type r)) then mret tt
  else deleteRecord p (cr_ID r).

Definition cloudflare_DeleteRecords (p : CloudflareProvider) (host : string) : dns unit :=
  if str_eqb host "" then mret tt
  else
    records ← listRecords p host;
    for_each (drop_address p host) records.

(** *** PowerDNSProvider *)

Definition patchZone (p : PowerDNSProvider) (rrsets : list powerDNSRRSet) : dns unit :=
  u ← ret (url_text (url_Parse (pd_baseURL p)));
  let u := set_path u (path_Join [Path u; "servers"; pd_serverID p; "zones"; pd_zone p]) in
  resp ← send (mkDnsRequest "PATCH" (URL_String u)
           [("Content-Type", "application/json"); ("X-API-Key", pd_apiKey p)] (ZoneBody rrsets));
  if is_2xx resp then mret tt else fail ("powerdns api request failed: " +:+ ds_Status resp).

Definition rrset (hostName type : string) (ttl : Z) (addrs : list Addr) : list powerDNSRRSet :=
  match addrs with
  | [] => []
  | l => [mkRRSet hostName type ttl "REPLACE" ((fun a => (Addr_String a, false)) <$> l)]
  end.

Definition powerdns_EnsureRecords (p : PowerDNSProvider) (host : string) (addrs : list Addr) (ttl : Z) : dns unit :=
  if str_eqb host "" || bool_decide (addrs = []) then mret tt
  else
    let ttl := record_ttl ttl in
    let hostName := ensureTrailingDot host in
    let valid := List.filter IsValid addrs in
    match rrset hostName "A" ttl (List.filter (fun a => negb (Is6 a)) valid) ++ rrset hostName "AAAA" ttl (List.filter Is6 valid) with
    | [] => no_addresses host
    | rrsets => patchZone p rrsets
    end.

Definition powerdns_DeleteRecords (p : PowerDNSProvider) (host : string) : dns unit :=
  if str_eqb host "" then mret tt
  else
    let hostName := ensureTrailingDot host in
    patchZone p [mkRRSet hostName "A" 0 "DELETE" []; mkRRSet hostName "AAAA" 0 "DELETE" []].

(** *** The interface [Provider] *)

Definition EnsureRecords (p : Provider) : string -> list Addr -> Z -> dns unit :=
  match p with
  | HTTP p => http_EnsureRecords p
  | Cloudflare p => cloudflare_EnsureRecords p
  | PowerDNS p => powerdns_EnsureRecords p
  end.

Definition DeleteRecords (p : Provider) : string -> dns unit :=
  match p with
  | HTTP p => http_DeleteRecords p
  | Cloudflare p => cloudflare_DeleteRecords p
  | PowerDNS p => powerdns_DeleteRecords p
  end.
End Providers.
