(* ===== verification/DnsProofs.v ===== *)
(** The records of a host converge to its addresses, and nothing else in the zone is touched. *)

From Stdlib Require Import Ascii ZArith Lia.
From stdpp Require Import base gmap strings list.
From S2P Require Import Prelude Utf8 GoStrings NetURL NetIP Config Events Documents Dns.

(** ** Frames *)

(** What every request respects, the providers respect. *)
Section Frames.
Context {S : Type} `{http : DnsHttp S} (I : S -> S -> Prop) `{!PreOrder I}.
Context (Do_frame : forall req s r s', dns_Do req s = (r, s') -> I s s').

Definition framed {A} (m : io S string A) : Prop := forall s r s', m s = (r, s') -> I s s'.

Lemma framed_same {A} (m : io S string A) : (forall s, (m s).2 = s) -> framed m.
Proof. intros Hm s r s' H. specialize (Hm s). rewrite H in Hm. cbn in Hm. by subst. Qed.
Lemma framed_bind {A B} (m : io S string A) (f : A -> io S string B) : framed m -> (forall a, framed (f a)) -> framed (m ≫= f).
Proof.
  intros Hm Hf s r s' [(e & H & _)|(x & s1 & H1 & H)]%io_bind_case; [by eapply Hm|]. etransitivity; [by eapply Hm|by eapply Hf].
Qed.
Lemma framed_for_each {A} (f : A -> io S string unit) l : (forall x, framed (f x)) -> framed (for_each f l).
Proof. intros Hf. induction l as [|x l IH]; [by apply framed_same|]. by apply framed_bind. Qed.
Lemma framed_send req : framed (send req).
Proof. unfold send. destruct (url_text _); [intros s r s'; apply Do_frame|by apply framed_same]. Qed.

Ltac frame := repeat first [apply framed_send | apply framed_bind; [|intros ?] | apply framed_for_each; intros ?
  | solve [apply framed_same; done] | progress unfold decode_json | progress case_match].

Lemma EnsureRecords_frame p host addrs ttl : framed (EnsureRecords p host addrs ttl).
Proof.
  destruct p as [p|p|p]; cbn [EnsureRecords];
    unfold http_EnsureRecords, cloudflare_EnsureRecords, powerdns_EnsureRecords, patchZone, http_outcome, listRecords,
      drop_stale, deleteRecord, add_missing, createRecord, no_addresses, ret; cbv zeta; frame.
Qed.

Lemma DeleteRecords_frame p host : framed (DeleteRecords p host).
Proof.
  destruct p as [p|p|p]; cbn [DeleteRecords];
    unfold http_DeleteRecords, cloudflare_DeleteRecords, powerdns_DeleteRecords, patchZone, http_outcome, listRecords,
      drop_address, deleteRecord, ret; cbv zeta; frame.
Qed.
End Frames.

(** In particular an observation no request changes. *)
Definition same {S A} (f : S -> A) (s s' : S) : Prop := f s' = f s.
#[export] Instance same_preorder {S A} (f : S -> A) : PreOrder (same f).
Proof. split; unfold same; [by intros ?|intros ???; congruence]. Qed.

(** ** What the service documents *)

(** The records of an accepted listing. *)
Definition listed (r : dns_response) : option (list cloudflareRecord) :=
  if is_2xx r then
    match ds_Body r with
    | Decoded v => match struct_value cloudflareListResponse v with Some (true, _, l) => Some l | _ => None end
    | _ => None
    end
  else None.

(** A change was accepted. *)
Definition accepted (r : dns_response) : bool :=
  is_2xx r &&
  match ds_Body r with Decoded v => default false (fst <$> struct_value cloudflareMutationResponse v) | _ => false end.

Definition without (id : string) (l : list cloudflareRecord) : list cloudflareRecord :=
  List.filter (fun x => negb (str_eqb (cr_ID x) id)) l.

(** Different records of the zone, among them all of the host. *)
Definition covers (host : string) (l z : list cloudflareRecord) : Prop :=
  NoDup (cr_ID <$> l) /\ (forall x, x ∈ l -> x ∈ z) /\ forall x, x ∈ z -> cr_Name x = host -> x ∈ l.

Class CloudflareLaws (S : Type) `{http : DnsHttp S} (p : CloudflareProvider) := {
  zone : S -> list cloudflareRecord;
  zone_ids s : NoDup (cr_ID <$> zone s);
  zone_id_set s x : x ∈ zone s -> cr_ID x <> "";
  order_perm l : range_order l ≡ₚ l;
  list_zone host req s r s' : list_request p host = Ok req -> dns_Do req s = (r, s') ->
    zone s' = zone s /\ forall resp l, r = Ok resp -> listed resp = Some l -> covers host l (zone s);
  create_zone host type value ttl req s r s' : create_request p host type value ttl = Ok req -> dns_Do req s = (r, s') ->
    (exists id, zone s' = zone s ++ [mkCloudflareRecord id type host value ttl]) \/
    (zone s' = zone s /\ forall resp, r = Ok resp -> accepted resp = false);
  delete_zone id req s r s' : id ∈ cr_ID <$> zone s -> delete_request p id = Ok req -> dns_Do req s = (r, s') ->
    zone s' = without id (zone s) \/ (zone s' = zone s /\ forall resp, r = Ok resp -> accepted resp = false);
}.

Section Cloudflare.
Context {S : Type} `{http : DnsHttp S} (p : CloudflareProvider) `{laws : !CloudflareLaws S p}.

(** ** One request *)

Lemma send_inv req (s : S) r s' : send req s = (r, s') -> (s' = s /\ exists e, r = Err e) \/ dns_Do req s = (r, s').
Proof. unfold send. destruct (url_text _) as [u|e]; [by right|]. intros [= <- <-]. left. eauto. Qed.

Lemma listRecords_inv host s r s' : listRecords p host s = (r, s') ->
  zone s' = zone s /\ forall l, r = Ok l -> covers host l (zone s).
Proof.
  unfold listRecords. destruct (list_request p host) as [req|e] eqn:Er; [|by intros [= <- <-]].
  intros [(e & [=] & _)|(x & s1 & [= <- <-] & H)]%io_bind_case.
  apply io_bind_case in H as [(e & Hs & ->)|(resp & s1 & Hs & H)]; apply send_inv in Hs as [[-> [e' [=]]]|Hs]; subst; try done.
  - destruct (list_zone _ _ _ _ _ Er Hs) as [-> _]. done.
  - destruct (list_zone _ _ _ _ _ Er Hs) as [<- Hl]. specialize (Hl resp). unfold listed in Hl.
    destruct (is_2xx resp); cbn in H; [|by injection H as <- <-]. unfold decode_json in H.
    destruct (ds_Body resp) as [| |v]; [by injection H as <- <-..|].
    destruct (struct_value cloudflareListResponse v) as [[[ok errs] l]|]; [|by injection H as <- <-].
    cbn in H, Hl. destruct ok; injection H as <- <-; [|done]. split; [done|]. intros l' [= <-]. by apply Hl.
Qed.

Lemma mutate_inv what req s r s' : mutate what req s = (r, s') ->
  (s' = s /\ r <> Ok tt) \/ exists q x, req = Ok q /\ dns_Do q s = (x, s') /\ (r = Ok tt -> exists resp, x = Ok resp /\ accepted resp = true).
Proof.
  unfold mutate. destruct req as [q|e]; [|intros [= <- <-]; by left].
  intros [(e & [=] & _)|(x & s1 & [= <- <-] & H)]%io_bind_case.
  apply io_bind_case in H as [(e & Hs & ->)|(resp & s1 & Hs & H)]; apply send_inv in Hs as [[-> [e' [=]]]|Hs]; subst.
  - by left.
  - right. by exists q, (Err e).
  - right. exists q, (Ok resp). destruct (is_2xx resp) eqn:E2; cbn in H; [|by injection H as <- <-].
    unfold decode_json in H. destruct (ds_Body resp) as [| |v] eqn:Eb; [by injection H as <- <-..|].
    destruct (struct_value cloudflareMutationResponse v) as [[ok errs]|] eqn:Ev; [|by injection H as <- <-].
    destruct ok; cbn in H; injection H as <- <-; [|done]. split_and!; [done..|]. intros _. exists resp. split; [done|].
    unfold accepted. by rewrite E2, Eb, Ev.
Qed.

Lemma deleteRecord_inv id s r s' : id ∈ cr_ID <$> zone s -> deleteRecord p id s = (r, s') ->
  zone s' = without id (zone s) \/ (zone s' = zone s /\ r <> Ok tt).
Proof.
  intros Hid. unfold deleteRecord. destruct (str_eqb id "") eqn:E.
  { apply str_eqb_eq in E as ->. apply list_elem_of_fmap in Hid as (x & Hx & Hin%zone_id_set). congruence. }
  intros [[-> ?]|(q & x & Hq & Hd & Hr)]%mutate_inv; [by right|].
  destruct (delete_zone _ _ _ _ _ Hid Hq Hd) as [Hz|[Hz Hn]]; [by left|]. right. split; [done|].
  intros (resp & -> & Ha)%Hr. by rewrite (Hn resp) in Ha.
Qed.

Lemma createRecord_inv host type value ttl s r s' : createRecord p host type value ttl s = (r, s') ->
  (exists id, zone s' = zone s ++ [mkCloudflareRecord id type host value ttl]) \/ (zone s' = zone s /\ r <> Ok tt).
Proof.
  intros [[-> ?]|(q & x & Hq & Hd & Hr)]%mutate_inv; [by right|].
  destruct (create_zone _ _ _ _ _ _ _ _ Hq Hd) as [Hz|[Hz Hn]]; [by left|]. right. split; [done|].
  intros (resp & -> & Ha)%Hr. by rewrite (Hn resp) in Ha.
Qed.

(** ** The loops *)

(** The records a provider manages. *)
Definition owned (host : string) (x : cloudflareRecord) : bool := str_eqb (cr_Name x) host && is_address (cr_Type x).
Definition stale (host : string) (desired : list (string * string)) (x : cloudflareRecord) : bool :=
  owned host x && negb (wanted desired x).
Definition keeps_ids (gone : list string) (l : list cloudflareRecord) : list cloudflareRecord :=
  List.filter (fun x => negb (existsb (str_eqb (cr_ID x)) gone)) l.

Lemma keeps_none l : keeps_ids [] l = l.
Proof. unfold keeps_ids. induction l as [|x l IH]; [done|]. cbn in *. by rewrite IH. Qed.

Lemma keeps_cons id gone l : keeps_ids gone (without id l) = keeps_ids (id :: gone) l.
Proof.
  unfold keeps_ids, without. induction l as [|x l IH]; cbn; [done|].
  destruct (str_eqb (cr_ID x) id); cbn; [done|]. destruct (existsb _ gone); cbn; by rewrite IH.
Qed.

Lemma drop_stale_inv host desired x s r s' : cr_ID x ∈ cr_ID <$> zone s -> drop_stale p host desired x s = (r, s') ->
  (stale host desired x = true /\ zone s' = without (cr_ID x) (zone s)) \/
  (zone s' = zone s /\ (stale host desired x = false \/ r <> Ok tt)).
Proof.
  intros Hid. unfold drop_stale, stale, owned. destruct (str_eqb (cr_Name x) host); cbn; [|intros [= _ <-]; auto].
  destruct (is_address (cr_Type x)); cbn; [|intros [= _ <-]; auto]. destruct (wanted desired x); cbn; [intros [= _ <-]; auto|].
  intros [Hz|[Hz Hr]]%deleteRecord_inv; [left; auto|right; auto|done].
Qed.

Lemma in_without id x l : x ∈ l -> cr_ID x <> id -> x ∈ without id l.
Proof.
  intros Hx Hn. apply list_elem_of_In, filter_In. rewrite <- list_elem_of_In. split; [done|].
  destruct (str_eqb _ _) eqn:E; [|done]. by apply str_eqb_eq in E.
Qed.

Lemma drop_loop host desired l s r s' : NoDup (cr_ID <$> l) -> (forall x, x ∈ l -> x ∈ zone s) ->
  for_each (drop_stale p host desired) l s = (r, s') ->
  exists gone, zone s' = keeps_ids gone (zone s) /\
    (forall id, id ∈ gone -> exists x, x ∈ l /\ cr_ID x = id /\ stale host desired x = true) /\
    (r = Ok tt -> forall x, x ∈ l -> stale host desired x = true -> cr_ID x ∈ gone).
Proof.
  revert s. induction l as [|x l IH]; intros s Hnd Hin; cbn [for_each].
  { intros [= <- <-]. exists []. rewrite keeps_none. split_and!; [done|..]; intros; set_solver. }
  cbn in Hnd. apply NoDup_cons in Hnd as [Hx Hnd].
  intros [(e & Hd & ->)|([] & s1 & Hd & H)]%io_bind_case; (apply drop_stale_inv in Hd; [|apply list_elem_of_fmap_2, Hin; by left]).
  - destruct Hd as [[Hs Hz]|[Hz _]]; [exists [cr_ID x]|exists []]; rewrite <- ?keeps_cons, ?keeps_none; (split_and!; [done|..]).
    + intros id ->%list_elem_of_singleton. exists x. set_solver.
    + done.
    + intros id; set_solver.
    + done.
  - destruct Hd as [[Hs Hz1]|[Hz1 Hn]]; (apply IH in H as (gone & Hz & Hg & Hok); [|done|]).
    + exists (cr_ID x :: gone). rewrite Hz, Hz1, keeps_cons. split_and!; [done|..].
      * intros id [->|(y & Hy & Hrest)%Hg]%elem_of_cons; [exists x; set_solver|exists y; set_solver].
      * intros Hr y [->|Hy]%elem_of_cons Hst; [by left|right; by apply Hok].
    + intros y Hy. rewrite Hz1. apply in_without; [apply Hin; by right|]. intros Heq. apply Hx. rewrite <- Heq. by apply list_elem_of_fmap_2.
    + exists gone. rewrite Hz, Hz1. split_and!; [done|..].
      * intros id (y & Hy & Hrest)%Hg. exists y. set_solver.
      * intros Hr y [->|Hy]%elem_of_cons Hst; [destruct Hn; congruence|by apply Hok].
    + intros y Hy. rewrite Hz1. apply Hin. by right.
Qed.

Lemma add_loop host existing ttl l s r s' : for_each (add_missing p host existing ttl) l s = (r, s') ->
  exists new, zone s' = zone s ++ new /\ Forall (fun x => cr_Name x = host /\ (cr_Type x, cr_Content x) ∈ l) new /\
    (r = Ok tt -> forall e, e ∈ l -> hasCloudflareRecord existing host e.1 e.2 = true \/ exists x, x ∈ new /\ (cr_Type x, cr_Content x) = e).
Proof.
  revert s. induction l as [|[t v] l IH]; intros s; cbn [for_each].
  { intros [= <- <-]. exists []. rewrite app_nil_r. split_and!; [done..|]. set_solver. }
  change (add_missing p host existing ttl (t, v)) with
    (if hasCloudflareRecord existing host t v then mret tt else createRecord p host t v ttl).
  destruct (hasCloudflareRecord existing host t v) eqn:Eh.
  - intros [(e & Hm & _)|([] & s1 & Hm & (new & Hz & Hn & Hok)%IH)]%io_bind_case; [discriminate Hm|]. injection Hm as <-. exists new. split_and!; [done|..].
    + eapply Forall_impl; [exact Hn|]. intros x [? ?]. split; [done|]. by right.
    + intros Hr e [->|He]%elem_of_cons; [by left|by apply Hok].
  - intros [(e & Hc & ->)|([] & s1 & Hc & (new & Hz & Hn & Hok)%IH)]%io_bind_case; apply createRecord_inv in Hc.
    + destruct Hc as [[id Hz]|[Hz _]]; [exists [mkCloudflareRecord id t host v ttl]|exists []]; rewrite ?app_nil_r; (split_and!; [done|..]); try done.
      apply Forall_singleton. cbn. split; [done|by left].
    + destruct Hc as [[id Hz1]|[_ []]]; [|done]. exists (mkCloudflareRecord id t host v ttl :: new).
      rewrite Hz, Hz1, <- app_assoc. split_and!; [done|..].
      * constructor; [split; [done|by left]|]. eapply Forall_impl; [exact Hn|]. intros x [? ?]. split; [done|]. by right.
      * intros Hr e [->|He]%elem_of_cons; [right; eexists; split; [by left|done]|].
        destruct (Hok Hr e He) as [?|(x & Hx & Hxe)]; [by left|right]. exists x. split; [by right|done].
Qed.

(** ** Convergence *)

Definition others (host : string) (l : list cloudflareRecord) : list cloudflareRecord := List.filter (fun x => negb (owned host x)) l.

Lemma record_same_id s x y : x ∈ zone s -> y ∈ zone s -> cr_ID x = cr_ID y -> x = y.
Proof.
  intros [i Hi]%list_elem_of_lookup [j Hj]%list_elem_of_lookup E. pose proof (zone_ids s) as Hn.
  assert (i = j) as ->; [|congruence]. eapply NoDup_lookup; [exact Hn|..]; rewrite list_lookup_fmap; [by rewrite Hi|by rewrite Hj, E].
Qed.

Lemma in_keeps gone l x : x ∈ keeps_ids gone l <-> x ∈ l /\ cr_ID x ∉ gone.
Proof.
  unfold keeps_ids. rewrite list_elem_of_In, filter_In, <- list_elem_of_In, negb_true_iff.
  assert (existsb (str_eqb (cr_ID x)) gone = true <-> cr_ID x ∈ gone) as Hg.
  { rewrite existsb_exists. split.
    - intros (id & Hid & <-%str_eqb_eq). by apply list_elem_of_In.
    - intros Hid. exists (cr_ID x). by rewrite <- list_elem_of_In, str_eqb_refl. }
  rewrite <- Hg. destruct (existsb _ gone); naive_solver.
Qed.

(** The identifiers of stale records of the zone. *)
Definition only_stale (host : string) (desired : list (string * string)) (s : S) (gone : list string) : Prop :=
  forall id, id ∈ gone -> exists x, x ∈ zone s /\ cr_ID x = id /\ stale host desired x = true.

Lemma keeps_others s host desired gone : only_stale host desired s gone -> others host (keeps_ids gone (zone s)) = others host (zone s).
Proof.
  intros Hg. assert (Hin : forall x, x ∈ zone s -> x ∈ zone s) by done. revert Hin. unfold others, keeps_ids.
  generalize (zone s) at 1 3 4 as l. induction l as [|x l IH]; intros Hin; cbn; [done|].
  destruct (existsb (str_eqb (cr_ID x)) gone) eqn:E; cbn; [|rewrite IH; [done|set_solver]].
  apply existsb_exists in E as (id & Hid & <-%str_eqb_eq). apply list_elem_of_In, Hg in Hid as (y & Hy & Hxy & Hst).
  assert (y = x) as -> by (eapply record_same_id; [exact Hy|apply Hin; by left|done]).
  apply andb_true_iff in Hst as [-> _]. cbn. apply IH. set_solver.
Qed.

Lemma others_new host new : Forall (fun x => owned host x = true) new -> others host new = [].
Proof. induction 1 as [|x l Hx _ IH]; cbn; [done|]. by rewrite Hx. Qed.

Lemma wanted_iff desired x : wanted desired x = true <-> (cr_Type x, cr_Content x) ∈ desired.
Proof.
  unfold wanted. rewrite existsb_exists. split.
  - intros ([t v] & Hin & Hb). cbn in Hb. apply andb_true_iff in Hb as [->%str_eqb_eq ->%str_eqb_eq]. by apply list_elem_of_In.
  - intros Hin. exists (cr_Type x, cr_Content x). rewrite <- list_elem_of_In. cbn. by rewrite !str_eqb_refl.
Qed.

Lemma records_typed addrs t v : (t, v) ∈ records_of addrs -> is_address t = true.
Proof. intros (a & [= -> _] & _)%list_elem_of_fmap. unfold record_type. by destruct (Is6 a). Qed.

(** A record of the host with this type and value. *)
Definition present (host t v : string) (l : list cloudflareRecord) : Prop :=
  exists x, x ∈ l /\ cr_Name x = host /\ cr_Type x = t /\ cr_Content x = v.

Lemma present_has host t v l : hasCloudflareRecord l host t v = true <-> present host t v l.
Proof.
  unfold hasCloudflareRecord. rewrite existsb_exists. split.
  - intros (x & Hx & Hb). apply andb_true_iff in Hb as [[?%str_eqb_eq ?%str_eqb_eq]%andb_true_iff ?%str_eqb_eq].
    exists x. by rewrite list_elem_of_In.
  - intros (x & Hx & <- & <- & <-). exists x. by rewrite <- list_elem_of_In, !str_eqb_refl.
Qed.

(** What the first loop leaves: the records that are wanted. *)
Lemma dropped host desired existing s s' t v : covers host existing (zone s) ->
  for_each (drop_stale p host desired) existing s = (Ok tt, s') -> is_address t = true ->
  present host t v (zone s') <-> present host t v existing /\ (t, v) ∈ desired.
Proof.
  intros (Hnd & Hsub & Hall) Hd Ht. apply drop_loop in Hd as (gone & Hz & Hg & Hok); [|done..]. split.
  - intros (x & Hx & Hn & <- & <-). rewrite Hz in Hx. apply in_keeps in Hx as [Hx Hgone]. split; [exists x; split_and!; auto|].
    apply wanted_iff. destruct (wanted desired x) eqn:Ew; [done|]. destruct Hgone. apply Hok; [done|by apply Hall|].
    unfold stale, owned. by rewrite Hn, str_eqb_refl, Ht, Ew.
  - intros [(x & Hx & Hn & <- & <-) Hw%wanted_iff]. exists x. split_and!; [|done..]. rewrite Hz. apply in_keeps.
    split; [by apply Hsub|]. intros (y & Hy & Hxy & Hst)%Hg. assert (y = x) as -> by (eapply record_same_id; eauto).
    apply andb_true_iff in Hst as [_ Hst%negb_true_iff]. congruence.
Qed.

Lemma drop_others host desired existing s r s' : covers host existing (zone s) ->
  for_each (drop_stale p host desired) existing s = (r, s') -> others host (zone s') = others host (zone s).
Proof.
  intros (Hnd & Hsub & _) (gone & -> & Hg & _)%drop_loop; [|done..]. eapply keeps_others.
  intros id (x & Hx & Hrest)%Hg. eauto.
Qed.

(** C20: The Cloudflare provider never touches a record of another name or of another
    type than A and AAAA, whatever comes of its requests; when it reports success for a host and
    its addresses, the address records of the host are exactly those of the valid addresses. *)
Theorem dns_converges host addrs ttl s r s' :
  addrs <> [] -> host <> "" -> EnsureRecords (Cloudflare p) host addrs ttl s = (r, s') ->
  others host (zone s') = others host (zone s) /\
  (r = Ok tt -> forall t v, is_address t = true -> present host t v (zone s') <-> (t, v) ∈ records_of addrs).
Proof.
  intros Hne Hh. cbn [EnsureRecords]. unfold cloudflare_EnsureRecords.
  destruct (str_eqb host "") eqn:E; [by apply str_eqb_eq in E|]. rewrite bool_decide_false by done. cbn [orb].
  set (desired := remove_dups (records_of addrs)). intros H.
  assert (Hd : forall e, e ∈ desired <-> e ∈ records_of addrs) by (intros; apply elem_of_remove_dups).
  destruct desired as [|e0 rest] eqn:Ed; [by injection H as <- <-|]. rewrite <- Ed in *. clear Ed e0 rest.
  apply io_bind_case in H as [(e & Hl & ->)|(existing & s1 & Hl & H)]; apply listRecords_inv in Hl as [Hz1 Hex]; [by rewrite Hz1|].
  specialize (Hex existing eq_refl). rewrite <- Hz1 in *.
  apply io_bind_case in H as [(e & Hdr & ->)|([] & s2 & Hdr & H)]; [split; [by eapply drop_others|done]|].
  apply add_loop in H as (new & Hz3 & Hnew & Hadd). rewrite Forall_forall in Hnew. split.
  - rewrite Hz3. unfold others. rewrite List.filter_app. fold (others host (zone s2)) (others host new).
    rewrite (others_new host new), app_nil_r; [by eapply drop_others|]. apply Forall_forall. intros x [Hn Hx]%Hnew.
    unfold owned. rewrite Hn, str_eqb_refl. rewrite order_perm, Hd in Hx. by eapply records_typed.
  - intros Hr t v Ht. rewrite <- Hd. pose proof (dropped _ _ _ _ _ t v Hex Hdr Ht) as Hdrop. split.
    + intros (x & Hx & Hn & <- & <-). rewrite Hz3, elem_of_app in Hx. destruct Hx as [Hx|[_ Hx]%Hnew]; [|by rewrite order_perm in Hx].
      by apply Hdrop; exists x.
    + intros Hin. assert (Hin' : (t, v) ∈ range_order desired) by by rewrite order_perm.
      destruct (Hadd Hr _ Hin') as [Hhas%present_has|(x & Hx & [= <- <-])].
      * destruct (proj2 Hdrop) as (x & Hx & Hrest); [done|]. exists x. split; [|done]. rewrite Hz3, elem_of_app. by left.
      * exists x. destruct (Hnew _ Hx). split_and!; try done. rewrite Hz3, elem_of_app. by right.
Qed.

(** Deleting the records of a host is dropping all of its addresses. *)
Theorem dns_removed host s r s' : host <> "" -> DeleteRecords (Cloudflare p) host s = (r, s') ->
  others host (zone s') = others host (zone s) /\
  (r = Ok tt -> forall t v, is_address t = true -> ~ present host t v (zone s')).
Proof.
  intros Hh. cbn [DeleteRecords]. unfold cloudflare_DeleteRecords. destruct (str_eqb host "") eqn:E; [by apply str_eqb_eq in E|].
  change (drop_address p host) with (drop_stale p host []).
  intros [(e & Hl & ->)|(existing & s1 & Hl & H)]%io_bind_case; apply listRecords_inv in Hl as [Hz1 Hex]; [by rewrite Hz1|].
  specialize (Hex existing eq_refl). rewrite <- Hz1 in *. split; [by eapply drop_others|].
  intros -> t v Ht [_ Hin]%(dropped _ _ _ _ _ t v Hex H Ht). by apply elem_of_nil in Hin.
Qed.
End Cloudflare.

(** ** A zone with room for three records *)

Module DnsDemo.
Definition provider : CloudflareProvider := mkCloudflareProvider "https://api.example.org/client/v4" "token" "z1".
Definition pool : list string := ["r0"; "r1"; "r2"].

Definition zone_ok (l : list cloudflareRecord) : bool :=
  bool_decide (NoDup (cr_ID <$> l)) && forallb (fun x => existsb (str_eqb (cr_ID x)) pool && (cr_TTL x =? 300)%Z) l.

Record state := mkState { records : list cloudflareRecord; records_ok : zone_ok records = true }.

Definition put (l : list cloudflareRecord) (s : state) : option state :=
  match decide (zone_ok l = true) with left H => Some (mkState l H) | right _ => None end.

Definition record_doc (x : cloudflareRecord) : any :=
  AMap [("id", AString (cr_ID x)); ("type", AString (cr_Type x)); ("name", AString (cr_Name x)); ("content", AString (cr_Content x));
        ("ttl", AOther "300")].
Definition answer (more : Meta) : dns_response := mkDnsResponse 200 "200 OK" (Decoded (AMap (("success", AOther "true") :: more))).
Definition refusal : dns_response := mkDnsResponse 409 "409 Conflict" DecodeEOF.

Definition target (url : string) : string :=
  default "" (List.find (fun id => match delete_request provider id with Ok r => str_eqb (dr_URL r) url | Err _ => false end) pool).

Definition change (l : list cloudflareRecord) (s : state) : result string dns_response * state :=
  match put l s with Some s' => (Ok (answer []), s') | None => (Ok refusal, s) end.

#[export] Instance http : DnsHttp state := {|
  dns_Do r s :=
    match dr_Body r with
    | RecordBody type name content ttl _ =>
        change (records s ++ [mkCloudflareRecord (default "" (List.find (fun id => negb (existsb (fun x => str_eqb (cr_ID x) id) (records s))) pool))
                                type name content ttl]) s
    | _ => if str_eqb (dr_Method r) "GET" then (Ok (answer [("result", AList (record_doc <$> records s))]), s)
           else change (without (target (dr_URL r)) (records s)) s
    end;
  range_order l := l;
|}.

Lemma put_inv l s s' : put l s = Some s' -> records s' = l.
Proof. unfold put. destruct (decide _); [|done]. by intros [= <-]. Qed.

Lemma change_inv l s r s' : change l s = (r, s') ->
  records s' = l \/ (records s' = records s /\ forall resp, r = Ok resp -> accepted resp = false).
Proof.
  unfold change. destruct (put l s) as [s1|] eqn:E; intros [= <- <-]; [left; by eapply put_inv|]. right. split; [done|].
  by intros resp [= <-].
Qed.

Lemma records_facts (s : state) : NoDup (cr_ID <$> records s) /\ Forall (fun x => cr_ID x ∈ pool /\ cr_TTL x = 300%Z) (records s).
Proof.
  destruct s as [l H]. cbn. apply andb_true_iff in H as [H1%bool_decide_eq_true H2]. split; [done|].
  apply Forall_forall. intros x Hx%list_elem_of_In. rewrite forallb_forall in H2. apply H2 in Hx.
  apply andb_true_iff in Hx as [(id & Hid & <-%str_eqb_eq)%existsb_exists Ht%Z.eqb_eq]. by rewrite <- list_elem_of_In in Hid.
Qed.

Lemma record_read x : cr_TTL x = 300%Z -> struct_value decode_record (record_doc x) = Some x.
Proof. destruct x as [id t n v ttl]. cbn [cr_TTL]. intros ->. reflexivity. Qed.

Lemma answer_listed (l : list cloudflareRecord) : Forall (fun x => cr_TTL x = 300%Z) l ->
  listed (answer [("result", AList (record_doc <$> l))]) = Some l.
Proof.
  intros Hl. assert (mapM (struct_value decode_record) (record_doc <$> l) = Some l) as Hm.
  { apply mapM_Some_2, Forall2_fmap_l, Forall_Forall2_diag. eapply Forall_impl; [exact Hl|]. intros x. apply record_read. }
  unfold listed, answer. cbn [ds_Body].
  change (struct_value cloudflareListResponse _) with
    (out ← mapM (struct_value decode_record) (record_doc <$> l); Some (true, @nil string, out)).
  by rewrite Hm.
Qed.

#[export] Instance laws : CloudflareLaws state provider.
Proof.
  unshelve econstructor; [exact records|..].
  - intros s. apply records_facts.
  - intros s x Hx He. destruct (records_facts s) as [_ Hf]. rewrite Forall_forall in Hf. apply Hf in Hx as [Hx _]. rewrite He in Hx.
    by vm_compute in Hx; repeat (apply elem_of_cons in Hx as [[=]|Hx]); apply elem_of_nil in Hx.
  - done.
  - intros host req s r s' [= <-] [= <- <-]. split; [done|]. intros resp l [= <-]. rewrite answer_listed.
    + intros [= <-]. split; [apply records_facts|auto].
    + destruct (records_facts s) as [_ Hf]. eapply Forall_impl; [exact Hf|]. by intros x [_ ?].
  - intros host type value ttl req s r s' [= <-] [->|?]%change_inv; [left; eauto|by right].
  - intros id req s r s' Hid [= <-] H.
    assert (Hp : id ∈ pool).
    { apply list_elem_of_fmap in Hid as (x & -> & Hx). destruct (records_facts s) as [_ Hf]. rewrite Forall_forall in Hf. by apply Hf in Hx as [? _]. }
    apply change_inv in H as [->|?]; [left|by right]. f_equal.
    unfold pool in Hp. rewrite !elem_of_cons, elem_of_nil in Hp. destruct Hp as [->|[->|[->|[]]]]; vm_compute; reflexivity.
Defined.

(** An address of before, one that stays, and a text record. *)
Definition before : list cloudflareRecord :=
  [mkCloudflareRecord "r0" "A" "shop.example.org" "192.0.2.1" 300; mkCloudflareRecord "r1" "A" "shop.example.org" "192.0.2.2" 300;
   mkCloudflareRecord "r2" "TXT" "shop.example.org" "v=spf1" 300].
Definition s0 : state := mkState before eq_refl.
Definition addresses : list Addr := [V4 (v4 192 0 2 2); V6 1 ""].

Lemma address_records : records_of addresses = [("A", "192.0.2.2"); ("AAAA", "::1")].
Proof. vm_compute. reflexivity. Qed.

Lemma ensured : EnsureRecords (Cloudflare provider) "shop.example.org" addresses 0 s0 =
  (Ok tt, (EnsureRecords (Cloudflare provider) "shop.example.org" addresses 0 s0).2).
Proof. vm_compute. reflexivity. Qed.

Lemma dns_converges_witness :
  let z := records (EnsureRecords (Cloudflare provider) "shop.example.org" addresses 0 s0).2 in
  present "shop.example.org" "AAAA" "::1" z /\ ~ present "shop.example.org" "A" "192.0.2.1" z /\
  others "shop.example.org" z = others "shop.example.org" before.
Proof.
  assert (Hne : addresses <> []) by discriminate. assert (Hh : "shop.example.org" <> "") by discriminate.
  destruct (dns_converges provider _ _ _ _ _ _ Hne Hh ensured) as [Ho Hp]. split_and!; [| |exact Ho].
  - apply (Hp eq_refl "AAAA" "::1" eq_refl). rewrite address_records. right. left.
  - intros H%(Hp eq_refl "A" "192.0.2.1" eq_refl). rewrite address_records in H.
    apply elem_of_cons in H as [[=]|H]. apply elem_of_cons in H as [[=]|H]. by apply elem_of_nil in H.
Defined.
End DnsDemo.

(** ** PowerDNS *)

Module PowerDNSDemo.
(** A service that accepts and records every request. *)
#[export] Instance http : DnsHttp (list dns_request) := {|
  dns_Do r log := (Ok (mkDnsResponse 204 "204 No Content" DecodeEOF), log ++ [r]);
  range_order l := l;
|}.

Definition provider : PowerDNSProvider := mkPowerDNSProvider "https://ns.example.org/api/v1" "key" "localhost" "example.org.".

(** For a host that has IPv4 addresses only nothing is said about AAAA: those of before stay. *)
Example powerdns_keeps_v6 :
  dr_Body <$> (EnsureRecords (PowerDNS provider) "shop.example.org" [V4 (v4 192 0 2 2)] 60 []).2 =
  [ZoneBody [mkRRSet "shop.example.org." "A" 60 "REPLACE" [("192.0.2.2", false)]]].
Proof. vm_compute. reflexivity. Qed.
End PowerDNSDemo.
