(* ===== verification/CursorOrder.v ===== *)
(** Lists ordered by time and identifier, newest first, as the database returns them, and what
    comes after a cursor. *)

From Stdlib Require Import Ascii ZArith Lia OrderedTypeEx.
From stdpp Require Import base strings list sets sorting.
From S2P Require Import Prelude GoStrings.

Lemma ltb_lt s t : String.ltb s t = true <-> String_as_OT.lt s t.
Proof.
  rewrite <- String_as_OT.cmp_lt. unfold String.ltb. change (String_as_OT.cmp s t) with (String.compare s t).
  by destruct (String.compare s t).
Qed.

Lemma ltb_trans s t u : String.ltb s t = true -> String.ltb t u = true -> String.ltb s u = true.
Proof. rewrite !ltb_lt. apply String_as_OT.lt_trans. Qed.

Lemma ltb_irrefl s : String.ltb s s = false.
Proof. destruct (String.ltb s s) eqn:E; [|done]. apply ltb_lt, String_as_OT.lt_not_eq in E. by destruct E. Qed.

Lemma ltb_tri s t : String.ltb s t = true \/ s = t \/ String.ltb t s = true.
Proof.
  unfold String.ltb. rewrite (String.compare_antisym t s). destruct (String.compare s t) eqn:E; auto.
  right. left. by apply String.compare_eq_iff.
Qed.

(** Elements are told apart by a value that differs. *)
Lemma same_value {A B} (id : A -> B) l x y : NoDup (id <$> l) -> x ∈ l -> y ∈ l -> id x = id y -> x = y.
Proof.
  induction l as [|z l IH]; [by intros _ H%not_elem_of_nil|]. rewrite fmap_cons, NoDup_cons. intros [Hz Hn].
  rewrite !elem_of_cons. intros [->|Hx] [->|Hy] E; [done| | |by apply IH]; destruct Hz; apply list_elem_of_fmap; eauto.
Qed.

Section Order.
Context {A : Type} (time : A -> Z) (id : A -> string).

(** [ORDER BY time DESC, id DESC] *)
Definition newer_by (a b : A) : bool := (time b <? time a)%Z || ((time b =? time a)%Z && String.ltb (id b) (id a)).
Definition first_by (a b : A) : Prop := newer_by b a = false.
Definition Newer (a b : A) : Prop := newer_by a b = true.
#[export] Instance first_by_dec a b : Decision (first_by a b) := bool_eq_dec _ _.

Lemma Newer_iff a b : Newer a b <->
  (time b < time a)%Z \/ (time b = time a /\ String.ltb (id b) (id a) = true).
Proof. unfold Newer, newer_by. by rewrite orb_true_iff, andb_true_iff, Z.ltb_lt, Z.eqb_eq. Qed.

#[export] Instance Newer_strict : StrictOrder Newer.
Proof.
  split.
  - intros a [?|[_ H]]%Newer_iff; [lia|]. by rewrite ltb_irrefl in H.
  - intros a b c. rewrite !Newer_iff. intros [H|[H1 H2]] [G|[G1 G2]]; [left; lia..|right].
    split; [congruence|]. by eapply ltb_trans.
Qed.

Lemma Newer_tri a b : Newer a b \/ id a = id b \/ Newer b a.
Proof.
  rewrite !Newer_iff. destruct (Z.lt_trichotomy (time a) (time b)) as [?|[?|?]]; [auto|..|auto].
  destruct (ltb_tri (id a) (id b)) as [?|[?|?]]; auto.
Qed.

Lemma first_by_iff a b : first_by a b <->
  Newer a b \/ (time b = time a /\ id b = id a).
Proof.
  rewrite Newer_iff. assert (Hn : first_by a b <-> ~ Newer b a) by (unfold first_by, Newer; by destruct (newer_by b a)).
  rewrite Hn, Newer_iff. split.
  - intros H. destruct (Z.lt_trichotomy (time a) (time b)) as [?|[?|?]]; [tauto| |tauto].
    destruct (ltb_tri (id a) (id b)) as [?|[?|?]]; [tauto|right|left; right]; split; congruence.
  - intros [[H|[H1 H2]]|[H1 H2]] [G|[G1 G2]]; try lia.
    + pose proof (ltb_trans _ _ _ H2 G2) as E. by rewrite ltb_irrefl in E.
    + rewrite H2, ltb_irrefl in G2. done.
Qed.

#[export] Instance first_by_total : base.Total first_by.
Proof.
  intros a b. destruct (newer_by b a) eqn:E; [right|by left]. apply first_by_iff. by left.
Qed.

#[export] Instance first_by_trans : Transitive first_by.
Proof.
  intros a b c. rewrite !first_by_iff, !Newer_iff. intros [[H|[H1 H2]]|[H1 H2]] [[G|[G1 G2]]|[G1 G2]].
  all: rewrite ?H2, ?G2 in *; try (left; left; lia).
  - left. right. split; [congruence|]. by eapply ltb_trans.
  - left. right. split; congruence.
  - left. right. split; congruence.
  - right. split; congruence.
Qed.

(** Elements with different identifiers, sorted, are strictly sorted. *)
Lemma strictly_sorted l : NoDup (id <$> l) -> StronglySorted first_by l -> StronglySorted Newer l.
Proof.
  induction l as [|x l IH]; [constructor|]. rewrite fmap_cons, NoDup_cons. intros [Hx Hn] Hs.
  apply StronglySorted_inv in Hs as [Hs Hf]. constructor; [by apply IH|]. apply Forall_forall. intros y Hy.
  rewrite Forall_forall in Hf. specialize (Hf y Hy). apply first_by_iff in Hf as [?|[_ E]]; [done|].
  destruct Hx. rewrite <- E. by apply list_elem_of_fmap_2.
Qed.

(** An element is in the list once. *)
Lemma sorted_once l1 x l2 : StronglySorted Newer (l1 ++ x :: l2) -> (x ∉ l1) /\ (x ∉ l2).
Proof.
  intros Hs. assert (Hn : forall l, Forall (Newer x) l \/ Forall (fun y => Newer y x) l -> ~ x ∈ l).
  { intros l H Hx. destruct (irreflexivity Newer x). destruct H as [H|H]; rewrite Forall_forall in H; by apply H. }
  split; apply Hn.
  - right. induction l1 as [|y l1 IH]; [constructor|]. cbn in Hs. apply StronglySorted_inv in Hs as [Hs Hf].
    constructor; [|by apply IH]. rewrite Forall_forall in Hf. apply Hf. set_solver.
  - left. apply StronglySorted_app_1_r in Hs. by apply StronglySorted_inv in Hs as [_ ?].
Qed.

(** What comes after an element of the list is the rest of the list. *)
Lemma after_rest l1 x l2 : StronglySorted Newer (l1 ++ x :: l2) ->
  List.filter (newer_by x) (l1 ++ x :: l2) = l2.
Proof.
  induction l1 as [|y l1 IH]; cbn; intros [Hs Hf]%StronglySorted_inv.
  - destruct (newer_by x x) eqn:E; [by apply (irreflexivity Newer) in E|]. clear E Hs.
    induction Hf as [|z l Hz _ IH]; [done|]. cbn. rewrite Hz. by rewrite IH.
  - assert (H : Newer y x) by (rewrite Forall_forall in Hf; apply Hf; set_solver).
    destruct (newer_by x y) eqn:E; [|by apply IH]. destruct (irreflexivity Newer x). by etransitivity.
Qed.

Lemma list_filter_Permutation_bool (f : A -> bool) l l' : l ≡ₚ l' -> List.filter f l ≡ₚ List.filter f l'.
Proof.
  induction 1 as [|x l l' _ IH|x y l|l1 l2 l3 _ IH1 _ IH2]; cbn; [done| |repeat case_match; done || constructor|by etransitivity].
  destruct (f x); [by constructor|done].
Qed.

Lemma ssorted_filter R (f : A -> bool) l : StronglySorted R l -> StronglySorted R (List.filter f l).
Proof.
  induction 1 as [|x l Hs IH Hf]; [constructor|]. cbn. destruct (f x); [|done]. constructor; [done|].
  rewrite Forall_forall in *. intros y Hy. apply Hf. apply list_elem_of_In, filter_In in Hy as [Hy _]. by apply list_elem_of_In.
Qed.

(** A selection can be made before or after sorting. *)
Lemma sort_filter (f : A -> bool) l : NoDup (id <$> l) ->
  merge_sort first_by (List.filter f l) = List.filter f (merge_sort first_by l).
Proof.
  intros Hn. apply (StronglySorted_unique_strong first_by).
  - intros x y Hx Hy H1 H2. rewrite merge_sort_Permutation in Hx.
    apply list_elem_of_In, filter_In in Hx as [Hx%list_elem_of_In _].
    apply list_elem_of_In, filter_In in Hy as [Hy%list_elem_of_In _]. rewrite merge_sort_Permutation in Hy.
    apply (same_value id l); [done..|]. apply first_by_iff in H1 as [H1|[_ ?]]; [|done]. unfold first_by, Newer in *. congruence.
  - apply Sorted_StronglySorted, (Sorted_merge_sort _); apply _.
  - apply ssorted_filter, Sorted_StronglySorted, (Sorted_merge_sort _); apply _.
  - rewrite merge_sort_Permutation. apply list_filter_Permutation_bool. symmetry. apply merge_sort_Permutation.
Qed.
End Order.
