(* ===== verification/Store.v ===== *)
(** The tables behind users, projects, user spaces and kubeconfigs: the statements of
    [internal/store/users.go], [projects.go], [userspace.go], [kubeconfigs.go], [clusters.go], and
    what the services modelled here use of [apps.go], [events.go] and [maintenance.go], with the constraints of
    [internal/store/migrations].

    PostgreSQL is the interface [Postgres]: any statement may fail (also on a text a column
    rejects), a UUID column accepts the
    literals [uuid_in] accepts and holds their canonical form, and a JSONB column returns a text
    with the same value.  A statement that fails changes nothing.  Rows that [ORDER BY] does not
    tell apart, or that come without one, are in any order, which may differ from statement to
    statement. *)

From Stdlib Require Import Ascii ZArith Lia.
From stdpp Require Import base gmap strings list sorting.
From S2P Require Import Prelude Utf8 GoStrings Hash Json Events Maintenance.

Class Postgres := {
  (** why the statement with this number fails, if it does *)
  db_fault : nat -> option string;
  maintenance_fault : nat -> option string;
  (** [now()] of the statement *)
  db_now : nat -> Z;
  uuid_in : string -> option string;
  jsonb : string -> option string;
  (** the order in which the statement with this number meets the rows of its result, where
      [ORDER BY] leaves it open: any order, and not the same for two statements *)
  scan_order {R : Type} : nat -> list R -> list R;
  scan_order_rows {R : Type} n (rows : list R) : scan_order n rows ≡ₚ rows;
}.

Class PostgresLaws `{Postgres} := {
  uuid_canonical s c : uuid_in s = Some c -> uuid_in c = Some c;
  jsonb_value s t : jsonb s = Some t -> DecodeQuotaOverrides (Some t) = DecodeQuotaOverrides (Some s);
}.

(** [sql.ErrNoRows] or another error of the driver. *)
Inductive db_error := ErrNoRows | DbError (text : string).

(** ** Tables *)

Record User := mkUser { u_ID : string; u_Name : string; u_Email : string; u_CreatedAt : Z }.
Record UserRow := mkUserRow { ur : User; u_deleted : bool }.

Record Project := mkProject {
  p_ID : string; p_UserID : string; p_ClusterID : string; p_Name : string; p_Namespace : string;
  p_Suspended : bool; p_CreatedAt : Z
}.
Record ProjectRow := mkProjectRow {
  pr : Project; p_quota : option string; p_kubeconfig : option bytes; p_deleted : bool
}.

Record UserSpace := mkUserSpace {
  us_ID : string; us_UserID : string; us_ClusterID : string; us_Namespace : string; us_CreatedAt : Z
}.
Record SpaceRow := mkSpaceRow { sr : UserSpace; us_kubeconfig : option bytes }.

Record KubeconfigRecord := mkKubeconfig {
  kc_ID : string; kc_ClusterID : string; kc_Namespace : string; kc_UserID : string;
  kc_ProjectID : option string; kc_ServiceAccount : string; kc_SecretName : string;
  kc_CreatedAt : Z; kc_UpdatedAt : Z
}.
Record KubeconfigRow := mkKubeconfigRow { kr : KubeconfigRecord; kc_enc : bytes }.

(** [store.Cluster] without its joined status, and [store.ClusterStatus]; [None] for NULL. *)
Record ClusterMeta := mkMeta {
  cm_Owner : option string; cm_Contact : option string; cm_Environment : option string; cm_Region : option string;
  cm_APIServer : option string; cm_Description : option string; cm_Tags : list string
}.
Record ClusterRow := mkClusterRow {
  cl_ID : string; cl_Name : string; cl_meta : ClusterMeta; cl_kubeconfig : bytes; cl_CreatedAt : Z;
  cl_LastSeen : option Z; cl_LastStatusID : option string
}.
Record ClusterStatus := mkStatus {
  cs_ID : string; cs_ClusterID : string; cs_Healthy : bool; cs_Message : string; cs_APIServerVersion : string;
  cs_NodeCount : option Z; cs_CheckedAt : Z; cs_Details : Meta
}.

(** [store.App]; [None] for a column that is NULL.  JSON columns are kept as the values they encode. *)
Record App := mkApp {
  a_ID : string; a_ProjectID : string; a_Name : string; a_Status : string; a_Repo : option string;
  a_WebhookSecret : option string; a_ExternalRef : option string; a_Source : Meta; a_Delivery : Meta
}.
Record AppRow := mkAppRow { ar : App; ar_UpdatedAt : Z; ar_deleted : bool }.
Definition ar_ID (r : AppRow) : string := a_ID (ar r).
Definition ar_ProjectID (r : AppRow) : string := a_ProjectID (ar r).

Record AppDomain := mkDomain {
  ad_ID : string; ad_AppID : string; ad_FQDN : string; ad_CertStatus : string; ad_CreatedAt : Z; ad_UpdatedAt : Z
}.

(** [store.GitCredential] and [store.RegistryCredential]: the first has no registry. *)
Record Credential := mkCredential {
  c_ID : string; c_Name : string; c_Registry : string; c_UserID : option string; c_ProjectID : option string;
  c_AuthType : string; c_Username : string; c_CreatedAt : Z; c_UpdatedAt : Z
}.
Record CredentialRow := mkCredentialRow { cred : Credential; c_secret : bytes }.

Record Release := mkRelease {
  rl_ID : string; rl_ProjectID : string; rl_AppID : string; rl_Source : string; rl_SpecDigest : string;
  rl_RenderDigest : string; rl_Spec : Meta; rl_RenderedObjects : list Meta; rl_LoadBalancers : Meta;
  rl_Warnings : list string; rl_HelmChart : option string; rl_HelmValues : Meta; rl_HelmRenderSHA : option string;
  rl_ManifestsSHA : option string; rl_Repo : option string; rl_SBOM : Meta; rl_Status : string; rl_Message : string;
  rl_CreatedAt : Z
}.

Record K8sCRDRow := mkCRDRow {
  k8_ClusterID : string; k8_ProjectID : string; k8_Kind : string; k8_Namespace : string; k8_Name : string;
  k8_UID : string; k8_ResourceVersion : string; k8_SpecHash : string; k8_Spec : Meta; k8_Status : Meta;
  k8_DeletedAt : option Z
}.

Record Template := mkTemplate {
  t_ID : string; t_Name : string; t_Kind : string; t_Description : string; t_Schema : Meta; t_Defaults : Meta;
  t_Example : Meta; t_Base : Meta; t_DeliveryTemplate : string; t_CreatedAt : Z
}.

Record AppTemplate := mkAppTemplate {
  at_ID : string; at_AppID : string; at_TemplateID : string; at_Values : Meta; at_Metadata : Meta; at_CreatedAt : Z;
  at_UpdatedAt : Z
}.

Record DB := mkDB {
  d_users : list UserRow;
  d_projects : list ProjectRow;
  d_spaces : list SpaceRow;
  d_kubeconfigs : list KubeconfigRow;
  d_clusters : list ClusterRow;
  d_statuses : list ClusterStatus;
  d_apps : list AppRow;
  d_domains : list AppDomain;
  d_git : list CredentialRow;
  d_registry : list CredentialRow;
  d_releases : list Release;
  d_crds : list K8sCRDRow;
  d_templates : list Template;
  d_app_templates : list AppTemplate;
  d_events : list ProjectEvent;
  d_maintenance : MaintenanceState;
  d_stmts : nat;
}.

Definition set_users (d : DB) (x : list UserRow) : DB :=
  mkDB x (d_projects d) (d_spaces d) (d_kubeconfigs d) (d_clusters d) (d_statuses d) (d_apps d) (d_domains d)
    (d_git d) (d_registry d) (d_releases d) (d_crds d) (d_templates d) (d_app_templates d) (d_events d) (d_maintenance d) (d_stmts d).
Definition set_projects (d : DB) (x : list ProjectRow) : DB :=
  mkDB (d_users d) x (d_spaces d) (d_kubeconfigs d) (d_clusters d) (d_statuses d) (d_apps d) (d_domains d) (d_git d)
    (d_registry d) (d_releases d) (d_crds d) (d_templates d) (d_app_templates d) (d_events d) (d_maintenance d) (d_stmts d).
Definition set_spaces (d : DB) (x : list SpaceRow) : DB :=
  mkDB (d_users d) (d_projects d) x (d_kubeconfigs d) (d_clusters d) (d_statuses d) (d_apps d) (d_domains d) (d_git d)
    (d_registry d) (d_releases d) (d_crds d) (d_templates d) (d_app_templates d) (d_events d) (d_maintenance d) (d_stmts d).
Definition set_kubeconfigs (d : DB) (x : list KubeconfigRow) : DB :=
  mkDB (d_users d) (d_projects d) (d_spaces d) x (d_clusters d) (d_statuses d) (d_apps d) (d_domains d) (d_git d)
    (d_registry d) (d_releases d) (d_crds d) (d_templates d) (d_app_templates d) (d_events d) (d_maintenance d) (d_stmts d).
Definition set_clusters (d : DB) (x : list ClusterRow) : DB :=
  mkDB (d_users d) (d_projects d) (d_spaces d) (d_kubeconfigs d) x (d_statuses d) (d_apps d) (d_domains d) (d_git d)
    (d_registry d) (d_releases d) (d_crds d) (d_templates d) (d_app_templates d) (d_events d) (d_maintenance d) (d_stmts d).
Definition set_statuses (d : DB) (x : list ClusterStatus) : DB :=
  mkDB (d_users d) (d_projects d) (d_spaces d) (d_kubeconfigs d) (d_clusters d) x (d_apps d) (d_domains d) (d_git d)
    (d_registry d) (d_releases d) (d_crds d) (d_templates d) (d_app_templates d) (d_events d) (d_maintenance d) (d_stmts d).
Definition set_apps (d : DB) (x : list AppRow) : DB :=
  mkDB (d_users d) (d_projects d) (d_spaces d) (d_kubeconfigs d) (d_clusters d) (d_statuses d) x (d_domains d)
    (d_git d) (d_registry d) (d_releases d) (d_crds d) (d_templates d) (d_app_templates d) (d_events d) (d_maintenance d) (d_stmts d).
Definition set_domains (d : DB) (x : list AppDomain) : DB :=
  mkDB (d_users d) (d_projects d) (d_spaces d) (d_kubeconfigs d) (d_clusters d) (d_statuses d) (d_apps d) x (d_git d)
    (d_registry d) (d_releases d) (d_crds d) (d_templates d) (d_app_templates d) (d_events d) (d_maintenance d) (d_stmts d).
Definition set_git (d : DB) (x : list CredentialRow) : DB :=
  mkDB (d_users d) (d_projects d) (d_spaces d) (d_kubeconfigs d) (d_clusters d) (d_statuses d) (d_apps d)
    (d_domains d) x (d_registry d) (d_releases d) (d_crds d) (d_templates d) (d_app_templates d) (d_events d) (d_maintenance d) (d_stmts d).
Definition set_registry (d : DB) (x : list CredentialRow) : DB :=
  mkDB (d_users d) (d_projects d) (d_spaces d) (d_kubeconfigs d) (d_clusters d) (d_statuses d) (d_apps d)
    (d_domains d) (d_git d) x (d_releases d) (d_crds d) (d_templates d) (d_app_templates d) (d_events d) (d_maintenance d) (d_stmts d).
Definition set_releases (d : DB) (x : list Release) : DB :=
  mkDB (d_users d) (d_projects d) (d_spaces d) (d_kubeconfigs d) (d_clusters d) (d_statuses d) (d_apps d)
    (d_domains d) (d_git d) (d_registry d) x (d_crds d) (d_templates d) (d_app_templates d) (d_events d) (d_maintenance d) (d_stmts d).
Definition set_crds (d : DB) (x : list K8sCRDRow) : DB :=
  mkDB (d_users d) (d_projects d) (d_spaces d) (d_kubeconfigs d) (d_clusters d) (d_statuses d) (d_apps d)
    (d_domains d) (d_git d) (d_registry d) (d_releases d) x (d_templates d) (d_app_templates d) (d_events d) (d_maintenance d) (d_stmts d).
Definition set_templates (d : DB) (x : list Template) : DB :=
  mkDB (d_users d) (d_projects d) (d_spaces d) (d_kubeconfigs d) (d_clusters d) (d_statuses d) (d_apps d)
    (d_domains d) (d_git d) (d_registry d) (d_releases d) (d_crds d) x (d_app_templates d) (d_events d) (d_maintenance d) (d_stmts d).
Definition set_app_templates (d : DB) (x : list AppTemplate) : DB :=
  mkDB (d_users d) (d_projects d) (d_spaces d) (d_kubeconfigs d) (d_clusters d) (d_statuses d) (d_apps d)
    (d_domains d) (d_git d) (d_registry d) (d_releases d) (d_crds d) (d_templates d) x (d_events d) (d_maintenance d) (d_stmts d).
Definition set_events (d : DB) (x : list ProjectEvent) : DB :=
  mkDB (d_users d) (d_projects d) (d_spaces d) (d_kubeconfigs d) (d_clusters d) (d_statuses d) (d_apps d)
    (d_domains d) (d_git d) (d_registry d) (d_releases d) (d_crds d) (d_templates d) (d_app_templates d) x (d_maintenance d) (d_stmts d).
Definition set_row_maintenance (d : DB) (x : MaintenanceState) : DB :=
  mkDB (d_users d) (d_projects d) (d_spaces d) (d_kubeconfigs d) (d_clusters d) (d_statuses d) (d_apps d)
    (d_domains d) (d_git d) (d_registry d) (d_releases d) (d_crds d) (d_templates d) (d_app_templates d) (d_events d) x (d_stmts d).
Definition bump (d : DB) : DB :=
  mkDB (d_users d) (d_projects d) (d_spaces d) (d_kubeconfigs d) (d_clusters d) (d_statuses d) (d_apps d)
    (d_domains d) (d_git d) (d_registry d) (d_releases d) (d_crds d) (d_templates d) (d_app_templates d) (d_events d) (d_maintenance d) (S (d_stmts d)).

Section Statements.
Context `{pg : Postgres}.

(** One statement: it fails, or runs at its [now()] and commits what it returns with [Ok]. *)
Definition stmt {A} (f : Z -> DB -> result db_error (A * DB)) : io DB db_error A := fun d =>
  match db_fault (d_stmts d) with
  | Some e => (Err (DbError e), bump d)
  | None => match f (db_now (d_stmts d)) d with
            | Ok (a, d') => (Ok a, bump d')
            | Err e => (Err e, bump d)
            end
  end.

Definition uuid (s : string) : result db_error string :=
  match uuid_in s with Some c => Ok c | None => Err (DbError "invalid input syntax for type uuid") end.

Definition unique_violation {A} : result db_error A := Err (DbError "duplicate key value violates unique constraint").

Definition select {R} (rows : list R) (f : R -> bool) : result db_error R :=
  match List.find f rows with Some r => Ok r | None => Err ErrNoRows end.

(** Rows in the order of a column. *)
Definition by_key {R} (key : R -> Z) (a b : R) : Prop := (key a <= key b)%Z.
#[export] Instance by_key_dec {R} (key : R -> Z) a b : Decision (by_key key a b) := Z.le_dec _ _.

(** [ORDER BY] one column; the order of rows of the same value is open. *)
Definition ordered {R} (key : R -> Z) (d : DB) (rows : list R) : list R :=
  merge_sort (by_key key) (scan_order (d_stmts d) rows).

(** [ORDER BY created_at DESC LIMIT OFFSET], with the bounds the store applies. *)
Definition page {R} (at_ : R -> Z) (limit offset : Z) (d : DB) (rows : list R) : list R :=
  let limit := if (limit <=? 0)%Z then 100%Z else limit in
  let offset := if (offset <? 0)%Z then 0%Z else offset in
  take (Z.to_nat limit) (drop (Z.to_nat offset) (ordered (fun r => - at_ r)%Z d rows)).

(** ** users.go *)

Definition GetUser (id : string) : io DB db_error User := stmt (fun _ d =>
  id ← uuid id;
  r ← select (d_users d) (fun r => str_eqb (u_ID (ur r)) id && negb (u_deleted r));
  Ok (ur r, d)).

Definition GetUserByEmail (email : string) : io DB db_error User := stmt (fun _ d =>
  r ← select (d_users d) (fun r => str_eqb (u_Email (ur r)) email && negb (u_deleted r));
  Ok (ur r, d)).

Definition CreateUser (u : User) : io DB db_error User := stmt (fun now d =>
  id ← uuid (u_ID u);
  if existsb (fun r => str_eqb (u_ID (ur r)) id || str_eqb (u_Email (ur r)) (u_Email u)) (d_users d)
  then unique_violation
  else Ok (mkUser (u_ID u) (u_Name u) (u_Email u) now,
           set_users d (mkUserRow (mkUser id (u_Name u) (u_Email u) now) false :: d_users d))).

Definition ListUsers (limit offset : Z) : io DB db_error (list User) := stmt (fun _ d =>
  Ok (page u_CreatedAt limit offset d (ur <$> List.filter (fun r => negb (u_deleted r)) (d_users d)), d)).

Definition SoftDeleteUser (id : string) : io DB db_error unit := stmt (fun _ d =>
  id ← uuid id;
  Ok (tt, set_users d ((fun r => if str_eqb (u_ID (ur r)) id then mkUserRow (ur r) true else r) <$> d_users d))).

(** ** projects.go *)

Definition live_at (cluster namespace : string) (r : ProjectRow) : bool :=
  str_eqb (p_ClusterID (pr r)) cluster && str_eqb (p_Namespace (pr r)) namespace && negb (p_deleted r).

Definition to_jsonb (q : option string) : result db_error (option string) :=
  match q with
  | None => Ok None
  | Some t => match jsonb t with Some t => Ok (Some t) | None => Err (DbError "invalid input syntax for type json") end
  end.

Definition CreateProject (p : Project) (quota : option string) (kubeconfig : option bytes) : io DB db_error Project :=
  stmt (fun now d =>
    id ← uuid (p_ID p);
    user ← uuid (p_UserID p);
    cluster ← uuid (p_ClusterID p);
    quota ← to_jsonb quota;
    if existsb (fun r => str_eqb (p_ID (pr r)) id || live_at cluster (p_Namespace p) r) (d_projects d)
    then unique_violation
    else
      let row := mkProject id user cluster (p_Name p) (p_Namespace p) (p_Suspended p) now in
      Ok (mkProject (p_ID p) (p_UserID p) (p_ClusterID p) (p_Name p) (p_Namespace p) (p_Suspended p) now,
          set_projects d (mkProjectRow row quota kubeconfig false :: d_projects d))).

Definition GetProject (id : string) : io DB db_error (Project * option string * option bytes) := stmt (fun _ d =>
  id ← uuid id;
  r ← select (d_projects d) (fun r => str_eqb (p_ID (pr r)) id && negb (p_deleted r));
  Ok (pr r, p_quota r, p_kubeconfig r, d)).

Definition update_projects (f : ProjectRow -> bool) (g : ProjectRow -> ProjectRow) (d : DB) : DB :=
  set_projects d ((fun r => if f r then g r else r) <$> d_projects d).

Definition with_suspended (suspended : bool) (r : ProjectRow) : ProjectRow :=
  let p := pr r in
  mkProjectRow (mkProject (p_ID p) (p_UserID p) (p_ClusterID p) (p_Name p) (p_Namespace p) suspended (p_CreatedAt p))
    (p_quota r) (p_kubeconfig r) (p_deleted r).

Definition UpdateProjectSuspended (id : string) (suspended : bool) : io DB db_error unit := stmt (fun _ d =>
  id ← uuid id;
  Ok (tt, update_projects (fun r => str_eqb (p_ID (pr r)) id) (with_suspended suspended) d)).

Definition UpdateProjectQuotaOverrides (id : string) (quota : option string) : io DB db_error unit := stmt (fun _ d =>
  id ← uuid id;
  quota ← to_jsonb quota;
  Ok (tt, update_projects (fun r => str_eqb (p_ID (pr r)) id)
            (fun r => mkProjectRow (pr r) quota (p_kubeconfig r) (p_deleted r)) d)).

Definition UpdateProjectKubeconfig (id : string) (enc : option bytes) : io DB db_error unit := stmt (fun _ d =>
  id ← uuid id;
  Ok (tt, update_projects (fun r => str_eqb (p_ID (pr r)) id)
            (fun r => mkProjectRow (pr r) (p_quota r) enc (p_deleted r)) d)).

Definition ListProjects (limit offset : Z) : io DB db_error (list Project) := stmt (fun _ d =>
  Ok (page p_CreatedAt limit offset d (pr <$> List.filter (fun r => negb (p_deleted r)) (d_projects d)), d)).

Definition ListProjectsByUser (userID : string) (limit offset : Z) : io DB db_error (list Project) := stmt (fun _ d =>
  userID ← uuid userID;
  Ok (page p_CreatedAt limit offset d
        (pr <$> List.filter (fun r => str_eqb (p_UserID (pr r)) userID && negb (p_deleted r)) (d_projects d)), d)).

Definition GetProjectByNamespace (clusterID namespace : string) : io DB db_error Project := stmt (fun _ d =>
  clusterID ← uuid clusterID;
  r ← select (ordered (fun r => p_CreatedAt (pr r)) d (d_projects d))
        (live_at clusterID namespace);
  Ok (pr r, d)).

Definition project_deleted (r : ProjectRow) : ProjectRow := mkProjectRow (pr r) (p_quota r) (p_kubeconfig r) true.

Definition SoftDeleteProject (id : string) : io DB db_error unit := stmt (fun _ d =>
  id ← uuid id;
  Ok (tt, update_projects (fun r => str_eqb (p_ID (pr r)) id && negb (p_deleted r)) project_deleted d)).

Definition SoftDeleteProjectsByUser (userID : string) : io DB db_error unit := stmt (fun _ d =>
  userID ← uuid userID;
  Ok (tt, update_projects (fun r => str_eqb (p_UserID (pr r)) userID && negb (p_deleted r)) project_deleted d)).

(** ** userspace.go *)

Definition CreateUserSpace (us : UserSpace) (enc : option bytes) : io DB db_error UserSpace := stmt (fun now d =>
  id ← uuid (us_ID us);
  user ← uuid (us_UserID us);
  cluster ← uuid (us_ClusterID us);
  if existsb (fun r => str_eqb (us_ID (sr r)) id ||
                       str_eqb (us_UserID (sr r)) user && str_eqb (us_ClusterID (sr r)) cluster) (d_spaces d)
  then unique_violation
  else Ok (mkUserSpace (us_ID us) (us_UserID us) (us_ClusterID us) (us_Namespace us) now,
           set_spaces d (mkSpaceRow (mkUserSpace id user cluster (us_Namespace us) now) enc :: d_spaces d))).

Definition GetUserSpace (userID clusterID : string) : io DB db_error (UserSpace * option bytes) := stmt (fun _ d =>
  userID ← uuid userID;
  clusterID ← uuid clusterID;
  r ← select (d_spaces d) (fun r => str_eqb (us_UserID (sr r)) userID && str_eqb (us_ClusterID (sr r)) clusterID);
  Ok (sr r, us_kubeconfig r, d)).

Definition UpdateUserSpaceKubeconfig (id : string) (enc : option bytes) : io DB db_error unit := stmt (fun _ d =>
  id ← uuid id;
  Ok (tt, set_spaces d ((fun r => if str_eqb (us_ID (sr r)) id then mkSpaceRow (sr r) enc else r) <$> d_spaces d))).

Definition ListUserSpacesByUser (userID : string) : io DB db_error (list UserSpace) := stmt (fun _ d =>
  userID ← uuid userID;
  Ok (sr <$> scan_order (d_stmts d) (List.filter (fun r => str_eqb (us_UserID (sr r)) userID) (d_spaces d)), d)).

(** ** kubeconfigs.go *)

Definition user_scope (cluster namespace user : string) (k : KubeconfigRecord) : bool :=
  str_eqb (kc_ClusterID k) cluster && str_eqb (kc_Namespace k) namespace && str_eqb (kc_UserID k) user &&
  bool_decide (kc_ProjectID k = None).

Definition project_scope (cluster namespace project : string) (k : KubeconfigRecord) : bool :=
  str_eqb (kc_ClusterID k) cluster && str_eqb (kc_Namespace k) namespace &&
  bool_decide (kc_ProjectID k = Some project).

Definition same_scope (k : KubeconfigRecord) : KubeconfigRecord -> bool :=
  match kc_ProjectID k with
  | None => user_scope (kc_ClusterID k) (kc_Namespace k) (kc_UserID k)
  | Some project => project_scope (kc_ClusterID k) (kc_Namespace k) project
  end.

Definition set_kc (k : KubeconfigRecord) (id cluster user : string) (project : option string) (now : Z)
    : KubeconfigRecord :=
  mkKubeconfig id cluster (kc_Namespace k) user project (kc_ServiceAccount k) (kc_SecretName k) now now.

Definition opt_uuid (s : option string) : result db_error (option string) :=
  match s with None => Ok None | Some s => c ← uuid s; Ok (Some c) end.

Definition CreateKubeconfigRecord (rec : KubeconfigRecord) (enc : bytes) : io DB db_error KubeconfigRecord :=
  stmt (fun now d =>
    id ← uuid (kc_ID rec);
    cluster ← uuid (kc_ClusterID rec);
    user ← uuid (kc_UserID rec);
    project ← opt_uuid (kc_ProjectID rec);
    let row := set_kc rec id cluster user project now in
    if existsb (fun r => str_eqb (kc_ID (kr r)) id || same_scope row (kr r)) (d_kubeconfigs d)
    then unique_violation
    else Ok (set_kc rec (kc_ID rec) (kc_ClusterID rec) (kc_UserID rec) (kc_ProjectID rec) now,
             set_kubeconfigs d (mkKubeconfigRow row enc :: d_kubeconfigs d))).

Definition find_kubeconfig (f : KubeconfigRecord -> bool) (d : DB) : result db_error (KubeconfigRecord * bytes * DB) :=
  r ← select (d_kubeconfigs d) (fun r => f (kr r));
  Ok (kr r, kc_enc r, d).

Definition GetKubeconfigByID (id : string) : io DB db_error (KubeconfigRecord * bytes) := stmt (fun _ d =>
  id ← uuid id; find_kubeconfig (fun k => str_eqb (kc_ID k) id) d).

Definition GetKubeconfigByProject (projectID : string) : io DB db_error (KubeconfigRecord * bytes) := stmt (fun _ d =>
  projectID ← uuid projectID; find_kubeconfig (fun k => bool_decide (kc_ProjectID k = Some projectID)) d).

Definition GetKubeconfigByUserScope (clusterID namespace userID : string) : io DB db_error (KubeconfigRecord * bytes) :=
  stmt (fun _ d =>
    clusterID ← uuid clusterID;
    userID ← uuid userID;
    find_kubeconfig (user_scope clusterID namespace userID) d).

Definition UpdateKubeconfigRecord (id secretName serviceAccount : string) (enc : bytes) : io DB db_error unit :=
  stmt (fun now d =>
    id ← uuid id;
    Ok (tt, set_kubeconfigs d ((fun r =>
      let k := kr r in
      if str_eqb (kc_ID k) id
      then mkKubeconfigRow (mkKubeconfig (kc_ID k) (kc_ClusterID k) (kc_Namespace k) (kc_UserID k) (kc_ProjectID k)
             serviceAccount secretName (kc_CreatedAt k) now) enc
      else r) <$> d_kubeconfigs d))).

Definition DeleteKubeconfigRecord (id : string) : io DB db_error unit := stmt (fun _ d =>
  id ← uuid id;
  Ok (tt, set_kubeconfigs d (List.filter (fun r => negb (str_eqb (kc_ID (kr r)) id)) (d_kubeconfigs d)))).

Definition CountKubeconfigsByServiceAccount (namespace serviceAccount : string) : io DB db_error nat :=
  stmt (fun _ d =>
    Ok (length (List.filter (fun r => str_eqb (kc_Namespace (kr r)) namespace &&
                                      str_eqb (kc_ServiceAccount (kr r)) serviceAccount) (d_kubeconfigs d)), d)).

(** ** clusters.go *)

Definition normalizeTags_loop : list string -> list string -> list string :=
  fix loop (seen tags : list string) : list string :=
    match tags with
    | [] => []
    | t :: tags =>
        let cleaned := TrimSpace t in
        if str_eqb cleaned "" then loop seen tags
        else
          let cleaned := ToLower cleaned in
          if existsb (str_eqb cleaned) seen then loop seen tags else cleaned :: loop (cleaned :: seen) tags
    end.

Definition normalizeTags (tags : list string) : list string := sort_Strings (normalizeTags_loop [] tags).

Definition nullableString (v : string) : option string := if str_eqb (TrimSpace v) "" then None else Some v.

(** A string after its JSON encoding and decoding: what is not UTF-8 becomes U+FFFD. *)
Definition json_text (s : string) : string := of_chars (decode_runes (chars s) ≫= encode_rune).

(** The metadata as it is stored: owner, contact, environment, region, API server, description, tags. *)
Definition cluster_meta (owner contact environment region apiServer description : string) (tags : list string) : ClusterMeta :=
  mkMeta (nullableString owner) (nullableString contact) (nullableString environment) (nullableString region)
    (nullableString apiServer) (nullableString description) (json_text <$> normalizeTags tags).

Definition CreateCluster (id name : string) (meta : ClusterMeta) (enc : bytes) : io DB db_error ClusterRow := stmt (fun now d =>
  id' ← uuid id;
  if existsb (fun r => str_eqb (cl_ID r) id' || str_eqb (cl_Name r) name) (d_clusters d) then unique_violation
  else Ok (mkClusterRow id name meta enc now None None,
           set_clusters d (mkClusterRow id' name meta enc now None None :: d_clusters d))).

(** [scanCluster] of a row joined with its last status. *)
Definition scanCluster (d : DB) (r : ClusterRow) : ClusterRow * option ClusterStatus :=
  let m := cl_meta r in
  (mkClusterRow (cl_ID r) (cl_Name r)
     (mkMeta (cm_Owner m) (cm_Contact m) (cm_Environment m) (cm_Region m) (cm_APIServer m) (cm_Description m)
        (normalizeTags (cm_Tags m)))
     (cl_kubeconfig r) (cl_CreatedAt r) (cl_LastSeen r) (cl_LastStatusID r),
   id ← cl_LastStatusID r; List.find (fun s => str_eqb (cs_ID s) id) (d_statuses d)).

Definition GetCluster (id : string) : io DB db_error (ClusterRow * option ClusterStatus) := stmt (fun _ d =>
  id ← uuid id;
  r ← select (d_clusters d) (fun r => str_eqb (cl_ID r) id);
  Ok (scanCluster d r, d)).

Definition set_meta (meta : ClusterMeta) (r : ClusterRow) : ClusterRow :=
  mkClusterRow (cl_ID r) (cl_Name r) meta (cl_kubeconfig r) (cl_CreatedAt r) (cl_LastSeen r) (cl_LastStatusID r).

(** The update, whose count of rows is looked at, and then the row as it is now. *)
Definition UpdateClusterMetadata (id : string) (meta : ClusterMeta) : io DB db_error (ClusterRow * option ClusterStatus) :=
  n ← stmt (fun _ d =>
        id ← uuid id;
        Ok (length (List.filter (fun r => str_eqb (cl_ID r) id) (d_clusters d)),
            set_clusters d ((fun r => if str_eqb (cl_ID r) id then set_meta meta r else r) <$> d_clusters d)));
  if (n =? 0)%nat then fail ErrNoRows else GetCluster id.

Definition ListClusters : io DB db_error (list (ClusterRow * option ClusterStatus)) := stmt (fun _ d =>
  Ok (scanCluster d <$> ordered (fun r => - cl_CreatedAt r)%Z d (d_clusters d), d)).

Definition GetClusterKubeconfigEnc (id : string) : io DB db_error bytes := stmt (fun _ d =>
  id ← uuid id;
  r ← select (d_clusters d) (fun r => str_eqb (cl_ID r) id);
  Ok (cl_kubeconfig r, d)).

(** The statuses and mirrored resources go with the cluster ([ON DELETE CASCADE]). *)
Definition DeleteCluster (id : string) : io DB db_error unit := stmt (fun _ d =>
  id ← uuid id;
  let d := set_clusters d (List.filter (fun r => negb (str_eqb (cl_ID r) id)) (d_clusters d)) in
  let d := set_crds d (List.filter (fun k => negb (str_eqb (k8_ClusterID k) id)) (d_crds d)) in
  Ok (tt, set_statuses d (List.filter (fun s => negb (str_eqb (cs_ClusterID s) id)) (d_statuses d)))).

Definition ListClusterStatus (clusterID : string) (limit : Z) : io DB db_error (list ClusterStatus) := stmt (fun _ d =>
  clusterID ← uuid clusterID;
  let limit := if (limit <=? 0)%Z then 20%Z else limit in
  Ok (take (Z.to_nat limit) (ordered (fun s => - cs_CheckedAt s)%Z d
        (List.filter (fun s => str_eqb (cs_ClusterID s) clusterID) (d_statuses d))), d)).

(** What the columns hold of a status: blank texts are NULL, which is read as empty. *)
Definition stored_status (st : ClusterStatus) (id clusterID : string) : ClusterStatus :=
  mkStatus id clusterID (cs_Healthy st) (default "" (nullableString (cs_Message st)))
    (default "" (nullableString (cs_APIServerVersion st))) (cs_NodeCount st) (cs_CheckedAt st) (cs_Details st).

(** The transaction commits as a whole, as one statement; its cluster must be there.  [CheckedAt] is set by the caller. *)
Definition InsertClusterStatus (st : ClusterStatus) : io DB db_error ClusterStatus := stmt (fun _ d =>
  id ← uuid (cs_ID st);
  clusterID ← uuid (cs_ClusterID st);
  if existsb (fun s => str_eqb (cs_ID s) id) (d_statuses d) then unique_violation
  else if negb (existsb (fun r => str_eqb (cl_ID r) clusterID) (d_clusters d))
  then Err (DbError "insert or update violates foreign key constraint")
  else Ok (st, set_clusters (set_statuses d (stored_status st id clusterID :: d_statuses d))
                 ((fun r => if str_eqb (cl_ID r) clusterID
                            then mkClusterRow (cl_ID r) (cl_Name r) (cl_meta r) (cl_kubeconfig r) (cl_CreatedAt r)
                                   (Some (cs_CheckedAt st)) (Some id)
                            else r) <$> d_clusters d))).

(** ** What is used of apps.go *)

Definition ListAppsByProject (projectID : string) : io DB db_error (list App) := stmt (fun _ d =>
  projectID ← uuid projectID;
  Ok (ar <$> ordered (fun r => - ar_UpdatedAt r)%Z d
        (List.filter (fun r => str_eqb (ar_ProjectID r) projectID && negb (ar_deleted r)) (d_apps d)), d)).

Definition delete_apps (f : AppRow -> bool) (d : DB) : DB :=
  set_apps d ((fun r => if f r then mkAppRow (ar r) (ar_UpdatedAt r) true else r) <$> d_apps d).

Definition SoftDeleteAppsByProject (projectID : string) : io DB db_error unit := stmt (fun _ d =>
  projectID ← uuid projectID;
  Ok (tt, delete_apps (fun r => str_eqb (ar_ProjectID r) projectID) d)).

Definition SoftDeleteAppsByUser (userID : string) : io DB db_error unit := stmt (fun _ d =>
  userID ← uuid userID;
  let mine := (fun r => p_ID (pr r)) <$> List.filter (fun r => str_eqb (p_UserID (pr r)) userID) (d_projects d) in
  Ok (tt, delete_apps (fun r => existsb (str_eqb (ar_ProjectID r)) mine) d)).

(** ** events.go *)

Definition store_event_guard (evt : ProjectEvent) : option string :=
  if str_eqb (TrimSpace (e_ID evt)) "" then Some "event id required"
  else if str_eqb (TrimSpace (e_ProjectID evt)) "" then Some "project id required"
  else if str_eqb (TrimSpace (e_Kind evt)) "" then Some "kind required"
  else if str_eqb (TrimSpace (e_Severity evt)) "" then Some "severity required"
  else if str_eqb (TrimSpace (e_Message evt)) "" then Some "message required"
  else None.

(** Blank application identifiers and actors are stored as NULL. *)
Definition insert_event (evt : ProjectEvent) : io DB db_error ProjectEvent :=
  match store_event_guard evt with
  | Some e => fail (DbError e)
  | None => stmt (fun now d =>
      id ← uuid (e_ID evt);
      project ← uuid (e_ProjectID evt);
      app ← (if str_eqb (TrimSpace (e_AppID evt)) "" then Ok "" else uuid (e_AppID evt));
      if existsb (fun r => str_eqb (e_ID r) id) (d_events d) then unique_violation
      else
        let actor := if str_eqb (TrimSpace (e_ActorUserID evt)) "" then "" else e_ActorUserID evt in
        let row := mkEvent id project app actor (e_Kind evt) (e_Severity evt) (e_Message evt) (e_Meta evt) now in
        Ok (set_at evt now, set_events d (row :: d_events d)))
  end.

(** ** maintenance.go: the row the migration inserts is there *)

#[export] Instance db_maintenance : MaintenanceStore DB := {|
  load_Maintenance d :=
    match maintenance_fault (d_stmts d) with Some e => Err e | None => Ok (d_maintenance d) end;
  store_UpdateMaintenance enabled message actor d :=
    match maintenance_fault (d_stmts d) with
    | Some e => (Err e, bump d)
    | None => let m := mkMaintenance enabled message (db_now (d_stmts d)) actor in
              (Ok m, bump (set_row_maintenance d m))
    end
|}.
End Statements.
