(* ===== verification/StoreApps.v ===== *)
(** The statements on applications, their domains, credentials, releases and mirrored custom
    resources and templates: [internal/store/apps.go], [credentials.go], [releases.go], [crds.go],
    [templates.go] and [app_templates.go], with
    the constraints of the migrations.

    Rows are never removed from [users], [projects] and [apps], so the cascades of their
    foreign keys do not fire. *)

From Stdlib Require Import Ascii ZArith Lia.
From stdpp Require Import base gmap strings list sorting.
From S2P Require Import CursorOrder Prelude Utf8 GoStrings Hash Events Store.

(** [ORDER BY created_at DESC, id DESC]; identifiers are compared as their canonical texts. *)
Abbreviation newest_first := (first_by rl_CreatedAt rl_ID).

Section Statements.
Context `{pg : Postgres}.

Definition foreign_key {A} : result db_error A := Err (DbError "insert or update violates foreign key constraint").
Definition check_violation {A} : result db_error A := Err (DbError "new row violates check constraint").

(** ** apps.go *)

(** The texts are never NULL; among live rows [external_ref] is unique. *)
Definition CreateApp (id projectID name status repo webhookSecret externalRef : string) (source delivery : Meta)
    : io DB db_error unit := stmt (fun now d =>
  id ← uuid id;
  projectID ← uuid projectID;
  let app := mkApp id projectID name status (Some repo) (Some webhookSecret) (Some externalRef) source delivery in
  if existsb (fun r => str_eqb (ar_ID r) id) (d_apps d) then unique_violation
  else if existsb (fun r => bool_decide (a_ExternalRef (ar r) = Some externalRef) && negb (ar_deleted r)) (d_apps d)
  then unique_violation
  else Ok (tt, set_apps d (mkAppRow app now false :: d_apps d))).

Definition GetApp (id : string) : io DB db_error App := stmt (fun _ d =>
  id ← uuid id;
  r ← select (d_apps d) (fun r => str_eqb (ar_ID r) id && negb (ar_deleted r));
  Ok (ar r, d)).

Definition GetAppByExternalRef (ref : string) : io DB db_error App := stmt (fun _ d =>
  r ← select (d_apps d) (fun r => bool_decide (a_ExternalRef (ar r) = Some ref) && negb (ar_deleted r));
  Ok (ar r, d)).

Definition FindAppsByRepo (repo : string) : io DB db_error (list App) := stmt (fun _ d =>
  Ok (ar <$> scan_order (d_stmts d)
        (List.filter (fun r => bool_decide (a_Repo (ar r) = Some repo) && negb (ar_deleted r)) (d_apps d)), d)).

Definition SoftDeleteApp (id : string) : io DB db_error unit := stmt (fun _ d =>
  id ← uuid id;
  Ok (tt, delete_apps (fun r => str_eqb (ar_ID r) id) d)).

(** [id] is the identifier the function draws. *)
Definition UpsertAppDomain (id appID fqdn certStatus : string) : io DB db_error AppDomain := stmt (fun now d =>
  let certStatus := if str_eqb certStatus "" then "pending" else certStatus in
  id ← uuid id;
  appID ← uuid appID;
  if negb (existsb (fun r => str_eqb (ar_ID r) appID) (d_apps d)) then foreign_key
  else
    let same x := str_eqb (ad_AppID x) appID && str_eqb (ad_FQDN x) fqdn in
    match List.find same (d_domains d) with
    | Some x =>
        let x' := mkDomain (ad_ID x) appID fqdn certStatus (ad_CreatedAt x) now in
        Ok (x', set_domains d ((fun y => if same y then x' else y) <$> d_domains d))
    | None =>
        if existsb (fun x => str_eqb (ad_ID x) id) (d_domains d) then unique_violation
        else let x := mkDomain id appID fqdn certStatus now now in Ok (x, set_domains d (x :: d_domains d))
    end).

Definition ListAppDomains (appID : string) : io DB db_error (list AppDomain) := stmt (fun _ d =>
  appID ← uuid appID;
  Ok (ordered ad_CreatedAt d (List.filter (fun x => str_eqb (ad_AppID x) appID) (d_domains d)), d)).

Definition DeleteAppDomains (appID : string) : io DB db_error unit := stmt (fun _ d =>
  appID ← uuid appID;
  Ok (tt, set_domains d (List.filter (fun x => negb (str_eqb (ad_AppID x) appID)) (d_domains d)))).

(** ** credentials.go *)

(** The two tables have the same columns but for [registry], and different authentication types. *)
Inductive cred_table := GitTable | RegistryTable.

Definition credentials (t : cred_table) (d : DB) : list CredentialRow :=
  match t with GitTable => d_git d | RegistryTable => d_registry d end.
Definition set_credentials (t : cred_table) (d : DB) (rows : list CredentialRow) : DB :=
  match t with GitTable => set_git d rows | RegistryTable => set_registry d rows end.
Definition auth_types (t : cred_table) : list string :=
  match t with GitTable => ["TOKEN"; "BASIC"; "SSH"] | RegistryTable => ["TOKEN"; "BASIC"] end.

Definition opt_uuid (s : option string) : result db_error (option string) :=
  match s with None => Ok None | Some s => c ← uuid s; Ok (Some c) end.

Definition same_name (c : Credential) (r : CredentialRow) : bool :=
  str_eqb (c_Name (cred r)) (c_Name c) &&
  (match c_UserID c with Some u => bool_decide (c_UserID (cred r) = Some u) | None => false end ||
   match c_ProjectID c with Some p => bool_decide (c_ProjectID (cred r) = Some p) | None => false end).

Definition insert_credential (t : cred_table) (c : Credential) (secret : bytes) : io DB db_error Credential := stmt (fun now d =>
  id ← uuid (c_ID c);
  user ← opt_uuid (c_UserID c);
  project ← opt_uuid (c_ProjectID c);
  let stored := mkCredential id (c_Name c) (c_Registry c) user project (c_AuthType c) (c_Username c) now now in
  if negb (existsb (str_eqb (c_AuthType c)) (auth_types t)) || bool_decide (is_Some user <-> is_Some project) then check_violation
  else if existsb (fun r => str_eqb (c_ID (cred r)) id || same_name stored r) (credentials t d) then unique_violation
  else if negb (match user with Some u => existsb (fun r => str_eqb (u_ID (ur r)) u) (d_users d) | None => true end &&
                match project with Some p => existsb (fun r => str_eqb (p_ID (pr r)) p) (d_projects d) | None => true end)
  then foreign_key
  else Ok (mkCredential (c_ID c) (c_Name c) (c_Registry c) (c_UserID c) (c_ProjectID c) (c_AuthType c) (c_Username c) now now,
           set_credentials t d (mkCredentialRow stored secret :: credentials t d))).

Definition select_credential (t : cred_table) (id : string) : io DB db_error (Credential * bytes) := stmt (fun _ d =>
  id ← uuid id;
  r ← select (credentials t d) (fun r => str_eqb (c_ID (cred r)) id);
  Ok ((cred r, c_secret r), d)).

Record CredentialFilter := mkFilter { f_UserID : string; f_ProjectID : string }.

Definition list_credentials (t : cred_table) (filter : CredentialFilter) : io DB db_error (list Credential) := stmt (fun _ d =>
  let newest := ordered (fun r => - c_CreatedAt (cred r))%Z d in
  if negb (str_eqb (f_UserID filter) "") then
    u ← uuid (f_UserID filter);
    Ok (cred <$> newest (List.filter (fun r => bool_decide (c_UserID (cred r) = Some u)) (credentials t d)), d)
  else if negb (str_eqb (f_ProjectID filter) "") then
    p ← uuid (f_ProjectID filter);
    Ok (cred <$> newest (List.filter (fun r => bool_decide (c_ProjectID (cred r) = Some p)) (credentials t d)), d)
  else Ok (cred <$> newest (credentials t d), d)).

Definition delete_credential (t : cred_table) (id : string) : io DB db_error unit := stmt (fun _ d =>
  id ← uuid id;
  if existsb (fun r => str_eqb (c_ID (cred r)) id) (credentials t d)
  then Ok (tt, set_credentials t d (List.filter (fun r => negb (str_eqb (c_ID (cred r)) id)) (credentials t d)))
  else Err ErrNoRows).

(** The methods of the store, one per table. *)
Definition CreateGitCredential := insert_credential GitTable.
Definition GetGitCredential := select_credential GitTable.
Definition ListGitCredentials := list_credentials GitTable.
Definition DeleteGitCredential := delete_credential GitTable.
Definition CreateRegistryCredential := insert_credential RegistryTable.
Definition GetRegistryCredential := select_credential RegistryTable.
Definition ListRegistryCredentials := list_credentials RegistryTable.
Definition DeleteRegistryCredential := delete_credential RegistryTable.

(** ** releases.go *)

(** A column that is NULL when the text is blank. *)
Definition trimmed_column (v : option string) : option string :=
  match v with
  | Some s => if blank s then None else Some (TrimSpace s)
  | None => None
  end.

Definition release_guard (r : Release) : option string :=
  if blank (rl_ID r) then Some "release id required"
  else if blank (rl_ProjectID r) then Some "project id required"
  else if blank (rl_AppID r) then Some "app id required"
  else if blank (rl_Source r) then Some "source required"
  else if blank (rl_SpecDigest r) then Some "spec digest required"
  else if blank (rl_RenderDigest r) then Some "render digest required"
  else None.

Definition insert_release (r : Release) : io DB db_error unit := stmt (fun now d =>
  id ← uuid (rl_ID r);
  project ← uuid (rl_ProjectID r);
  app ← uuid (rl_AppID r);
  let status := if blank (rl_Status r) then "succeeded" else TrimSpace (rl_Status r) in
  if existsb (fun x => str_eqb (rl_ID x) id) (d_releases d) then unique_violation
  else if negb (existsb (fun x => str_eqb (p_ID (pr x)) project) (d_projects d) &&
                existsb (fun x => str_eqb (ar_ID x) app) (d_apps d)) then foreign_key
  else Ok (tt, set_releases d
    (mkRelease id project app (rl_Source r) (rl_SpecDigest r) (rl_RenderDigest r) (rl_Spec r) (rl_RenderedObjects r)
       (rl_LoadBalancers r) (rl_Warnings r) (trimmed_column (rl_HelmChart r)) (rl_HelmValues r)
       (trimmed_column (rl_HelmRenderSHA r)) (trimmed_column (rl_ManifestsSHA r)) (trimmed_column (rl_Repo r)) (rl_SBOM r)
       status (rl_Message r) now :: d_releases d))).

Definition CreateRelease (r : Release) : io DB db_error unit :=
  match release_guard r with
  | Some text => fail (DbError text)
  | None => insert_release r
  end.

Definition scanRelease (r : Release) : Release :=
  let status := TrimSpace (rl_Status r) in
  mkRelease (rl_ID r) (rl_ProjectID r) (rl_AppID r) (rl_Source r) (rl_SpecDigest r) (rl_RenderDigest r) (rl_Spec r)
    (rl_RenderedObjects r) (rl_LoadBalancers r) (rl_Warnings r) (rl_HelmChart r) (rl_HelmValues r) (rl_HelmRenderSHA r)
    (rl_ManifestsSHA r) (rl_Repo r) (rl_SBOM r) (if str_eqb status "" then "succeeded" else status)
    (TrimSpace (rl_Message r)) (rl_CreatedAt r).

Definition GetRelease (id : string) : io DB db_error Release :=
  if blank id then fail (DbError "release id required")
  else stmt (fun _ d =>
    id ← uuid id;
    r ← select (d_releases d) (fun r => str_eqb (rl_ID r) id);
    Ok (scanRelease r, d)).

(** What comes after the cursor: its time and identifier. *)
Definition after_cursor (cursor : option (string * Z)) (r : Release) : bool :=
  match cursor with
  | None => true
  | Some (id, at_) => (rl_CreatedAt r <? at_)%Z || ((rl_CreatedAt r =? at_)%Z && String.ltb (rl_ID r) id)
  end.

Definition ListReleasesByApp (projectID appID : string) (limit : Z) (cursor : option (string * Z))
    : io DB db_error (list Release) :=
  if blank projectID then fail (DbError "project id required")
  else if blank appID then fail (DbError "app id required")
  else
    let limit := if (limit <=? 0)%Z then 20%Z else limit in
    let limit := if (200 <? limit)%Z then 200%Z else limit in
    stmt (fun _ d =>
      project ← uuid projectID;
      app ← uuid appID;
      cursor ← match cursor with None => Ok None | Some (id, at_) => id ← uuid id; Ok (Some (id, at_)) end;
      Ok (scanRelease <$> take (Z.to_nat limit)
            (List.filter (after_cursor cursor)
              (merge_sort newest_first
                (List.filter (fun r => str_eqb (rl_ProjectID r) project && str_eqb (rl_AppID r) app) (d_releases d)))), d)).

(** ** crds.go *)

Definition crd_guard (k : K8sCRDRow) : option string :=
  if existsb blank [k8_ClusterID k; k8_ProjectID k; k8_Kind k; k8_Namespace k; k8_Name k]
  then Some "clusterID, projectID, kind, namespace, and name are required"
  else if existsb blank [k8_UID k; k8_ResourceVersion k; k8_SpecHash k]
  then Some "uid, resourceVersion, and specHash are required"
  else None.

Definition same_crd (cluster kind namespace name : string) (k : K8sCRDRow) : bool :=
  str_eqb (k8_ClusterID k) cluster && str_eqb (k8_Kind k) kind && str_eqb (k8_Namespace k) namespace && str_eqb (k8_Name k) name.

(** A row that is there keeps its project. *)
Definition UpsertK8sCRD (k : K8sCRDRow) : io DB db_error unit :=
  match crd_guard k with
  | Some text => fail (DbError text)
  | None => stmt (fun _ d =>
      cluster ← uuid (k8_ClusterID k);
      project ← uuid (k8_ProjectID k);
      let set p := mkCRDRow cluster p (k8_Kind k) (k8_Namespace k) (k8_Name k) (k8_UID k) (k8_ResourceVersion k)
                     (k8_SpecHash k) (k8_Spec k) (k8_Status k) (k8_DeletedAt k) in
      let same := same_crd cluster (k8_Kind k) (k8_Namespace k) (k8_Name k) in
      if existsb same (d_crds d)
      then Ok (tt, set_crds d ((fun x => if same x then set (k8_ProjectID x) else x) <$> d_crds d))
      else if negb (existsb (fun r => str_eqb (cl_ID r) cluster) (d_clusters d) &&
                    existsb (fun r => str_eqb (p_ID (pr r)) project) (d_projects d)) then foreign_key
      else Ok (tt, set_crds d (set project :: d_crds d)))
  end.

Definition MarkK8sCRDDeleted (clusterID kind namespace name : string) (deletedAt : Z) : io DB db_error unit := stmt (fun _ d =>
  cluster ← uuid clusterID;
  Ok (tt, set_crds d ((fun x => if same_crd cluster kind namespace name x
    then mkCRDRow (k8_ClusterID x) (k8_ProjectID x) (k8_Kind x) (k8_Namespace x) (k8_Name x) (k8_UID x)
           (k8_ResourceVersion x) (k8_SpecHash x) (k8_Spec x) (k8_Status x) (Some deletedAt)
    else x) <$> d_crds d))).

(** ** templates.go and app_templates.go *)

Definition CreateTemplate (t : Template) : io DB db_error unit := stmt (fun now d =>
  id ← uuid (t_ID t);
  if existsb (fun x => str_eqb (t_ID x) id) (d_templates d) then unique_violation
  else Ok (tt, set_templates d (mkTemplate id (t_Name t) (t_Kind t) (t_Description t) (t_Schema t) (t_Defaults t) (t_Example t)
                 (t_Base t) (t_DeliveryTemplate t) now :: d_templates d))).

Definition ListTemplates : io DB db_error (list Template) := stmt (fun _ d =>
  Ok (ordered (fun t => - t_CreatedAt t)%Z d (d_templates d), d)).

Definition GetTemplate (id : string) : io DB db_error Template := stmt (fun _ d =>
  id ← uuid id;
  t ← select (d_templates d) (fun t => str_eqb (t_ID t) id);
  Ok (t, d)).

(** [id]: the identifier the database draws *)
Definition UpsertAppTemplate (id appID templateID : string) (values metadata : Meta) : io DB db_error AppTemplate :=
  if blank appID || blank templateID then fail (DbError "appID and templateID are required")
  else stmt (fun now d =>
    app ← uuid appID;
    tpl ← uuid templateID;
    if negb (existsb (fun r => str_eqb (ar_ID r) app) (d_apps d) && existsb (fun t => str_eqb (t_ID t) tpl) (d_templates d))
    then foreign_key
    else match List.find (fun x => str_eqb (at_AppID x) app) (d_app_templates d) with
    | Some x =>
        let x' := mkAppTemplate (at_ID x) app tpl values metadata (at_CreatedAt x) now in
        Ok (x', set_app_templates d ((fun y => if str_eqb (at_AppID y) app then x' else y) <$> d_app_templates d))
    | None => let x := mkAppTemplate id app tpl values metadata now now in Ok (x, set_app_templates d (x :: d_app_templates d))
    end).

Definition GetAppTemplate (appID : string) : io DB db_error AppTemplate :=
  if blank appID then fail (DbError "appID is required")
  else stmt (fun _ d =>
    app ← uuid appID;
    x ← select (d_app_templates d) (fun x => str_eqb (at_AppID x) app);
    Ok (x, d)).

Definition DeleteAppTemplate (appID : string) : io DB db_error unit :=
  if blank appID then fail (DbError "appID is required")
  else stmt (fun _ d =>
    app ← uuid appID;
    Ok (tt, set_app_templates d (List.filter (fun x => negb (str_eqb (at_AppID x) app)) (d_app_templates d)))).
End Statements.
