(* ===== verification/StoreProofs.v ===== *)
(** The keys of the tables: every statement of the store keeps them unique, so a lookup by key
    has one answer. *)

From Stdlib Require Import Ascii ZArith Lia.
From stdpp Require Import base gmap strings list.
From S2P Require Import Prelude GoStrings Hash Json Maintenance Store.

(** ** Unique keys of a table; a row may have none *)

Definition uniq {R K} (key : R -> option K) (rows : list R) : Prop := NoDup (omap key rows).

Section Uniq.
Context {R K : Type} (key : R -> option K).

Lemma uniq_insert r rows :
  (forall r' k, r' ∈ rows -> key r = Some k -> key r' = Some k -> False) -> uniq key rows -> uniq key (r :: rows).
Proof.
  intros Hn Hu. unfold uniq. cbn. destruct (key r) as [k|] eqn:E; [|done].
  apply NoDup_cons. split; [|done]. intros (r' & Hin & Hk)%list_elem_of_omap. by eapply Hn.
Qed.

(** Rows keep their key or lose it. *)
Lemma uniq_update (f : R -> R) rows :
  (forall r, r ∈ rows -> key (f r) = key r \/ key (f r) = None) -> uniq key rows -> uniq key (f <$> rows).
Proof.
  unfold uniq. induction rows as [|r rows IH]; intros Hf Hu; [done|]. cbn in *.
  assert (IH' : NoDup (omap key (f <$> rows))).
  { apply IH; [intros; apply Hf; by right|]. destruct (key r); [by apply NoDup_cons in Hu as [_ ?]|done]. }
  destruct (Hf r) as [E|E]; [by left| |]; rewrite E; [|done].
  destruct (key r) as [k|]; [|done]. apply NoDup_cons in Hu as [Hn _]. apply NoDup_cons. split; [|done].
  intros (r' & Hin & Hk)%list_elem_of_omap. apply Hn.
  apply list_elem_of_fmap in Hin as (r0 & -> & Hin). apply list_elem_of_omap. exists r0. split; [done|].
  destruct (Hf r0) as [<-|Hnone]; [by right|done|congruence].
Qed.

Lemma uniq_filter (f : R -> bool) rows : uniq key rows -> uniq key (List.filter f rows).
Proof.
  unfold uniq. induction rows as [|r rows IH]; [done|]. cbn.
  destruct (key r) as [k|] eqn:E.
  - intros [Hn Hu]%NoDup_cons. destruct (f r); [|by apply IH]. cbn. rewrite E. apply NoDup_cons. split; [|by apply IH].
    intros (r' & [Hin _]%list_elem_of_In%filter_In & Hk)%list_elem_of_omap. apply Hn, list_elem_of_omap.
    exists r'. split; [by apply list_elem_of_In|done].
  - intros Hu. destruct (f r); [|by apply IH]. cbn. rewrite E. by apply IH.
Qed.

Lemma uniq_same r1 r2 rows k : uniq key rows -> r1 ∈ rows -> r2 ∈ rows -> key r1 = Some k -> key r2 = Some k -> r1 = r2.
Proof.
  unfold uniq. induction rows as [|r rows IH]; [by intros _ ?%elem_of_nil|]. cbn.
  intros Hu [->|H1]%elem_of_cons [->|H2]%elem_of_cons K1 K2; try done.
  - rewrite K1 in Hu. apply NoDup_cons in Hu as [Hn _]. exfalso. apply Hn, list_elem_of_omap. eauto.
  - rewrite K2 in Hu. apply NoDup_cons in Hu as [Hn _]. exfalso. apply Hn, list_elem_of_omap. eauto.
  - apply IH; [|done..]. destruct (key r); [by apply NoDup_cons in Hu as [_ ?]|done].
Qed.
End Uniq.

(** ** The constraints of the migrations *)

Definition user_id (r : UserRow) : option string := Some (u_ID (ur r)).
Definition user_email (r : UserRow) : option string := Some (u_Email (ur r)).
Definition project_id (r : ProjectRow) : option string := Some (p_ID (pr r)).
Definition project_place (r : ProjectRow) : option (string * string) :=
  if p_deleted r then None else Some (p_ClusterID (pr r), p_Namespace (pr r)).
Definition space_id (r : SpaceRow) : option string := Some (us_ID (sr r)).
Definition space_owner (r : SpaceRow) : option (string * string) := Some (us_UserID (sr r), us_ClusterID (sr r)).
Definition kubeconfig_id (r : KubeconfigRow) : option string := Some (kc_ID (kr r)).
Definition kubeconfig_scope (r : KubeconfigRow) : option (string * string * (string + string)) :=
  let k := kr r in
  Some (kc_ClusterID k, kc_Namespace k,
        match kc_ProjectID k with None => inl (kc_UserID k) | Some p => inr p end).

Definition cluster_id (r : ClusterRow) : option string := Some (cl_ID r).
Definition cluster_name (r : ClusterRow) : option string := Some (cl_Name r).
Definition status_id (s : ClusterStatus) : option string := Some (cs_ID s).

Record db_keys (d : DB) : Prop := {
  keys_user : uniq user_id (d_users d);
  keys_email : uniq user_email (d_users d);
  keys_project : uniq project_id (d_projects d);
  keys_place : uniq project_place (d_projects d);
  keys_space : uniq space_id (d_spaces d);
  keys_owner : uniq space_owner (d_spaces d);
  keys_kubeconfig : uniq kubeconfig_id (d_kubeconfigs d);
  keys_scope : uniq kubeconfig_scope (d_kubeconfigs d);
  keys_cluster : uniq cluster_id (d_clusters d);
  keys_cluster_name : uniq cluster_name (d_clusters d);
  keys_status : uniq status_id (d_statuses d);
  (** a status belongs to a cluster that is there *)
  keys_reference : Forall (fun s => cs_ClusterID s ∈ (cl_ID <$> d_clusters d)) (d_statuses d);
}.

Definition empty_db : DB := mkDB [] [] [] [] [] [] [] [] [] [] [] [] [] [] [] (mkMaintenance false "" 0 "") 0.

(** ** The statements that write *)

Inductive store_op :=
| OpCreateUser (u : User)
| OpSoftDeleteUser (id : string)
| OpCreateProject (p : Project) (quota : option string) (enc : option bytes)
| OpUpdateProjectSuspended (id : string) (suspended : bool)
| OpUpdateProjectQuotaOverrides (id : string) (quota : option string)
| OpUpdateProjectKubeconfig (id : string) (enc : option bytes)
| OpSoftDeleteProject (id : string)
| OpSoftDeleteProjectsByUser (id : string)
| OpCreateUserSpace (us : UserSpace) (enc : option bytes)
| OpUpdateUserSpaceKubeconfig (id : string) (enc : option bytes)
| OpCreateKubeconfigRecord (rec : KubeconfigRecord) (enc : bytes)
| OpUpdateKubeconfigRecord (id secret account : string) (enc : bytes)
| OpDeleteKubeconfigRecord (id : string)
| OpSoftDeleteAppsByProject (id : string)
| OpSoftDeleteAppsByUser (id : string)
| OpCreateCluster (id name : string) (meta : ClusterMeta) (enc : bytes)
| OpUpdateClusterMetadata (id : string) (meta : ClusterMeta)
| OpDeleteCluster (id : string)
| OpInsertClusterStatus (st : ClusterStatus).

Section Keys.
Context `{pg : Postgres}.

Definition run_store (op : store_op) (d : DB) : DB :=
  match op with
  | OpCreateUser u => (CreateUser u d).2
  | OpSoftDeleteUser id => (SoftDeleteUser id d).2
  | OpCreateProject p q e => (CreateProject p q e d).2
  | OpUpdateProjectSuspended id b => (UpdateProjectSuspended id b d).2
  | OpUpdateProjectQuotaOverrides id q => (UpdateProjectQuotaOverrides id q d).2
  | OpUpdateProjectKubeconfig id e => (UpdateProjectKubeconfig id e d).2
  | OpSoftDeleteProject id => (SoftDeleteProject id d).2
  | OpSoftDeleteProjectsByUser id => (SoftDeleteProjectsByUser id d).2
  | OpCreateUserSpace us e => (CreateUserSpace us e d).2
  | OpUpdateUserSpaceKubeconfig id e => (UpdateUserSpaceKubeconfig id e d).2
  | OpCreateKubeconfigRecord r e => (CreateKubeconfigRecord r e d).2
  | OpUpdateKubeconfigRecord id s a e => (UpdateKubeconfigRecord id s a e d).2
  | OpDeleteKubeconfigRecord id => (DeleteKubeconfigRecord id d).2
  | OpSoftDeleteAppsByProject id => (SoftDeleteAppsByProject id d).2
  | OpSoftDeleteAppsByUser id => (SoftDeleteAppsByUser id d).2
  | OpCreateCluster id name meta e => (CreateCluster id name meta e d).2
  | OpUpdateClusterMetadata id meta => (UpdateClusterMetadata id meta d).2
  | OpDeleteCluster id => (DeleteCluster id d).2
  | OpInsertClusterStatus st => (InsertClusterStatus st d).2
  end.

Lemma keys_bump d : db_keys (bump d) <-> db_keys d.
Proof. split; intros []; split; done. Qed.

(** A statement keeps the keys when what it commits has them. *)
Lemma stmt_keys {A} (f : Z -> DB -> result db_error (A * DB)) d :
  db_keys d -> (forall now a d', f now d = Ok (a, d') -> db_keys d') -> db_keys (stmt f d).2.
Proof.
  intros Hd Hf. unfold stmt. destruct (db_fault _); [by apply keys_bump|].
  destruct (f _ d) as [[a d']|e] eqn:E; cbn; apply keys_bump; eauto.
Qed.

(** Peel the parses off a committed statement. *)
Ltac committed H :=
  intros ? ? ? H; repeat (let v := fresh "v" in let Hv := fresh "Hv" in apply bind_ok in H as (v & Hv & H));
  try (injection H as <- <-).

(** A table whose rows are changed one by one. *)
Ltac row_update := apply uniq_update; [|assumption]; intros r ?; cbv beta; repeat case_match; auto.

Lemma no_dup_row {R} (f : R -> bool) rows r : existsb f rows = false -> r ∈ rows -> f r = false.
Proof.
  intros H Hin. apply not_true_is_false. intros Hf. apply not_true_iff_false in H. apply H.
  apply existsb_exists. exists r. split; [by apply list_elem_of_In|done].
Qed.

Lemma CreateUser_keys u d : db_keys d -> db_keys (CreateUser u d).2.
Proof.
  intros Hd. apply stmt_keys; [done|]. committed H. destruct (existsb _ _) eqn:E; [done|]. injection H as <- <-.
  destruct Hd. split; try done; apply uniq_insert; try done;
    intros r' k Hin [= <-] [= Hk]; apply (no_dup_row _ _ _ E) in Hin; cbn in Hk; rewrite Hk, str_eqb_refl in Hin;
    by rewrite ?orb_true_r in Hin.
Qed.

Lemma CreateProject_keys p q e d : db_keys d -> db_keys (CreateProject p q e d).2.
Proof.
  intros Hd. apply stmt_keys; [done|]. committed H. destruct (existsb _ _) eqn:E; [done|]. injection H as <- <-.
  destruct Hd. split; try done; apply uniq_insert; try done;
    intros r' k Hin [= <-] Hk; apply (no_dup_row _ _ _ E) in Hin.
  - injection Hk as Hk. cbn in Hk. by rewrite Hk, str_eqb_refl in Hin.
  - unfold project_place in Hk. destruct (p_deleted r') eqn:Ed; [done|]. injection Hk as Hc Hn. cbn in Hc, Hn.
    apply orb_false_iff in Hin as [_ Hin]. unfold live_at in Hin. by rewrite Hc, Hn, Ed, !str_eqb_refl in Hin.
Qed.

Lemma CreateUserSpace_keys us e d : db_keys d -> db_keys (CreateUserSpace us e d).2.
Proof.
  intros Hd. apply stmt_keys; [done|]. committed H. destruct (existsb _ _) eqn:E; [done|]. injection H as <- <-.
  destruct Hd. split; try done; apply uniq_insert; try done;
    intros r' k Hin [= <-] Hk; apply (no_dup_row _ _ _ E) in Hin.
  - injection Hk as Hk. cbn in Hk. by rewrite Hk, str_eqb_refl in Hin.
  - injection Hk as Hc Hn. cbn in Hc, Hn. by rewrite Hc, Hn, !str_eqb_refl, orb_true_r in Hin.
Qed.

Lemma same_scope_spec k r :
  same_scope k (kr r) = true <-> kubeconfig_scope r = kubeconfig_scope (mkKubeconfigRow k []).
Proof.
  unfold same_scope, kubeconfig_scope, user_scope, project_scope. cbn.
  destruct (kc_ProjectID k) as [p|] eqn:Ek; rewrite !andb_true_iff, !str_eqb_eq, bool_decide_eq_true;
    destruct (kc_ProjectID (kr r)); split; intros H; try (injection H; intros); try discriminate H;
    destruct_and?; repeat split; try congruence; try tauto.
Qed.

Lemma CreateKubeconfigRecord_keys rec e d : db_keys d -> db_keys (CreateKubeconfigRecord rec e d).2.
Proof.
  intros Hd. apply stmt_keys; [done|]. committed H. cbv zeta in H. destruct (existsb _ _) eqn:E; [done|]. injection H as <- <-.
  destruct Hd. split; try done; apply uniq_insert; try done;
    intros r' k Hin Hk Hk'; apply (no_dup_row _ _ _ E), orb_false_iff in Hin as [H1 H2].
  - injection Hk as <-. injection Hk' as Hk. cbn in Hk. by rewrite Hk, str_eqb_refl in H1.
  - apply not_true_iff_false in H2. apply H2, same_scope_spec. rewrite Hk'. by rewrite <- Hk.
Qed.

(** A table with the same keys. *)
Lemma reference_kept (f : ClusterRow -> ClusterRow) (rows : list ClusterRow) (sts : list ClusterStatus) :
  (forall r, cl_ID (f r) = cl_ID r) -> Forall (fun s => cs_ClusterID s ∈ (cl_ID <$> rows)) sts ->
  Forall (fun s => cs_ClusterID s ∈ (cl_ID <$> (f <$> rows))) sts.
Proof.
  intros Hf H. replace (cl_ID <$> (f <$> rows)) with (cl_ID <$> rows); [done|].
  rewrite <- list_fmap_compose. apply list_fmap_ext. intros i r _. by rewrite <- Hf.
Qed.

Lemma CreateCluster_keys id name meta e d : db_keys d -> db_keys (CreateCluster id name meta e d).2.
Proof.
  intros Hd. apply stmt_keys; [done|]. committed H. destruct (existsb _ _) eqn:E; [done|]. injection H as <- <-.
  destruct Hd. split; try done; try (apply uniq_insert; [|done]).
  1, 2: intros r' k Hin [= <-] [= Hk]; apply (no_dup_row _ _ _ E) in Hin; cbn in Hk; rewrite Hk, str_eqb_refl in Hin;
    by rewrite ?orb_true_r in Hin.
  eapply Forall_impl; [done|]. intros s Hs. cbn. by right.
Qed.

Lemma UpdateClusterMetadata_keys id meta d : db_keys d -> db_keys (UpdateClusterMetadata id meta d).2.
Proof.
  intros Hd. unfold UpdateClusterMetadata, mbind, io_bind.
  match goal with |- context [stmt ?f d] => set (F := f) end.
  assert (H1 : db_keys (stmt F d).2).
  { apply stmt_keys; [done|]. committed H. destruct Hd. split; try assumption; try row_update.
    cbn. apply reference_kept; [|done]. intros r. by destruct (str_eqb _ _). }
  destruct (stmt F d) as [[n|e] d1]; [|done]. destruct (n =? 0)%nat; [done|].
  apply stmt_keys; [done|]. by committed H.
Qed.

Lemma DeleteCluster_keys id d : db_keys d -> db_keys (DeleteCluster id d).2.
Proof.
  intros Hd. apply stmt_keys; [done|]. committed H. destruct Hd. split; try assumption; try by apply uniq_filter.
  cbn. apply Forall_forall. intros s [Hin Hs]%list_elem_of_In%filter_In. apply list_elem_of_In in Hin.
  apply negb_true_iff, str_eqb_neq in Hs. apply (proj1 (Forall_forall _ _) keys_reference0) in Hin.
  apply list_elem_of_fmap in Hin as (r & Hr & Hin). apply list_elem_of_fmap. exists r. split; [done|].
  apply list_elem_of_In, filter_In. split; [by apply list_elem_of_In|]. apply negb_true_iff, str_eqb_neq. congruence.
Qed.

Lemma InsertClusterStatus_keys st d : db_keys d -> db_keys (InsertClusterStatus st d).2.
Proof.
  intros Hd. apply stmt_keys; [done|]. committed H. destruct (existsb (fun s => str_eqb (cs_ID s) _) _) eqn:E; [done|].
  destruct (existsb _ (d_clusters d)) eqn:Ec; [|done]. injection H as <- <-.
  destruct Hd. split; try assumption; try row_update.
  - apply uniq_insert; [|done]. intros s k Hin [= <-] [= Hk]. apply (no_dup_row _ _ _ E) in Hin. cbn in Hk.
    by rewrite Hk, str_eqb_refl in Hin.
  - cbn. apply reference_kept; [intros r; by destruct (str_eqb _ _)|]. apply Forall_cons. split; [|done]. cbn.
    apply existsb_exists in Ec as (r & Hin & Hr%str_eqb_eq). rewrite <- Hr. apply list_elem_of_fmap. exists r.
    split; [done|]. by apply list_elem_of_In.
Qed.

Lemma store_keeps_keys op d : db_keys d -> db_keys (run_store op d).
Proof.
  intros Hd. destruct op; cbn [run_store];
    try solve [auto using CreateUser_keys, CreateProject_keys, CreateUserSpace_keys, CreateKubeconfigRecord_keys,
      CreateCluster_keys, UpdateClusterMetadata_keys, DeleteCluster_keys, InsertClusterStatus_keys];
    (apply stmt_keys; [done|]); committed H; destruct Hd; split; try assumption; try row_update;
    by apply uniq_filter.
Qed.

(** Whatever sequence of statements has run, with whatever failures among them, no two users share
    an identifier or an e-mail address, no two live projects of a cluster a namespace, no user has
    two spaces on a cluster, no two kubeconfig records a scope, no two clusters a name, and every
    status belongs to a cluster that is there; so the row a lookup by one of
    these keys returns is the only one. *)
Theorem store_reachable_keys (ops : list store_op) :
  let d := foldl (fun d op => run_store op d) empty_db ops in
  db_keys d /\
  (forall r r', r ∈ d_projects d -> r' ∈ d_projects d -> p_deleted r = false -> p_deleted r' = false ->
     p_ClusterID (pr r) = p_ClusterID (pr r') -> p_Namespace (pr r) = p_Namespace (pr r') -> r = r').
Proof.
  cbv zeta. assert (H : db_keys (foldl (fun d op => run_store op d) empty_db ops)).
  { assert (Hg : forall d, db_keys d -> db_keys (foldl (fun d op => run_store op d) d ops)).
    { induction ops as [|op ops IH]; intros d Hd; [done|]. cbn. by apply IH, store_keeps_keys. }
    apply Hg. split; constructor. }
  split; [done|]. intros r r' Hr Hr' Hd Hd' Hc Hn.
  eapply (uniq_same project_place); [apply H|done|done|unfold project_place; by rewrite Hd|].
  unfold project_place. by rewrite Hd', Hc, Hn.
Qed.
End Keys.
