(* ===== verification/AppStoreProofs.v ===== *)
(** The keys of the tables of applications, domains, credentials, releases, templates and mirrored
    resources, kept by every statement of the store. *)

From Stdlib Require Import Ascii ZArith Lia.
From stdpp Require Import base gmap strings list.
From S2P Require Import Prelude GoStrings Hash Json Events Maintenance Store StoreApps StoreProofs.

(** ** Keys *)

Definition app_key (r : AppRow) : option string := Some (ar_ID r).
Definition app_ref (r : AppRow) : option string := if ar_deleted r then None else a_ExternalRef (ar r).
Definition domain_key (x : AppDomain) : option (string * string) := Some (ad_AppID x, ad_FQDN x).
Definition release_key (r : Release) : option string := Some (rl_ID r).
Definition crd_key (k : K8sCRDRow) : option (string * string * string * string) :=
  Some (k8_ClusterID k, k8_Kind k, k8_Namespace k, k8_Name k).
Definition template_key (t : Template) : option string := Some (t_ID t).
Definition app_template_key (x : AppTemplate) : option string := Some (at_AppID x).
Definition cred_key (r : CredentialRow) : option string := Some (c_ID (cred r)).
Definition cred_user_name (r : CredentialRow) : option (string * string) :=
  u ← c_UserID (cred r); Some (u, c_Name (cred r)).
Definition cred_project_name (r : CredentialRow) : option (string * string) :=
  p ← c_ProjectID (cred r); Some (p, c_Name (cred r)).

(** A credential belongs to a user or to a project, not to both. *)
Definition scoped (t : cred_table) (r : CredentialRow) : Prop :=
  c_AuthType (cred r) ∈ auth_types t /\
  ((exists u, c_UserID (cred r) = Some u /\ c_ProjectID (cred r) = None) \/
   (exists p, c_UserID (cred r) = None /\ c_ProjectID (cred r) = Some p)).

Record cred_keys (t : cred_table) (rows : list CredentialRow) : Prop := {
  ck_id : uniq cred_key rows;
  ck_user : uniq cred_user_name rows;
  ck_project : uniq cred_project_name rows;
  ck_scoped : Forall (scoped t) rows;
}.

Record app_keys (d : DB) : Prop := {
  ak_app : uniq app_key (d_apps d);
  ak_ref : uniq app_ref (d_apps d);
  ak_domain : uniq domain_key (d_domains d);
  ak_domain_app : Forall (fun x => ad_AppID x ∈ (ar_ID <$> d_apps d)) (d_domains d);
  ak_release : uniq release_key (d_releases d);
  ak_release_app : Forall (fun r => rl_AppID r ∈ (ar_ID <$> d_apps d)) (d_releases d);
  ak_crd : uniq crd_key (d_crds d);
  ak_template : uniq template_key (d_templates d);
  ak_app_template : uniq app_template_key (d_app_templates d);
  ak_app_template_refs : Forall (fun x => at_AppID x ∈ (ar_ID <$> d_apps d) /\ at_TemplateID x ∈ (t_ID <$> d_templates d)) (d_app_templates d);
  ak_cred t : cred_keys t (credentials t d);
}.

Inductive app_op :=
| OpBase (op : store_op)
| OpCreateApp (id project name status repo secret ref : string) (source delivery : Meta)
| OpSoftDeleteApp (id : string)
| OpUpsertAppDomain (id app fqdn status : string)
| OpDeleteAppDomains (app : string)
| OpInsertCredential (t : cred_table) (c : Credential) (secret : bytes)
| OpDeleteCredential (t : cred_table) (id : string)
| OpCreateRelease (r : Release)
| OpUpsertK8sCRD (k : K8sCRDRow)
| OpMarkK8sCRDDeleted (cluster kind namespace name : string) (at_ : Z)
| OpCreateTemplate (t : Template)
| OpUpsertAppTemplate (id app template : string) (values metadata : Meta)
| OpDeleteAppTemplate (app : string).

Section Keys.
Context `{pg : Postgres}.

Definition run_app (op : app_op) (d : DB) : DB :=
  match op with
  | OpBase op => run_store op d
  | OpCreateApp id p n st repo sec ref src del => (CreateApp id p n st repo sec ref src del d).2
  | OpSoftDeleteApp id => (SoftDeleteApp id d).2
  | OpUpsertAppDomain id a f st => (UpsertAppDomain id a f st d).2
  | OpDeleteAppDomains a => (DeleteAppDomains a d).2
  | OpInsertCredential t c s => (insert_credential t c s d).2
  | OpDeleteCredential t id => (delete_credential t id d).2
  | OpCreateRelease r => (CreateRelease r d).2
  | OpUpsertK8sCRD k => (UpsertK8sCRD k d).2
  | OpMarkK8sCRDDeleted c k n nm at_ => (MarkK8sCRDDeleted c k n nm at_ d).2
  | OpCreateTemplate t => (CreateTemplate t d).2
  | OpUpsertAppTemplate id a t v m => (UpsertAppTemplate id a t v m d).2
  | OpDeleteAppTemplate a => (DeleteAppTemplate a d).2
  end.

Lemma app_keys_bump d : app_keys (bump d) <-> app_keys d.
Proof. split; intros []; split; done. Qed.

Lemma stmt_app_keys {A} (f : Z -> DB -> result db_error (A * DB)) d :
  app_keys d -> (forall now a d', f now d = Ok (a, d') -> app_keys d') -> app_keys (stmt f d).2.
Proof.
  intros Hd Hf. unfold stmt. destruct (db_fault _); [by apply app_keys_bump|].
  destruct (f _ d) as [[a d']|e] eqn:E; cbn; apply app_keys_bump; eauto.
Qed.

Ltac committed H :=
  intros ? ? ? H; repeat (let v := fresh "v" in let Hv := fresh "Hv" in apply bind_ok in H as (v & Hv & H));
  try (injection H as <- <-).

Ltac row_update := apply uniq_update; [|assumption]; intros r ?; cbv beta; repeat case_match; auto.

(** The application tables stay as they are. *)
Lemma app_keys_same d d' : d_apps d' = d_apps d -> d_domains d' = d_domains d -> d_releases d' = d_releases d ->
  d_crds d' = d_crds d -> d_git d' = d_git d -> d_registry d' = d_registry d -> d_templates d' = d_templates d ->
  d_app_templates d' = d_app_templates d -> app_keys d -> app_keys d'.
Proof.
  intros Ha Hd Hr Hc Hg Hreg Ht Hat [? ? ? ? ? ? ? ? ? ? Hk]. split; rewrite ?Ha, ?Hd, ?Hr, ?Hc, ?Ht, ?Hat; try done.
  intros t. specialize (Hk t). destruct t; cbn in *; by rewrite ?Hg, ?Hreg.
Qed.

Lemma ids_kept (f : AppRow -> AppRow) (rows : list AppRow) : (forall r, ar_ID (f r) = ar_ID r) -> ar_ID <$> (f <$> rows) = ar_ID <$> rows.
Proof. intros Hf. rewrite <- list_fmap_compose. apply list_fmap_ext. intros i r _. cbn. apply Hf. Qed.

Lemma delete_apps_keys f d : app_keys d -> app_keys (delete_apps f d).
Proof.
  intros [? ? ? ? ? ? ? ? ? ? Hk]. unfold delete_apps. split; cbn; try done; try row_update.
  - rewrite ids_kept; [done|]. intros r. by destruct (f r).
  - rewrite ids_kept; [done|]. intros r. by destruct (f r).
  - rewrite ids_kept; [done|]. intros r. by destruct (f r).
Qed.

Lemma store_app_keys op d : app_keys d -> app_keys (run_store op d).
Proof.
  intros Hd. destruct op; cbn [run_store]; try solve [apply stmt_app_keys; [done|]; committed H; cbv zeta in *; repeat case_match; try done;
    simplify_eq; by apply (app_keys_same d)].
  - apply stmt_app_keys; [done|]. committed H. by apply delete_apps_keys.
  - apply stmt_app_keys; [done|]. committed H. by apply delete_apps_keys.
  - unfold UpdateClusterMetadata, mbind, io_bind. match goal with |- context [stmt ?f d] => set (F := f) end.
    assert (H1 : app_keys (stmt F d).2) by (apply stmt_app_keys; [done|]; committed H; by apply (app_keys_same d)).
    destruct (stmt F d) as [[n|e] d1]; [|done]. destruct (n =? 0)%nat; [done|].
    apply stmt_app_keys; [done|]. by committed H.
  - apply stmt_app_keys; [done|]. committed H. destruct Hd as [? ? ? ? ? ? ? ? ? ? Hk]. split; cbn; try done.
    by apply uniq_filter.
Qed.

Lemma insert_fresh {R K} (key : R -> option K) (f : R -> bool) r rows :
  existsb f rows = false -> (forall r' k, key r = Some k -> key r' = Some k -> f r' = true) ->
  uniq key rows -> uniq key (r :: rows).
Proof.
  intros E Hf. apply uniq_insert. intros r' k Hin Hk Hk'. apply (no_dup_row _ _ _ E) in Hin.
  by rewrite (Hf r' k Hk Hk') in Hin.
Qed.

Lemma CreateApp_keys id p n st repo sec ref src del d : app_keys d -> app_keys (CreateApp id p n st repo sec ref src del d).2.
Proof.
  intros Hd. apply stmt_app_keys; [done|]. committed H. cbv zeta in H.
  destruct (existsb _ _) eqn:E1 in H; [done|]. destruct (existsb _ _) eqn:E2 in H; [done|]. injection H as <- <-.
  destruct Hd. split; cbn; try done.
  - eapply insert_fresh; [exact E1| |done]. intros r k [= <-] [= Hk]. cbn. rewrite Hk. apply str_eqb_refl.
  - eapply insert_fresh; [exact E2| |done]. intros r k [= <-] Hk. unfold app_ref in Hk. destruct (ar_deleted r); [done|].
    by rewrite bool_decide_true.
  - eapply Forall_impl; [done|]. intros x Hx. by right.
  - eapply Forall_impl; [done|]. intros x Hx. by right.
  - eapply Forall_impl; [done|]. intros x [Hx ?]. split; [by right|done].
Qed.

Lemma app_there id d : existsb (fun r => str_eqb (ar_ID r) id) (d_apps d) = true -> id ∈ (ar_ID <$> d_apps d).
Proof.
  intros (r & Hin & Hr%str_eqb_eq)%existsb_exists. rewrite <- Hr. apply list_elem_of_fmap. exists r.
  split; [done|]. by apply list_elem_of_In.
Qed.

Lemma UpsertAppDomain_keys id a f st d : app_keys d -> app_keys (UpsertAppDomain id a f st d).2.
Proof.
  intros Hd. apply stmt_app_keys; [done|]. committed H. rename v0 into app.
  destruct (existsb _ (d_apps d)) eqn:Ea; [|done]. apply app_there in Ea. cbn [negb] in H. cbv zeta in H.
  destruct (List.find _ _) as [x|] eqn:E.
  - injection H as <- <-. destruct Hd. split; cbn; try done.
    + apply uniq_update; [|done]. intros y _. left. cbv beta. destruct (_ && _) eqn:Es; [|done].
      apply andb_true_iff in Es as [H1%str_eqb_eq H2%str_eqb_eq]. unfold domain_key. cbn. congruence.
    + apply Forall_fmap. eapply Forall_impl; [done|]. intros y Hy. cbn. by destruct (_ && _).
  - destruct (existsb _ (d_domains d)); [done|]. injection H as <- <-. destruct Hd. split; cbn; try done.
    + apply uniq_insert; [|done]. intros y k Hin [= <-] [= Hk1 Hk2]. apply list_elem_of_In in Hin.
      pose proof (find_none _ _ E _ Hin) as Hf. cbv beta in Hf. by rewrite Hk1, Hk2, !str_eqb_refl in Hf.
    + by apply Forall_cons.
Qed.

Lemma CreateRelease_keys r d : app_keys d -> app_keys (CreateRelease r d).2.
Proof.
  intros Hd. unfold CreateRelease. destruct (release_guard r); [done|]. apply stmt_app_keys; [done|]. committed H. cbv zeta in H.
  destruct (existsb _ (d_releases d)) eqn:E; [done|]. destruct (existsb _ (d_projects d)); [|done]. cbn [andb] in H.
  destruct (existsb _ (d_apps d)) eqn:Ea; [|done]. apply app_there in Ea. injection H as <- <-.
  destruct Hd. split; cbn; try done; [|by apply Forall_cons].
  eapply insert_fresh; [exact E| |done]. intros x k [= <-] [= Hk]. cbn. rewrite Hk. apply str_eqb_refl.
Qed.

Lemma CreateTemplate_keys t d : app_keys d -> app_keys (CreateTemplate t d).2.
Proof.
  intros Hd. apply stmt_app_keys; [done|]. committed H. destruct (existsb _ _) eqn:E; [done|]. injection H as <- <-.
  destruct Hd. split; cbn; try done.
  - eapply insert_fresh; [exact E| |done]. intros x k [= <-] [= Hk]. cbn. rewrite Hk. apply str_eqb_refl.
  - eapply Forall_impl; [done|]. intros x [? Hx]. split; [done|by right].
Qed.

Lemma UpsertAppTemplate_keys id a t v m d : app_keys d -> app_keys (UpsertAppTemplate id a t v m d).2.
Proof.
  intros Hd. unfold UpsertAppTemplate. destruct (_ || _); [done|]. apply stmt_app_keys; [done|]. committed H.
  destruct (existsb _ (d_apps d)) eqn:Ea; [|done]. apply app_there in Ea.
  destruct (existsb _ (d_templates d)) eqn:Et; [|done]. apply existsb_exists in Et as (y & Hy%list_elem_of_In & Hyt%str_eqb_eq).
  assert (Hin : v1 ∈ (t_ID <$> d_templates d)) by (rewrite <- Hyt; by apply list_elem_of_fmap_2). cbn [negb andb] in H.
  destruct (List.find _ _) as [x|] eqn:E; injection H as <- <-; destruct Hd; split; cbn; try done.
  - apply uniq_update; [|done]. intros z _. left. cbv beta. destruct (str_eqb _ _) eqn:Es; [|done].
    apply str_eqb_eq in Es. unfold app_template_key. cbn. congruence.
  - apply Forall_fmap. eapply Forall_impl; [done|]. intros z Hz. cbn. by destruct (str_eqb _ _).
  - apply uniq_insert; [|done]. intros z k Hz [= <-] [= Hk]. apply list_elem_of_In in Hz.
    pose proof (find_none _ _ E _ Hz) as Hf. cbv beta in Hf. by rewrite Hk, str_eqb_refl in Hf.
  - by apply Forall_cons.
Qed.

Lemma DeleteAppTemplate_keys a d : app_keys d -> app_keys (DeleteAppTemplate a d).2.
Proof.
  intros Hd. unfold DeleteAppTemplate. destruct (blank a); [done|]. apply stmt_app_keys; [done|]. committed H.
  destruct Hd. split; cbn; try done; [by apply uniq_filter|].
  apply Forall_forall. intros x [Hin _]%list_elem_of_In%filter_In. apply list_elem_of_In in Hin.
  by apply (proj1 (Forall_forall _ _) ak_app_template_refs0).
Qed.

Lemma same_crd_spec c k n nm x : same_crd c k n nm x = true <-> crd_key x = Some (c, k, n, nm).
Proof.
  unfold same_crd, crd_key. rewrite !andb_true_iff, !str_eqb_eq. split; [intros [[[-> ->] ->] ->]; done|].
  by intros [= -> -> -> ->].
Qed.

Lemma UpsertK8sCRD_keys k d : app_keys d -> app_keys (UpsertK8sCRD k d).2.
Proof.
  intros Hd. unfold UpsertK8sCRD. destruct (crd_guard k); [done|]. apply stmt_app_keys; [done|]. committed H. cbv zeta in H.
  destruct (existsb _ (d_crds d)) eqn:E.
  - injection H as <- <-. destruct Hd. split; cbn; try done. apply uniq_update; [|done]. intros x _. left.
    destruct (same_crd _ _ _ _ x) eqn:Es; [|done]. apply same_crd_spec in Es as ->. done.
  - destruct (negb _); [done|]. injection H as <- <-. destruct Hd. split; cbn; try done.
    eapply insert_fresh; [exact E| |done]. intros x key [= <-] Hk. by apply same_crd_spec.
Qed.
(** Only one of the two tables of credentials changes. *)
Lemma set_credentials_keys t d rows : app_keys d -> cred_keys t rows -> app_keys (set_credentials t d rows).
Proof.
  intros [? ? ? ? ? ? ? ? ? ? Hk] Hr. destruct t; (split; try done); intros []; done || apply (Hk GitTable) || apply (Hk RegistryTable).
Qed.

Lemma insert_credential_keys t c sec d : app_keys d -> app_keys (insert_credential t c sec d).2.
Proof.
  intros Hd. apply stmt_app_keys; [done|]. committed H. cbv zeta in H.
  destruct (_ || _) eqn:Ec; [done|]. apply orb_false_iff in Ec as [Ea%negb_false_iff Es%bool_decide_eq_false].
  destruct (existsb _ (credentials t d)) eqn:E; [done|]. destruct (negb _); [done|]. injection H as <- <-.
  apply set_credentials_keys; [done|]. destruct (ak_cred _ Hd t). split.
  - eapply insert_fresh; [exact E| |done]. intros r k [= <-] [= Hk]. cbn in Hk. by rewrite Hk, str_eqb_refl.
  - eapply insert_fresh; [exact E| |done]. intros r k Hk Hk'. apply bind_Some in Hk as (u & Hu & [= <-]).
    apply bind_Some in Hk' as (u' & Hu' & [= -> Hn]). cbn in Hu, Hn. unfold same_name. cbn. rewrite Hn, Hu.
    by rewrite bool_decide_true, str_eqb_refl, orb_true_r.
  - eapply insert_fresh; [exact E| |done]. intros r k Hk Hk'. apply bind_Some in Hk as (u & Hu & [= <-]).
    apply bind_Some in Hk' as (u' & Hu' & [= -> Hn]). cbn in Hu, Hn. unfold same_name. cbn. rewrite Hn, Hu.
    by rewrite (bool_decide_true (_ = Some u)), str_eqb_refl, !orb_true_r.
  - apply Forall_cons. split; [|done]. split; cbn.
    + apply existsb_exists in Ea as (a' & Hin & <-%str_eqb_eq). by apply list_elem_of_In.
    + destruct v0 as [u|], v1 as [p|]; [|by left; eexists|by right; eexists|]; exfalso; apply Es; split; by intros [].
Qed.

Lemma delete_credential_keys t id d : app_keys d -> app_keys (delete_credential t id d).2.
Proof.
  intros Hd. apply stmt_app_keys; [done|]. committed H. destruct (existsb _ _); [|done]. injection H as <- <-.
  apply set_credentials_keys; [done|]. destruct (ak_cred _ Hd t). split; try by apply uniq_filter.
  apply Forall_forall. intros r [Hin _]%list_elem_of_In%filter_In. apply list_elem_of_In in Hin.
  by apply (proj1 (Forall_forall _ _) ck_scoped0).
Qed.

Lemma app_keeps_keys op d : app_keys d -> app_keys (run_app op d).
Proof.
  intros Hd. destruct op; cbn [run_app]; auto using store_app_keys, CreateApp_keys, UpsertAppDomain_keys,
    insert_credential_keys, delete_credential_keys, CreateRelease_keys, UpsertK8sCRD_keys,
    CreateTemplate_keys, UpsertAppTemplate_keys, DeleteAppTemplate_keys.
  - apply stmt_app_keys; [done|]. committed H. by apply delete_apps_keys.
  - apply stmt_app_keys; [done|]. committed H. destruct Hd. split; cbn; try done; [by apply uniq_filter|].
    apply Forall_forall. intros x [Hin _]%list_elem_of_In%filter_In. apply list_elem_of_In in Hin.
    by apply (proj1 (Forall_forall _ _) ak_domain_app0).
  - apply stmt_app_keys; [done|]. committed H. destruct Hd. split; cbn; try done. apply uniq_update; [|done].
    intros x _. left. by destruct (same_crd _ _ _ _ x).
Qed.

(** Whatever sequence of statements has run, failed ones among them, no two live applications
    share an external reference, an application has a domain once, every domain and release
    belongs to an application that is there, an application has at most one template, which is
    there, and every credential belongs to one user or to one
    project, under a name that is its own there, with an authentication type of its table. *)
Theorem app_tables_invariant (ops : list app_op) : app_keys (foldl (fun d op => run_app op d) empty_db ops).
Proof.
  assert (Hg : forall d, app_keys d -> app_keys (foldl (fun d op => run_app op d) d ops)).
  { induction ops as [|op ops IH]; intros d Hd; [done|]. cbn. by apply IH, app_keeps_keys. }
  apply Hg. split; try constructor; destruct t; constructor.
Qed.
End Keys.
