(* ===== verification/Tenancy.v ===== *)
(** Tenants: users, their namespaces, projects, quotas and kubeconfigs.
    [internal/service/service.go] (projects and provisioning), [user_bootstrap.go],
    [kubeconfigs.go], [RenewProjectKubeconfig] of [apps.go] and [internal/kube/manager.go].

    The database is the one of [Store]; Kubernetes, the client libraries, the random source and
    the log files are the interface [Platform].  Log lines are not modelled. *)

From Stdlib Require Import Ascii ZArith Lia.
From stdpp Require Import base gmap strings list.
From S2P Require Import Prelude Utf8 GoStrings Hash Security Names Kube Crypto Json Config Quota Kubeconfig Events Maintenance Workload Store.

(** ** Objects *)

Inductive KObject (Q : Type) :=
| KNamespace (name : string) (labels : gmap string string)
| KQuota (rq : ResourceQuota Q)
| KLimits (lr : LimitRange Q)
| KPolicy (np : NetworkPolicy)
| KAccount (sa : ServiceAccount)
| KRole (r : Role)
| KBinding (rb : RoleBinding)
| KDeployment (d : AppDeployment Q)
| KService (s : AppService)
| KIngress (i : AppIngress)
| KConfig (cm : ConfigObject)
| KSecret (s : SecretObject)
| KRaw (u : Unstructured).
Arguments KNamespace {Q} name labels.
Arguments KQuota {Q} rq.
Arguments KLimits {Q} lr.
Arguments KPolicy {Q} np.
Arguments KAccount {Q} sa.
Arguments KRole {Q} r.
Arguments KBinding {Q} rb.
Arguments KDeployment {Q} d.
Arguments KService {Q} s.
Arguments KIngress {Q} i.
Arguments KConfig {Q} cm.
Arguments KSecret {Q} s.
Arguments KRaw {Q} u.

(** Kind, namespace and name. *)
Definition KKey : Type := string * string * string.

Definition object_key {Q} (o : KObject Q) : KKey :=
  match o with
  | KNamespace n _ => ("Namespace", "", n)
  | KQuota rq => ("ResourceQuota", rq_Namespace rq, rq_Name rq)
  | KLimits lr => ("LimitRange", lr_Namespace lr, lr_Name lr)
  | KPolicy np => ("NetworkPolicy", np_Namespace np, np_Name np)
  | KAccount sa => ("ServiceAccount", sa_Namespace sa, sa_Name sa)
  | KRole r => ("Role", role_Namespace r, role_Name r)
  | KBinding rb => ("RoleBinding", rb_Namespace rb, rb_Name rb)
  | KDeployment d => ("Deployment", dp_Namespace d, dp_Name d)
  | KService s => ("Service", sv_Namespace s, sv_Name s)
  | KIngress i => ("Ingress", ig_Namespace i, ig_Name i)
  | KConfig c => ("ConfigMap", cm_Namespace c, cm_Name c)
  | KSecret s => ("Secret", so_Namespace s, so_Name s)
  | KRaw u => (un_Kind u, un_Namespace u, un_Name u)
  end.

(** [corev1.Secret] of a service-account token; an absent key of [Data] is empty. *)
Record Secret := mkSecret { sec_Name : string; sec_Token : bytes; sec_CA : bytes }.

Inductive api_error := IsNotFound (text : string) | IsAlreadyExists (text : string) | ApiError (text : string).
Definition api_text (e : api_error) : string :=
  match e with IsNotFound t => t | IsAlreadyExists t => t | ApiError t => t end.

(** ** What is outside the repository

    [K] is the state of all clusters, [C] a controller-runtime client, [R] a REST configuration
    and [CS] a clientset. *)
Class Platform (Q K C R CS : Type) := {
  ParseQuantity : string -> option Q;
  Quantity_String : Q -> string;
  uuid_New : nat -> string;
  rand_Reader : nat -> result string bytes;
  RESTConfigFromKubeConfig : bytes -> result string R;
  ctrlclient_New : R -> result string C;
  NewForConfig : R -> result string CS;
  GVKForObject : C -> KObject Q -> result string string;
  (** [Patch] with [crclient.Apply], [ForceOwnership] and the owner [kubeop] *)
  patch_object : C -> KObject Q -> io K string unit;
  get_object : C -> KKey -> K -> get_result (KObject Q);
  (** [Status.Hard] and [Status.Used] of the quota with this key *)
  quota_status : C -> KKey -> K -> ResourceList Q * ResourceList Q;
  delete_object : C -> KKey -> io K api_error unit;
  (** the types of the Services of a namespace *)
  list_services : C -> string -> K -> result string (list string);
  (** a [List] of one Namespace, and the version the API server reports *)
  list_namespaces : C -> K -> result string unit;
  ServerVersion : CS -> K -> result string (option string);
  time_Now : K -> Z;
  (** namespace, name and service account *)
  create_secret : CS -> string -> string -> string -> io K api_error Secret;
  (** a read moves the clock: the controller may fill the Secret in between *)
  get_secret : CS -> string -> string -> io K api_error Secret;
  delete_secret : CS -> string -> string -> io K api_error unit;
  delete_account : CS -> string -> string -> io K api_error unit;
  (** [logging.Files().EnsureProject]; [Ok] when there is no file manager *)
  EnsureProject : string -> result string unit;
}.

Inductive svc_error :=
| EOp (e : op_error)
| ENoRows
| EText (text : string)
| ESecurity (e : sec_error)
| EWrap (prefix : string) (e : svc_error)
| EPanic.

Record World (K C R : Type) := mkWorld {
  w_db : DB;
  w_k8s : K;
  (** [Manager.clients] and [Manager.restcfgs] *)
  w_clients : gmap string C;
  w_rest : gmap string R;
  (** identifiers and nonces drawn so far *)
  w_uuids : nat;
  w_nonces : nat;
}.
Arguments mkWorld {K C R}.
Arguments w_db {K C R}.
Arguments w_k8s {K C R}.
Arguments w_clients {K C R}.
Arguments w_rest {K C R}.
Arguments w_uuids {K C R}.
Arguments w_nonces {K C R}.

Definition bytes_string (b : bytes) : string := of_chars (byte_of_Z <$> b).

Section Tenancy.
Context {Q K C R CS : Type} `{plat : Platform Q K C R CS} `{pg : Postgres}.
Context (cfg : Config) (encKey : bytes) (actor : string).

Local Abbreviation W := (World K C R).
Local Abbreviation svc := (io W svc_error).

Definition set_db (w : W) (d : DB) : W := mkWorld d (w_k8s w) (w_clients w) (w_rest w) (w_uuids w) (w_nonces w).
Definition set_k8s (w : W) (k : K) : W := mkWorld (w_db w) k (w_clients w) (w_rest w) (w_uuids w) (w_nonces w).

(** ** Running the parts *)

Definition db_svc (e : db_error) : svc_error := match e with ErrNoRows => ENoRows | DbError t => EText t end.

(** [if err != nil { return err }] and a branch on [err] *)
Definition try_db {A} (m : io DB db_error A) : svc (result db_error A) := fun w =>
  let '(r, d) := m (w_db w) in (Ok r, set_db w d).
Definition try_k8s {E A} (m : io K E A) : svc (result E A) := fun w =>
  let '(r, k) := m (w_k8s w) in (Ok r, set_k8s w k).

Definition or_fail {E A} (wrap : E -> svc_error) (m : svc (result E A)) : svc A :=
  r ← m; match r with Ok a => mret a | Err e => fail (wrap e) end.

Definition db {A} (m : io DB db_error A) : svc A := or_fail db_svc (try_db m).
Definition k8s {A} (m : io K string A) : svc A := or_fail EText (try_k8s m).
Definition pure {A} (r : result string A) : svc A := or_fail EText (mret r).
(** A computation of the code that may panic. *)
Definition panics {A} (r : option A) : svc A := match r with Some a => mret a | None => fail EPanic end.

Definition reads {A} (f : K -> A) : svc A := fun w => (Ok (f (w_k8s w)), w).

Definition uuid_fresh : svc string := fun w =>
  (Ok (uuid_New (w_uuids w)),
   mkWorld (w_db w) (w_k8s w) (w_clients w) (w_rest w) (S (w_uuids w)) (w_nonces w)).

Definition EncryptSecret (plaintext : bytes) : svc bytes := fun w =>
  (match EncryptAESGCM (rand_Reader (w_nonces w)) plaintext encKey with Ok c => Ok c | Err e => Err (EText e) end,
   mkWorld (w_db w) (w_k8s w) (w_clients w) (w_rest w) (w_uuids w) (S (w_nonces w))).

Definition maintenance_gate : svc unit := fun w =>
  match ensureMaintenanceAllows (w_db w) with
  | (Ok _, d) => (Ok tt, set_db w d)
  | (Err e, d) => (Err (EOp e), set_db w d)
  end.

#[export] Instance world_events : EventStore W := {|
  newUUID w := (uuid_New (w_uuids w),
    mkWorld (w_db w) (w_k8s w) (w_clients w) (w_rest w) (S (w_uuids w)) (w_nonces w));
  event_Now w := time_Now (w_k8s w);
  InsertProjectEvent e w :=
    let '(r, d) := insert_event e (w_db w) in
    (match r with Ok e => Ok e | Err ErrNoRows => Err "sql: no rows in result set" | Err (DbError t) => Err t end,
     set_db w d)
|}.

Definition event_cfg : option EventConfig :=
  Some (mkEventConfig (cfg_EventsDBEnabled cfg) (cfg_EventsBridgeEnabled cfg)).

Definition append_app_event (project app kind severity message : string) (meta : Meta) : svc unit := fun w =>
  match AppendProjectEvent event_cfg actor (mkEventInput project app "" kind severity message meta) w with
  | (Ok _, w) => (Ok tt, w)
  | (Err e, w) => (Err (EText e), w)
  end.

(** An event of the project itself. *)
Definition append_event (project : string) := append_app_event project "".

(** ** internal/kube/manager.go *)

Definition Put (id : string) (c : C) (rc : R) : svc unit := fun w =>
  (Ok tt, mkWorld (w_db w) (w_k8s w) (<[id := c]> (w_clients w)) (<[id := rc]> (w_rest w)) (w_uuids w) (w_nonces w)).

Definition put_rest (id : string) (rc : R) : svc unit := fun w =>
  (Ok tt, mkWorld (w_db w) (w_k8s w) (w_clients w) (<[id := rc]> (w_rest w)) (w_uuids w) (w_nonces w)).

Definition DecryptClusterKubeconfig (id : string) : svc bytes :=
  b ← db (GetClusterKubeconfigEnc id);
  pure (DecryptAESGCM b encKey).

(** The loader is always the kubeconfig of the cluster with that identifier. *)
Definition GetOrCreate (id : string) : svc C := fun w =>
  match w_clients w !! id with
  | Some c => (Ok c, w)
  | None => (kubeconfig ← DecryptClusterKubeconfig id;
             rc ← pure (RESTConfigFromKubeConfig kubeconfig);
             c ← pure (ctrlclient_New rc);
             _ ← Put id c rc;
             mret c) w
  end.

Definition GetClientset (id : string) : svc CS := fun w =>
  match w_rest w !! id with
  | Some rc => pure (NewForConfig rc) w
  | None => (kubeconfig ← DecryptClusterKubeconfig id;
             rc ← pure (RESTConfigFromKubeConfig kubeconfig);
             _ ← match ctrlclient_New rc with Ok c => Put id c rc | Err _ => put_rest id rc end;
             pure (NewForConfig rc)) w
  end.

(** ** Writing to a cluster *)

(** The kind of an unstructured object is set; that of a typed one comes from the scheme. *)
Definition apply (c : C) (obj : KObject Q) : svc unit :=
  _ ← match obj with KRaw u => mret (un_Kind u) | _ => pure (GVKForObject c obj) end;
  k8s (patch_object c obj).

Definition applyNamespaceLimitObjects (c : C) (rq : ResourceQuota Q) (lr : LimitRange Q) : svc unit :=
  _ ← wrap_err (EWrap ("apply " +:+ namespaceQuotaObjectName +:+ " resource quota: ")) (apply c (KQuota rq));
  wrap_err (EWrap ("apply " +:+ namespaceLimitRangeName +:+ " limit range: ")) (apply c (KLimits lr)).

Definition limit_objects (namespace : string) (overrides : list (string * string))
    : svc (ResourceQuota Q * LimitRange Q) :=
  r ← pure (buildNamespaceLimitPolicyObjects ParseQuantity cfg namespace overrides);
  panics r.

Definition ensureNamespaceLimitPolicy (c : C) (namespace : string) (overrides : list (string * string)) : svc unit :=
  objs ← limit_objects namespace overrides;
  applyNamespaceLimitObjects c objs.1 objs.2.

Definition namespace_labels : gmap string string :=
  if str_eqb (cfg_PodSecurityLevel cfg) "" then ∅
  else
    let l := {["pod-security.kubernetes.io/enforce" := cfg_PodSecurityLevel cfg]} in
    let l := if str_eqb (cfg_PodSecurityWarnLevel cfg) "" then l
             else <["pod-security.kubernetes.io/warn" := cfg_PodSecurityWarnLevel cfg]> l in
    if str_eqb (cfg_PodSecurityAuditLevel cfg) "" then l
    else <["pod-security.kubernetes.io/audit" := cfg_PodSecurityAuditLevel cfg]> l.

Definition rbac_objects (namespace sa role rb : string) : list (KObject Q) :=
  let '(account, r, b) := BuildNamespaceRBAC namespace sa role rb defaultRoleRules in
  [KAccount account; KRole r; KBinding b].

(** ** Tokens *)

(** [wait.ExponentialBackoffWithContext] with the condition of the code: at most [steps] reads. *)
Fixpoint poll_token (steps : nat) (cs : CS) (namespace name : string) : svc Secret :=
  match steps with
  | O => fail (EText "timed out waiting for the condition")
  | S steps =>
      r ← try_k8s (get_secret cs namespace name);
      match r with
      | Err (IsNotFound _) => poll_token steps cs namespace name
      | Err e => fail (EText (api_text e))
      | Ok fresh =>
          if bool_decide (sec_Token fresh = []) || bool_decide (sec_CA fresh = [])
          then poll_token steps cs namespace name
          else mret fresh
      end
  end.

Definition token_steps : nat := 8.

Definition mintServiceAccountSecret (cs : CS) (namespace saName : string) : svc Secret :=
  if str_eqb namespace "" || str_eqb saName "" then fail (EText "namespace and serviceaccount required")
  else
    id ← uuid_fresh;
    let secretName := saName +:+ "-token-" +:+ of_chars (List.filter (fun c => negb (bool_decide (c = "-"%char))) (chars id)) in
    r ← try_k8s (create_secret cs namespace secretName saName);
    created ← (match r with
               | Err (IsAlreadyExists _) => or_fail (fun e => EText (api_text e)) (try_k8s (get_secret cs namespace secretName))
               | Err e => fail (EText (api_text e))
               | Ok s => mret s
               end);
    poll_token token_steps cs namespace (sec_Name created).

(** ** Kubeconfigs *)

(** The name of the cluster, for the labels. *)
Definition cluster_label (clusterID : string) : svc string :=
  r ← try_db ListClusters;
  let name := match r with
              | Ok rows => match List.find (fun c => str_eqb (cl_ID c) clusterID) (fst <$> rows) with
                           | Some c => cl_Name c | None => "" end
              | Err _ => ""
              end in
  mret (if str_eqb name "" then "kubeop-target" else name).

Definition kubeconfigUserLabel (userID : string) : svc string :=
  r ← try_db (GetUser userID);
  mret (match r with Ok u => ResolveUserLabel (u_Name u) (u_Email u) userID | Err _ => ResolveUserLabel "" "" userID end).

Definition toB64 (b : bytes) : string := b64_encode b.
Definition kubeconfig_for (server : string) (secret : Secret) (namespace user cluster : string) : svc string :=
  pure (buildNamespaceScopedKubeconfig server (b64_encode (sec_CA secret)) namespace user cluster
          (bytes_string (sec_Token secret))).

(** The record of a scope is updated, or inserted when there is none. *)
Definition save_record (found : result db_error (KubeconfigRecord * bytes)) (rec : string -> KubeconfigRecord)
    (secret sa : string) (enc : bytes) : svc unit :=
  match found with
  | Ok (existing, _) => db (UpdateKubeconfigRecord (kc_ID existing) secret sa enc)
  | Err ErrNoRows => id ← uuid_fresh; _ ← db (CreateKubeconfigRecord (rec id) enc); mret tt
  | Err e => fail (db_svc e)
  end.

(** The same where the code does not return another error of the lookup. *)
Definition save_record_lenient (found : result db_error (KubeconfigRecord * bytes)) (rec : string -> KubeconfigRecord)
    (secret sa : string) (enc : bytes) : svc unit :=
  match found with
  | Err (DbError _) => mret tt
  | _ => save_record found rec secret sa enc
  end.

Definition record (cluster namespace user : string) (project : option string) (sa secret id : string) : KubeconfigRecord :=
  mkKubeconfig id cluster namespace user project sa secret 0 0.

(** ** Projects *)

Record ProjectCreateInput := mkCreateInput {
  in_UserID : string; in_UserEmail : string; in_UserName : string; in_ClusterID : string; in_Name : string;
  in_QuotaOverrides : list (string * string)
}.

Definition name_of_email (email : string) : string :=
  match Cut email "@"%char with
  | Some (local, _) => if str_eqb local "" then email else local
  | None => email
  end.

(** The user named in the request, created from the address when there is none. *)
Definition resolve_user (inp : ProjectCreateInput) : svc string :=
  if negb (str_eqb (TrimSpace (in_UserID inp)) "") then mret (in_UserID inp)
  else
    let email := TrimSpace (ToLower (in_UserEmail inp)) in
    if str_eqb email "" then fail (EText "either userId or userEmail is required")
    else
      r ← try_db (GetUserByEmail email);
      match r with
      | Ok u => mret (u_ID u)
      | Err _ =>
          let name := TrimSpace (in_UserName inp) in
          let name := if str_eqb name "" then name_of_email email else name in
          id ← uuid_fresh;
          nu ← db (CreateUser (mkUser id name email 0));
          mret (u_ID nu)
      end.

Definition provisionUserSpace (userID clusterID : string) : svc string :=
  c ← GetOrCreate clusterID;
  cs ← GetClientset clusterID;
  let nsName := "user-" +:+ TrimSpace userID in
  if str_eqb nsName "user-" then fail (EText "invalid userID")
  else
    _ ← apply c (KNamespace nsName namespace_labels);
    _ ← ensureNamespaceLimitPolicy c nsName [];
    _ ← for_each (fun np => apply c (KPolicy np)) (BuildTenantNetworkPolicies cfg nsName);
    _ ← for_each (apply c) (rbac_objects nsName "user-sa" "user-role" "user-rb");
    secret ← mintServiceAccountSecret cs nsName "user-sa";
    clusterName ← cluster_label clusterID;
    kubeconfig ← DecryptClusterKubeconfig clusterID;
    userLabel ← kubeconfigUserLabel userID;
    kc ← kubeconfig_for (extractServer (bytes_string kubeconfig)) secret nsName userLabel clusterName;
    enc ← EncryptSecret (string_bytes kc);
    id ← uuid_fresh;
    created ← try_db (CreateUserSpace (mkUserSpace id userID clusterID nsName 0) (Some enc));
    _ ← (match created with
         | Ok _ => mret tt
         | Err err =>
             r ← try_db (GetUserSpace userID clusterID);
             match r with
             | Ok (existing, _) => db (UpdateUserSpaceKubeconfig (us_ID existing) (Some enc))
             | Err _ => fail (db_svc err)
             end
         end);
    found ← try_db (GetKubeconfigByUserScope clusterID nsName userID);
    _ ← save_record found (record clusterID nsName userID None "user-sa" (sec_Name secret)) (sec_Name secret) "user-sa" enc;
    mret nsName.

Definition project_namespace (userID : string) (inp : ProjectCreateInput) : svc string :=
  if cfg_ProjectsInUserNamespace cfg then
    r ← try_db (GetUserSpace userID (in_ClusterID inp));
    match r with
    | Ok (us, _) => mret (us_Namespace us)
    | Err ErrNoRows => wrap_err (EWrap "failed to provision user space: ") (provisionUserSpace userID (in_ClusterID inp))
    | Err e => fail (EWrap "lookup user space: " (db_svc e))
    end
  else
    let slug := Slugify ("tenant-" +:+ userID +:+ "-" +:+ in_Name inp) in
    mret (if (63 <? len slug)%nat then of_chars (take 63 (chars slug)) else slug).

Definition limits_name (name : string) : string := "proj-" +:+ Slugify name +:+ "-limits".

(** Steps 5 to 7 of [CreateProject]: the account, its token, the kubeconfig and its record. *)
Definition tenant_access (c : C) (cs : CS) (projectID userID clusterID nsSlug : string) : svc (string * bytes) :=
  _ ← for_each (apply c) (rbac_objects nsSlug "tenant-sa" "tenant-role" "tenant-rb");
  secret ← mintServiceAccountSecret cs nsSlug "tenant-sa";
  kubeconfig ← DecryptClusterKubeconfig clusterID;
  clusterName ← cluster_label clusterID;
  kc ← kubeconfig_for (extractServer (bytes_string kubeconfig)) secret nsSlug "tenant-sa" clusterName;
  e ← EncryptSecret (string_bytes kc);
  found ← try_db (GetKubeconfigByProject projectID);
  _ ← save_record found (record clusterID nsSlug userID (Some projectID) "tenant-sa" (sec_Name secret))
        (sec_Name secret) "tenant-sa" e;
  mret (kc, e).

Definition project_meta (p : Project) : Meta :=
  [("cluster_id", AString (p_ClusterID p)); ("namespace", AString (p_Namespace p))].

(** The objects of a project in its user's namespace, and of one with its own. *)
Definition shared_setup (c : C) (nsSlug name : string) : svc (option (string * bytes)) :=
  _ ← ensureNamespaceLimitPolicy c nsSlug [];
  items ← panics (projectLimitRange ParseQuantity cfg);
  _ ← apply c (KLimits (mkLimitRange (limits_name name) nsSlug managedBy items));
  mret None.

Definition dedicated_setup (c : C) (cs : CS) (projectID userID nsSlug : string) (inp : ProjectCreateInput)
    : svc (option (string * bytes)) :=
  _ ← apply c (KNamespace nsSlug namespace_labels);
  _ ← ensureNamespaceLimitPolicy c nsSlug (in_QuotaOverrides inp);
  _ ← for_each (fun np => apply c (KPolicy np)) (BuildTenantNetworkPolicies cfg nsSlug);
  a ← tenant_access c cs projectID userID (in_ClusterID inp) nsSlug;
  mret (Some a).

Definition CreateProject (inp : ProjectCreateInput) : svc (Project * string) :=
  _ ← maintenance_gate;
  userID ← resolve_user inp;
  if str_eqb (TrimSpace (in_ClusterID inp)) "" || str_eqb (TrimSpace (in_Name inp)) ""
  then fail (EText "clusterId and name are required")
  else
    projectID ← uuid_fresh;
    _ ← wrap_err (EWrap "prepare project logs: ") (pure (EnsureProject projectID));
    nsSlug ← project_namespace userID inp;
    c ← GetOrCreate (in_ClusterID inp);
    cs ← GetClientset (in_ClusterID inp);
    access ← (if cfg_ProjectsInUserNamespace cfg then shared_setup c nsSlug (in_Name inp)
              else dedicated_setup c cs projectID userID nsSlug inp);
    qoJSON ← pure (EncodeQuotaOverrides (in_QuotaOverrides inp));
    p ← db (Store.CreateProject (mkProject projectID userID (in_ClusterID inp) (in_Name inp) nsSlug false 0) qoJSON
              (snd <$> access));
    _ ← append_event (p_ID p) "project_created" "INFO" ("project " +:+ p_Name p +:+ " created")
          (("project_name", AString (p_Name p)) :: project_meta p ++ [("user_id", AString (p_UserID p))]);
    mret (p, match access with Some (kc, _) => toB64 (string_bytes kc) | None => "" end).

Record ProjectStatus := mkProjectStatus { st_Project : Project; st_Exists : bool; st_Details : gmap string bool }.

Definition found {A} (r : get_result A) : bool := match r with Found _ => true | _ => false end.

Definition GetProjectStatus (id : string) : svc ProjectStatus :=
  r ← db (GetProject id);
  let p := r.1.1 in
  c ← GetOrCreate (p_ClusterID p);
  here ← reads (fun k kind ns name => found (get_object c (kind, ns, name) k));
  let exists_ := here "Namespace" "" (p_Namespace p) in
  mret (mkProjectStatus p exists_
    (if exists_ then {["resourcequota" := here "ResourceQuota" (p_Namespace p) namespaceQuotaObjectName;
                       "limitrange" := here "LimitRange" (p_Namespace p) namespaceLimitRangeName;
                       "serviceaccount" := here "ServiceAccount" (p_Namespace p) "tenant-sa"]} else ∅)).

Record LoadBalancerQuota := mkLBQuota { lb_Default : Z; lb_Override : option Z; lb_Effective : Z; lb_Used : Z }.

Record ProjectQuotaSnapshot := mkSnapshot {
  q_Project : Project; q_Defaults : gmap string string; q_Overrides : gmap string string;
  q_Effective : gmap string string;
  (** name, [Hard] and [Used] of the quota object *)
  q_ResourceQuota : string * gmap string string * gmap string string;
  q_LoadBalancers : LoadBalancerQuota
}.

Definition resourceListToStringMap (rl : ResourceList Q) : gmap string string := Quantity_String <$> rl.

Definition GetProjectQuota (id : string) : svc ProjectQuotaSnapshot :=
  if cfg_ProjectsInUserNamespace cfg then
    fail (EText "per-project quotas not supported when projects share user namespace; adjust namespace ResourceQuota")
  else
    r ← db (GetProject id);
    let '(p, qo, _) := r in
    overrides ← pure (DecodeQuotaOverrides qo);
    c ← GetOrCreate (p_ClusterID p);
    let key := ("ResourceQuota", p_Namespace p, namespaceQuotaObjectName) in
    got ← reads (get_object c key);
    status ← reads (quota_status c key);
    rq ← (match got with
          | Found (KQuota rq) =>
              mret (rq_Name rq, resourceListToStringMap (if bool_decide (status.1 = ∅) then rq_Hard rq else status.1),
                    resourceListToStringMap status.2)
          | Found _ => fail (EText "unexpected object")
          | NotFound => mret (namespaceQuotaObjectName, ∅, ∅)
          | GetFailed e => fail (EText e)
          end);
    defaults ← panics (defaultQuota ParseQuantity cfg []);
    effective ← panics (defaultQuota ParseQuantity cfg (map_to_list overrides));
    let override := overrides !! "services.loadbalancers" ≫= fun raw => Atoi (TrimSpace raw) in
    let max := cfg_MaxLoadBalancersPerProject cfg in
    svcs ← reads (list_services c (p_Namespace p));
    svcs ← pure svcs;
    mret (mkSnapshot p (resourceListToStringMap defaults) overrides (resourceListToStringMap effective) rq
      (mkLBQuota max override (default max override)
         (Z.of_nat (length (List.filter (str_eqb ServiceTypeLoadBalancer) svcs))))).

Definition SetProjectSuspended (id : string) (suspended : bool) : svc unit :=
  _ ← maintenance_gate;
  if cfg_ProjectsInUserNamespace cfg then
    fail (EText "project suspend/unsuspend not supported when projects share user namespace; use user-level quotas")
  else
    r ← db (GetProject id);
    let '(p, qo, _) := r in
    c ← GetOrCreate (p_ClusterID p);
    objs ← (if suspended then
              objs ← limit_objects (p_Namespace p) [];
              zero ← panics (resourceMustParse ParseQuantity "0");
              mret (set_Hard objs.1 {["pods" := zero]}, objs.2)
            else
              overrides ← pure (DecodeQuotaOverrides qo);
              limit_objects (p_Namespace p) (map_to_list overrides));
    _ ← applyNamespaceLimitObjects c objs.1 objs.2;
    _ ← db (UpdateProjectSuspended id suspended);
    append_event id (if suspended then "project_suspended" else "project_unsuspended") "INFO"
      (if suspended then "project suspended" else "project unsuspended")
      (("suspended", AOther (if suspended then "true" else "false")) :: project_meta p).

Definition UpdateProjectQuota (id : string) (overrides : list (string * string)) : svc unit :=
  _ ← maintenance_gate;
  if cfg_ProjectsInUserNamespace cfg then
    fail (EText "per-project quotas not supported when projects share user namespace; adjust namespace ResourceQuota")
  else
    r ← db (GetProject id);
    let p := r.1.1 in
    c ← GetOrCreate (p_ClusterID p);
    objs ← limit_objects (p_Namespace p) overrides;
    _ ← applyNamespaceLimitObjects c objs.1 objs.2;
    qoJSON ← pure (EncodeQuotaOverrides overrides);
    _ ← db (UpdateProjectQuotaOverrides id qoJSON);
    append_event id "project_quota_updated" "INFO" "project quotas updated"
      (("overrides", AMap ((fun kv => (kv.1, AString kv.2)) <$> overrides)) :: project_meta p).

Definition DeleteProject (id : string) : svc unit :=
  _ ← maintenance_gate;
  r ← db (GetProject id);
  let p := r.1.1 in
  c ← GetOrCreate (p_ClusterID p);
  _ ← (if cfg_ProjectsInUserNamespace cfg then
         _ ← try_k8s (delete_object c ("LimitRange", p_Namespace p, limits_name (p_Name p)));
         mret tt
       else
         r ← try_k8s (delete_object c ("Namespace", "", p_Namespace p));
         match r with
         | Ok _ | Err (IsNotFound _) => mret tt
         | Err e => fail (EText (api_text e))
         end);
  _ ← try_db (SoftDeleteAppsByProject id);
  _ ← db (SoftDeleteProject id);
  append_event id "project_deleted" "WARN" ("project " +:+ p_Name p +:+ " deleted")
    (("project_name", AString (p_Name p)) :: project_meta p).

(** ** user_bootstrap.go *)

Record UserBootstrapInput := mkBootstrapInput {
  bi_UserID : string; bi_Name : string; bi_Email : string; bi_ClusterID : string
}.
Record UserBootstrapOutput := mkBootstrapOutput {
  bo_User : User; bo_Namespace : string; bo_KubeconfigB64 : string
}.

(** [len(enc) > 0] of a nullable column *)
Definition has_bytes (b : option bytes) : bool := match b with Some (_ :: _) => true | _ => false end.

Definition BootstrapUser (inp : UserBootstrapInput) : svc UserBootstrapOutput :=
  if str_eqb (bi_ClusterID inp) "" then fail (EText "clusterId is required")
  else
    u ← (if negb (str_eqb (bi_UserID inp) "") then db (GetUser (bi_UserID inp))
         else if str_eqb (bi_Name inp) "" || str_eqb (bi_Email inp) ""
         then fail (EText "either userId or name+email are required")
         else
           id ← uuid_fresh;
           r ← try_db (CreateUser (mkUser id (bi_Name inp) (bi_Email inp) 0));
           match r with
           | Ok u => mret u
           | Err err =>
               r2 ← try_db (GetUserByEmail (bi_Email inp));
               match r2 with Ok u => mret u | Err _ => fail (db_svc err) end
           end);
    r ← try_db (GetUserSpace (u_ID u) (bi_ClusterID inp));
    match r with
    | Ok (us, Some (b :: enc)) =>
        kc ← pure (DecryptAESGCM (b :: enc) encKey);
        mret (mkBootstrapOutput u (us_Namespace us) (toB64 kc))
    | _ =>
        _ ← provisionUserSpace (u_ID u) (bi_ClusterID inp);
        r ← db (GetUserSpace (u_ID u) (bi_ClusterID inp));
        kc ← pure (DecryptAESGCM (default [] r.2) encKey);
        mret (mkBootstrapOutput u (us_Namespace r.1) (toB64 kc))
    end.

Definition delete_space (us : UserSpace) : svc unit := fun w =>
  match GetOrCreate (us_ClusterID us) w with
  | (Err _, w) => (Ok tt, w)
  | (Ok c, w) => (_ ← try_k8s (delete_object c ("Namespace", "", us_Namespace us)); mret tt) w
  end.

Definition DeleteUser (userID : string) : svc unit :=
  if str_eqb userID "" then fail (EText "user id required")
  else
    r ← try_db (ListUserSpacesByUser userID);
    _ ← (match r with Ok spaces => for_each delete_space spaces | Err _ => mret tt end);
    _ ← try_db (SoftDeleteAppsByUser userID);
    _ ← try_db (SoftDeleteProjectsByUser userID);
    db (SoftDeleteUser userID).

Definition RenewUserKubeconfig (userID clusterID : string) : svc string :=
  if str_eqb userID "" || str_eqb clusterID "" then fail (EText "userId and clusterId are required")
  else
    r ← db (GetUserSpace userID clusterID);
    let us := r.1 in
    cs ← GetClientset clusterID;
    secret ← mintServiceAccountSecret cs (us_Namespace us) "user-sa";
    clusterName ← cluster_label clusterID;
    kubeconfig ← DecryptClusterKubeconfig clusterID;
    userLabel ← kubeconfigUserLabel userID;
    kc ← kubeconfig_for (extractServer (bytes_string kubeconfig)) secret (us_Namespace us) userLabel clusterName;
    enc ← EncryptSecret (string_bytes kc);
    _ ← db (UpdateUserSpaceKubeconfig (us_ID us) (Some enc));
    found ← try_db (GetKubeconfigByUserScope clusterID (us_Namespace us) userID);
    _ ← save_record_lenient found (record clusterID (us_Namespace us) userID None "user-sa" (sec_Name secret))
          (sec_Name secret) "user-sa" enc;
    mret (toB64 (string_bytes kc)).

(** ** apps.go *)

Definition RenewProjectKubeconfig (projectID : string) : svc string :=
  r ← db (GetProject projectID);
  let p := r.1.1 in
  if cfg_ProjectsInUserNamespace cfg then
    fail (EText "renew not applicable in shared user namespace mode; use user bootstrap")
  else
    _ ← GetOrCreate (p_ClusterID p);
    cs ← GetClientset (p_ClusterID p);
    secret ← mintServiceAccountSecret cs (p_Namespace p) "tenant-sa";
    kubeconfig ← DecryptClusterKubeconfig (p_ClusterID p);
    kc ← kubeconfig_for (extractServer (bytes_string kubeconfig)) secret (p_Namespace p) "tenant-sa" (p_ClusterID p);
    enc ← EncryptSecret (string_bytes kc);
    _ ← db (UpdateProjectKubeconfig projectID (Some enc));
    found ← try_db (GetKubeconfigByProject projectID);
    _ ← save_record_lenient found
          (record (p_ClusterID p) (p_Namespace p) (p_UserID p) (Some projectID) "tenant-sa" (sec_Name secret))
          (sec_Name secret) "tenant-sa" enc;
    _ ← append_event projectID "project_kubeconfig_renewed" "INFO" "project kubeconfig renewed" (project_meta p);
    mret (toB64 (string_bytes kc)).

(** ** kubeconfigs.go *)

Record KubeconfigEnsureOutput := mkEnsureOutput {
  eo_ID : string; eo_ClusterID : string; eo_UserID : string; eo_ProjectID : string; eo_Namespace : string;
  eo_ServiceAccount : string; eo_SecretName : string; eo_KubeconfigB64 : string
}.

(** A record, renewed when there is none. *)
Definition renewed (lookup : io DB db_error (KubeconfigRecord * bytes)) (renew : svc string)
    : svc (KubeconfigRecord * bytes) :=
  r ← try_db lookup;
  match r with
  | Ok rec => mret rec
  | Err ErrNoRows => _ ← renew; db lookup
  | Err e => fail (db_svc e)
  end.

(** ... and renewed when it is empty. *)
Definition nonempty (lookup : io DB db_error (KubeconfigRecord * bytes)) (renew : svc string)
    (rec : KubeconfigRecord * bytes) : svc (KubeconfigRecord * bytes) :=
  if bool_decide (rec.2 = []) then _ ← renew; db lookup else mret rec.

Definition ensureUserKubeconfig (userID clusterID : string) : svc KubeconfigEnsureOutput :=
  r ← try_db (GetUserSpace userID clusterID);
  space ← (match r with
           | Ok (us, Some (b :: enc)) => mret (us, Some (b :: enc))
           | _ => _ ← provisionUserSpace userID clusterID; db (GetUserSpace userID clusterID)
           end);
  let us := space.1 in
  let renew := RenewUserKubeconfig userID clusterID in
  let lookup := GetKubeconfigByUserScope clusterID (us_Namespace us) userID in
  _ ← (if has_bytes space.2 then mret "" else renew);
  rec ← renewed lookup renew;
  rec ← nonempty lookup renew rec;
  kc ← pure (DecryptAESGCM rec.2 encKey);
  let k := rec.1 in
  mret (mkEnsureOutput (kc_ID k) (kc_ClusterID k) userID "" (kc_Namespace k) (kc_ServiceAccount k) (kc_SecretName k)
    (b64_encode kc)).

Definition ensureProjectKubeconfig (userID projectID : string) : svc KubeconfigEnsureOutput :=
  r ← db (GetProject projectID);
  let p := r.1.1 in
  if negb (str_eqb (p_UserID p) "") && negb (str_eqb (p_UserID p) userID)
  then fail (EText "project does not belong to user")
  else
    let renew := RenewProjectKubeconfig projectID in
    let lookup := GetKubeconfigByProject projectID in
    rec ← renewed lookup renew;
    rec ← nonempty lookup renew rec;
    kc ← pure (DecryptAESGCM rec.2 encKey);
    let k := rec.1 in
    mret (mkEnsureOutput (kc_ID k) (kc_ClusterID k) (p_UserID p) (p_ID p) (kc_Namespace k) (kc_ServiceAccount k)
      (kc_SecretName k) (b64_encode kc)).

Definition EnsureKubeconfigBinding (userID projectID clusterID : string) : svc KubeconfigEnsureOutput :=
  if str_eqb userID "" then fail (EText "userId is required")
  else if str_eqb projectID "" && str_eqb clusterID ""
  then fail (EText "clusterId is required when projectId is not provided")
  else if negb (str_eqb projectID "") then ensureProjectKubeconfig userID projectID
  else ensureUserKubeconfig userID clusterID.

(** [if err != nil && !apierrors.IsNotFound(err) { return err }] *)
Definition unless_missing (r : result api_error unit) : svc unit :=
  match r with
  | Ok _ | Err (IsNotFound _) => mret tt
  | Err e => fail (EText (api_text e))
  end.

Definition deleteSecret (clusterID namespace name : string) : svc unit :=
  if str_eqb namespace "" || str_eqb name "" then fail (EText "secret namespace and name required")
  else
    cs ← GetClientset clusterID;
    r ← try_k8s (delete_secret cs namespace name);
    unless_missing r.

Definition deleteServiceAccount (clusterID namespace saName : string) : svc unit :=
  cs ← GetClientset clusterID;
  r ← try_k8s (delete_account cs namespace saName);
  unless_missing r.

(** An error that is only logged. *)
Definition ignore_err {A} (m : svc A) : svc unit := fun w => (Ok tt, (m w).2).

Definition RotateKubeconfigByID (id : string) : svc (string * string * string) :=
  r ← db (GetKubeconfigByID id);
  let rec := r.1 in
  out ← (match kc_ProjectID rec with
         | Some project => RenewProjectKubeconfig project
         | None => RenewUserKubeconfig (kc_UserID rec) (kc_ClusterID rec)
         end);
  _ ← ignore_err (deleteSecret (kc_ClusterID rec) (kc_Namespace rec) (kc_SecretName rec));
  updated ← db (GetKubeconfigByID id);
  mret (kc_ID updated.1, kc_SecretName updated.1, out).

Definition DeleteKubeconfigBinding (id : string) : svc unit :=
  r ← db (GetKubeconfigByID id);
  let rec := r.1 in
  _ ← deleteSecret (kc_ClusterID rec) (kc_Namespace rec) (kc_SecretName rec);
  _ ← (match kc_ProjectID rec with
       | Some project => db (UpdateProjectKubeconfig project None)
       | None =>
           r ← try_db (GetUserSpace (kc_UserID rec) (kc_ClusterID rec));
           match r with
           | Ok (us, _) => db (UpdateUserSpaceKubeconfig (us_ID us) None)
           | Err _ => mret tt
           end
       end);
  _ ← db (DeleteKubeconfigRecord id);
  count ← try_db (CountKubeconfigsByServiceAccount (kc_Namespace rec) (kc_ServiceAccount rec));
  match count with
  | Ok O => ignore_err (deleteServiceAccount (kc_ClusterID rec) (kc_Namespace rec) (kc_ServiceAccount rec))
  | _ => mret tt
  end.
End Tenancy.
