(* ===== verification/TenancyProofs.v ===== *)
(** What the tenancy operations guarantee. *)

From Stdlib Require Import Ascii ZArith Lia.
From stdpp Require Import base gmap strings list.
From S2P Require Import Prelude Utf8 GoStrings Hash Names Kube Aes Crypto Json Config Quota.
From S2P Require Import Kubeconfig Events Maintenance Store StoreProofs Tenancy.

(** What the operations rely on: an applied quota is there as it was applied (kubeop is its only
    field manager) and other objects are left alone, also by the operations on Secrets; a nonce
    has twelve bytes; identifiers are canonical, without white space around, and all different. *)
Class PlatformLaws (Q K C R CS : Type) `{plat : Platform Q K C R CS} `{pg : Postgres} := {
  patch_stored c rq k k' : patch_object c (KQuota rq) k = (Ok tt, k') ->
    get_object c (object_key (Q := Q) (KQuota rq)) k' = Found (KQuota rq);
  patch_frame c o k r k' c' key : patch_object c o k = (r, k') -> key <> object_key o ->
    get_object c' key k' = get_object c' key k;
  create_secret_frame cs ns n sa k r k' (c : C) key : create_secret cs ns n sa k = (r, k') ->
    get_object c key k' = get_object c key k;
  get_secret_frame cs ns n k r k' (c : C) key : get_secret cs ns n k = (r, k') ->
    get_object c key k' = get_object c key k;
  rand_length n b : rand_Reader n = Ok b -> length b = gcm_nonce_size;
  uuid_New_canonical n : uuid_in (uuid_New n) = Some (uuid_New n);
  uuid_New_inj n m : uuid_New n = uuid_New m -> n = m;
  uuid_New_trim n : TrimSpace (uuid_New n) = uuid_New n /\ uuid_New n <> "";
}.

(** The tables, the event log and the number of statements aside. *)
Definition same_rows (d d' : DB) : Prop :=
  d_users d' = d_users d /\ d_projects d' = d_projects d /\ d_spaces d' = d_spaces d /\
  d_kubeconfigs d' = d_kubeconfigs d /\ d_clusters d' = d_clusters d /\ d_apps d' = d_apps d /\
  d_maintenance d' = d_maintenance d /\ d_statuses d' = d_statuses d /\ d_domains d' = d_domains d /\
  d_git d' = d_git d /\ d_registry d' = d_registry d /\ d_releases d' = d_releases d /\ d_crds d' = d_crds d /\
  d_templates d' = d_templates d /\ d_app_templates d' = d_app_templates d.

#[export] Instance same_rows_preorder : PreOrder same_rows.
Proof. split; [done|]. unfold same_rows. intros a b c H1 H2. destruct_and?. repeat split; congruence. Qed.

Lemma same_rows_bump d : same_rows d (bump d).
Proof. done. Qed.

(** ** Statements *)

Create HintDb read_only.

Section Stmt.
Context `{pg : Postgres}.

Lemma stmt_ok {A} (f : Z -> DB -> result db_error (A * DB)) d a d' :
  stmt f d = (Ok a, d') -> exists now d0, f now d = Ok (a, d0) /\ d' = bump d0.
Proof.
  unfold stmt. destruct (db_fault _); [done|]. destruct (f _ d) as [[a' d0]|e] eqn:E; [|done].
  intros [= <- <-]. eauto.
Qed.

Lemma stmt_case {A} (f : Z -> DB -> result db_error (A * DB)) d r d' :
  stmt f d = (r, d') -> (exists e, r = Err e /\ d' = bump d) \/ exists now a d0, f now d = Ok (a, d0) /\ r = Ok a /\ d' = bump d0.
Proof.
  unfold stmt. destruct (db_fault _); [intros [= <- <-]; eauto|].
  destruct (f _ d) as [[a' d0]|e] eqn:E; intros [= <- <-]; [right|left]; eauto 10.
Qed.

(** A statement while the database answers. *)
Lemma stmt_no_fault {A} (f : Z -> DB -> result db_error (A * DB)) d : (forall n, db_fault n = None) ->
  stmt f d = match f (db_now (d_stmts d)) d with Ok (a, d') => (Ok a, bump d') | Err e => (Err e, bump d) end.
Proof. intros Hf. unfold stmt. by rewrite Hf. Qed.

Lemma select_ok {R} (rows : list R) f r : select rows f = Ok r -> r ∈ rows /\ f r = true.
Proof.
  unfold select. destruct (List.find f rows) eqn:E; [|done]. intros [= <-].
  apply find_some in E as [Hin Hf]. split; [by apply list_elem_of_In|done].
Qed.

Lemma uuid_ok s c : uuid s = Ok c <-> uuid_in s = Some c.
Proof. unfold uuid. destruct (uuid_in s); split; congruence. Qed.

(** A statement that only reads. *)
Definition read_only {A} (m : io DB db_error A) : Prop := forall d r d', m d = (r, d') -> d' = bump d.

Lemma read_only_stmt {A} (f : Z -> DB -> result db_error (A * DB)) :
  (forall now d a d0, f now d = Ok (a, d0) -> d0 = d) -> read_only (stmt f).
Proof. intros Hf d r d' [(e & _ & ->)|(now & a & d0 & ->%Hf & _ & ->)]%stmt_case; done. Qed.

End Stmt.

Ltac read_only_tac := apply read_only_stmt; intros ? ? ? ? H;
  repeat (let v := fresh in apply bind_ok in H as (v & _ & H)); unfold find_kubeconfig in *; by simplify_eq.

Section Reads.
Context `{pg : Postgres}.

Lemma GetProject_ro id : read_only (GetProject id). Proof. read_only_tac. Qed.
Lemma GetUser_ro id : read_only (GetUser id). Proof. read_only_tac. Qed.
Lemma GetUserByEmail_ro e : read_only (GetUserByEmail e). Proof. read_only_tac. Qed.
Lemma GetUserSpace_ro u c : read_only (GetUserSpace u c). Proof. read_only_tac. Qed.
Lemma GetClusterKubeconfigEnc_ro c : read_only (GetClusterKubeconfigEnc c). Proof. read_only_tac. Qed.
Lemma ListClusters_ro : read_only ListClusters. Proof. read_only_tac. Qed.

Lemma find_kubeconfig_ro f d a d0 : find_kubeconfig f d = Ok (a, d0) -> d0 = d.
Proof. intros (v & _ & [= _ <-])%bind_ok. done. Qed.

Lemma GetKubeconfigByProject_ro p : read_only (GetKubeconfigByProject p).
Proof. apply read_only_stmt. intros now d a d0 (v & _ & H)%bind_ok. by eapply find_kubeconfig_ro. Qed.
Lemma GetKubeconfigByUserScope_ro c n u : read_only (GetKubeconfigByUserScope c n u).
Proof.
  apply read_only_stmt. intros now d a d0 (v & _ & (v' & _ & H)%bind_ok)%bind_ok. by eapply find_kubeconfig_ro.
Qed.

(** The row a project identifier stands for. *)
Definition project_row (d : DB) (id : string) (r : ProjectRow) : Prop :=
  r ∈ d_projects d /\ uuid_in id = Some (p_ID (pr r)) /\ p_deleted r = false.

Lemma GetProject_ok id d p q e d' : GetProject id d = (Ok (p, q, e), d') ->
  d' = bump d /\ exists r, project_row d id r /\ p = pr r /\ q = p_quota r /\ e = p_kubeconfig r.
Proof.
  intros H. split; [by eapply GetProject_ro|]. apply stmt_ok in H as (now & d0 & H & _).
  apply bind_ok in H as (c & Hc%uuid_ok & H). apply bind_ok in H as (r & Hr%select_ok & H). injection H as <- <- <- <-.
  destruct Hr as [Hin Hr]. apply andb_true_iff in Hr as [Hid%str_eqb_eq Hd%negb_true_iff].
  exists r. unfold project_row. by rewrite Hid.
Qed.
End Reads.

#[export] Hint Resolve GetProject_ro GetUser_ro GetUserByEmail_ro GetUserSpace_ro GetClusterKubeconfigEnc_ro
  ListClusters_ro GetKubeconfigByProject_ro GetKubeconfigByUserScope_ro : read_only.

(** ** Frames *)

Section Frames.
Context {Q K C R CS : Type} `{laws : PlatformLaws Q K C R CS}.
Local Abbreviation W := (World K C R).
Local Abbreviation svc := (io W svc_error).

(** [m] stays within [P], whether it succeeds or not. *)
Definition keeps (P : W -> W -> Prop) {A} (m : svc A) : Prop := forall w r w', m w = (r, w') -> P w w'.

Section Keeps.
Context (P : W -> W -> Prop) `{!PreOrder P}.

Lemma keeps_ret {A} (a : A) : keeps P (mret a).
Proof. intros w r w' [= _ <-]. done. Qed.

Lemma keeps_fail {A} e : keeps P (fail (A := A) e).
Proof. intros w r w' [= _ <-]. done. Qed.

Lemma keeps_bind {A B} (m : svc A) (f : A -> svc B) :
  keeps P m -> (forall a, keeps P (f a)) -> keeps P (m ≫= f).
Proof.
  intros Hm Hf w r w' [(e & He & _)|(a & w1 & H1 & H2)]%io_bind_case; [by eapply Hm|].
  etransitivity; [by eapply Hm|by eapply Hf].
Qed.

Lemma keeps_or_fail {E A} (wrap : E -> svc_error) (m : svc (result E A)) : keeps P m -> keeps P (or_fail wrap m).
Proof. intros Hm. apply keeps_bind; [done|]. intros [a|e]; [apply keeps_ret|apply keeps_fail]. Qed.

Lemma keeps_wrap {A} f (m : svc A) : keeps P m -> keeps P (wrap_err f m).
Proof. intros Hm w r w'. unfold wrap_err. destruct (m w) as [[a|e] w1] eqn:E; intros [= _ <-]; by eapply Hm. Qed.

Lemma keeps_pure {A} (x : result string A) : keeps P (pure x).
Proof. apply keeps_or_fail, keeps_ret. Qed.

Lemma keeps_panics {A} (x : option A) : keeps P (panics x).
Proof. destruct x; [apply keeps_ret|apply keeps_fail]. Qed.

Lemma keeps_for_each {A} (f : A -> svc unit) l : (forall x, x ∈ l -> keeps P (f x)) -> keeps P (for_each f l).
Proof.
  induction l as [|x l IH]; intros Hf; [apply keeps_ret|]. apply keeps_bind; [apply Hf; by left|].
  intros _. apply IH. intros y Hy. apply Hf. by right.
Qed.
End Keeps.

(** Reads and caches: the rows and the clusters stay as they are. *)
Definition quiet (w w' : W) : Prop := same_rows (w_db w) (w_db w') /\ w_k8s w' = w_k8s w.
#[export] Instance quiet_preorder : PreOrder quiet.
Proof.
  split; [by intros w; split|]. intros a b c [H1 H2] [H3 H4]. split; [by etransitivity|congruence].
Qed.

Lemma quiet_try_db {A} (m : io DB db_error A) : read_only m -> keeps quiet (try_db m).
Proof.
  intros Hm w r w'. unfold try_db. destruct (m (w_db w)) as [x d] eqn:E. intros [= _ <-].
  split; [|done]. cbn. by rewrite (Hm _ _ _ E).
Qed.

Lemma quiet_db {A} (m : io DB db_error A) : read_only m -> keeps quiet (db m).
Proof. intros Hm. by apply keeps_or_fail, quiet_try_db; [apply quiet_preorder|]. Qed.

Lemma quiet_reads {A} (f : K -> A) : keeps quiet (reads f).
Proof. intros w r w' [= _ <-]. done. Qed.

Lemma quiet_uuid : keeps quiet uuid_fresh.
Proof. intros w r w' [= _ <-]. done. Qed.

Lemma quiet_encrypt key b : keeps quiet (EncryptSecret key b).
Proof. intros w r w' [= _ <-]. done. Qed.

Lemma quiet_gate : keeps quiet maintenance_gate.
Proof.
  intros w r w'. unfold maintenance_gate. destruct (ensureMaintenanceAllows (w_db w)) as [x d] eqn:E.
  apply ensure_inv in E as [-> _]. by destruct x; intros [= _ <-].
Qed.

Lemma insert_event_rows e d r d' : insert_event e d = (r, d') -> same_rows d d'.
Proof.
  unfold insert_event. destruct (store_event_guard e); [by intros [= _ <-]|].
  intros [(x & _ & ->)|(now & a & d0 & H & _ & ->)]%stmt_case; [done|].
  repeat (let v := fresh in apply bind_ok in H as (v & _ & H)). destruct (existsb _ _); [done|]. by injection H as _ <-.
Qed.

Lemma append_event_inv cfg actor project app kind severity message meta w r w' :
  append_app_event cfg actor project app kind severity message meta w = (r, w') -> quiet w w' /\ w_clients w' = w_clients w.
Proof.
  intros H. unfold append_app_event in H. destruct (AppendProjectEvent _ _ _ w) as [x w1] eqn:E.
  assert (Hq : quiet w w1 /\ w_clients w1 = w_clients w); [clear H|by destruct x; injection H as _ <-].
  unfold AppendProjectEvent in E. cbv zeta in E.
  repeat match type of E with (if ?b then _ else _) = _ => destruct b; [by injection E as _ <-|] end.
  cbn [newUUID InsertProjectEvent world_events] in E.
  match type of E with (if ?b then _ else _) = _ => destruct b; [by injection E as _ <-|] end.
  cbn [w_db] in E. destruct (insert_event _ _) as [y d] eqn:Ei. apply insert_event_rows in Ei.
  by destruct y as [?|[|?]]; injection E as _ <-.
Qed.

Lemma quiet_event cfg actor project app kind severity message meta :
  keeps quiet (append_app_event cfg actor project app kind severity message meta).
Proof. by intros w r w' [? _]%append_event_inv. Qed.

(** Frames of a program from the frames of its parts. *)
Ltac keep :=
  repeat first
    [ apply keeps_ret; apply _ | apply keeps_fail; apply _ | apply keeps_pure; apply _ | apply keeps_panics; apply _
    | apply keeps_wrap | apply quiet_try_db; solve [auto with read_only] | apply quiet_db; solve [auto with read_only]
    | apply quiet_reads | apply quiet_uuid | apply quiet_encrypt | apply quiet_gate | apply quiet_event
    | apply keeps_bind; [apply _| |intros ?]
    | progress case_match ].

Lemma quiet_decrypt key id : keeps quiet (DecryptClusterKubeconfig key id).
Proof. unfold DecryptClusterKubeconfig. keep. Qed.

Lemma quiet_put id (c : C) rc : keeps quiet (Put id c rc).
Proof. intros w r w' [= _ <-]. done. Qed.

Lemma quiet_put_rest id rc : keeps quiet (put_rest id rc).
Proof. intros w r w' [= _ <-]. done. Qed.

Lemma keeps_eta P {A} (m : svc A) : keeps P (fun w => m w) -> keeps P m.
Proof. done. Qed.

Lemma quiet_GetOrCreate key id : keeps quiet (GetOrCreate key id).
Proof.
  intros w r w'. unfold GetOrCreate. destruct (w_clients w !! id); [by intros [= _ <-]|].
  eapply (keeps_bind quiet); [apply quiet_decrypt|]. intros b. keep. apply quiet_put.
Qed.

Lemma quiet_GetClientset key id : keeps quiet (GetClientset (CS := CS) key id).
Proof.
  intros w r w'. unfold GetClientset. destruct (w_rest w !! id) as [rc|]; [by apply keeps_pure, _|].
  eapply (keeps_bind quiet); [apply quiet_decrypt|]. intros b. keep; [apply quiet_put|apply quiet_put_rest].
Qed.

(** The client that is used is the one the manager has for the cluster. *)
Lemma GetOrCreate_ok key id w c w' : GetOrCreate key id w = (Ok c, w') -> w_clients w' !! id = Some c.
Proof.
  unfold GetOrCreate. destruct (w_clients w !! id) as [c0|] eqn:E; [by intros [= <- <-]|].
  intros (b & w1 & _ & H)%io_bind_ok. apply io_bind_ok in H as (rc & w2 & _ & H).
  apply io_bind_ok in H as (c1 & w3 & _ & H). apply io_bind_ok in H as ([] & w4 & [= <-] & [= <- <-]). cbn.
  apply lookup_insert_eq.
Qed.

Lemma quiet_cluster_label id : keeps quiet (cluster_label id).
Proof. unfold cluster_label. keep. Qed.

Lemma quiet_user_label id : keeps quiet (kubeconfigUserLabel id).
Proof. unfold kubeconfigUserLabel. keep. Qed.

(** ** What a successful step did *)

Lemma try_db_inv {A} (m : io DB db_error A) (w : W) r w' :
  try_db m w = (r, w') -> exists x d, m (w_db w) = (x, d) /\ r = Ok x /\ w' = set_db w d.
Proof. unfold try_db. destruct (m (w_db w)) as [x d] eqn:E. intros [= <- <-]. eauto. Qed.

Lemma db_ok {A} (m : io DB db_error A) (w : W) a w' :
  db m w = (Ok a, w') -> exists d, m (w_db w) = (Ok a, d) /\ w' = set_db w d.
Proof.
  intros (x & w1 & (y & d & Hm & [= <-] & ->)%try_db_inv & H)%io_bind_ok.
  destruct x as [b|e]; [|done]. injection H as <- <-. eauto.
Qed.

Lemma pure_ok {A} (x : result string A) (w : W) a w' : pure x w = (Ok a, w') -> x = Ok a /\ w' = w.
Proof. unfold pure, or_fail. cbn. by destruct x; intros [= <- <-]. Qed.

Lemma panics_ok {A} (x : option A) (w : W) a w' : panics x w = (Ok a, w') -> x = Some a /\ w' = w.
Proof. by destruct x; intros [= <- <-]. Qed.

Lemma apply_ok c (o : KObject Q) (w : W) u w' :
  apply c o w = (Ok u, w') -> exists k, patch_object c o (w_k8s w) = (Ok tt, k) /\ w' = set_k8s w k.
Proof.
  intros (g & w1 & Hg & H)%io_bind_ok. unfold k8s, or_fail in H.
  assert (w1 = w) as -> by (destruct o; first [by apply pure_ok in Hg as [_ ->]|by injection Hg]).
  apply io_bind_ok in H as (x & w2 & Hk & H). unfold try_k8s in Hk.
  destruct (patch_object c o (w_k8s w)) as [y k] eqn:E. injection Hk as <- <-.
  destruct y as [[]|e]; [|done]. injection H as _ <-. eauto.
Qed.

Lemma limit_objects_ok cfg ns ov (w : W) objs w' :
  limit_objects cfg ns ov w = (Ok objs, w') ->
  w' = w /\ TrimSpace ns <> "" /\ object_key (KQuota objs.1) = ("ResourceQuota", TrimSpace ns, namespaceQuotaObjectName) /\
  object_key (Q := Q) (KLimits objs.2) = ("LimitRange", TrimSpace ns, namespaceLimitRangeName) /\
  defaultQuota ParseQuantity cfg ov = Some (rq_Hard objs.1).
Proof.
  intros (r & w1 & [Hb ->]%pure_ok & [-> ->]%panics_ok)%io_bind_ok. split; [done|].
  unfold buildNamespaceLimitPolicyObjects in Hb. destruct (str_eqb (TrimSpace ns) "") eqn:E; [done|].
  split; [by apply str_eqb_neq|]. injection Hb as Hb.
  apply bind_Some in Hb as (rq & Hrq & (items & Hi & [= <-])%bind_Some). cbn [fst snd].
  apply bind_Some in Hrq as (hard & Hh & Hrq). destruct (filterQuotaScopes _ _) as [scopes dropped].
  injection Hrq as <-. cbn. done.
Qed.

(** The quota that is on the cluster after the limits were applied. *)
Lemma apply_limits_ok c rq lr (w : W) w' :
  applyNamespaceLimitObjects c rq lr w = (Ok tt, w') ->
  get_object c (object_key (KQuota rq)) (w_k8s w') = Found (KQuota rq) /\
  w_db w' = w_db w /\ w_clients w' = w_clients w.
Proof.
  intros ([] & w1 & H1%wrap_err_ok & H2%wrap_err_ok)%io_bind_ok.
  apply apply_ok in H1 as (k1 & H1 & ->). apply apply_ok in H2 as (k2 & H2 & ->).
  cbn [w_k8s w_db set_k8s] in *. split; [|done].
  rewrite (patch_frame _ _ _ _ _ c (object_key (KQuota rq)) H2) by done.
  by eapply patch_stored.
Qed.

(** ** Suspension *)

Lemma project_row_rows d d' id r : same_rows d d' -> project_row d' id r <-> project_row d id r.
Proof. intros (_ & Hp & _). unfold project_row. by rewrite Hp. Qed.

(** The quota object of a project on the cluster. *)
Definition quota_on_cluster (w : W) (p : Project) (hard : ResourceList Q) : Prop :=
  exists c rq, w_clients w !! p_ClusterID p = Some c /\
    get_object c ("ResourceQuota", TrimSpace (p_Namespace p), namespaceQuotaObjectName) (w_k8s w) = Found (KQuota rq) /\
    rq_Hard rq = hard.

(** What the limits of a project are when it is (un)suspended. *)
Definition suspended_quota (cfg : Config) (r : ProjectRow) (suspended : bool) (hard : ResourceList Q) : Prop :=
  if suspended then exists zero, ParseQuantity "0" = Some zero /\ hard = {["pods" := zero]}
  else exists ov, DecodeQuotaOverrides (p_quota r) = Ok ov /\
    defaultQuota ParseQuantity cfg (map_to_list ov) = Some hard.

Lemma applied_quota_on_cluster key c p w1 w2 w3 rq lr hard :
  GetOrCreate key (p_ClusterID p) w1 = (Ok c, w2) ->
  object_key (KQuota rq) = ("ResourceQuota", TrimSpace (p_Namespace p), namespaceQuotaObjectName) ->
  rq_Hard rq = hard -> applyNamespaceLimitObjects c rq lr w2 = (Ok tt, w3) ->
  quota_on_cluster w3 p hard /\ w_db w3 = w_db w2.
Proof.
  intros Hg Hk Hh (Hq & Hd & Hc)%apply_limits_ok. split; [|done]. exists c, rq. rewrite Hc, <- Hk.
  split; [by eapply GetOrCreate_ok|]. done.
Qed.

Lemma quota_on_cluster_frame w w' p hard :
  w_k8s w' = w_k8s w -> w_clients w' = w_clients w -> quota_on_cluster w p hard -> quota_on_cluster w' p hard.
Proof. intros Hk Hc (c & rq & H). exists c, rq. by rewrite Hk, Hc. Qed.

Definition set_rows (id : string) (g : ProjectRow -> ProjectRow) (rows : list ProjectRow) : list ProjectRow :=
  (fun x => if str_eqb (p_ID (pr x)) id then g x else x) <$> rows.

Lemma SetProjectSuspended_ok cfg key actor id suspended w w' :
  SetProjectSuspended cfg key actor id suspended w = (Ok tt, w') ->
  exists r hard, project_row (w_db w) id r /\ suspended_quota cfg r suspended hard /\ quota_on_cluster w' (pr r) hard /\
    d_projects (w_db w') = set_rows (p_ID (pr r)) (with_suspended suspended) (d_projects (w_db w)).
Proof.
  unfold SetProjectSuspended. intros ([] & w1 & H1%quiet_gate & H)%io_bind_ok.
  destruct (cfg_ProjectsInUserNamespace cfg); [done|].
  apply io_bind_ok in H as ([[p qo] e] & w2 & (d & Hp & ->)%db_ok & H).
  apply GetProject_ok in Hp as (-> & r & Hr & -> & -> & ->).
  apply io_bind_ok in H as (c & w3 & Hg & H). pose proof (quiet_GetOrCreate _ _ _ _ _ Hg) as H3.
  apply io_bind_ok in H as (objs & w4 & Ho & H).
  assert (Hobjs : w4 = w3 /\ object_key (KQuota objs.1) = ("ResourceQuota", TrimSpace (p_Namespace (pr r)), namespaceQuotaObjectName) /\
    suspended_quota cfg r suspended (rq_Hard objs.1)).
  { destruct suspended.
    - apply io_bind_ok in Ho as (o & w5 & (-> & _ & Hk & _ & _)%limit_objects_ok & Ho).
      apply io_bind_ok in Ho as (zero & w6 & [Hz ->]%panics_ok & [= <- <-]). cbn. eauto.
    - apply io_bind_ok in Ho as (ov & w5 & [Hd ->]%pure_ok & (-> & _ & Hk & _ & Hq)%limit_objects_ok). cbn. eauto. }
  destruct Hobjs as (-> & Hk & Hs). apply io_bind_ok in H as ([] & w5 & Ha & H).
  destruct (applied_quota_on_cluster _ _ _ _ _ _ _ _ _ Hg Hk eq_refl Ha) as [Hq Hdb].
  apply io_bind_ok in H as ([] & w6 & (d6 & Hu & ->)%db_ok & H).
  apply stmt_ok in Hu as (now & d0 & Hu & ->). apply bind_ok in Hu as (c0 & Hc0%uuid_ok & [= <-]).
  apply append_event_inv in H as [[Hrows Hk8s] Hcl].
  pose proof Hr as (_ & Hid & _). rewrite Hid in Hc0. injection Hc0 as <-.
  exists r, (rq_Hard objs.1). split.
  { apply (project_row_rows _ _ _ _ (proj1 H1)), Hr. }
  split; [done|]. split; [by eapply quota_on_cluster_frame; [exact Hk8s|exact Hcl|]|].
  destruct Hrows as (_ & -> & _). cbn. rewrite Hdb. destruct H3 as [(_ & -> & _) _]. destruct H1 as [(_ & <- & _) _]. done.
Qed.

Definition with_quota (q : option string) (r : ProjectRow) : ProjectRow :=
  mkProjectRow (pr r) q (p_kubeconfig r) (p_deleted r).

Lemma UpdateProjectQuota_ok cfg key actor id ov w w' :
  UpdateProjectQuota cfg key actor id ov w = (Ok tt, w') ->
  exists r hard q q', project_row (w_db w) id r /\ defaultQuota ParseQuantity cfg ov = Some hard /\
    quota_on_cluster w' (pr r) hard /\ EncodeQuotaOverrides ov = Ok q /\ to_jsonb q = Ok q' /\
    d_projects (w_db w') = set_rows (p_ID (pr r)) (with_quota q') (d_projects (w_db w)).
Proof.
  unfold UpdateProjectQuota. intros ([] & w1 & H1%quiet_gate & H)%io_bind_ok.
  destruct (cfg_ProjectsInUserNamespace cfg); [done|].
  apply io_bind_ok in H as ([[p qo] e] & w2 & (d & Hp & ->)%db_ok & H).
  apply GetProject_ok in Hp as (-> & r & Hr & -> & -> & ->). cbn [fst] in H.
  apply io_bind_ok in H as (c & w3 & Hg & H). pose proof (quiet_GetOrCreate _ _ _ _ _ Hg) as H3.
  apply io_bind_ok in H as (objs & w4 & (-> & _ & Hk & _ & Hh)%limit_objects_ok & H).
  apply io_bind_ok in H as ([] & w5 & Ha & H).
  destruct (applied_quota_on_cluster _ _ _ _ _ _ _ _ _ Hg Hk eq_refl Ha) as [Hq Hdb].
  apply io_bind_ok in H as (qj & w6 & [He ->]%pure_ok & H).
  apply io_bind_ok in H as ([] & w7 & (d7 & Hu & ->)%db_ok & H).
  apply stmt_ok in Hu as (now & d0 & Hu & ->). apply bind_ok in Hu as (c0 & Hc0%uuid_ok & Hu).
  apply bind_ok in Hu as (q' & Hq' & [= <-]).
  apply append_event_inv in H as [[Hrows Hk8s] Hcl].
  pose proof Hr as (_ & Hid & _). rewrite Hid in Hc0. injection Hc0 as <-.
  exists r, (rq_Hard objs.1), qj, q'. split.
  { apply (project_row_rows _ _ _ _ (proj1 H1)), Hr. }
  split; [done|]. split; [by eapply quota_on_cluster_frame; [exact Hk8s|exact Hcl|]|]. split; [done|]. split; [done|].
  destruct Hrows as (_ & -> & _). cbn. rewrite Hdb. destruct H3 as [(_ & -> & _) _]. destruct H1 as [(_ & <- & _) _]. done.
Qed.

(** Rows of a table in which identifiers are unique, after an update of the rows of one. *)
Lemma project_row_unique d id r r' : uniq project_id (d_projects d) -> project_row d id r -> project_row d id r' -> r = r'.
Proof.
  intros Hu (H1 & I1 & _) (H2 & I2 & _). eapply (uniq_same project_id); [done..|]. unfold project_id. congruence.
Qed.

Lemma project_row_set d d' id r g :
  (forall x, p_ID (pr (g x)) = p_ID (pr x) /\ p_deleted (g x) = p_deleted x) ->
  d_projects d' = set_rows (p_ID (pr r)) g (d_projects d) -> project_row d id r -> project_row d' id (g r).
Proof.
  intros Hg Hd (Hin & Hid & Hdel). unfold project_row. destruct (Hg r) as [-> ->]. split; [|done].
  rewrite Hd. apply list_elem_of_fmap. exists r. by rewrite str_eqb_refl.
Qed.

Lemma uniq_set d d' id g :
  (forall x, p_ID (pr (g x)) = p_ID (pr x)) -> d_projects d' = set_rows id g (d_projects d) ->
  uniq project_id (d_projects d) -> uniq project_id (d_projects d').
Proof.
  intros Hg Hd Hu. rewrite Hd. apply uniq_update; [|done]. intros x _. left. unfold project_id. destruct (str_eqb _ _); [|done].
  by rewrite Hg.
Qed.

(** Overrides whose keys need no trimming are stored as they are applied. *)
Lemma clean_overrides_plain ov :
  NoDup ov.*1 -> Forall (fun kv => TrimSpace kv.1 = kv.1 /\ kv.1 <> "") ov ->
  clean_overrides ov = TrimSpace <$> (list_to_map ov : gmap string string).
Proof.
  intros Hd Hk. unfold clean_overrides.
  assert (Hg : forall m : gmap string string, foldl (fun m '(k, v) => let key := TrimSpace k in
    if str_eqb key "" then m else <[key := TrimSpace v]> m) m ov = (TrimSpace <$> list_to_map ov) ∪ m).
  { induction ov as [|[k v] ov IH]; intros m; cbn [foldl list_to_map].
    { by rewrite list_to_map_nil, fmap_empty, (left_id_L ∅ (∪)). }
    apply Forall_cons in Hk as [[Hk Hne] Hks]. cbn [fst] in *.
    rewrite fmap_cons in Hd. apply NoDup_cons in Hd as [Hn Hd]. cbn [fst] in *.
    rewrite IH by done. rewrite Hk, (proj2 (str_eqb_neq k "")) by done. rewrite list_to_map_cons, fmap_insert.
    rewrite <- insert_union_l. rewrite insert_union_r; [done|]. rewrite lookup_fmap.
    by rewrite (proj1 (not_elem_of_list_to_map ov k)). }
  by rewrite Hg, (right_id_L ∅ (∪)).
Qed.

Lemma quantity_text_trim v : quantity_text (TrimSpace v) = quantity_text v.
Proof. unfold quantity_text. by rewrite trim_space_idem. Qed.

Lemma default_quota_clean cfg ov (h h' : ResourceList Q) :
  NoDup ov.*1 -> Forall (fun kv => TrimSpace kv.1 = kv.1 /\ kv.1 <> "") ov ->
  defaultQuota ParseQuantity cfg ov = Some h ->
  defaultQuota ParseQuantity cfg (map_to_list (clean_overrides ov)) = Some h' -> h = h'.
Proof.
  intros Hd Hk H H'. apply map_eq. intros k.
  rewrite (default_quota_lookup _ _ _ _ k Hd H), (default_quota_lookup _ _ _ _ k (NoDup_fst_map_to_list _) H').
  rewrite list_to_map_to_list, clean_overrides_plain by done. unfold quota_text. rewrite lookup_fmap.
  destruct (list_to_map ov !! k) as [v|]; [|done]. cbn [fmap option_fmap option_map mbind option_bind].
  by rewrite quantity_text_trim.
Qed.

Lemma stored_overrides_decode `{!PostgresLaws} ov q q' :
  map_Forall (fun k v => valid_utf8 k /\ valid_utf8 v) (clean_overrides ov) ->
  EncodeQuotaOverrides ov = Ok q -> to_jsonb q = Ok q' -> DecodeQuotaOverrides q' = Ok (clean_overrides ov).
Proof.
  intros Hv He Hj. destruct (overrides_stored ov Hv) as (raw & He' & Hd & _). rewrite He in He'. injection He' as <-.
  destruct q as [t|]; cbn in Hj; [|by injection Hj as <-].
  destruct (jsonb t) as [t'|] eqn:E; [|done]. injection Hj as <-. by rewrite (jsonb_value _ _ E).
Qed.

(** When suspending or resuming a project succeeds, the quota on its cluster is the one of its new
    state (no pods at all, or the defaults with the stored overrides) and its row says so; no
    other row changes. *)
Theorem suspension_effect cfg key actor id suspended w w' :
  SetProjectSuspended cfg key actor id suspended w = (Ok tt, w') ->
  exists r hard, project_row (w_db w) id r /\ suspended_quota cfg r suspended hard /\ quota_on_cluster w' (pr r) hard /\
    d_projects (w_db w') = set_rows (p_ID (pr r)) (with_suspended suspended) (d_projects (w_db w)).
Proof. apply SetProjectSuspended_ok. Qed.

(** Updating the quota of a suspended project replaces the quota that keeps it without pods by the
    full one, while the project stays marked as suspended. *)
Theorem quota_update_lifts_suspension cfg key actor id ov w w' r :
  uniq project_id (d_projects (w_db w)) -> project_row (w_db w) id r -> p_Suspended (pr r) = true ->
  UpdateProjectQuota cfg key actor id ov w = (Ok tt, w') ->
  (exists hard, defaultQuota ParseQuantity cfg ov = Some hard /\ quota_on_cluster w' (pr r) hard) /\
  (forall r', project_row (w_db w') id r' -> p_Suspended (pr r') = true).
Proof.
  intros Hu Hr Hs (r0 & hard & q & q' & Hr0 & Hh & Hq & _ & _ & Hd)%UpdateProjectQuota_ok.
  rewrite (project_row_unique _ _ _ _ Hu Hr0 Hr) in *. split; [eauto|]. intros r' Hr'.
  assert (Hn : project_row (w_db w') id (with_quota q' r)) by (eapply project_row_set; [|exact Hd|done]; done).
  assert (Hu' : uniq project_id (d_projects (w_db w'))) by (eapply uniq_set; [|exact Hd|done]; done).
  by rewrite (project_row_unique _ _ _ _ Hu' Hr' Hn).
Qed.

(** C15: suspending a project after its quota was updated and resuming it brings back the quota that
    was applied: the overrides survive their encoding, the JSONB column and their decoding
    (for keys that need no trimming). *)
Theorem suspension_round_trip `{!PostgresLaws} cfg key actor id ov w w1 w2 w3 :
  uniq project_id (d_projects (w_db w)) ->
  NoDup ov.*1 -> Forall (fun kv => TrimSpace kv.1 = kv.1 /\ kv.1 <> "") ov ->
  map_Forall (fun k v => valid_utf8 k /\ valid_utf8 v) (clean_overrides ov) ->
  UpdateProjectQuota cfg key actor id ov w = (Ok tt, w1) ->
  SetProjectSuspended cfg key actor id true w1 = (Ok tt, w2) ->
  SetProjectSuspended cfg key actor id false w2 = (Ok tt, w3) ->
  exists p hard zero, quota_on_cluster w1 p hard /\ quota_on_cluster w2 p {["pods" := zero]} /\ quota_on_cluster w3 p hard.
Proof.
  intros Hu Hnd Hk Hv (r & hard & q & q' & Hr & Hh & Hq1 & He & Hj & Hd1)%UpdateProjectQuota_ok
    (r2 & h2 & Hr2 & (zero & _ & ->) & Hq2 & Hd2)%SetProjectSuspended_ok
    (r3 & h3 & Hr3 & (ov3 & Hov & Hh3) & Hq3 & Hd3)%SetProjectSuspended_ok.
  assert (Hu1 : uniq project_id (d_projects (w_db w1))) by (eapply uniq_set; [|exact Hd1|done]; done).
  assert (Hu2 : uniq project_id (d_projects (w_db w2))) by (eapply uniq_set; [|exact Hd2|done]; done).
  assert (E2 : r2 = with_quota q' r).
  { eapply project_row_unique; [exact Hu1|exact Hr2|]. eapply project_row_set; [|exact Hd1|done]; done. }
  assert (E3 : r3 = with_suspended true (with_quota q' r)).
  { eapply project_row_unique; [exact Hu2|exact Hr3|]. rewrite E2 in *. eapply project_row_set; [|exact Hd2|exact Hr2]; done. }
  subst r2 r3. exists (pr r), hard, zero. split; [done|]. split; [exact Hq2|].
  cbn in Hov. rewrite (stored_overrides_decode ov q q' Hv He Hj) in Hov. injection Hov as <-.
  rewrite (default_quota_clean cfg ov hard h3 Hnd Hk Hh Hh3). exact Hq3.
Qed.
End Frames.
