(* ===== verification/ProjectProofs.v ===== *)
(** Creating and deleting projects: what [CreateProject] leaves behind, where it cannot succeed,
    and what maintenance mode stops. *)

From Stdlib Require Import Ascii ZArith Lia.
From stdpp Require Import base gmap strings list.
From S2P Require Import Prelude Utf8 GoStrings Hash Names Kube Aes Crypto Json Config Quota.
From S2P Require Import Kubeconfig Events Maintenance Store StoreProofs Tenancy TenancyProofs.

(** Frames of a program from the frames of its parts. *)
Create HintDb keeps.
#[export] Hint Resolve quiet_try_db quiet_db quiet_reads quiet_uuid quiet_encrypt quiet_gate quiet_event quiet_decrypt
  quiet_GetOrCreate quiet_GetClientset quiet_cluster_label quiet_user_label : keeps.

Ltac keep :=
  repeat first
    [ apply keeps_ret; apply _ | apply keeps_fail; apply _ | apply keeps_pure; apply _ | apply keeps_panics; apply _
    | apply keeps_wrap | solve [eauto with keeps read_only] | apply keeps_for_each; [apply _|intros ? ?]
    | apply keeps_bind; [apply _| |intros ?] | progress case_match ].

Section Projects.
Context {Q K C R CS : Type} `{laws : PlatformLaws Q K C R CS}.
Local Abbreviation W := (World K C R).
Local Abbreviation svc := (io W svc_error).

(** ** Programs that leave the rows alone *)

Definition rows_kept (w w' : W) : Prop := same_rows (w_db w) (w_db w').
#[local] Instance rows_kept_preorder : PreOrder rows_kept.
Proof. split; [by intros w|]. intros a b c H1 H2. unfold rows_kept in *. by etransitivity. Qed.

Lemma keeps_weaken (P P' : W -> W -> Prop) {A} (m : svc A) :
  (forall w w', P w w' -> P' w w') -> keeps P m -> keeps P' m.
Proof. intros H Hm w r w' E. by eapply H, Hm. Qed.

Lemma quiet_rows {A} (m : svc A) : keeps quiet m -> keeps rows_kept m.
Proof. apply keeps_weaken. by intros w w' [H _]. Qed.

Lemma rows_try_k8s {E A} (m : io K E A) : keeps rows_kept (try_k8s m).
Proof. intros w r w'. unfold try_k8s. destruct (m (w_k8s w)). by intros [= _ <-]. Qed.

Lemma rows_apply c (o : KObject Q) : keeps rows_kept (apply c o).
Proof.
  unfold apply. apply keeps_bind; [apply _|destruct o; first [apply keeps_pure, _|apply keeps_ret, _]|intros _].
  apply keeps_or_fail; [apply _|apply rows_try_k8s].
Qed.

#[local] Hint Resolve quiet_rows rows_try_k8s rows_apply : keeps.

Lemma rows_limits cfg c ns ov : keeps rows_kept (ensureNamespaceLimitPolicy cfg c ns ov).
Proof.
  unfold ensureNamespaceLimitPolicy, limit_objects, applyNamespaceLimitObjects. keep.
Qed.

(** ** Namespaces are not shared *)

Lemma existsb_true {A} (f : A -> bool) l x : x ∈ l -> f x = true -> existsb f l = true.
Proof. intros Hin Hf. apply existsb_exists. exists x. split; [by apply list_elem_of_In|done]. Qed.

(** The insertion fails where a live project of the cluster has the namespace. *)
Lemma CreateProject_taken p q e d p' d' r cluster :
  uuid_in (p_ClusterID p) = Some cluster -> r ∈ d_projects d -> live_at cluster (p_Namespace p) r = true ->
  Store.CreateProject p q e d <> (Ok p', d').
Proof.
  intros Hc Hr Hl (now & d0 & H & _)%stmt_ok.
  apply bind_ok in H as (id & _ & H). apply bind_ok in H as (user & _ & H).
  apply bind_ok in H as (cl & Hcl%uuid_ok & H). apply bind_ok in H as (q' & _ & H).
  rewrite Hc in Hcl. injection Hcl as <-.
  rewrite (existsb_true _ _ _ Hr) in H; [done|]. by rewrite Hl, orb_true_r.
Qed.

(** The space a lookup returns. *)
Lemma GetUserSpace_found userID clusterID u c s d r d' :
  uuid_in userID = Some u -> uuid_in clusterID = Some c -> s ∈ d_spaces d -> us_UserID (sr s) = u -> us_ClusterID (sr s) = c ->
  uniq space_owner (d_spaces d) -> GetUserSpace userID clusterID d = (r, d') ->
  (exists e, r = Err (DbError e)) \/ r = Ok (sr s, us_kubeconfig s).
Proof.
  intros Hu Hc Hs Hsu Hsc Hk H. unfold GetUserSpace, stmt, uuid in H. rewrite Hu, Hc in H.
  destruct (db_fault _); [injection H as <- _; eauto|]. cbn [mbind result_bind] in H. unfold select in H.
  destruct (List.find _ _) as [s'|] eqn:E; cbn in H.
  - right. injection H as <- _. apply find_some in E as [Hin%list_elem_of_In [E1%str_eqb_eq E2%str_eqb_eq]%andb_true_iff].
    assert (s' = s) as ->; [|done]. eapply (uniq_same space_owner); [exact Hk|done|done|done|].
    unfold space_owner. congruence.
  - exfalso. apply list_elem_of_In in Hs. pose proof (find_none _ _ E _ Hs) as Hf. cbv beta in Hf.
    by rewrite Hsu, Hsc, !str_eqb_refl in Hf.
Qed.

(** The steps of a creation that succeeds. *)
Lemma CreateProject_ok cfg key actor inp w out w' :
  CreateProject cfg key actor inp w = (Ok out, w') ->
  exists w1 userID w2 pid w3 ns w4 c w5 cs w6 access w7 qo d,
    quiet w w1 /\ resolve_user inp w1 = (Ok userID, w2) /\ uuid_fresh w2 = (Ok pid, w3) /\
    project_namespace cfg key userID inp w3 = (Ok ns, w4) /\ GetOrCreate key (in_ClusterID inp) w4 = (Ok c, w5) /\
    GetClientset (CS := CS) key (in_ClusterID inp) w5 = (Ok cs, w6) /\
    (if cfg_ProjectsInUserNamespace cfg then shared_setup cfg c ns (in_Name inp)
     else dedicated_setup cfg key c cs pid userID ns inp) w6 = (Ok access, w7) /\
    Store.CreateProject (mkProject pid userID (in_ClusterID inp) (in_Name inp) ns false 0) qo (snd <$> access) (w_db w7)
      = (Ok out.1, d) /\
    quiet (set_db w7 d) w' /\ out.2 = match access with Some (kc, _) => toB64 (string_bytes kc) | None => "" end.
Proof.
  unfold CreateProject. intros ([] & w1 & H1%quiet_gate & H)%io_bind_ok.
  apply io_bind_ok in H as (userID & w2 & H2 & H). destruct (_ || _); [done|].
  apply io_bind_ok in H as (pid & w3 & H3 & H).
  apply io_bind_ok in H as ([] & w3' & H3' & H). apply wrap_err_ok, pure_ok in H3' as [_ ->].
  apply io_bind_ok in H as (ns & w4 & H4 & H). apply io_bind_ok in H as (c & w5 & H5 & H).
  apply io_bind_ok in H as (cs & w6 & H6 & H). apply io_bind_ok in H as (access & w7 & H7 & H).
  apply io_bind_ok in H as (qo & w8 & [_ ->]%pure_ok & H).
  apply io_bind_ok in H as (p & w9 & (d & Hp & ->)%db_ok & H).
  apply io_bind_ok in H as ([] & w10 & H10%quiet_event & [= <- <-]).
  exists w1, userID, w2, pid, w3, ns, w4, c, w5, cs, w6, access, w7, qo, d. done.
Qed.

Lemma rows_shared_setup cfg c ns name : keeps rows_kept (shared_setup cfg c ns name).
Proof. unfold shared_setup. pose proof rows_limits. keep. Qed.

(** A space that is there is the one a project goes to. *)
Lemma project_namespace_space cfg key userID inp u cl s w ns w' :
  cfg_ProjectsInUserNamespace cfg = true -> uniq space_owner (d_spaces (w_db w)) ->
  uuid_in userID = Some u -> uuid_in (in_ClusterID inp) = Some cl ->
  s ∈ d_spaces (w_db w) -> us_UserID (sr s) = u -> us_ClusterID (sr s) = cl ->
  project_namespace cfg key userID inp w = (Ok ns, w') -> ns = us_Namespace (sr s) /\ rows_kept w w'.
Proof.
  intros Hm Hk Hu Hc Hs Hsu Hsc H. unfold project_namespace in H. rewrite Hm in H.
  apply io_bind_ok in H as (g & w1 & (x & d & Hg & [= <-] & ->)%try_db_inv & H).
  pose proof (GetUserSpace_ro _ _ _ _ _ Hg) as ->.
  destruct (GetUserSpace_found _ _ _ _ _ _ _ _ Hu Hc Hs Hsu Hsc Hk Hg) as [[e ->]| ->]; [done|].
  by injection H as <- <-.
Qed.

(** With projects in user namespaces (the default), a user who has a live project on a cluster
    cannot get a second one there: the namespace is the same and the table allows one live
    project for it, so whatever the request says the creation fails. *)
Theorem shared_namespace_one_project cfg key actor inp w r w' u cl s p0 :
  cfg_ProjectsInUserNamespace cfg = true -> uniq space_owner (d_spaces (w_db w)) ->
  TrimSpace (in_UserID inp) <> "" -> uuid_in (in_UserID inp) = Some u -> uuid_in (in_ClusterID inp) = Some cl ->
  s ∈ d_spaces (w_db w) -> us_UserID (sr s) = u -> us_ClusterID (sr s) = cl ->
  p0 ∈ d_projects (w_db w) -> live_at cl (us_Namespace (sr s)) p0 = true ->
  CreateProject cfg key actor inp w = (r, w') -> is_ok r = false.
Proof.
  intros Hm Hk Hid Hu Hc Hs Hsu Hsc Hp Hl H. destruct r as [out|e]; [exfalso|done].
  apply CreateProject_ok in H as (w1 & userID & w2 & pid & w3 & ns & w4 & c & w5 & cs & w6 & access & w7 & qo & d &
    [H1 _] & H2 & H3%quiet_uuid%proj1 & H4 & H5%quiet_GetOrCreate%proj1 & H6%quiet_GetClientset%proj1 & H7 & H8 & _).
  unfold resolve_user in H2. rewrite (proj2 (str_eqb_neq _ _) Hid) in H2. injection H2 as <- <-.
  assert (Hr : same_rows (w_db w) (w_db w3)) by by etransitivity. pose proof Hr as (_ & _ & Hsp & _).
  rewrite <- Hsp in Hs, Hk. destruct (project_namespace_space _ _ _ _ _ _ _ _ _ _ Hm Hk Hu Hc Hs Hsu Hsc H4) as [-> Hr4].
  rewrite Hm in H7. apply rows_shared_setup in H7.
  assert (Hrows : d_projects (w_db w7) = d_projects (w_db w)).
  { unfold rows_kept, same_rows in *. destruct_and?. congruence. }
  rewrite <- Hrows in Hp. revert H8. by eapply CreateProject_taken.
Qed.

(** ** Tokens *)

(** Polling ends with a token and a certificate, or with an error. *)
Lemma poll_token_ok steps cs ns name (w : W) sec w' :
  poll_token (CS := CS) steps cs ns name w = (Ok sec, w') -> sec_Token sec <> [] /\ sec_CA sec <> [].
Proof.
  revert w. induction steps as [|steps IH]; intros w; cbn [poll_token]; [done|].
  intros (x & w1 & _ & H)%io_bind_ok. destruct x as [s|[t|t|t]]; [|by apply IH in H|done..].
  destruct (_ || _) eqn:E; [by apply IH in H|]. injection H as <- _.
  apply orb_false_iff in E as [E1%bool_decide_eq_false E2%bool_decide_eq_false]. done.
Qed.

Lemma mint_ok cs ns sa (w : W) sec w' :
  mintServiceAccountSecret (CS := CS) cs ns sa w = (Ok sec, w') -> sec_Token sec <> [] /\ sec_CA sec <> [].
Proof.
  unfold mintServiceAccountSecret. destruct (_ || _); [done|].
  intros (id & w1 & _ & H)%io_bind_ok. apply io_bind_ok in H as (x & w2 & _ & H).
  apply io_bind_ok in H as (created & w3 & _ & H). by eapply poll_token_ok.
Qed.

(** Only the kubeconfig records change. *)
Definition projects_kept (w w' : W) : Prop := d_projects (w_db w') = d_projects (w_db w).
#[local] Instance projects_kept_preorder : PreOrder projects_kept.
Proof. split; [by intros w|]. intros a b c H1 H2. unfold projects_kept in *. by rewrite H2. Qed.

Lemma rows_projects {A} (m : svc A) : keeps rows_kept m -> keeps projects_kept m.
Proof. apply keeps_weaken. intros w w' (_ & H & _). exact H. Qed.

Lemma quiet_projects {A} (m : svc A) : keeps quiet m -> keeps projects_kept m.
Proof. intros H. by apply rows_projects, quiet_rows. Qed.

Lemma projects_db {A} (m : io DB db_error A) :
  (forall d r d', m d = (r, d') -> d_projects d' = d_projects d) -> keeps projects_kept (db m).
Proof.
  intros Hm. apply keeps_or_fail; [apply _|]. intros w r w' (x & d & H & _ & ->)%try_db_inv. by apply Hm in H.
Qed.

Lemma projects_update_record id secret sa e : keeps projects_kept (db (UpdateKubeconfigRecord id secret sa e)).
Proof.
  apply projects_db. intros d r d' [(x & _ & ->)|(now & a & d0 & H & _ & ->)]%stmt_case; [done|].
  by apply bind_ok in H as (c & _ & [= _ <-]).
Qed.

Lemma projects_create_record rec e : keeps projects_kept (db (CreateKubeconfigRecord rec e)).
Proof.
  apply projects_db. intros d r d' [(x & _ & ->)|(now & a & d0 & H & _ & ->)]%stmt_case; [done|].
  repeat (let v := fresh in apply bind_ok in H as (v & _ & H)). cbv zeta in H. destruct (existsb _ _); [done|].
  by injection H as _ <-.
Qed.

#[local] Hint Resolve rows_projects quiet_projects projects_update_record projects_create_record : keeps.

Lemma projects_save_record found rec secret sa e : keeps projects_kept (save_record found rec secret sa e).
Proof. unfold save_record. keep. Qed.

Lemma quiet_poll steps cs ns name : keeps rows_kept (poll_token (CS := CS) steps cs ns name).
Proof. induction steps as [|steps IH]; cbn [poll_token]; keep. Qed.

Lemma rows_mint cs ns sa : keeps rows_kept (mintServiceAccountSecret (CS := CS) cs ns sa).
Proof. unfold mintServiceAccountSecret, or_fail. pose proof quiet_poll. keep. Qed.

(** What the tenant's kubeconfig is made of. *)
Definition tenant_kubeconfig (ns account kc : string) : Prop :=
  exists server ca token label, ca <> [] /\ token <> [] /\
    buildNamespaceScopedKubeconfig server (b64_encode ca) ns account label (bytes_string token) = Ok kc.

Lemma tenant_access_ok key c cs pid uid cl ns (w : W) kc e w' :
  tenant_access (Q := Q) key c cs pid uid cl ns w = (Ok (kc, e), w') ->
  tenant_kubeconfig ns "tenant-sa" kc /\ (exists n, EncryptAESGCM (rand_Reader n) (string_bytes kc) key = Ok e) /\
  projects_kept w w'.
Proof.
  intros H. assert (Hk : projects_kept w w').
  { revert H. apply (keeps_weaken projects_kept); [done|]. unfold tenant_access, kubeconfig_for.
    pose proof rows_mint. pose proof projects_save_record. keep. }
  split_and!; [| |done]; unfold tenant_access in H;
    apply io_bind_ok in H as ([] & w1 & _ & H); apply io_bind_ok in H as (secret & w2 & Hm%mint_ok & H);
    apply io_bind_ok in H as (kubeconfig & w3 & _ & H); apply io_bind_ok in H as (label & w4 & _ & H);
    apply io_bind_ok in H as (kc' & w5 & Hb & H); apply io_bind_ok in H as (e' & w6 & He & H);
    apply io_bind_ok in H as (found & w7 & _ & H); apply io_bind_ok in H as ([] & w8 & _ & [= -> -> _]).
  - apply pure_ok in Hb as [Hb _]. destruct Hm. by exists (extractServer (bytes_string kubeconfig)), (sec_CA secret), (sec_Token secret), label.
  - unfold EncryptSecret in He. exists (w_nonces w5). destruct (EncryptAESGCM _ _ _); by inversion He.
Qed.

(** The row that was inserted. *)
Lemma CreateProject_row p q e d p' d' : Store.CreateProject p q e d = (Ok p', d') ->
  exists r, project_row d' (p_ID p) r /\ p_kubeconfig r = e /\ p_Namespace (pr r) = p_Namespace p /\
    p_ID p' = p_ID p /\ p_Namespace p' = p_Namespace p.
Proof.
  intros (now & d0 & H & ->)%stmt_ok. apply bind_ok in H as (id & Hid%uuid_ok & H).
  apply bind_ok in H as (user & _ & H). apply bind_ok in H as (cl & _ & H). apply bind_ok in H as (q' & _ & H).
  destruct (existsb _ _); [done|]. injection H as <- <-.
  eexists. split; [split; [by left|]; by cbn|]. done.
Qed.

Lemma dedicated_setup_ok cfg key c cs pid uid ns inp (w : W) access w' :
  dedicated_setup cfg key c cs pid uid ns inp w = (Ok access, w') ->
  exists kc e n, access = Some (kc, e) /\ tenant_kubeconfig ns "tenant-sa" kc /\
    EncryptAESGCM (rand_Reader n) (string_bytes kc) key = Ok e.
Proof.
  unfold dedicated_setup. intros ([] & w1 & _ & H)%io_bind_ok. apply io_bind_ok in H as ([] & w2 & _ & H).
  apply io_bind_ok in H as ([] & w3 & _ & H).
  apply io_bind_ok in H as ([kc e] & w4 & (Hk & [n He] & _)%tenant_access_ok & [= <- <-]). eauto 10.
Qed.

(** C9: when a project is created its row is there, live, with the namespace that is returned. With
    PROJECTS_IN_USER_NAMESPACE off, the row holds an encrypted kubeconfig; the service's key
    opens it and gives exactly the bytes the caller got in base64; that kubeconfig is for the project's
    namespace and the tenant account and carries a token and a certificate that are not
    empty. With the setting on, which is the default, a project has no kubeconfig of its own: the
    row holds none and the caller gets the empty text. *)
Theorem created_project_access cfg setting actor inp w p b64 w' :
  CreateProject cfg (DeriveKey setting) actor inp w = (Ok (p, b64), w') ->
  exists r, project_row (w_db w') (p_ID p) r /\ p_Namespace (pr r) = p_Namespace p /\
  if cfg_ProjectsInUserNamespace cfg then p_kubeconfig r = None /\ b64 = ""
  else exists kc enc, p_kubeconfig r = Some enc /\ DecryptAESGCM enc (DeriveKey setting) = Ok (string_bytes kc) /\
    b64_decode b64 = Some (string_bytes kc) /\ tenant_kubeconfig (p_Namespace p) "tenant-sa" kc.
Proof.
  intros (w1 & userID & w2 & pid & w3 & ns & w4 & c & w5 & cs & w6 & access & w7 & qo & d &
    _ & _ & _ & _ & _ & _ & H7 & H8 & [H9 _] & Hb)%CreateProject_ok.
  destruct (CreateProject_row _ _ _ _ _ _ H8) as (r & Hr & Hrk & Hrn & Hid & Hns). cbn in H9, Hr, Hrk, Hrn, Hid, Hns, Hb.
  exists r. rewrite Hid, Hns. split; [by apply (project_row_rows _ _ _ _ H9)|]. split; [done|].
  destruct (cfg_ProjectsInUserNamespace cfg).
  - unfold shared_setup in H7. apply io_bind_ok in H7 as (u1 & w8 & _ & H7). apply io_bind_ok in H7 as (items & w9 & _ & H7).
    apply io_bind_ok in H7 as (u2 & w10 & _ & [= <- _]). by rewrite Hrk, Hb.
  - apply dedicated_setup_ok in H7 as (kc & e & n & -> & Hk & He). exists kc, e. split; [done|].
    split; [eapply decrypt_encrypt; [|done]; intros nonce; apply rand_length|].
    split; [|done]. rewrite Hb. apply b64_decode_encode, string_bytes_ok.
Qed.

(** ** Maintenance *)

(** In maintenance mode creating, suspending, changing the quota of and deleting a project all stop
    with the maintenance error before anything is read or written. *)
Theorem maintenance_freezes_projects cfg key actor inp id suspended ov (w : W) :
  maintenance_fault (d_stmts (w_db w)) = None -> m_Enabled (d_maintenance (w_db w)) = true ->
  let refused {A} := (Err (EOp (MaintenanceError (m_Message (d_maintenance (w_db w))))) : result svc_error A, w) in
  CreateProject (CS := CS) cfg key actor inp w = refused /\ SetProjectSuspended cfg key actor id suspended w = refused /\
  UpdateProjectQuota cfg key actor id ov w = refused /\ DeleteProject cfg key actor id w = refused.
Proof.
  intros Hf Hm. assert (Hg : maintenance_gate w =
    (Err (EOp (MaintenanceError (m_Message (d_maintenance (w_db w))))), w)).
  { unfold maintenance_gate, ensureMaintenanceAllows, ask, lift, wrap_err, mbind, io_bind.
    cbn [load_Maintenance db_maintenance]. rewrite Hf. cbv beta iota. rewrite Hm. by destruct w. }
  assert (Hs : forall A (m : unit -> svc A), (maintenance_gate ≫= m) w =
    (Err (EOp (MaintenanceError (m_Message (d_maintenance (w_db w))))), w)).
  { intros A m. unfold mbind, io_bind. by rewrite Hg. }
  cbv zeta. split_and!; apply Hs.
Qed.
End Projects.
