(* ===== verification/TenancyWitness.v ===== *)
(** A small installation on which the tenancy theorems are instantiated: one cluster, objects and
    Secrets in maps, quantities kept as texts. *)

From Stdlib Require Import Ascii ZArith Lia.
From stdpp Require Import base gmap strings list.
From S2P Require Import Prelude Utf8 GoStrings Hash Names Kube Aes Crypto Json Config Quota.
From S2P Require Import Kubeconfig Events Maintenance Store StoreProofs Tenancy TenancyProofs ProjectProofs.

Module Demo.
Record cluster := mkCluster { k_objects : gmap KKey (KObject string); k_secrets : gmap (string * string) Secret }.

#[export] Instance postgres : Postgres := {|
  db_fault _ := None; maintenance_fault _ := None; db_now n := Z.of_nat n; uuid_in := Some; jsonb := Some;
  scan_order _ _ rows := rows; scan_order_rows _ _ _ := reflexivity _
|}.

#[export] Instance postgres_laws : PostgresLaws.
Proof. split; [done|]. by intros s t [= ->]. Qed.

#[export] Instance platform : Platform string cluster unit unit unit := {|
  ParseQuantity := Some;
  Quantity_String q := q;
  uuid_New n := "id-" +:+ itoa n;
  rand_Reader _ := Ok (replicate 12 0%Z);
  RESTConfigFromKubeConfig _ := Ok tt;
  ctrlclient_New _ := Ok tt;
  NewForConfig _ := Ok tt;
  GVKForObject _ _ := Ok "v1";
  patch_object _ o k := (Ok tt, mkCluster (<[object_key o := o]> (k_objects k)) (k_secrets k));
  get_object _ key k := match k_objects k !! key with Some o => Found o | None => NotFound end;
  quota_status _ _ _ := (∅, ∅);
  delete_object _ key k := (Ok tt, mkCluster (delete key (k_objects k)) (k_secrets k));
  list_services _ _ _ := Ok [];
  list_namespaces _ _ := Ok tt;
  ServerVersion _ _ := Ok (Some "v1.30.0");
  time_Now _ := 0%Z;
  create_secret _ ns n sa k :=
    let s := mkSecret n [116; 111; 107]%Z [67; 65]%Z in (Ok s, mkCluster (k_objects k) (<[(ns, n) := s]> (k_secrets k)));
  get_secret _ ns n k :=
    (match k_secrets k !! (ns, n) with Some s => Ok s | None => Err (IsNotFound "no secret") end, k);
  delete_secret _ ns n k := (Ok tt, mkCluster (k_objects k) (delete (ns, n) (k_secrets k)));
  delete_account _ ns n k := (Ok tt, mkCluster (delete ("ServiceAccount", ns, n) (k_objects k)) (k_secrets k));
  EnsureProject _ := Ok tt
|}.

#[export] Instance platform_laws : PlatformLaws string cluster unit unit unit.
Proof.
  split.
  - intros c o k k' [= <-]. cbn. by rewrite lookup_insert_eq.
  - intros c o k r k' c' key [= _ <-] Hne. cbn. by rewrite lookup_insert_ne.
  - by intros cs ns n sa k r k' c key [= _ <-].
  - by intros cs ns n k r k' c key [= _ <-].
  - by intros n b [= <-].
  - done.
  - intros n m H. change ("id-" +:+ itoa n = "id-" +:+ itoa m) in H.
    assert (Hd : forall s, drop 3 (chars ("id-" +:+ s)) = chars s) by done.
    apply (f_equal (fun s => digits_val (drop 3 (chars s)))) in H. rewrite !Hd, !itoa_val in H. lia.
  - intros n. split; [|done]. apply trim_space_all_solid. apply (Forall_app_2 _ ["i"; "d"; "-"]%char); [by repeat constructor|].
    apply itoa_solid.
Qed.

Definition key_setting := "demo".

Definition kubeconfig_enc : bytes :=
  match EncryptAESGCM (Ok (replicate 12 0%Z)) (string_bytes "server: https://10.0.0.1:6443") (DeriveKey key_setting) with
  | Ok c => c
  | Err _ => []
  end.

(** Projects in their own namespaces, and in those of their users. *)
Definition cfg_own : Config := with_defaults true zero_config.
Definition cfg_shared : Config := with_defaults false zero_config.

Definition demo_db (projects : list ProjectRow) (spaces : list SpaceRow) (maintenance : bool) : DB :=
  mkDB [mkUserRow (mkUser "alice" "Alice" "alice@example.org" 0) false] projects spaces []
    [mkClusterRow "prod" "production" (cluster_meta "" "" "" "" "" "" []) kubeconfig_enc 0 None None] [] [] [] [] [] [] [] [] [] [] (mkMaintenance maintenance "upgrade" 0 "ops") 0.

Definition world (d : DB) : World cluster unit unit := mkWorld d (mkCluster ∅ ∅) ∅ ∅ 0 0.

Definition web : ProjectRow :=
  mkProjectRow (mkProject "p1" "alice" "prod" "web" "tenant-alice-web" true 0) None None false.

Lemma run_ok {S E A} (m : io S E A) s a : (m s).1 = Ok a -> m s = (Ok a, (m s).2).
Proof. destruct (m s) as [r s']. cbn. by intros ->. Qed.

Definition w_project : World cluster unit unit := world (demo_db [web] [] false).

Definition limits : list (string * string) := [("pods", "3"); ("limits.cpu", " 2 ")].

Lemma web_row : project_row (w_db w_project) "p1" web.
Proof. split; [by left|done]. Qed.

Lemma suspension_effect_witness :
  exists r hard, project_row (w_db w_project) "p1" r /\
    quota_on_cluster (SetProjectSuspended cfg_own (DeriveKey key_setting) "admin" "p1" true w_project).2 (pr r) hard.
Proof.
  destruct (suspension_effect cfg_own (DeriveKey key_setting) "admin" "p1" true w_project
    (SetProjectSuspended cfg_own (DeriveKey key_setting) "admin" "p1" true w_project).2) as (r & hard & Hr & _ & Hq & _).
  - apply run_ok. by vm_compute.
  - exists r, hard. split; [exact Hr|exact Hq].
Defined.

Lemma quota_update_lifts_suspension_witness :
  exists hard, defaultQuota Some cfg_own limits = Some hard /\
    quota_on_cluster (UpdateProjectQuota cfg_own (DeriveKey key_setting) "admin" "p1" limits w_project).2 (pr web) hard.
Proof.
  destruct (quota_update_lifts_suspension cfg_own (DeriveKey key_setting) "admin" "p1" limits w_project
    (UpdateProjectQuota cfg_own (DeriveKey key_setting) "admin" "p1" limits w_project).2 web) as [H _]; [..|exact H].
  - repeat constructor. by intros H%elem_of_nil.
  - exact web_row.
  - reflexivity.
  - apply run_ok. by vm_compute.
Defined.

Definition w1 : World cluster unit unit := (UpdateProjectQuota cfg_own (DeriveKey key_setting) "admin" "p1" limits w_project).2.
Definition w2 : World cluster unit unit := (SetProjectSuspended cfg_own (DeriveKey key_setting) "admin" "p1" true w1).2.
Definition w3 : World cluster unit unit := (SetProjectSuspended cfg_own (DeriveKey key_setting) "admin" "p1" false w2).2.

Lemma suspension_round_trip_witness :
  exists p hard zero, quota_on_cluster w1 p hard /\ quota_on_cluster w2 p {["pods" := zero]} /\ quota_on_cluster w3 p hard.
Proof.
  apply (suspension_round_trip cfg_own (DeriveKey key_setting) "admin" "p1" limits w_project w1 w2 w3).
  - repeat constructor. by intros H%elem_of_nil.
  - apply (bool_decide_unpack _). by vm_compute.
  - repeat constructor; by vm_compute.
  - apply map_Forall_to_list.
    replace (map_to_list (clean_overrides limits)) with [("limits.cpu", "2"); ("pods", "3")] by by vm_compute.
    repeat constructor; by vm_compute.
  - unfold w1. apply run_ok. by vm_compute.
  - unfold w2. apply run_ok. by vm_compute.
  - unfold w3. apply run_ok. by vm_compute.
Defined.

(** Alice has a space and one project in it. *)
Definition space : SpaceRow := mkSpaceRow (mkUserSpace "s1" "alice" "prod" "user-alice" 0) None.
Definition first : ProjectRow :=
  mkProjectRow (mkProject "p1" "alice" "prod" "web" "user-alice" false 0) None None false.
Definition w_shared : World cluster unit unit := world (demo_db [first] [space] false).
Definition second : ProjectCreateInput := mkCreateInput "alice" "" "" "prod" "api" [].

Lemma shared_namespace_one_project_witness :
  is_ok (CreateProject cfg_shared (DeriveKey key_setting) "admin" second w_shared).1 = false.
Proof.
  apply (shared_namespace_one_project cfg_shared (DeriveKey key_setting) "admin" second w_shared _
    (CreateProject cfg_shared (DeriveKey key_setting) "admin" second w_shared).2 "alice" "prod" space first).
  - reflexivity.
  - repeat constructor. by intros H%elem_of_nil.
  - by vm_compute.
  - reflexivity.
  - reflexivity.
  - left.
  - reflexivity.
  - reflexivity.
  - left.
  - reflexivity.
  - apply surjective_pairing.
Defined.

Definition w_empty : World cluster unit unit := world (demo_db [] [] false).

Lemma created_project_access_witness :
  match CreateProject cfg_own (DeriveKey key_setting) "admin" second w_empty with
  | (Ok (p, b64), w) => exists r kc enc, project_row (w_db w) (p_ID p) r /\ p_kubeconfig r = Some enc /\
      DecryptAESGCM enc (DeriveKey key_setting) = Ok (string_bytes kc) /\ b64_decode b64 = Some (string_bytes kc)
  | (Err _, _) => False
  end.
Proof.
  destruct (CreateProject cfg_own (DeriveKey key_setting) "admin" second w_empty) as [r w] eqn:E.
  assert (Ho : is_ok r = true) by (change r with (r, w).1; rewrite <- E; by vm_compute).
  destruct r as [[p b64]|e]; [|discriminate Ho].
  destruct (created_project_access cfg_own key_setting "admin" second w_empty p b64 w E)
    as (r & H1 & _ & kc & enc & H2 & H3 & H4 & _).
  exists r, kc, enc. exact (conj H1 (conj H2 (conj H3 H4))).
Defined.

Lemma maintenance_freezes_projects_witness :
  DeleteProject cfg_own (DeriveKey key_setting) "admin" "p1" (world (demo_db [web] [] true)) =
  (Err (EOp (MaintenanceError "upgrade")), world (demo_db [web] [] true)).
Proof.
  apply (maintenance_freezes_projects cfg_own (DeriveKey key_setting) "admin" second "p1" true limits
    (world (demo_db [web] [] true))); reflexivity.
Defined.
End Demo.
