(* ===== verification/Clusters.v ===== *)
(** Clusters and their health: registration with rollback, metadata, health checks and the log
    directories of [internal/service/service.go], and the scheduler of
    [internal/service/healthscheduler.go].

    Installing the operator is a function value of the service ([ensureOperatorFn]), a parameter
    here that [Operator] provides; so is the file manager of the logs. *)

From Stdlib Require Import Ascii ZArith Lia.
From stdpp Require Import base gmap strings list sorting.
From S2P Require Import Prelude Utf8 GoStrings Hash Kube Crypto Json Config Events Maintenance Store Tenancy.

(** ** Metadata *)

Record ClusterMetadataInput := mkMetadataInput {
  mi_Owner : string; mi_Contact : string; mi_Environment : string; mi_Region : string; mi_APIServer : string;
  mi_Description : string; mi_Tags : list string
}.

Record ClusterRegisterInput := mkRegisterInput {
  ri_Name : string; ri_Kubeconfig : string; ri_Metadata : ClusterMetadataInput
}.

(** [n] more tags fit. *)
Fixpoint clamp_loop (n : nat) (seen tags : list string) : list string :=
  match n, tags with
  | O, _ => []
  | _, [] => []
  | S n', tag :: tags =>
      let cleaned := TrimSpace (ToLower tag) in
      if str_eqb cleaned "" then clamp_loop n seen tags
      else
        let cleaned := if (32 <? len cleaned)%nat then str_take 32 cleaned else cleaned in
        if existsb (str_eqb cleaned) seen then clamp_loop n seen tags
        else cleaned :: clamp_loop n' (cleaned :: seen) tags
  end.

Definition clampClusterTags (tags : list string) : list string := sort_Strings (clamp_loop 16 [] tags).

Definition applyClusterDefaults (cfg : Config) (meta : ClusterMetadataInput) : ClusterMetadataInput :=
  mkMetadataInput (TrimSpace (mi_Owner meta)) (TrimSpace (mi_Contact meta))
    (orElse (TrimSpace (mi_Environment meta)) (TrimSpace (cfg_ClusterDefaultEnvironment cfg)))
    (orElse (TrimSpace (mi_Region meta)) (TrimSpace (cfg_ClusterDefaultRegion cfg)))
    (TrimSpace (mi_APIServer meta)) (TrimSpace (mi_Description meta)) (clampClusterTags (mi_Tags meta)).

Definition stored_meta (m : ClusterMetadataInput) : ClusterMeta :=
  cluster_meta (mi_Owner m) (mi_Contact m) (mi_Environment m) (mi_Region m) (mi_APIServer m) (mi_Description m) (mi_Tags m).

Record ClusterHealth := mkHealth {
  h_ID : string; h_Name : string; h_Healthy : bool; h_Error : string; h_Checked : Z; h_StatusID : string;
  h_Message : string; h_APIServerVersion : string; h_NodeCount : option Z; h_Details : Meta
}.

(** ** The scheduler *)

Record ClusterHealthFailure := mkFailure { f_ClusterID : string; f_ClusterName : string; f_Error : string }.

(** [ClusterHealthSummary] without its times. *)
Record ClusterHealthSummary := mkHealthSummary {
  hs_Clusters : nat; hs_Healthy : nat; hs_Unhealthy : nat; hs_Failures : list ClusterHealthFailure
}.

(** What the scheduler needs of the service: [clusterLister] and [clusterChecker]. *)
Class ClusterChecker (S : Type) := {
  lister_ListClusters : io S string (list (string * string));
  checker_CheckCluster : string -> io S string ClusterHealth;
}.

Section Scheduler.
Context {S : Type} `{checker : ClusterChecker S}.

Fixpoint tick_loop (clusters : list (string * string)) (sm : ClusterHealthSummary) (s : S) : ClusterHealthSummary * S :=
  match clusters with
  | [] => (sm, s)
  | (id, name) :: clusters =>
      match checker_CheckCluster id s with
      | (Err err, s) =>
          tick_loop clusters (mkHealthSummary (hs_Clusters sm) (hs_Healthy sm) (hs_Unhealthy sm + 1)
            (hs_Failures sm ++ [mkFailure id name err])) s
      | (Ok health, s) =>
          tick_loop clusters
            (if h_Healthy health
             then mkHealthSummary (hs_Clusters sm) (hs_Healthy sm + 1) (hs_Unhealthy sm) (hs_Failures sm)
             else mkHealthSummary (hs_Clusters sm) (hs_Healthy sm) (hs_Unhealthy sm + 1) (hs_Failures sm)) s
      end
  end.

(** A tick of a scheduler that has both of its dependencies. *)
Definition TickWithSummary : io S string ClusterHealthSummary := fun s =>
  match lister_ListClusters s with
  | (Err err, s) => (Err err, s)
  | (Ok clusters, s) =>
      let '(sm, s) := tick_loop clusters (mkHealthSummary (length clusters) 0 0 []) s in (Ok sm, s)
  end.

(** [Run]: as many ticks as the ticker gave before the context was cancelled; a tick that fails is logged. *)
Fixpoint Run (ticks : nat) (s : S) : S :=
  match ticks with
  | O => s
  | Datatypes.S ticks => Run ticks (TickWithSummary s).2
  end.
End Scheduler.

(** ** Registration and health *)

Section Clusters.
Context {Q K C R CS : Type} `{plat : Platform Q K C R CS} `{pg : Postgres}.
Context (cfg : Config) (encKey : bytes).
Local Abbreviation W := (World K C R).
Local Abbreviation svc := (io W svc_error).
Context (ensureOperatorFn : option (string -> string -> svc unit)).

(** A call whose error the code looks at. *)
Definition attempt {A} (m : svc A) : svc (result svc_error A) := fun w => let '(r, w) := m w in (Ok r, w).

Definition RegisterCluster (inp : ClusterRegisterInput) : svc ClusterRow :=
  _ ← maintenance_gate;
  let name := TrimSpace (ri_Name inp) in
  let kubeconfig := TrimSpace (ri_Kubeconfig inp) in
  if str_eqb name "" || str_eqb kubeconfig "" then fail (EText "name and kubeconfig required")
  else
    let meta := applyClusterDefaults cfg (ri_Metadata inp) in
    enc ← EncryptSecret encKey (string_bytes kubeconfig);
    id ← uuid_fresh;
    created ← db (CreateCluster id name (stored_meta meta) enc);
    match ensureOperatorFn with
    | None => mret created
    | Some ensure =>
        r ← attempt (ensure (cl_ID created) kubeconfig);
        match r with
        | Ok _ => mret created
        | Err err =>
            _ ← try_db (DeleteCluster (cl_ID created));
            fail (EWrap "install kubeop-operator: " err)
        end
    end.

Definition UpdateClusterMetadata (id : string) (meta : ClusterMetadataInput) : svc (ClusterRow * option ClusterStatus) :=
  _ ← maintenance_gate;
  let id := TrimSpace id in
  if str_eqb id "" then fail (EText "cluster id required")
  else db (Store.UpdateClusterMetadata id (stored_meta (applyClusterDefaults cfg meta))).

(** [err.Error()] of what the manager returns. *)
Definition manager_error (e : svc_error) : string :=
  match e with EText t => t | ENoRows => "sql: no rows in result set" | _ => "" end.

Definition persistClusterStatus (st : ClusterStatus) : svc ClusterStatus :=
  r ← try_db (InsertClusterStatus st);
  mret (match r with Ok saved => saved | Err _ => st end).

(** The answer to a check, with what was saved of it. *)
Definition report (id name : string) (healthy : bool) (err : string) (saved : ClusterStatus) : ClusterHealth :=
  mkHealth id name healthy err (cs_CheckedAt saved) (cs_ID saved) (cs_Message saved)
    (if healthy then cs_APIServerVersion saved else "") (if healthy then cs_NodeCount saved else None) (cs_Details saved).

Definition stage (s : string) : Meta := [("stage", AString s)].

Definition CheckCluster (id : string) : svc ClusterHealth :=
  rows ← try_db ListClusters;
  let name := match rows with
              | Ok rows => match List.find (fun c => str_eqb (cl_ID c) id) (fst <$> rows) with
                           | Some c => cl_Name c | None => "" end
              | Err _ => ""
              end in
  statusID ← uuid_fresh;
  now ← reads time_Now;
  let status healthy message stg version := mkStatus statusID id healthy message version None now (stage stg) in
  client ← attempt (GetOrCreate encKey id);
  match client with
  | Err err =>
      saved ← persistClusterStatus (status false (manager_error err) "client" "");
      mret (report id name false (manager_error err) saved)
  | Ok c =>
      listed ← reads (list_namespaces c);
      match listed with
      | Err err =>
          saved ← persistClusterStatus (status false err "listNamespaces" "");
          mret (report id name false err saved)
      | Ok _ =>
          clientset ← attempt (GetClientset (CS := CS) encKey id);
          version ← (match clientset with
                     | Ok cs => reads (fun k => match ServerVersion cs k with Ok (Some v) => v | _ => "" end)
                     | Err _ => mret ""
                     end);
          saved ← persistClusterStatus (status true "connected" "listNamespaces" version);
          mret (report id name true "" saved)
      end
  end.

Definition set_Name (h : ClusterHealth) (name : string) : ClusterHealth :=
  mkHealth (h_ID h) name (h_Healthy h) (h_Error h) (h_Checked h) (h_StatusID h) (h_Message h) (h_APIServerVersion h)
    (h_NodeCount h) (h_Details h).

Fixpoint check_all (clusters : list ClusterRow) : svc (list ClusterHealth) :=
  match clusters with
  | [] => mret []
  | c :: clusters =>
      h ← CheckCluster (cl_ID c);
      let h := if str_eqb (h_Name h) "" then set_Name h (cl_Name c) else h in
      rest ← check_all clusters;
      mret (h :: rest)
  end.

Definition CheckAllClusters : svc (list ClusterHealth) :=
  rows ← db ListClusters;
  check_all (fst <$> rows).

(** The service behind the scheduler. *)
#[export] Instance service_checker : ClusterChecker W := {|
  lister_ListClusters w :=
    match ListClusters (w_db w) with
    | (Ok rows, d) => (Ok ((fun r => (cl_ID r.1, cl_Name r.1)) <$> rows), set_db w d)
    | (Err e, d) => (Err (manager_error (db_svc e)), set_db w d)
    end;
  checker_CheckCluster id w :=
    match CheckCluster id w with
    | (Ok h, w) => (Ok h, w)
    | (Err e, w) => (Err (manager_error e), w)
    end
|}.

(** ** Log directories *)

Context (EnsureBase : result string unit) (EnsureProjectDirs : string -> list string -> result string unit).

(** Directories are prepared for a page of projects; the list is the record of the calls. *)
Fixpoint ensure_page (projects : list Project) (dn : list (string * list string)) : io DB svc_error (list (string * list string)) :=
  match projects with
  | [] => mret dn
  | p :: projects =>
      apps ← wrap_err (fun e => EWrap ("list apps for project " +:+ p_ID p +:+ ": ") (db_svc e)) (ListAppsByProject (p_ID p));
      let appIDs := a_ID <$> apps in
      match EnsureProjectDirs (p_ID p) appIDs with
      | Err e => fail (EWrap ("ensure project logs for " +:+ p_ID p +:+ ": ") (EText e))
      | Ok _ => ensure_page projects (dn ++ [(p_ID p, appIDs)])
      end
  end.

(** [None] when the loop has not ended after [fuel] pages. *)
Fixpoint ensure_pages (fuel : nat) (offset : Z) (dn : list (string * list string))
    : io DB svc_error (option (list (string * list string))) :=
  match fuel with
  | O => mret None
  | S fuel =>
      projects ← wrap_err db_svc (ListProjects 100 offset);
      if (length projects =? 0)%nat then mret (Some dn)
      else
        dn ← ensure_page projects dn;
        if (length projects <? 100)%nat then mret (Some dn)
        else ensure_pages fuel (offset + Z.of_nat (length projects)) dn
  end.

Definition EnsureProjectLogs (fuel : nat) : io DB svc_error (option (list (string * list string))) :=
  match EnsureBase with
  | Err e => fail (EText e)
  | Ok _ => ensure_pages fuel 0 []
  end.
End Clusters.
