(* ===== verification/ClusterProofs.v ===== *)
(** What cluster registration, the health scheduler and the start-up loop over the projects
    guarantee. *)

From Stdlib Require Import Ascii ZArith Lia.
From stdpp Require Import base gmap strings list sorting.
From S2P Require Import Prelude Utf8 GoStrings Hash Kube Aes Crypto Json Config Events.
From S2P Require Import Maintenance CursorOrder Store StoreProofs Tenancy TenancyProofs TenancyWitness Clusters.

(** ** Tags *)

Lemma clamp_loop_spec tags : forall n seen,
  (length (clamp_loop n seen tags) <= n)%nat /\ NoDup (clamp_loop n seen tags) /\
  Forall (fun t => t <> "" /\ (len t <= 32)%nat /\ t ∉ seen) (clamp_loop n seen tags).
Proof.
  induction tags as [|tag tags IH]; intros [|n] seen; cbn [clamp_loop];
    try (split_and!; [cbn; lia|constructor|constructor]).
  set (c := TrimSpace (ToLower tag)). destruct (str_eqb c "") eqn:Ec; [apply IH|]. apply str_eqb_neq in Ec.
  set (t := if (32 <? len c)%nat then str_take 32 c else c).
  assert (Ht : t <> "" /\ (len t <= 32)%nat).
  { subst t. destruct (32 <? len c)%nat eqn:El.
    - apply Nat.ltb_lt in El. split; [|rewrite len_str_take; lia]. intros Ht. apply (f_equal len) in Ht.
      rewrite len_str_take in Ht. change (len "") with 0%nat in Ht. lia.
    - apply Nat.ltb_ge in El. done. }
  destruct (existsb (str_eqb t) seen) eqn:Es; [apply IH|].
  destruct (IH n (t :: seen)) as (Hl & Hd & Hf). split_and!.
  - cbn. lia.
  - apply NoDup_cons. split; [|done]. intros Hin. apply (proj1 (Forall_forall _ _) Hf) in Hin. set_solver.
  - apply Forall_cons. split.
    + split_and!; [apply Ht..|]. intros Hin. apply not_true_iff_false in Es. apply Es, existsb_exists.
      exists t. split; [by apply list_elem_of_In|apply str_eqb_refl].
    + eapply Forall_impl; [exact Hf|]. set_solver.
Qed.

(** The tags of a cluster are at most sixteen, each of one to thirty-two bytes, sorted and all
    different, whatever the request holds. *)
Theorem cluster_tags_bounds (tags : list string) :
  let out := clampClusterTags tags in
  (length out <= 16)%nat /\ NoDup out /\ Sorted str_le out /\ Forall (fun t => t <> "" /\ (len t <= 32)%nat) out.
Proof.
  cbv zeta. unfold clampClusterTags. destruct (clamp_loop_spec tags 16 []) as (Hl & Hd & Hf).
  split_and!.
  - by rewrite sort_Strings_perm.
  - by rewrite sort_Strings_perm.
  - apply sort_Strings_sorted.
  - rewrite sort_Strings_perm. eapply Forall_impl; [exact Hf|]. naive_solver.
Qed.

(** ** The scheduler *)

Section Tick.
Context {S : Type} `{checker : ClusterChecker S}.

Lemma tick_loop_counts clusters : forall sm s sm' s',
  tick_loop clusters sm s = (sm', s') ->
  hs_Clusters sm' = hs_Clusters sm /\
  (hs_Healthy sm' + hs_Unhealthy sm' = hs_Healthy sm + hs_Unhealthy sm + length clusters)%nat /\
  (length (hs_Failures sm') + hs_Unhealthy sm <= length (hs_Failures sm) + hs_Unhealthy sm')%nat.
Proof.
  induction clusters as [|[id name] clusters IH]; intros sm s sm' s'; cbn [tick_loop].
  - intros [= <- <-]. cbn. lia.
  - destruct (checker_CheckCluster id s) as [[h|e] s1]; intros H; apply IH in H.
    + destruct (h_Healthy h); cbn in *; lia.
    + cbn in *. rewrite length_app in H. cbn in H. lia.
Qed.

(** A tick of the health scheduler counts every listed cluster once, as healthy or unhealthy, and
    reports no more failures than it counts unhealthy clusters. *)
Theorem tick_accounts (s : S) sm s' :
  TickWithSummary s = (Ok sm, s') ->
  exists clusters, (lister_ListClusters s).1 = Ok clusters /\ hs_Clusters sm = length clusters /\
    (hs_Healthy sm + hs_Unhealthy sm = hs_Clusters sm)%nat /\ (length (hs_Failures sm) <= hs_Unhealthy sm)%nat.
Proof.
  unfold TickWithSummary. destruct (lister_ListClusters s) as [[clusters|e] s1]; [|done].
  destruct (tick_loop _ _ _) as [sm' s2] eqn:E. intros [= <- <-]. apply tick_loop_counts in E. cbn in E.
  exists clusters. split; [done|]. lia.
Qed.
End Tick.

(** ** Checks *)

Section Service.
Context {Q K C R CS : Type} `{laws : PlatformLaws Q K C R CS}.
Context (cfg : Config) (encKey : bytes).
Local Abbreviation W := (World K C R).
Local Abbreviation svc := (io W svc_error).

(** A program that always returns a value. *)
Definition total {A} (m : svc A) : Prop := forall w, is_ok (m w).1 = true.

Lemma total_ret {A} (a : A) : total (mret a).
Proof. done. Qed.

Lemma total_bind {A B} (m : svc A) (f : A -> svc B) : total m -> (forall a, total (f a)) -> total (m ≫= f).
Proof.
  intros Hm Hf w. specialize (Hm w). unfold mbind, io_bind. destruct (m w) as [[a|e] w1]; [apply Hf|done].
Qed.

Lemma total_try_db {A} (m : io DB db_error A) : total (try_db m).
Proof. intros w. unfold try_db. by destruct (m (w_db w)). Qed.

Lemma total_attempt {A} (m : svc A) : total (attempt m).
Proof. intros w. unfold attempt. by destruct (m w). Qed.

Lemma total_reads {A} (f : K -> A) : total (reads f).
Proof. done. Qed.

Lemma total_uuid : total uuid_fresh.
Proof. done. Qed.

Ltac total := repeat first [apply total_ret | apply total_try_db | apply total_attempt | apply total_reads | apply total_uuid
  | apply total_bind; [|intros ?] | progress case_match ].

Lemma CheckCluster_total id : total (CheckCluster (CS := CS) encKey id).
Proof. unfold CheckCluster, persistClusterStatus. total. Qed.

Local Abbreviation sched := (service_checker (CS := CS) encKey).

Lemma tick_loop_no_failures clusters : forall sm (w : W),
  hs_Failures (tick_loop (checker := sched) clusters sm w).1 = hs_Failures sm.
Proof.
  induction clusters as [|[id name] clusters IH]; intros sm w; [done|]. cbn [tick_loop checker_CheckCluster service_checker].
  pose proof (CheckCluster_total id w) as Ht. destruct (CheckCluster _ id w) as [[h|e] w1]; [|done].
  rewrite IH. by destruct (h_Healthy h).
Qed.

(** Run by the service, the scheduler never reports a failure: a check that finds a cluster
    unreachable answers with an unhealthy status and no error, so the list of failures is
    empty whatever the state of the clusters. *)
Theorem service_reports_no_failures (w : W) sm w' :
  TickWithSummary (checker := sched) w = (Ok sm, w') -> hs_Failures sm = [].
Proof.
  unfold TickWithSummary. destruct (lister_ListClusters w) as [[clusters|e] w1]; [|done].
  pose proof (tick_loop_no_failures clusters (mkHealthSummary (length clusters) 0 0 []) w1) as Hf.
  destruct (tick_loop _ _ _) as [sm' w2]. by intros [= <- <-].
Qed.

(** ** Registration *)

Lemma EncryptSecret_opens setting plaintext (w : W) enc w' :
  EncryptSecret (DeriveKey setting) plaintext w = (Ok enc, w') -> DecryptAESGCM enc (DeriveKey setting) = Ok plaintext.
Proof.
  unfold EncryptSecret. destruct (EncryptAESGCM _ _ _) eqn:E; [|done]. intros [= <- _].
  eapply decrypt_encrypt; [|exact E]. intros nonce. apply rand_length.
Qed.

(** The row of a registered cluster. *)
Definition registered (setting : string) (inp : ClusterRegisterInput) (row : ClusterRow) (rows rows' : list ClusterRow) : Prop :=
  exists row', rows' = row' :: rows /\ uuid_in (cl_ID row) = Some (cl_ID row') /\ cl_Name row' = TrimSpace (ri_Name inp) /\
    cl_meta row' = stored_meta (applyClusterDefaults cfg (ri_Metadata inp)) /\
    DecryptAESGCM (cl_kubeconfig row') (DeriveKey setting) = Ok (string_bytes (TrimSpace (ri_Kubeconfig inp))).

Definition clusters_kept (w w' : W) : Prop := d_clusters (w_db w') = d_clusters (w_db w).

Lemma db_stmt_err {A} (f : Z -> DB -> result db_error (A * DB)) (w : W) e w' :
  db (stmt f) w = (Err e, w') -> w' = set_db w (bump (w_db w)).
Proof.
  intros [(e' & H & _)|(x & w1 & (y & d & Hc & [= <-] & ->)%try_db_inv & H)]%io_bind_case.
  - by apply try_db_inv in H as (? & ? & _ & ? & _).
  - destruct x as [a|e']; [done|]. injection H as _ <-.
    by apply stmt_case in Hc as [(? & _ & ->)|(? & ? & ? & _ & ? & _)].
Qed.

Lemma CreateCluster_ok id name meta enc d row d' :
  CreateCluster id name meta enc d = (Ok row, d') ->
  exists row', cl_ID row = id /\ uuid_in id = Some (cl_ID row') /\ cl_Name row' = name /\ cl_meta row' = meta /\
    cl_kubeconfig row' = enc /\ d_clusters d' = row' :: d_clusters d /\ Forall (fun r => cl_ID r <> cl_ID row') (d_clusters d).
Proof.
  intros (now & d0 & H & ->)%stmt_ok. apply bind_ok in H as (c & Hc%uuid_ok & H).
  destruct (existsb _ _) eqn:E; [done|]. injection H as <- <-.
  exists (mkClusterRow c name meta enc now None None). split_and!; try done.
  apply Forall_forall. intros r Hr%list_elem_of_In Heq. apply not_true_iff_false in E. apply E, existsb_exists.
  exists r. split; [done|]. cbn in Heq. by rewrite Heq, str_eqb_refl.
Qed.

(** The row that was added last is the one a deletion takes. *)
Lemma DeleteCluster_undo id row' rows d r d' :
  DeleteCluster id d = (r, d') -> uuid_in id = Some (cl_ID row') -> d_clusters d = row' :: rows ->
  Forall (fun x => cl_ID x <> cl_ID row') rows ->
  d_clusters d' = rows \/ exists n e, d_stmts d' = S n /\ db_fault n = Some e.
Proof.
  intros H Hid Hd Hf. unfold DeleteCluster, stmt in H.
  destruct (db_fault (d_stmts d)) as [e|] eqn:E; [injection H as _ <-; right; by exists (d_stmts d), e|].
  left. unfold uuid in H. rewrite Hid in H. injection H as _ <-. cbn. rewrite Hd. cbn. rewrite str_eqb_refl. cbn.
  clear -Hf. induction Hf as [|x l Hx Hl IH]; [done|]. cbn. apply str_eqb_neq in Hx. rewrite Hx. cbn. by rewrite IH.
Qed.

(** A cluster that is registered is in the table, and its hook has succeeded last; a registration
    that fails, at the hook too, leaves the table as it was, unless the deletion that takes the
    row back fails itself. *)
Lemma register_cluster_effect setting (hook : option (string -> string -> svc unit)) inp (w : W) r w' :
  (forall ensure id kubeconfig, hook = Some ensure -> keeps clusters_kept (ensure id kubeconfig)) ->
  RegisterCluster cfg (DeriveKey setting) hook inp w = (r, w') ->
  match r with
  | Ok row => registered setting inp row (d_clusters (w_db w)) (d_clusters (w_db w')) /\
      forall ensure, hook = Some ensure -> exists w1, w_k8s w1 = w_k8s w /\ ensure (cl_ID row) (TrimSpace (ri_Kubeconfig inp)) w1 = (Ok tt, w')
  | Err _ => d_clusters (w_db w') = d_clusters (w_db w) \/ exists n e, d_stmts (w_db w') = S n /\ db_fault n = Some e
  end.
Proof.
  intros Hhook H. unfold RegisterCluster in H.
  apply io_bind_case in H as [(e & H%quiet_gate & ->)|([] & w1 & H1%quiet_gate & H)]; [left; apply H|].
  destruct H1 as [(_ & _ & _ & _ & <- & _) <-].
  destruct (_ || _); [injection H as <- <-; by left|]. cbv zeta in H.
  apply io_bind_case in H as [(e & H & ->)|(enc & w2 & H2 & H)]; [apply quiet_encrypt in H; left; apply H|].
  pose proof (quiet_encrypt _ _ _ _ _ H2) as [(_ & _ & _ & _ & <- & _) <-].
  apply EncryptSecret_opens in H2. apply io_bind_case in H as [(e & H & ->)|(id & w3 & H3%quiet_uuid & H)]; [done|].
  destruct H3 as [(_ & _ & _ & _ & <- & _) <-].
  apply io_bind_case in H as [(e & H & ->)|(row & w4 & (d & Hc & ->)%db_ok & H)].
  { left. by apply db_stmt_err in H as ->. }
  apply CreateCluster_ok in Hc as (row' & Hid & Hu & Hn & Hm & Hk & Hd & Hf).
  assert (Hrow : registered setting inp row (d_clusters (w_db w3)) (d_clusters d)).
  { exists row'. by rewrite Hk, Hid. }
  destruct hook as [ensure|]; [|injection H as <- <-; split; [done|by intros ?]].
  apply io_bind_case in H as [(e & H & ->)|(x & w5 & H5 & H)].
  { unfold attempt in H. by destruct (ensure _ _ _). }
  unfold attempt in H5. destruct (ensure _ _ _) as [y w6] eqn:E. injection H5 as <- <-.
  pose proof E as Hens. apply (Hhook _ _ _ eq_refl) in E. unfold clusters_kept in E. cbn in E.
  destruct y as [[]|e]; [injection H as <- <-; split; [by rewrite E|intros ? [= <-]; eexists; by split; [|exact Hens]]|].
  apply io_bind_case in H as [(e' & H & ->)|(x & w7 & (y & d' & Hdel & _ & ->)%try_db_inv & H)].
  { by apply try_db_inv in H as (? & ? & _ & ? & _). }
  injection H as <- <-. cbn. eapply DeleteCluster_undo; [exact Hdel| |by rewrite E|done]. by rewrite Hid.
Qed.
End Service.

(** ** The loop over the projects *)

Section Logs.
Context `{pg : Postgres} (EnsureBase : result string unit) (EnsureProjectDirs : string -> list string -> result string unit).

Definition live_projects (d : DB) : list Project := pr <$> List.filter (fun r => negb (p_deleted r)) (d_projects d).

(** The live projects, newest first. *)
Definition newest_projects (d : DB) : list Project := merge_sort (by_key (fun p => - p_CreatedAt p)%Z) (live_projects d).

(** The order in which a statement lists them. *)
Definition listed_projects (d : DB) : list Project := ordered (fun p => - p_CreatedAt p)%Z d (live_projects d).

Lemma listed_live d : listed_projects d ≡ₚ live_projects d.
Proof. unfold listed_projects, ordered. rewrite merge_sort_Permutation. apply scan_order_rows. Qed.

Lemma by_key_sorted {R} (key : R -> Z) l : StronglySorted (by_key key) (merge_sort (by_key key) l).
Proof.
  assert (Transitive (by_key key)) by (intros a b c; unfold by_key; lia).
  apply Sorted_StronglySorted; [done|]. apply Sorted_merge_sort. intros a b. unfold by_key. lia.
Qed.

(** Without two projects of the same time there is but one order. *)
Lemma listed_newest d : NoDup (p_CreatedAt <$> live_projects d) -> listed_projects d = newest_projects d.
Proof.
  intros Hn. apply (StronglySorted_unique_strong (by_key (fun p => - p_CreatedAt p)%Z)).
  - intros x y Hx Hy H1 H2. rewrite listed_live in Hx. unfold newest_projects in Hy. rewrite merge_sort_Permutation in Hy.
    eapply (same_value p_CreatedAt); [exact Hn|done..|]. unfold by_key in *. lia.
  - apply by_key_sorted.
  - apply by_key_sorted.
  - rewrite listed_live. symmetry. apply merge_sort_Permutation.
Qed.

Lemma ListProjects_case (off : nat) d r d' : ListProjects 100 (Z.of_nat off) d = (r, d') ->
  d' = bump d /\ ((exists n e, db_fault n = Some e /\ r = Err (DbError e)) \/ r = Ok (take 100 (drop off (listed_projects d)))).
Proof.
  unfold ListProjects, stmt. destruct (db_fault _) as [e|] eqn:E; intros [= <- <-]; split; try done; [eauto|].
  right. unfold page. destruct (Z.ltb_spec (Z.of_nat off) 0); [lia|]. by rewrite Nat2Z.id.
Qed.

(** No call of the loop fails. *)
Definition calls_succeed (d : DB) : Prop :=
  (forall n, db_fault n = None) /\ (forall p, p ∈ live_projects d -> is_Some (uuid_in (p_ID p))) /\
  EnsureBase = Ok tt /\ forall p apps, EnsureProjectDirs p apps = Ok tt.

Lemma ensure_page_spec projects : forall dn d r d',
  ensure_page EnsureProjectDirs projects dn d = (r, d') ->
  d_projects d' = d_projects d /\
  match r with
  | Ok dn' => fst <$> dn' = (fst <$> dn) ++ (p_ID <$> projects)
  | Err _ => projects ⊆ live_projects d -> ~ calls_succeed d
  end.
Proof.
  induction projects as [|p projects IH]; intros dn d r d'; cbn [ensure_page].
  - intros [= <- <-]. by rewrite app_nil_r.
  - intros [(e & H & ->)|(apps & d1 & H1%wrap_err_ok & H)]%io_bind_case.
    + unfold wrap_err in H. destruct (ListAppsByProject (p_ID p) d) as [[a|e'] d1] eqn:E; [done|]. injection H as _ <-.
      unfold ListAppsByProject, stmt in E. intros.
      destruct (db_fault (d_stmts d)) eqn:Ef; [injection E as _ <-; split; [done|intros ? (Hn & _); by rewrite Hn in Ef]|].
      unfold uuid in E. destruct (uuid_in (p_ID p)) eqn:Eu; [done|]. injection E as _ <-. split; [done|].
      intros Hsub (_ & Hu & _). destruct (Hu p) as [x Hx]; [apply Hsub; by left|congruence].
    + assert (Hd : d_projects d1 = d_projects d).
      { apply stmt_ok in H1 as (now & d0 & H1 & ->). by apply bind_ok in H1 as (c & _ & [= _ <-]). }
      cbv zeta in H. destruct (EnsureProjectDirs (p_ID p) _) as [[]|e] eqn:E.
      * apply IH in H as [Hp Hr]. split; [congruence|]. destruct r as [dn'|e].
        { rewrite Hr, fmap_app. cbn. by rewrite <- app_assoc. }
        assert (Hl : live_projects d1 = live_projects d) by (unfold live_projects; by rewrite Hd).
        unfold calls_succeed in *. rewrite Hl in Hr. intros Hsub. apply Hr. set_solver.
      * injection H as <- <-. split; [done|]. intros _ (_ & _ & _ & Hdirs). by rewrite Hdirs in E.
Qed.

(** What the rest of the loop adds from an offset on. *)
Definition covers (off : nat) (d : DB) (ps : list Project) : Prop :=
  ps ⊆ live_projects d /\ length ps = (length (live_projects d) - off)%nat /\
  (NoDup (p_CreatedAt <$> live_projects d) -> ps = drop off (newest_projects d)) /\
  (off = 0%nat -> (length (live_projects d) <= 100)%nat -> ps ≡ₚ live_projects d).

Lemma covers_rows off d d' ps : d_projects d' = d_projects d -> covers off d' ps -> covers off d ps.
Proof. intros E. unfold covers, newest_projects, live_projects. by rewrite E. Qed.

Lemma page_rows off d : take 100 (drop off (listed_projects d)) ⊆ live_projects d.
Proof.
  intros p Hp. rewrite <- listed_live. by eapply subseteq_drop, subseteq_take.
Qed.

(** A page that is not full, or empty, is the last. *)
Lemma covers_last off d : (length (take 100 (drop off (listed_projects d))) < 100)%nat ->
  covers off d (take 100 (drop off (listed_projects d))).
Proof.
  pose proof (Permutation_length (listed_live d)) as Hl. intros Hs. split; [apply page_rows|].
  rewrite length_take, length_drop in *. split; [lia|]. rewrite take_ge by (rewrite length_drop; lia).
  split; [by intros ->%listed_newest|]. intros -> _. apply listed_live.
Qed.

(** A full page, and what covers the rest. *)
Lemma covers_page off d ps : (100 <= length (take 100 (drop off (listed_projects d))))%nat ->
  covers (off + 100) d ps -> covers off d (take 100 (drop off (listed_projects d)) ++ ps).
Proof.
  pose proof (Permutation_length (listed_live d)) as Hl. intros Hs (H1 & H2 & H3 & _).
  split; [apply list_subseteq_app_iff_l; by split; [apply page_rows|]|].
  rewrite length_app. rewrite length_take, length_drop in *. split; [lia|]. split.
  - intros Hn. rewrite (H3 Hn), (listed_newest d Hn). rewrite <- drop_drop. by rewrite take_drop.
  - intros -> Hle. assert (ps = []) as -> by (apply length_zero_iff_nil; lia).
    rewrite app_nil_r, drop_0, take_ge by lia. apply listed_live.
Qed.

Lemma ensure_pages_spec fuel : forall off dn d r d',
  (length (live_projects d) < 100 * fuel + off)%nat ->
  ensure_pages EnsureProjectDirs fuel (Z.of_nat off) dn d = (r, d') ->
  match r with
  | Ok (Some dn') => exists ps, fst <$> dn' = (fst <$> dn) ++ (p_ID <$> ps) /\ covers off d ps
  | Ok None => fuel = O
  | Err _ => ~ calls_succeed d
  end.
Proof.
  induction fuel as [|fuel IH]; intros off dn d r d' Hf; cbn [ensure_pages]; [by intros [= <- <-]|].
  intros [(e & H & ->)|(projects & d1 & H1%wrap_err_ok & H)]%io_bind_case.
  - unfold wrap_err in H. destruct (ListProjects 100 (Z.of_nat off) d) as [[a|e'] d1] eqn:E; [done|].
    apply ListProjects_case in E as [_ [(n & e0 & Hn & _)|[=]]]. intros (Hnone & _). by rewrite Hnone in Hn.
  - apply ListProjects_case in H1 as [-> [(n & e0 & _ & [=])|[= ->]]]. set (L := take 100 _) in *.
    destruct (length L =? 0)%nat eqn:E0.
    { injection H as <- <-. apply Nat.eqb_eq in E0. exists L. rewrite (length_zero_iff_nil L) in E0. split; [by rewrite E0, app_nil_r|].
      apply covers_last. fold L. rewrite E0. cbn. lia. }
    apply io_bind_case in H as [(e & H & ->)|(dn1 & d2 & H2 & H)].
    { apply ensure_page_spec in H as [_ H]. apply H. exact (page_rows off d). }
    apply ensure_page_spec in H2 as [Hp H2]. cbn in Hp.
    destruct (length L <? 100)%nat eqn:E1.
    { injection H as <- <-. exists L. split; [done|]. apply covers_last. by apply Nat.ltb_lt. }
    apply Nat.ltb_ge in E1. assert (length L = 100)%nat as EL by (pose proof (firstn_le_length 100 (drop off (listed_projects d))); unfold L in *; lia).
    replace (Z.of_nat off + Z.of_nat (length L))%Z with (Z.of_nat (off + 100)) in H by lia.
    assert (HL : live_projects d2 = live_projects d) by (unfold live_projects; by rewrite Hp).
    apply IH in H; [|rewrite HL; lia]. destruct r as [[dn'|]|e].
    + destruct H as (ps & Hps & Hc%(covers_rows _ d)); [|done]. exists (L ++ ps). rewrite fmap_app, app_assoc, <- H2.
      split; [done|]. by apply covers_page.
    + subst fuel. pose proof (Permutation_length (listed_live d)) as Hl. unfold L in EL. rewrite length_take, length_drop in EL. lia.
    + unfold calls_succeed in *. by rewrite HL in H.
Qed.

(** C38: the loop over the pages of projects ends within one page more than the live projects fill.
    When it ends without an error, as many calls as there are live projects have prepared log
    directories, of live projects only, and an error means that a call failed.  The listing has no
    tie-breaker, so the order of projects created at the same time may differ from page to page: the
    directories of exactly the live projects are prepared, each once, when their times of
    creation differ, newest first, or when they fit one page. *)
Theorem ensure_logs_complete fuel d :
  (length (live_projects d) < 100 * fuel)%nat ->
  match (EnsureProjectLogs EnsureBase EnsureProjectDirs fuel d).1 with
  | Ok (Some dn) =>
      Forall (fun id => id ∈ p_ID <$> live_projects d) (fst <$> dn) /\ length dn = length (live_projects d) /\
      (NoDup (p_CreatedAt <$> live_projects d) -> fst <$> dn = p_ID <$> newest_projects d) /\
      ((length (live_projects d) <= 100)%nat -> fst <$> dn ≡ₚ p_ID <$> live_projects d)
  | Ok None => False
  | Err _ => ~ calls_succeed d
  end.
Proof.
  intros Hf. unfold EnsureProjectLogs. destruct EnsureBase as [[]|e] eqn:Eb.
  - destruct (ensure_pages EnsureProjectDirs fuel 0 [] d) as [r d'] eqn:E.
    apply (ensure_pages_spec fuel 0) in E; [|lia]. cbn [fst]. destruct r as [[dn|]|e]; [|lia|exact E].
    destruct E as (ps & Hps & H1 & H2 & H3 & H4). cbn in Hps. rewrite <- (length_fmap fst dn), Hps, length_fmap, H2.
    split; [|split; [lia|split; [by intros ->%H3|intros Hle; f_equiv; by apply H4]]].
    apply Forall_forall. intros id (p & -> & Hp)%list_elem_of_fmap. apply list_elem_of_fmap_2. by apply H1.
  - cbn. intros (_ & _ & Hb & _). congruence.
Qed.
End Logs.

(** ** Instances

    On the installation of [Demo]: its cluster is reachable, a second one has no kubeconfig. *)

Module ClusterDemo.
Import Demo.

Definition db2 : DB :=
  set_clusters (demo_db [web] [] false)
    (mkClusterRow "edge" "edge" (cluster_meta "" "" "" "" "" "" []) [] 0 None None :: d_clusters (demo_db [web] [] false)).
Definition w_two : World cluster unit unit := world db2.

Local Abbreviation sched := (service_checker (CS := unit) (DeriveKey key_setting)).
Definition tick_result := TickWithSummary (checker := sched) w_two.

Lemma tick_one_down : exists sm, tick_result.1 = Ok sm /\ hs_Healthy sm = 1%nat /\ hs_Unhealthy sm = 1%nat.
Proof. exists (mkHealthSummary 2 1 1 []). split; [vm_compute; reflexivity|done]. Qed.

Lemma tick_accounts_witness :
  exists sm clusters, tick_result.1 = Ok sm /\ (lister_ListClusters (ClusterChecker := sched) w_two).1 = Ok clusters /\
    (hs_Healthy sm + hs_Unhealthy sm = length clusters)%nat.
Proof.
  destruct tick_one_down as (sm & Hr & _).
  destruct (tick_accounts (checker := sched) w_two sm tick_result.2) as (clusters & Hl & Hc & Hs & _).
  - apply run_ok. exact Hr.
  - exists sm, clusters. rewrite <- Hc. split; [exact Hr|]. split; [exact Hl|exact Hs].
Defined.

Lemma service_reports_no_failures_witness : exists sm, tick_result.1 = Ok sm /\ hs_Failures sm = [].
Proof.
  destruct tick_one_down as (sm & Hr & _). exists sm. split; [exact Hr|].
  apply (service_reports_no_failures (CS := unit) (DeriveKey key_setting) w_two sm tick_result.2). apply run_ok. exact Hr.
Defined.

Lemma ensure_logs_complete_witness :
  exists dn, (EnsureProjectLogs (Ok tt) (fun _ _ => Ok tt) 1 db2).1 = Ok (Some dn) /\ fst <$> dn = ["p1"].
Proof.
  pose proof (ensure_logs_complete (Ok tt) (fun _ _ => Ok tt) 1 db2) as H.
  destruct (EnsureProjectLogs (Ok tt) (fun _ _ => Ok tt) 1 db2).1 as [[dn|]|e].
  - exists dn. split; [reflexivity|]. destruct H as (_ & _ & H & _); [vm_compute; lia|].
    exact (H (NoDup_singleton _)).
  - destruct H. vm_compute. lia.
  - destruct H; [vm_compute; lia|]. split; [done|]. split; [|done]. intros p _. by eexists.
Defined.

(** A server whose odd statements meet the rows in the reverse order. *)
Definition two_ways : Postgres := {|
  db_fault _ := None; maintenance_fault _ := None; db_now n := Z.of_nat n; uuid_in := Some; jsonb := Some;
  scan_order _ n rows := if Nat.even n then rows else rev rows;
  scan_order_rows _ n rows := if Nat.even n as b return (if b then rows else rev rows) ≡ₚ rows
                              then reflexivity rows else symmetry (Permutation_rev rows)
|}.

(** A hundred and one projects that were created together: one is prepared twice, another never. *)
Definition crowd : DB :=
  set_projects (demo_db [] [] false)
    ((fun n => mkProjectRow (mkProject (itoa n) "u1" "c1" "web" (itoa n) false 0) None None false) <$> seq 0 101).
Example ties_skip_a_project :
  match (EnsureProjectLogs (pg := two_ways) (Ok tt) (fun _ _ => Ok tt) 2 crowd).1 with
  | Ok (Some dn) => length dn = 101%nat /\ length (List.filter (str_eqb "37") (fst <$> dn)) = 2%nat /\ existsb (str_eqb "63") (fst <$> dn) = false
  | _ => False
  end.
Proof. vm_compute. by repeat split. Qed.
End ClusterDemo.
