(* ===== verification/Operator.v ===== *)
(** Installing the operator on a cluster: [internal/service/operator.go].

    The service always has a cluster manager ([New] sets it), so the nil checks are left out;
    the API server is the interface [OperatorAPI].  The quotes of a [%q] are not rendered. *)

From Stdlib Require Import Ascii ZArith Lia.
From stdpp Require Import base gmap strings list.
From S2P Require Import Prelude Utf8 GoStrings Hash Kube Crypto Json Config Quota Events Maintenance Store StoreProofs Tenancy TenancyProofs TenancyWitness Clusters ClusterProofs.

(** ** Objects *)

Record Probe := mkProbe {
  pb_Path : string; pb_Port : Z; PeriodSeconds : Z; FailureThreshold : Z; SuccessThreshold : Z;
  InitialDelaySeconds : Z; TimeoutSeconds : Z
}.

Record ManagerContainer := mkManager {
  mg_Name : string; mg_Image : string; mg_ImagePullPolicy : string; mg_Args : list string;
  (** name, port and protocol *)
  mg_Ports : list (string * Z * string);
  mg_ReadinessProbe : Probe; mg_LivenessProbe : Probe
}.

Inductive JSONSchemaProps :=
  mkSchema (type format : string) (properties : list (string * JSONSchemaProps)) (items : option JSONSchemaProps).

Record CRDVersion := mkCRDVersion {
  cv_Name : string; cv_Served : bool; cv_Storage : bool; cv_Schema : JSONSchemaProps; cv_StatusSubresource : bool;
  (** name, type and path *)
  cv_PrinterColumns : list (string * string * string)
}.

Record CRDSpec := mkCRDSpec {
  crd_Group : string; crd_Plural : string; crd_Singular : string; crd_Kind : string; crd_ShortNames : list string;
  crd_Categories : list string; crd_Scope : string; crd_Versions : list CRDVersion
}.

Inductive OperatorSpec :=
| SNamespace
| SServiceAccount
| SClusterRole (rules : list RoleRule)
| SClusterRoleBinding (roleRef : RoleRef) (subjects : list Subject)
| SCRD (spec : CRDSpec)
| SDeployment (replicas : Z) (selector template : gmap string string) (serviceAccountName : string) (containers : list ManagerContainer).

Record OperatorObject := mkOperatorObject {
  oo_Kind : string; oo_Namespace : string; oo_Name : string; oo_Labels : gmap string string; oo_ResourceVersion : string;
  oo_Spec : OperatorSpec
}.

Definition oo_key (o : OperatorObject) : KKey := (oo_Kind o, oo_Namespace o, oo_Name o).

Definition SetResourceVersion (o : OperatorObject) (v : string) : OperatorObject :=
  mkOperatorObject (oo_Kind o) (oo_Namespace o) (oo_Name o) (oo_Labels o) v (oo_Spec o).

(** ** The resources *)


Definition parsePullPolicy (policy : string) : result string string :=
  let p := TrimSpace policy in
  if str_eqb p "" then Ok "IfNotPresent"
  else if existsb (str_eqb p) ["Always"; "IfNotPresent"; "Never"] then Ok p
  else Err ("invalid operator image pull policy " +:+ policy).

Definition baseLabels (cfg : Config) : gmap string string :=
  {["app.kubernetes.io/name" := cfg_OperatorDeploymentName cfg; "app.kubernetes.io/instance" := cfg_OperatorDeploymentName cfg;
    "app.kubernetes.io/component" := "operator"; "app.kubernetes.io/part-of" := "kubeop";
    "app.kubernetes.io/managed-by" := "kubeop-api"; "kubeop.io/managed" := "true"]}.

Definition operator_rules : list RoleRule :=
  [mkRoleRule ["apiextensions.k8s.io"] ["customresourcedefinitions"] ["get"; "list"; "watch"; "create"; "update"; "patch"];
   mkRoleRule ["app.kubeop.io"] ["apps"] ["get"; "list"; "watch"; "create"; "update"; "patch"; "delete"];
   mkRoleRule ["app.kubeop.io"] ["apps/status"] ["get"; "patch"; "update"];
   mkRoleRule ["apps"] ["deployments"] ["get"; "list"; "watch"; "create"; "update"; "patch"; "delete"];
   mkRoleRule ["apps"] ["replicasets"] ["get"; "list"; "watch"];
   mkRoleRule [""] ["pods"] ["get"; "list"; "watch"]].

Definition leaf (type format : string) : JSONSchemaProps := mkSchema type format [] None.

Definition buildAppSchema : JSONSchemaProps :=
  mkSchema "object" ""
    [("spec", mkSchema "object" ""
       [("image", leaf "string" ""); ("replicas", leaf "integer" "int32");
        ("hosts", mkSchema "array" "" [] (Some (leaf "string" "")))] None);
     ("status", mkSchema "object" ""
       [("observedGeneration", leaf "integer" "int64"); ("availableReplicas", leaf "integer" "int32");
        ("conditions", mkSchema "array" "" []
           (Some (mkSchema "object" ""
             [("type", leaf "string" ""); ("status", leaf "string" ""); ("reason", leaf "string" ""); ("message", leaf "string" "");
              ("lastTransitionTime", leaf "string" "date-time")] None)))] None)] None.

Definition dquote : string := of_chars [Ascii.ascii_of_nat 34].

Definition buildAppCRD (labels : gmap string string) : OperatorObject :=
  mkOperatorObject "CustomResourceDefinition" "" "apps.app.kubeop.io" labels ""
    (SCRD (mkCRDSpec "app.kubeop.io" "apps" "app" "App" ["kapp"] ["kubeop"] "Namespaced"
       [mkCRDVersion "v1alpha1" true true buildAppSchema true
          [("Image", "string", ".spec.image"); ("Replicas", "integer", ".spec.replicas");
           ("Ready", "string", ".status.conditions[?(@.type==" +:+ dquote +:+ "Ready" +:+ dquote +:+ ")].status")]])).

Definition manager_container (cfg : Config) (pullPolicy : string) : ManagerContainer :=
  mkManager "manager" (cfg_OperatorImage cfg) pullPolicy (if cfg_OperatorLeaderElection cfg then ["--leader-elect"] else [])
    [("metrics", 8080%Z, "TCP"); ("probes", 8081%Z, "TCP")]
    (mkProbe "/readyz" 8081 15 3 1 10 5) (mkProbe "/healthz" 8081 20 3 1 15 5).

Definition operator_resources (cfg : Config) (pullPolicy : string) : list OperatorObject :=
  let labels := baseLabels cfg in
  let name := cfg_OperatorDeploymentName cfg in
  let ns := cfg_OperatorNamespace cfg in
  [mkOperatorObject "Namespace" "" ns labels "" SNamespace;
   mkOperatorObject "ServiceAccount" ns (cfg_OperatorServiceAccount cfg) labels "" SServiceAccount;
   mkOperatorObject "ClusterRole" "" name labels "" (SClusterRole operator_rules);
   mkOperatorObject "ClusterRoleBinding" "" (name +:+ "-binding") labels ""
     (SClusterRoleBinding (mkRoleRef "rbac.authorization.k8s.io" "ClusterRole" name)
        [mkSubject "ServiceAccount" (cfg_OperatorServiceAccount cfg) ns]);
   buildAppCRD labels;
   mkOperatorObject "Deployment" ns name labels ""
     (SDeployment 1 labels labels (cfg_OperatorServiceAccount cfg) [manager_container cfg pullPolicy])].

Definition buildOperatorResources (cfg : Config) : result string (list OperatorObject) :=
  match parsePullPolicy (cfg_OperatorImagePullPolicy cfg) with
  | Err e => Err e
  | Ok pullPolicy => Ok (operator_resources cfg pullPolicy)
  end.

(** ** Applying them *)

Class OperatorAPI (K C : Type) := {
  op_Get : C -> KKey -> K -> get_result OperatorObject;
  op_Create : C -> OperatorObject -> io K string unit;
  op_Update : C -> OperatorObject -> io K string unit;
}.

Section Apply.
Context {K C : Type} `{api : OperatorAPI K C}.

Definition createOrUpdate (c : C) (obj : OperatorObject) : io K string unit := fun k =>
  match op_Get c (oo_key obj) k with
  | NotFound => op_Create c obj k
  | GetFailed e => (Err e, k)
  | Found current => op_Update c (SetResourceVersion obj (oo_ResourceVersion current)) k
  end.

Definition ensure_object (c : C) (obj : OperatorObject) : io K string unit :=
  wrap_err (fun e => "ensure " +:+ oo_Kind obj +:+ "/" +:+ oo_Name obj +:+ ": " +:+ e) (createOrUpdate c obj).
End Apply.

Section Deployment.
Context {Q K C R CS : Type} `{plat : Platform Q K C R CS} `{pg : Postgres} `{api : OperatorAPI K C}.
Context (cfg : Config).
Local Abbreviation W := (World K C R).
Local Abbreviation svc := (io W svc_error).

(** [GetOrCreate] with a loader that returns the given text. *)
Definition client_for (id kubeconfig : string) : svc C := fun w =>
  match w_clients w !! id with
  | Some c => (Ok c, w)
  | None => (rc ← pure (RESTConfigFromKubeConfig (string_bytes kubeconfig));
             c ← pure (ctrlclient_New rc);
             _ ← Put id c rc;
             mret c) w
  end.

Definition ensureOperatorDeployment (clusterID kubeconfig : string) : svc unit :=
  let kubeconfig := TrimSpace kubeconfig in
  if str_eqb kubeconfig "" then fail (EText "kubeconfig required")
  else
    c ← wrap_err (EWrap "build cluster client: ") (client_for clusterID kubeconfig);
    resources ← pure (buildOperatorResources cfg);
    for_each (fun obj => k8s (ensure_object c obj)) resources.
End Deployment.

(** ** What the role permits *)

(** RBAC: some rule names the group, the resource and the verb. *)
Definition allows (rules : list RoleRule) (group resource verb : string) : bool :=
  existsb (fun r => existsb (str_eqb group) (APIGroups r) && existsb (str_eqb resource) (Resources r) && existsb (str_eqb verb) (Verbs r)) rules.

(** The operator reconciles Apps and Tenants of the group paas.kubeop.io, writes RoleBindings and,
    with leader election, a Lease; its role permits none of this. *)
Example operator_not_permitted :
  allows operator_rules "paas.kubeop.io" "apps" "list" = false /\
  allows operator_rules "paas.kubeop.io" "tenants" "list" = false /\
  allows operator_rules "rbac.authorization.k8s.io" "rolebindings" "create" = false /\
  allows operator_rules "coordination.k8s.io" "leases" "create" = false.
Proof. done. Qed.

(** ** Installation *)

Class OperatorLaws (K C : Type) `{api : OperatorAPI K C} := {
  op_store : C -> K -> gmap KKey OperatorObject;
  (** the stored object has what was sent; the server fills in defaults and the version *)
  op_holds : OperatorObject -> OperatorObject -> Prop;
  op_holds_version o v o' : op_holds (SetResourceVersion o v) o' -> op_holds o o';
  op_create_effect c o k r k' : op_Create c o k = (r, k') ->
    (op_store c k' = op_store c k /\ r <> Ok tt) \/ exists o', op_holds o o' /\ op_store c k' = <[oo_key o := o']> (op_store c k);
  op_update_effect c o k r k' : op_Update c o k = (r, k') ->
    (op_store c k' = op_store c k /\ r <> Ok tt) \/ exists o', op_holds o o' /\ op_store c k' = <[oo_key o := o']> (op_store c k);
}.

Section Installed.
Context {K C : Type} `{laws : OperatorLaws K C}.

(** The cluster holds what [o] asks for. *)
Definition installed (c : C) (k : K) (o : OperatorObject) : Prop :=
  exists o', op_store c k !! oo_key o = Some o' /\ op_holds o o'.

Lemma ensure_object_effect c o k r k' : ensure_object c o k = (r, k') ->
  (op_store c k' = op_store c k /\ r <> Ok tt) \/ exists o', op_holds o o' /\ op_store c k' = <[oo_key o := o']> (op_store c k).
Proof.
  unfold ensure_object, wrap_err, createOrUpdate. destruct (op_Get _ _ _) as [cur| |e]; [| |intros [= <- <-]; by left].
  - destruct (op_Update _ _ _) as [x k1] eqn:E. apply op_update_effect in E as [[E Hx]|(o' & Ho & E)]; destruct x as [[]|e];
      intros [= <- <-]; try done; [by left|right; exists o'; split; [by eapply op_holds_version|done]..].
  - destruct (op_Create _ _ _) as [x k1] eqn:E. apply op_create_effect in E as [[E Hx]|(o' & Ho & E)]; destruct x as [[]|e];
      intros [= <- <-]; try done; [by left|right; by exists o'..].
Qed.

Lemma ensure_object_installs c o k k' : ensure_object c o k = (Ok tt, k') -> installed c k' o.
Proof. intros [[_ []]|(o' & Ho & E)]%ensure_object_effect; [done|]. exists o'. by rewrite E, lookup_insert_eq. Qed.

Lemma ensure_object_frame c o k r k' key : ensure_object c o k = (r, k') -> key <> oo_key o -> op_store c k' !! key = op_store c k !! key.
Proof. intros [[-> _]|(o' & _ & ->)]%ensure_object_effect Hne; [done|]. by rewrite lookup_insert_ne. Qed.
End Installed.

(** Six objects of six kinds. *)
Lemma operator_keys_nodup cfg p : NoDup (oo_key <$> operator_resources cfg p).
Proof.
  apply (NoDup_fmap_1 (fun k : KKey => k.1.1)). change ((fun k : KKey => k.1.1) <$> (oo_key <$> operator_resources cfg p))
    with ["Namespace"; "ServiceAccount"; "ClusterRole"; "ClusterRoleBinding"; "CustomResourceDefinition"; "Deployment"].
  by apply (bool_decide_unpack _).
Qed.

Section Registration.
Context {Q K C R CS : Type} `{laws : PlatformLaws Q K C R CS} `{olaws : OperatorLaws K C}.
Context (cfg : Config).
Local Abbreviation W := (World K C R).
Local Abbreviation svc := (io W svc_error).

Lemma k8s_run {A} (m : io K string A) (w : W) r w' : k8s m w = (r, w') ->
  exists x k', m (w_k8s w) = (x, k') /\ w' = set_k8s w k' /\ match x with Ok a => r = Ok a | Err _ => exists e, r = Err e end.
Proof.
  unfold k8s, or_fail, try_k8s, mbind, io_bind. destruct (m (w_k8s w)) as [x k'] eqn:E. destruct x; intros [= <- <-]; eauto 10.
Qed.

(** One pass over distinct objects. *)
Lemma install_all c l : forall (w : W) r w', NoDup (oo_key <$> l) -> for_each (fun o => k8s (ensure_object c o)) l w = (r, w') ->
  (r = Ok tt -> Forall (installed c (w_k8s w')) l) /\ w_db w' = w_db w /\ w_clients w' = w_clients w /\
  forall key, key ∉ oo_key <$> l -> op_store c (w_k8s w') !! key = op_store c (w_k8s w) !! key.
Proof.
  induction l as [|o l IH]; intros w r w' Hnd; cbn [for_each]; [by intros [= <- <-]|]. inversion_clear Hnd as [|?? Hno Hnd'].
  intros [(e & H & ->)|([] & w1 & H1 & H)]%io_bind_case.
  - apply k8s_run in H as (x & k' & Hk & -> & Hx). split_and!; [done..|]. intros key Hkey. eapply ensure_object_frame; [done|set_solver].
  - apply k8s_run in H1 as (x & k' & Hk & -> & Hx). apply IH in H as (Hok & Hdb & Hcl & Hf); [|done].
    destruct x as [[]|e]; [|by destruct Hx]. split_and!; [|done..|].
    + intros ->. constructor; [|by apply Hok]. apply ensure_object_installs in Hk as (o' & Ho & Hh). exists o'. by rewrite Hf.
    + intros key Hkey. rewrite Hf by set_solver. eapply ensure_object_frame; [done|set_solver].
Qed.

Lemma client_for_inv id kubeconfig (w : W) r w' : client_for id kubeconfig w = (r, w') ->
  w_db w' = w_db w /\ w_k8s w' = w_k8s w /\ forall c, r = Ok c -> w_clients w' !! id = Some c.
Proof.
  unfold client_for. destruct (w_clients w !! id) as [c|] eqn:E; [intros [= <- <-]; split_and!; naive_solver|].
  unfold pure, or_fail, mbind, io_bind, mret, io_ret, Put, fail.
  destruct (RESTConfigFromKubeConfig _) as [rc|]; [|intros [= <- <-]; naive_solver].
  destruct (ctrlclient_New rc) as [c|]; intros [= <- <-]; [|naive_solver]. split_and!; [done..|]. intros ? [= ->]. cbn. by rewrite lookup_insert_eq.
Qed.

(** Kind, namespace and name of what the operator needs. *)
Definition operator_keys : list KKey :=
  let ns := cfg_OperatorNamespace cfg in
  let name := cfg_OperatorDeploymentName cfg in
  [("Namespace", "", ns); ("ServiceAccount", ns, cfg_OperatorServiceAccount cfg); ("ClusterRole", "", name);
   ("ClusterRoleBinding", "", name +:+ "-binding"); ("CustomResourceDefinition", "", "apps.app.kubeop.io"); ("Deployment", ns, name)].

(** They are on the cluster of the client as the configuration asks, and nothing else has changed there. *)
Definition operator_installed (id : string) (w w' : W) : Prop := exists c p,
  w_clients w' !! id = Some c /\ parsePullPolicy (cfg_OperatorImagePullPolicy cfg) = Ok p /\
  (forall key, key ∈ operator_keys -> exists o, o ∈ operator_resources cfg p /\ oo_key o = key /\ installed c (w_k8s w') o) /\
  forall key, key ∉ operator_keys -> op_store c (w_k8s w') !! key = op_store c (w_k8s w) !! key.

Lemma ensureOperator_inv id kubeconfig (w : W) r w' : ensureOperatorDeployment cfg id kubeconfig w = (r, w') ->
  w_db w' = w_db w /\ (r = Ok tt -> operator_installed id w w').
Proof.
  unfold ensureOperatorDeployment. cbv zeta. destruct (str_eqb _ ""); [by intros [= <- <-]|].
  intros [(e & H & ->)|(c & w1 & H1%wrap_err_ok & H)]%io_bind_case.
  { unfold wrap_err in H. destruct (client_for _ _ _) as [[c|e'] w1] eqn:E; [done|]. injection H as _ <-.
    apply client_for_inv in E as (-> & _). done. }
  apply client_for_inv in H1 as (<- & Hk & Hc). specialize (Hc c eq_refl). unfold buildOperatorResources in H.
  destruct (parsePullPolicy _) as [p|e] eqn:Ep; [|by injection H as <- <-].
  apply io_bind_case in H as [(e & [=] & _)|(l & w2 & [= <- <-] & H)].
  apply install_all in H as (Hok & Hdb & Hcl & Hf); [|apply operator_keys_nodup]. split; [done|]. intros ->.
  exists c, p. rewrite Hcl. split_and!; [done..| |].
  - intros key Hkey. change operator_keys with (oo_key <$> operator_resources cfg p) in Hkey. apply list_elem_of_fmap in Hkey as (o & -> & Ho).
    exists o. split_and!; [done..|]. by eapply Forall_forall in Hok; [|done|done].
  - intros key Hkey. rewrite <- Hk. by apply Hf.
Qed.

(** C37: A cluster that is registered is in the table under its trimmed name, with
    a kubeconfig that the service's key opens to the trimmed text of the request, and the six
    objects of the operator are on it, with nothing else on the cluster changed; a
    registration that fails, at the operator too, leaves the table of clusters as it was, unless
    the deletion that takes the row back fails itself. *)
Theorem cluster_registered setting inp (w : W) r w' :
  RegisterCluster cfg (DeriveKey setting) (Some (ensureOperatorDeployment cfg)) inp w = (r, w') ->
  match r with
  | Ok row => registered cfg setting inp row (d_clusters (w_db w)) (d_clusters (w_db w')) /\
      operator_installed (cl_ID row) w w'
  | Err _ => d_clusters (w_db w') = d_clusters (w_db w) \/ exists n e, d_stmts (w_db w') = S n /\ db_fault n = Some e
  end.
Proof.
  intros H%register_cluster_effect.
  - destruct r as [row|e]; [|done]. destruct H as [Hr He]. split; [done|]. destruct (He _ eq_refl) as (w1 & Hk & H1).
    apply ensureOperator_inv in H1 as [_ H1]. destruct (H1 eq_refl) as (c & p & ? & ? & ? & Hf). exists c, p. by rewrite <- Hk.
  - intros ensure id kubeconfig [= <-] w1 r1 w2 [Hdb _]%ensureOperator_inv. unfold clusters_kept. by rewrite Hdb.
Qed.
End Registration.

(** ** A registration *)

Module OperatorDemo.
Import Demo.
(** The operator's objects of one cluster. *)
Definition K : Type := gmap KKey OperatorObject.

#[export] Instance platform : Platform string K unit unit unit := {|
  ParseQuantity := Some; Quantity_String q := q; uuid_New n := "id-" +:+ itoa n; rand_Reader _ := Ok (replicate 12 0%Z);
  RESTConfigFromKubeConfig _ := Ok tt; ctrlclient_New _ := Ok tt; NewForConfig _ := Ok tt; GVKForObject _ _ := Ok "v1";
  patch_object _ _ k := (Err "forbidden", k); get_object _ _ _ := NotFound; quota_status _ _ _ := (∅, ∅);
  delete_object _ _ k := (Err (ApiError "forbidden"), k); list_services _ _ _ := Ok []; list_namespaces _ _ := Ok tt;
  ServerVersion _ _ := Ok None; time_Now _ := 0%Z; create_secret _ _ _ _ k := (Err (ApiError "forbidden"), k);
  get_secret _ _ _ k := (Err (IsNotFound "no secret"), k); delete_secret _ _ _ k := (Err (ApiError "forbidden"), k);
  delete_account _ _ _ k := (Err (ApiError "forbidden"), k); EnsureProject _ := Ok tt
|}.

#[export] Instance platform_laws : PlatformLaws string K unit unit unit.
Proof.
  pose proof Demo.platform_laws as L. split; [done| | | | |apply L..].
  - by intros c o k r k' c' key [= _ <-] _.
  - by intros cs ns n sa k r k' c key [= _ <-].
  - by intros cs ns n k r k' c key [= _ <-].
  - by intros n b [= <-].
Qed.

(** An update needs the version of the stored object; every write gives a new one. *)
Definition write (o : OperatorObject) (version : string) (k : K) : K := <[oo_key o := SetResourceVersion o version]> k.
#[export] Instance api : OperatorAPI K unit := {|
  op_Get _ key k := match k !! key with Some o => Found o | None => NotFound end;
  op_Create _ o k := match k !! oo_key o with Some _ => (Err "already exists", k) | None => (Ok tt, write o "1" k) end;
  op_Update _ o k :=
    match k !! oo_key o with
    | Some cur => if str_eqb (oo_ResourceVersion cur) (oo_ResourceVersion o)
                  then (Ok tt, write o (oo_ResourceVersion cur +:+ "1") k) else (Err "conflict", k)
    | None => (Err "not found", k)
    end
|}.
#[export] Instance laws : OperatorLaws K unit.
Proof.
  refine {| op_store _ k := k; op_holds o o' := exists v, o' = SetResourceVersion o v |}.
  - intros o v o' [v' ->]. by exists v'.
  - intros c o k r k'. unfold op_Create, api. case_match; intros [= <- <-]; [by left|right]. eexists. split; [by eexists|done].
  - intros c o k r k'. unfold op_Update, api. case_match; [|intros [= <- <-]; by left].
    case_match; intros [= <- <-]; [right|by left]. eexists. split; [by eexists|done].
Defined.

Definition staging : ClusterRegisterInput :=
  mkRegisterInput " staging " "server: https://10.0.0.2:6443 " (mkMetadataInput "ops" "" "" "" "" "" ["Prod"; " eu"]).
Definition w0 : World K unit unit := mkWorld (demo_db [web] [] false) ∅ ∅ ∅ 0 0.
Local Abbreviation registration :=
  (RegisterCluster (K := K) (C := unit) (R := unit) cfg_own (DeriveKey key_setting) (Some (ensureOperatorDeployment cfg_own)) staging).

Lemma registration_ok : exists row w', registration w0 = (Ok row, w').
Proof.
  assert (H : is_ok (registration w0).1 = true) by (vm_compute; reflexivity).
  destruct (registration w0) as [[row|e] w']; [by exists row, w'|discriminate H].
Qed.

Lemma cluster_registered_witness : exists row w',
  registration w0 = (Ok row, w') /\ operator_installed (C := unit) cfg_own (cl_ID row) w0 w'.
Proof.
  destruct registration_ok as (row & w' & H). exists row, w'. split; [exact H|].
  exact (proj2 (cluster_registered cfg_own key_setting staging w0 (Ok row) w' H)).
Defined.

(** A second installation finds the objects, sends their versions back and changes nothing but them. *)
Example reinstall :
  let again := ensureOperatorDeployment cfg_own "id-0" "server: https://10.0.0.2:6443" (registration w0).2 in
  is_ok again.1 = true /\ size (w_k8s again.2) = 6%nat /\
  (oo_ResourceVersion <$> w_k8s again.2 !! ("ClusterRole", "", cfg_OperatorDeploymentName cfg_own)) = Some "11".
Proof. vm_compute. done. Qed.

(** A pull policy Kubernetes does not know takes the row back. *)
Example bad_policy : is_ok (parsePullPolicy "Sometimes") = false /\ parsePullPolicy " Never " = Ok "Never" /\ parsePullPolicy " " = Ok "IfNotPresent".
Proof. vm_compute. done. Qed.
End OperatorDemo.
