(* ===== verification/Crds.v ===== *)
(** Installing the bundled CRDs: [kubeop-operator/internal/bootstrap/crd.go].

    What the code does not look at in a specification is of a type with decidable equality; what
    the server owns of an object is of a type of its own.  YAML and the API server are parameters;
    clients and loggers are never nil. *)

From Stdlib Require Import Ascii ZArith Lia.
From stdpp Require Import base gmap strings list.
From S2P Require Import Prelude Utf8 GoStrings Hash.

(** The outcome of a [Get]. *)
Inductive crd_error := CRDNotFound (text : string) | CRDFailed (text : string).

Section Data.
Context {X M : Type}.

Record Column := mkColumn { col_Name : string; col_JSONPath : string; col_rest : X }.
Record Version := mkVersion { AdditionalPrinterColumns : list Column; ver_rest : X }.
Record Spec := mkSpec { Versions : list Version; spec_rest : X }.
(** Type, status and reason. *)
Record CRDCondition := mkCRDCondition { cc_Type : string; cc_Status : string; cc_Reason : string }.
Record CRD := mkCRD {
  crd_Kind : string; crd_Name : string; crd_Labels : gmap string string; crd_Annotations : gmap string string; crd_Spec : Spec;
  (** [ResourceVersion], [UID], [CreationTimestamp], [ManagedFields] and [Generation] *)
  crd_Server : M;
  (** [Status.Conditions] *)
  crd_Status : list CRDCondition
}.
End Data.
Arguments Column X : clear implicits.
Arguments Version X : clear implicits.
Arguments Spec X : clear implicits.
Arguments CRD X M : clear implicits.

#[export] Instance column_eq_dec {X} `{EqDecision X} : EqDecision (Column X).
Proof. solve_decision. Defined.
#[export] Instance version_eq_dec {X} `{EqDecision X} : EqDecision (Version X).
Proof. solve_decision. Defined.
#[export] Instance spec_eq_dec {X} `{EqDecision X} : EqDecision (Spec X).
Proof. solve_decision. Defined.

Class CRDAPI (S X M : Type) := {
  crd_Get : string -> io S crd_error (CRD X M);
  crd_Create : CRD X M -> io S string unit;
  crd_Update : CRD X M -> io S string unit;
}.

(** ** Loading *)

Section Load.
Context {X M : Type} (Unmarshal : string -> result string (CRD X M)).
(** The embedded directory: the content of a file, or why it cannot be read. *)
Context (files : gmap string (result string string)).

(** [fs.Glob(fsys, "*.yaml")], sorted *)
Definition entries : list string := sort_Strings (List.filter (fun p => HasSuffix p ".yaml") (fst <$> map_to_list files)).

Fixpoint load_entries (paths : list string) : result string (list (CRD X M)) :=
  match paths with
  | [] => Ok []
  | path :: paths =>
      match default (Err "file does not exist") (files !! path) with
      | Err e => Err ("read CRD manifest " +:+ path +:+ ": " +:+ e)
      | Ok data =>
          match Unmarshal data with
          | Err e => Err ("unmarshal CRD " +:+ path +:+ ": " +:+ e)
          | Ok crd =>
              if negb (EqualFold (crd_Kind crd) "CustomResourceDefinition") then load_entries paths
              else if blank (crd_Name crd) then Err ("CRD manifest " +:+ path +:+ " missing metadata.name")
              else match load_entries paths with Ok out => Ok (crd :: out) | Err e => Err e end
          end
      end
  end.

Definition loadBundledCRDs : result string (list (CRD X M)) :=
  match load_entries entries with
  | Ok [] => Err "no CRD manifests bundled with operator"
  | r => r
  end.
End Load.

(** ** Comparing *)

Section Ensure.
Context {S X M : Type} `{EqDecision X} `{api : CRDAPI S X M}.

Definition set_spec (crd : CRD X M) (s : Spec X) : CRD X M :=
  mkCRD (crd_Kind crd) (crd_Name crd) (crd_Labels crd) (crd_Annotations crd) s (crd_Server crd) (crd_Status crd).

Definition sanitize_columns (cols : list (Column X)) : list (Column X) :=
  (fun c => mkColumn (col_Name c) (TrimSpace (col_JSONPath c)) (col_rest c))
    <$> List.filter (fun c => HasPrefix (TrimSpace (col_JSONPath c)) ".") cols.

Definition sanitizePrinterColumns (crd : CRD X M) : CRD X M :=
  set_spec crd (mkSpec ((fun v => mkVersion (sanitize_columns (AdditionalPrinterColumns v)) (ver_rest v)) <$> Versions (crd_Spec crd))
    (spec_rest (crd_Spec crd))).

Definition mergeStringMap (existing desired : gmap string string) : gmap string string := desired ∪ existing.

(** An absent key reads as the empty string. *)
Definition mapContains (have want : gmap string string) : bool :=
  forallb (fun e => str_eqb (default "" (have !! e.1)) e.2) (map_to_list want).

Definition needsUpdate (existing desired : CRD X M) : bool :=
  if negb (bool_decide (crd_Spec existing = crd_Spec desired)) then true
  else if negb (mapContains (crd_Labels existing) (crd_Labels desired)) then true
  else negb (mapContains (crd_Annotations existing) (crd_Annotations desired)).

(** [crd] with what the server owns of [existing]. *)
Definition merge_crd (existing crd : CRD X M) : CRD X M :=
  mkCRD (crd_Kind crd) (crd_Name crd) (mergeStringMap (crd_Labels existing) (crd_Labels crd))
    (mergeStringMap (crd_Annotations existing) (crd_Annotations crd)) (crd_Spec crd) (crd_Server existing) (crd_Status existing).

(** ** Readiness *)

(** The loop over the conditions: [None] is "not yet". *)
Fixpoint ready_conditions (l : list CRDCondition) : option (result string unit) :=
  match l with
  | [] => None
  | c :: l =>
      if str_eqb (cc_Type c) "Established" && str_eqb (cc_Status c) "True" then Some (Ok tt)
      else if str_eqb (cc_Type c) "NamesAccepted" && str_eqb (cc_Status c) "False" then Some (Err ("names not accepted: " +:+ cc_Reason c))
      else ready_conditions l
  end.

(** [n] polls remain. *)
Fixpoint poll_ready (n : nat) (name : string) : io S string unit := fun s =>
  match n with
  | O => (Err "context deadline exceeded", s)
  | Datatypes.S n =>
      match crd_Get name s with
      | (Err (CRDNotFound _), s) => poll_ready n name s
      | (Err (CRDFailed e), s) => (Err e, s)
      | (Ok crd, s) => match ready_conditions (crd_Status crd) with Some r => (r, s) | None => poll_ready n name s end
      end
  end.

(** At once and then every half second of thirty seconds. *)
Definition crd_polls : nat := 61.
Definition waitForCRDReady (name : string) : io S string unit := poll_ready crd_polls name.

(** ** EnsureCRDs *)

Definition put_crd (crd : CRD X M) : io S string unit := fun s =>
  match crd_Get (crd_Name crd) s with
  | (Err (CRDNotFound _), s) => wrap_err (fun e => "create CRD " +:+ crd_Name crd +:+ ": " +:+ e) (crd_Create crd) s
  | (Err (CRDFailed e), s) => (Err ("get CRD " +:+ crd_Name crd +:+ ": " +:+ e), s)
  | (Ok existing, s) =>
      let merged := merge_crd existing crd in
      if needsUpdate existing merged
      then wrap_err (fun e => "update CRD " +:+ crd_Name crd +:+ ": " +:+ e) (crd_Update merged) s
      else (Ok tt, s)
  end.

Definition ensure_crd (crd : CRD X M) : io S string unit :=
  let crd := sanitizePrinterColumns crd in
  _ ← put_crd crd;
  wrap_err (fun e => "wait for CRD readiness " +:+ crd_Name crd +:+ ": " +:+ e) (waitForCRDReady (crd_Name crd)).

Definition ensureCRDsWithClient (bundled : result string (list (CRD X M))) : io S string unit :=
  match bundled with Err e => fail e | Ok crds => for_each ensure_crd crds end.
End Ensure.

(** ** Convergence *)

(** What is asked for in a CRD. *)
Record stored (X : Type) := mkStored { st_Spec : Spec X; st_Labels : gmap string string; st_Annotations : gmap string string }.
Arguments mkStored {X}.
Arguments st_Spec {X}.
Arguments st_Labels {X}.
Arguments st_Annotations {X}.

Class CRDLaws (S X M : Type) `{api : CRDAPI S X M} := {
  crds : S -> gmap string (stored X);
  (** the specification as the server stores it, with its defaults *)
  defaulted : Spec X -> Spec X;
  crds_defaulted s n d : crds s !! n = Some d -> defaulted (st_Spec d) = st_Spec d;
  crd_get_reads n s r s' : crd_Get n s = (r, s') -> crds s' = crds s /\
    match r with
    | Ok c => crds s !! n = Some (mkStored (crd_Spec c) (crd_Labels c) (crd_Annotations c))
    | Err (CRDNotFound _) => crds s !! n = None
    | Err (CRDFailed _) => True
    end;
  crd_create_stores c s r s' : crd_Create c s = (r, s') ->
    (crds s' = crds s /\ r <> Ok tt) \/
    crds s' = <[crd_Name c := mkStored (defaulted (crd_Spec c)) (crd_Labels c) (crd_Annotations c)]> (crds s);
  crd_update_stores c s r s' : crd_Update c s = (r, s') ->
    (crds s' = crds s /\ r <> Ok tt) \/
    crds s' = <[crd_Name c := mkStored (defaulted (crd_Spec c)) (crd_Labels c) (crd_Annotations c)]> (crds s);
}.

#[local] Opaque crd_polls.

Section Converge.
Context {S X M : Type} `{EqDecision X} `{laws : CRDLaws S X M}.

(** Two maps that read alike, an absent key as the empty string. *)
Definition reads_alike (m m' : gmap string string) : Prop := forall k, default "" (m !! k) = default "" (m' !! k).

Lemma mapContains_spec have want : mapContains have want = true <-> forall k v, want !! k = Some v -> default "" (have !! k) = v.
Proof.
  unfold mapContains. rewrite forallb_forall. split.
  - intros H k v Hk. apply str_eqb_eq, (H (k, v)), list_elem_of_In. by apply elem_of_map_to_list.
  - intros H [k v] Hin%list_elem_of_In%elem_of_map_to_list. apply str_eqb_eq. by apply H.
Qed.

Lemma contains_merged old want : mapContains old (mergeStringMap old want) = true -> reads_alike old (mergeStringMap old want).
Proof.
  intros H k. destruct (mergeStringMap old want !! k) as [v|] eqn:E; [by eapply mapContains_spec in H; [rewrite H|]|].
  by apply lookup_union_None in E as [_ ->].
Qed.

(** The stored CRD has the bundled specification, its labels and annotations, and keeps those it had besides. *)
Definition settled (old : option (stored X)) (crd : CRD X M) (d : stored X) : Prop :=
  st_Spec d = defaulted (crd_Spec crd) /\
  reads_alike (st_Labels d) (mergeStringMap (from_option st_Labels ∅ old) (crd_Labels crd)) /\
  reads_alike (st_Annotations d) (mergeStringMap (from_option st_Annotations ∅ old) (crd_Annotations crd)).

Lemma needsUpdate_settled existing crd s : crds s !! crd_Name crd = Some (mkStored (crd_Spec existing) (crd_Labels existing) (crd_Annotations existing)) ->
  needsUpdate existing (merge_crd existing crd) = false ->
  settled (crds s !! crd_Name crd) crd (mkStored (crd_Spec existing) (crd_Labels existing) (crd_Annotations existing)).
Proof.
  intros Hs. rewrite Hs. unfold needsUpdate. cbn. case_bool_decide as Hspec; [|done]. cbn.
  destruct (mapContains _ _) eqn:El; [|done]. cbn. intros Ea%negb_false_iff. unfold settled. cbn. rewrite <- Hspec.
  split_and!; [|by apply contains_merged..]. symmetry. by apply crds_defaulted in Hs.
Qed.

(** What a write leaves behind: nothing, or the CRD in place. *)
Definition put_effect (crd : CRD X M) (s s' : S) (r : result string unit) : Prop :=
  (crds s' = crds s /\ r <> Ok tt) \/ exists d, settled (crds s !! crd_Name crd) crd d /\ crds s' = <[crd_Name crd := d]> (crds s).

Lemma merge_none (want : gmap string string) : mergeStringMap ∅ want = want.
Proof. unfold mergeStringMap. apply right_id_L, _. Qed.

Lemma put_crd_effect crd s r s' : put_crd crd s = (r, s') -> put_effect crd s s' r.
Proof.
  unfold put_crd, put_effect. destruct (crd_Get _ s) as [[existing|[e|e]] s1] eqn:Eg; apply crd_get_reads in Eg as [Hs Hg]; rewrite <- Hs in *.
  - destruct (needsUpdate _ _) eqn:En.
    + unfold wrap_err. destruct (crd_Update _ s1) as [x s2] eqn:Eu. apply crd_update_stores in Eu as [[Eu Hx]|Eu];
        destruct x as [[]|e]; intros [= <- <-]; try done; try (by left); right; rewrite Hg;
        (eexists; split; [|exact Eu]; unfold settled; cbn; done).
    + intros [= <- <-]. right. eexists. split; [by apply needsUpdate_settled|]. by rewrite insert_id.
  - unfold wrap_err. destruct (crd_Create _ s1) as [x s2] eqn:Ec. apply crd_create_stores in Ec as [[Ec Hx]|Ec];
      destruct x as [[]|e']; intros [= <- <-]; try done; try (by left); right; rewrite Hg;
      (eexists; split; [|exact Ec]; unfold settled; cbn; by rewrite !merge_none).
  - intros [= <- <-]. by left.
Qed.

Lemma poll_ready_reads n name s r s' : poll_ready (M := M) n name s = (r, s') -> crds s' = crds s.
Proof.
  revert s. induction n as [|n IH]; intros s; cbn; [by intros [= <- <-]|].
  destruct (crd_Get name s) as [[c|[e|e]] s1] eqn:Eg; apply crd_get_reads in Eg as [<- _].
  - destruct (ready_conditions _); [by intros [= <- <-]|apply IH].
  - apply IH.
  - by intros [= <- <-].
Qed.

Lemma wait_reads name s r s' : waitForCRDReady (M := M) name s = (r, s') -> crds s' = crds s.
Proof. apply poll_ready_reads. Qed.

Lemma ensure_crd_effect crd s r s' : ensure_crd crd s = (r, s') ->
  let crd := sanitizePrinterColumns crd in
  (crds s' = crds s /\ r <> Ok tt) \/ exists d, settled (crds s !! crd_Name crd) crd d /\ crds s' = <[crd_Name crd := d]> (crds s).
Proof.
  unfold ensure_crd. cbv zeta. intros [(e & H%put_crd_effect & ->)|([] & s1 & H1%put_crd_effect & H)]%io_bind_case; [by destruct H as [[? _]|?]; [left|right]|].
  unfold wrap_err in H. destruct (waitForCRDReady _ s1) as [x s2] eqn:Ew. apply wait_reads in Ew.
  right. destruct H1 as [[_ []]|(d & Hd & Hs)]; [done|]. exists d. split; [done|]. destruct x; injection H as <- <-; by rewrite Ew.
Qed.

(** C16: after a successful installation every bundled CRD is on the server with
    its own specification, less the printer columns the server would refuse and with the defaults
    the server adds, and with its labels and annotations over those the CRD had; a CRD that is not
    bundled is left as it is, also by an installation that fails. *)
Theorem crds_installed bundled s r s' :
  NoDup (crd_Name <$> bundled) -> ensureCRDsWithClient (Ok bundled) s = (r, s') ->
  (forall n, n ∉ crd_Name <$> bundled -> crds s' !! n = crds s !! n) /\
  (r = Ok tt -> forall crd, crd ∈ bundled -> exists d,
     crds s' !! crd_Name crd = Some d /\ settled (crds s !! crd_Name crd) (sanitizePrinterColumns crd) d).
Proof.
  cbn. revert s. induction bundled as [|c l IH]; intros s Hnd; cbn [for_each].
  { intros [= <- <-]. split; [done|]. intros _ crd Hc. by apply elem_of_nil in Hc. }
  inversion_clear Hnd as [|?? Hno Hnd']. intros [(e & H%ensure_crd_effect & ->)|([] & s1 & H1%ensure_crd_effect & H)]%io_bind_case.
  - split; [|done]. intros n Hn. destruct H as [[-> _]|(d & _ & ->)]; [done|]. rewrite lookup_insert_ne; [done|]. set_solver.
  - destruct H1 as [[_ []]|(d & Hd & Hs)]; [done|]. cbn [crd_Name sanitizePrinterColumns set_spec] in Hd, Hs.
    destruct (IH _ Hnd' H) as [Hf Hok]. split.
    + intros n Hn. rewrite Hf, Hs by set_solver. rewrite lookup_insert_ne; [done|]. set_solver.
    + intros -> crd [->|Hin]%elem_of_cons.
      * exists d. split; [|done]. by rewrite Hf, Hs, lookup_insert_eq.
      * destruct (Hok eq_refl crd Hin) as (d' & Hd' & Hset). exists d'. split; [done|]. rewrite Hs, lookup_insert_ne in Hset; [done|].
        intros E. apply Hno. rewrite E. by apply list_elem_of_fmap_2.
Qed.
End Converge.

(** ** An upgrade *)

Module CrdDemo.
(** A server without defaults that establishes every CRD at once. *)
Definition server : Type := gmap string (stored string).
#[export] Instance api : CRDAPI server string unit := {|
  crd_Get n s :=
    (match s !! n with
     | Some d => Ok (mkCRD "CustomResourceDefinition" n (st_Labels d) (st_Annotations d) (st_Spec d) tt [mkCRDCondition "Established" "True" ""])
     | None => Err (CRDNotFound "not found")
     end, s);
  crd_Create c s := (Ok tt, <[crd_Name c := mkStored (crd_Spec c) (crd_Labels c) (crd_Annotations c)]> s);
  crd_Update c s := (Ok tt, <[crd_Name c := mkStored (crd_Spec c) (crd_Labels c) (crd_Annotations c)]> s)
|}.
#[export] Instance api_laws : CRDLaws server string unit.
Proof.
  refine {| crds s := s; defaulted sp := sp |}.
  - done.
  - intros n s r s'. unfold crd_Get, api. intros [= <- <-]. split; [done|]. change (lookup n s) with ((s : gmap string (stored string)) !! n). by destruct (_ !! n) as [[]|].
  - intros c s r s' [= <- <-]. by right.
  - intros c s r s' [= <- <-]. by right.
Defined.

Definition bundle : list (CRD string unit) :=
  [mkCRD "CustomResourceDefinition" "apps.paas.kubeop.io" {["app" := "kubeop"]} ∅
     (mkSpec [mkVersion [mkColumn "Ready" " .status.ready" ""; mkColumn "Age" "metadata.age" ""] "v1alpha1"] "apps") tt [];
   mkCRD "CustomResourceDefinition" "tenants.paas.kubeop.io" ∅ ∅ (mkSpec [] "tenants") tt []].
Definition before : server :=
  {["apps.paas.kubeop.io" := mkStored (mkSpec [] "old") {["team" := "ops"]} ∅; "jobs.batch" := mkStored (mkSpec [] "jobs") ∅ ∅]}.

Lemma crds_installed_witness : exists d,
  crds (ensureCRDsWithClient (Ok bundle) before).2 !! "apps.paas.kubeop.io" = Some d /\
  st_Spec d = mkSpec [mkVersion [mkColumn "Ready" ".status.ready" ""] "v1alpha1"] "apps" /\
  default "" (st_Labels d !! "team") = "ops" /\ default "" (st_Labels d !! "app") = "kubeop".
Proof.
  assert (Hnd : NoDup (crd_Name <$> bundle)) by by apply (bool_decide_unpack _).
  assert (Hok : (ensureCRDsWithClient (Ok bundle) before).1 = Ok tt) by (vm_compute; reflexivity).
  destruct (ensureCRDsWithClient (Ok bundle) before) as [r s'] eqn:E. cbn in Hok |- *.
  destruct (crds_installed bundle before r s' Hnd E) as [_ H]. destruct (H Hok _ (list_elem_of_here _ _)) as (d & Hd & Hs & Hl & _).
  exists d. split; [exact Hd|]. split; [exact Hs|]. split; [exact (Hl "team")|exact (Hl "app")].
Defined.
End CrdDemo.
