(* ===== verification/Bootstrap.v ===== *)
(** The command line tool [kubeop-bootstrap]: [kubeop-operator/internal/cli/bootstrap], on top of
    the CRDs of [Crds].

    A command starts from its parsed flags.  The Kubernetes client, the encoders, the file system
    and the two output streams are the interface [BootAPI]; a [Patch] returns the object as the
    server answers it, which is what the code goes on with.  The list of reasons why a name is
    not a label is not rendered, nor are the quotes of a [%q]. *)

From Stdlib Require Import Ascii ZArith Lia.
From stdpp Require Import base gmap strings list.
From S2P Require Import Prelude Utf8 GoStrings Hash Names NetURL Kube Webhooks WebhookProofs Crds.

(** ** Objects *)

Definition ProjectEnvironmentDev : string := "dev".
Definition SecurityPresetBaseline : string := "baseline".
Definition GroupVersion : string := "paas.kubeop.io/v1alpha1".

Inductive BootSpec :=
| TenantSpec (displayName billingAccountRef : string)
| ProjectSpec (tenantRef purpose environment namespaceName psaPreset : string)
| DomainSpec (fqdn tenantRef dnsProviderRef certificatePolicyRef : string)
| RegistryCredentialSpec (type secretRef tenantRef : string)
(** the other content of a manifest *)
| Manifest (content : string).

Record BootObject := mkBoot {
  bo_APIVersion : string; bo_Kind : string; bo_Namespace : string; bo_Name : string; bo_Labels : gmap string string;
  bo_ResourceVersion : string; bo_ManagedFields : list string; bo_Spec : BootSpec
}.

Record TenantInput := mkTenantInput { ti_Name : string; ti_DisplayName : string; ti_BillingAccountRef : string }.
Record ProjectInput := mkProjectInput {
  pi_Name : string; pi_Namespace : string; pi_TenantRef : string; pi_Purpose : string; pi_Environment : string
}.
Record DomainInput := mkDomainInput {
  di_Name : string; di_FQDN : string; di_TenantRef : string; di_DNSProviderRef : string; di_CertificatePolicyRef : string
}.
Record RegistryInput := mkRegistryInput { ri_Name : string; ri_TenantRef : string; ri_Type : string; ri_SecretRef : string }.

(** ** Builders *)

Definition paas (kind namespace name : string) (labels : gmap string string) (spec : BootSpec) : BootObject :=
  mkBoot GroupVersion kind namespace name labels "" [] spec.

Definition BuildTenant (input : TenantInput) : result string BootObject :=
  if str_eqb (ti_Name input) "" then Err "tenant name is required"
  else if negb (dns1123_label (ti_Name input)) then Err "tenant name invalid"
  else if str_eqb (ti_BillingAccountRef input) "" then Err "billing account reference is required"
  else
    let displayName := if str_eqb (ti_DisplayName input) "" then ti_Name input else ti_DisplayName input in
    Ok (paas "Tenant" "" (ti_Name input) {["paas.kubeop.io/tenant" := ti_Name input]}
          (TenantSpec displayName (ti_BillingAccountRef input))).

Definition BuildProject (input : ProjectInput) : result string BootObject :=
  if str_eqb (pi_Name input) "" || str_eqb (pi_Namespace input) "" || str_eqb (pi_TenantRef input) ""
  then Err "project name, namespace, and tenant are required"
  else
    let env := if str_eqb (pi_Environment input) "" then ProjectEnvironmentDev else pi_Environment input in
    Ok (paas "Project" (pi_Namespace input) (pi_Name input)
          {["paas.kubeop.io/tenant" := pi_TenantRef input; "paas.kubeop.io/project" := pi_Name input; "paas.kubeop.io/env" := env]}
          (ProjectSpec (pi_TenantRef input) (pi_Purpose input) env (pi_Namespace input) SecurityPresetBaseline)).

Definition BuildDomain (input : DomainInput) : result string BootObject :=
  if str_eqb (di_Name input) "" || str_eqb (di_FQDN input) "" || str_eqb (di_TenantRef input) "" || str_eqb (di_DNSProviderRef input) ""
  then Err "domain name, fqdn, tenant, and dns provider are required"
  else Ok (paas "Domain" "" (di_Name input) {["paas.kubeop.io/tenant" := di_TenantRef input]}
             (DomainSpec (di_FQDN input) (di_TenantRef input) (di_DNSProviderRef input) (di_CertificatePolicyRef input))).

Definition BuildRegistryCredential (input : RegistryInput) : result string BootObject :=
  if str_eqb (ri_Name input) "" || str_eqb (ri_SecretRef input) "" || str_eqb (ri_TenantRef input) ""
  then Err "registry name, tenant, and secret are required"
  else Ok (paas "RegistryCredential" "" (ri_Name input) {["paas.kubeop.io/tenant" := ri_TenantRef input]}
             (RegistryCredentialSpec (ri_Type input) (ri_SecretRef input) (ri_TenantRef input))).

Definition parseRegistryType (value : string) : result string string :=
  match List.find (fun t => str_eqb (ToLower value) (ToLower t)) ["dockerHub"; "ecr"; "gcr"; "harbor"] with
  | Some t => Ok t
  | None => Err ("unsupported registry type " +:+ value)
  end.

(** ** The interface *)

Record AuditEvent := mkAuditEvent {
  ev_SpecVersion : string; ev_Type : string; ev_Source : string; ev_ID : string; ev_Time : Z; ev_DataContentType : string;
  (** group, version, kind, name and namespace *)
  ev_Data : string * string * string * string * string
}.

Class BootAPI (S : Type) := {
  gvk_of : BootObject -> result string (string * string * string);
  (** [Patch] with [client.Apply], [ForceOwnership] and a field owner *)
  boot_Patch : string -> BootObject -> io S string BootObject;
  serialise : BootObject -> result string string;
  marshal_yaml : BootObject -> result string string;
  MkdirAll : string -> io S string unit;
  WriteFile : string -> string -> io S string unit;
  (** the event as JSON on the error stream *)
  write_event : AuditEvent -> io S string unit;
  boot_uuid : S -> string * S;
  boot_now : S -> Z;
  write_out : string -> io S string unit;
  (** [tabwriter] *)
  tabulate : list string -> string;
}.

(** Embedded files and the documents of a YAML file: the first error ends the decoding. *)
Record document := mkDocument { doc_empty : bool; doc_object : BootObject }.

Fixpoint decodeDocuments (docs : list (result string document)) : result string (list BootObject) :=
  match docs with
  | [] => Ok []
  | Err e :: _ => Err e
  | Ok d :: docs =>
      match decodeDocuments docs with
      | Err e => Err e
      | Ok objects =>
          Ok (if doc_empty d then objects
              else if blank (bo_Kind (doc_object d)) || blank (bo_APIVersion (doc_object d)) then objects
              else doc_object d :: objects)
      end
  end.

Section Manifests.
Context (yaml : string -> list (result string document)) (files : gmap string (result string string)).

Fixpoint load_manifests (paths : list string) : result string (list BootObject) :=
  match paths with
  | [] => Ok []
  | entry :: paths =>
      match default (Err "file does not exist") (files !! entry) with
      | Err e => Err ("read manifest " +:+ entry +:+ ": " +:+ e)
      | Ok content =>
          match decodeDocuments (yaml content) with
          | Err e => Err ("decode manifest " +:+ entry +:+ ": " +:+ e)
          | Ok docs => match load_manifests paths with Ok objects => Ok (docs ++ objects) | Err e => Err e end
          end
      end
  end.

Definition loadManifests : result string (list BootObject) := load_manifests (entries files).
End Manifests.

(** ** The runner *)

Definition sanitizeFilename (name : string) : string :=
  if str_eqb name "" then "resource" else of_chars ((fun c => if char_in "/\ " c then dash else c) <$> chars name).

Record ApplySummary := mkSummary { su_Group : string; su_Version : string; su_Kind : string; su_Name : string; su_Namespace : string }.

Definition SummariesToTable (summaries : list ApplySummary) : list (list string) :=
  ["KIND"; "NAME"; "NAMESPACE"; "GROUP"; "VERSION"] ::
  ((fun s => [su_Kind s; su_Name s; su_Namespace s; su_Group s; su_Version s]) <$> summaries).

(** [SetGroupVersionKind] *)
Definition SetGVK (o : BootObject) (gvk : string * string * string) : BootObject :=
  let '(g, v, k) := gvk in
  mkBoot (if str_eqb g "" then v else g +:+ "/" +:+ v) k (bo_Namespace o) (bo_Name o) (bo_Labels o) (bo_ResourceVersion o)
    (bo_ManagedFields o) (bo_Spec o).
(** [SetManagedFields(nil)] and [SetResourceVersion("")] *)
Definition reset_server_fields (o : BootObject) : BootObject :=
  mkBoot (bo_APIVersion o) (bo_Kind o) (bo_Namespace o) (bo_Name o) (bo_Labels o) "" [] (bo_Spec o).

Definition defaultFieldOwner : string := "bootstrap.kubeop.io/cli".
Definition defaultOutDir : string := "out".

Section Runner.
Context {S : Type} `{api : BootAPI S}.

Definition or_err {A} (r : result string A) : io S string A := fun s => (r, s).

Definition ApplyObject (obj : BootObject) (fieldOwner : string) : io S string BootObject :=
  let fieldOwner := if str_eqb fieldOwner "" then "kubeop-bootstrap" else fieldOwner in
  gvk ← wrap_err (fun e => "determine gvk: " +:+ e) (or_err (gvk_of obj));
  boot_Patch fieldOwner (reset_server_fields (SetGVK obj gvk)).

Definition encodeYAML (obj : BootObject) : io S string string :=
  match serialise obj with
  | Ok data => mret data
  | Err err =>
      match marshal_yaml obj with
      | Ok data => mret data
      | Err e => fail ("serialise object: " +:+ err +:+ " / fallback: " +:+ e)
      end
  end.

(** [filepath.Join(outDir, filename)]; the name of a runner's directory is not empty. *)
Definition manifest_path (outDir kind name : string) : string :=
  path_Clean (outDir +:+ "/" +:+ (ToLower kind +:+ "_" +:+ sanitizeFilename name +:+ ".yaml")).

Definition writeObject (outDir : string) (obj : BootObject) (gvk : string * string * string) : io S string BootObject :=
  _ ← wrap_err (fun e => "ensure out dir " +:+ outDir +:+ ": " +:+ e) (MkdirAll outDir);
  let obj := SetGVK obj gvk in
  data ← encodeYAML obj;
  let path := manifest_path outDir gvk.2 (bo_Name obj) in
  _ ← wrap_err (fun e => "write manifest " +:+ path +:+ ": " +:+ e) (WriteFile path data);
  mret obj.

Definition NewAuditEvent (eventType source : string) (data : string * string * string * string * string) : io S string AuditEvent := fun s =>
  let '(id, s) := boot_uuid s in
  (Ok (mkAuditEvent "1.0" eventType source id (boot_now s) "application/json" data), s).

(** The zero time is that of year one. *)
Definition zero_time : Z := (-62135596800)%Z.
Definition or_default (v d : string) : string := if str_eqb v "" then d else v.

Definition Emit (e : AuditEvent) : io S string unit := fun s =>
  let '(id, s) := if str_eqb (ev_ID e) "" then boot_uuid s else (ev_ID e, s) in
  let time := if (ev_Time e =? zero_time)%Z then boot_now s else ev_Time e in
  write_event (mkAuditEvent (or_default (ev_SpecVersion e) "1.0") (ev_Type e) (ev_Source e) id time
    (or_default (ev_DataContentType e) "application/json") (ev_Data e)) s.

(** A failure that is only logged. *)
Definition log_failure (m : io S string unit) : io S string unit := fun s => (Ok tt, (m s).2).

Definition Runner_ApplyObject (outDir : string) (obj : BootObject) : io S string (ApplySummary * BootObject) :=
  gvk ← wrap_err (fun e => "determine gvk: " +:+ e) (or_err (gvk_of obj));
  obj ← ApplyObject obj defaultFieldOwner;
  let '(g, v, k) := gvk in
  let summary := mkSummary g v k (bo_Name obj) (bo_Namespace obj) in
  obj ← writeObject outDir obj gvk;
  _ ← log_failure (e ← NewAuditEvent "io.kubeop.bootstrap.apply" "cli/bootstrap"
                     (su_Group summary, su_Version summary, su_Kind summary, su_Name summary, su_Namespace summary); Emit e);
  mret (summary, obj).

(** ** Output *)

Definition renderTable (rows : list (list string)) : io S string unit :=
  match rows with [] => mret tt | _ => write_out (tabulate ((fun r => Join r (of_chars [ascii_of_nat 9])) <$> rows)) end.

Definition newline : string := of_chars [ascii_of_nat 10].

Fixpoint render_objects (first : bool) (objs : list BootObject) : io S string unit :=
  match objs with
  | [] => mret tt
  | obj :: objs =>
      data ← encodeYAML obj;
      _ ← (if first then mret tt else write_out ("---" +:+ newline));
      _ ← write_out data;
      _ ← (if HasSuffix data newline then mret tt else write_out newline);
      render_objects false objs
  end.
Definition renderYAML (objs : list BootObject) : io S string unit := render_objects true objs.

Definition RenderOutput (format : string) (table : list (list string)) (objs : list BootObject) : io S string unit :=
  if str_eqb (ToLower format) "" || str_eqb (ToLower format) "table" then renderTable table
  else if str_eqb (ToLower format) "yaml" then renderYAML objs
  else fail ("unsupported output format " +:+ format).
End Runner.

(** ** Commands *)

Record GlobalOptions := mkOptions { op_Yes : bool; op_Output : string; op_OutDir : string }.

Inductive command :=
| Init
| Defaults
| TenantCreate (input : TenantInput)
(** the environment is the flag *)
| ProjectCreate (input : ProjectInput)
| DomainAttach (input : DomainInput)
(** the type is the flag *)
| RegistryAdd (input : RegistryInput).

Section Commands.
Context {S X M : Type} `{EqDecision X} `{crd_api : CRDAPI S X M} `{api : BootAPI S}.
(** The embedded directories. *)
Context (bundled : result string (list (CRD X M))) (rbac webhooks defaults : result string (list BootObject)).
Context (opts : GlobalOptions).

Definition requireConfirmation : io S string unit :=
  if op_Yes opts then mret tt else fail "operation requires --yes to continue".

(** [NewRunner] *)
Definition out_dir : string := if str_eqb (op_OutDir opts) "" then defaultOutDir else op_OutDir opts.

Fixpoint apply_group (objs : list BootObject) : io S string (list (ApplySummary * BootObject)) :=
  match objs with
  | [] => mret []
  | obj :: objs =>
      r ← Runner_ApplyObject out_dir obj;
      rest ← apply_group objs;
      mret (r :: rest)
  end.

Definition render_applied (l : list (ApplySummary * BootObject)) : io S string unit :=
  RenderOutput (op_Output opts) (SummariesToTable (fst <$> l)) (snd <$> l).

Definition initCommand : io S string unit :=
  _ ← requireConfirmation;
  _ ← ensureCRDsWithClient bundled;
  rbac ← or_err rbac;
  a ← wrap_err (fun e => "apply rbac: " +:+ e) (apply_group rbac);
  webhooks ← or_err webhooks;
  b ← wrap_err (fun e => "apply webhooks: " +:+ e) (apply_group webhooks);
  render_applied (a ++ b).

Definition defaultsCommand : io S string unit :=
  _ ← requireConfirmation;
  defaults ← or_err defaults;
  l ← apply_group defaults;
  render_applied l.

(** A command that applies one object and shows a table of it. *)
Definition createCommand (build : result string BootObject) (table : ApplySummary -> BootSpec -> list (list string)) : io S string unit :=
  _ ← requireConfirmation;
  obj ← or_err build;
  r ← Runner_ApplyObject out_dir obj;
  RenderOutput (op_Output opts) (table r.1 (bo_Spec r.2)) [r.2].

(** The columns of an object of a type; other types do not occur. *)
Definition columns (header : list string) (row : BootSpec -> list string) (s : ApplySummary) (spec : BootSpec) : list (list string) :=
  [header; su_Name s :: row spec].

Definition run (c : command) : io S string unit :=
  match c with
  | Init => initCommand
  | Defaults => defaultsCommand
  | TenantCreate input =>
      createCommand (BuildTenant input)
        (columns ["TENANT"; "DISPLAY NAME"; "BILLING ACCOUNT"]
           (fun sp => match sp with TenantSpec d b => [d; b] | _ => [] end))
  | ProjectCreate input =>
      createCommand (BuildProject input)
        (columns ["PROJECT"; "TENANT"; "NAMESPACE"; "ENV"; "PURPOSE"]
           (fun sp => match sp with ProjectSpec t p e n _ => [t; n; e; p] | _ => [] end))
  | DomainAttach input =>
      createCommand (BuildDomain input)
        (columns ["DOMAIN"; "FQDN"; "TENANT"; "DNS PROVIDER"; "CERT POLICY"]
           (fun sp => match sp with DomainSpec f t d c => [f; t; d; c] | _ => [] end))
  | RegistryAdd input =>
      createCommand
        (match parseRegistryType (ri_Type input) with
         | Err e => Err e
         | Ok t => BuildRegistryCredential (mkRegistryInput (ri_Name input) (ri_TenantRef input) t (ri_SecretRef input))
         end)
        (columns ["REGISTRY"; "TYPE"; "TENANT"; "SECRET"]
           (fun sp => match sp with RegistryCredentialSpec t s tn => [t; tn; s] | _ => [] end))
  end.
End Commands.

(** [appendUserAgent] *)
Definition appendUserAgent (existing : string) : string :=
  let ua := "kubeop-bootstrap/0" in
  if blank existing then ua else if Contains existing ua then existing else existing +:+ " " +:+ ua.

(** ** What the commands send *)

(** A request that writes to the server. *)
Inductive request (X M : Type) :=
| Applied (owner : string) (o : BootObject)
| CreatedCRD (c : CRD X M)
| UpdatedCRD (c : CRD X M).
Arguments Applied {X M}.
Arguments CreatedCRD {X M}.
Arguments UpdatedCRD {X M}.

(** The log of the requests sent so far grows by every write, unless it fails before it is sent, and by nothing
    else. *)
Class BootLaws (S X M : Type) `{crd_api : CRDAPI S X M} `{api : BootAPI S} := {
  sent : S -> list (request X M);
  patch_sent owner o s r s' : boot_Patch owner o s = (r, s') -> sent s' = sent s ++ [Applied owner o] \/ (sent s' = sent s /\ is_ok r = false);
  mkdir_sent d s r s' : MkdirAll d s = (r, s') -> sent s' = sent s;
  write_sent p data s r s' : WriteFile p data s = (r, s') -> sent s' = sent s;
  event_sent e s r s' : write_event e s = (r, s') -> sent s' = sent s;
  uuid_sent s : sent (boot_uuid s).2 = sent s;
  out_sent t s r s' : write_out t s = (r, s') -> sent s' = sent s;
  crd_get_sent n s r s' : crd_Get n s = (r, s') -> sent s' = sent s;
  crd_create_sent (c : CRD X M) s r s' : crd_Create c s = (r, s') -> sent s' = sent s ++ [CreatedCRD c] \/ (sent s' = sent s /\ is_ok r = false);
  crd_update_sent (c : CRD X M) s r s' : crd_Update c s = (r, s') -> sent s' = sent s ++ [UpdatedCRD c] \/ (sent s' = sent s /\ is_ok r = false);
}.

(** [x] is [o] as it is sent: under the name of the tool, with the kind the scheme gives, and
    neither a version nor managed fields. *)
Definition prepared {S X M} `{BootAPI S} (o : BootObject) (q : request X M) : Prop :=
  exists g v k, gvk_of o = Ok (g, v, k) /\
  q = Applied "bootstrap.kubeop.io/cli"
        (mkBoot (if str_eqb g "" then v else g +:+ "/" +:+ v) k (bo_Namespace o) (bo_Name o) (bo_Labels o) "" [] (bo_Spec o)).

(** The write that brings a bundled CRD to the server: it is created, or the one there is given its
    specification and its labels and annotations over those it has. *)
Definition crd_request {X M} (c : CRD X M) (q : request X M) : Prop :=
  let want := sanitizePrinterColumns c in
  match q with
  | CreatedCRD x => x = want
  | UpdatedCRD x => crd_Name x = crd_Name c /\ crd_Spec x = crd_Spec want /\
      (exists old, crd_Labels x = mergeStringMap old (crd_Labels c)) /\ (exists old, crd_Annotations x = mergeStringMap old (crd_Annotations c))
  | Applied _ _ => False
  end.

Section Sends.
Context {S X M : Type} `{EqDecision X} `{laws : BootLaws S X M}.

(** [m] sends nothing. *)
Definition silent {A} (m : io S string A) : Prop := forall s r s', m s = (r, s') -> sent s' = sent s.

Lemma silent_pure {A} (m : io S string A) : (forall s, (m s).2 = s) -> silent m.
Proof. intros Hm s r s' H. specialize (Hm s). rewrite H in Hm. cbn in Hm. by subst. Qed.
Lemma silent_bind {A B} (m : io S string A) (f : A -> io S string B) : silent m -> (forall a, silent (f a)) -> silent (m ≫= f).
Proof.
  intros Hm Hf s r s' [(e & H & _)|(a & s1 & H1 & H)]%io_bind_case; [by eapply Hm|].
  rewrite (Hf _ _ _ _ H). by eapply Hm.
Qed.
Lemma silent_wrap {A} f (m : io S string A) : silent m -> silent (wrap_err f m).
Proof. intros Hm s r s'. unfold wrap_err. destruct (m s) as [[a|e] s1] eqn:E; intros [= _ <-]; by eapply Hm. Qed.
Lemma silent_for_each {A} (f : A -> io S string unit) l : (forall x, silent (f x)) -> silent (for_each f l).
Proof. intros Hf. induction l as [|x l IH]; [by apply silent_pure|]. by apply silent_bind. Qed.

Lemma silent_encode o : silent (encodeYAML o).
Proof. apply silent_pure. intros s. unfold encodeYAML. destruct (serialise o); [done|]. by destruct (marshal_yaml o). Qed.

Ltac silent := repeat first [apply silent_encode | apply silent_bind; [|intros ?] | apply silent_wrap | solve [apply silent_pure; done] | progress case_match].

Lemma silent_write outDir o gvk : silent (writeObject outDir o gvk).
Proof. unfold writeObject. silent; intros s r s'; [apply mkdir_sent|apply write_sent]. Qed.

Lemma silent_emit t src d : silent (log_failure (e ← NewAuditEvent t src d; Emit e)).
Proof.
  assert (He : silent (e ← NewAuditEvent t src d; Emit e)).
  { apply silent_bind; [|intros e]; intros s r s'.
    - unfold NewAuditEvent. pose proof (uuid_sent s) as Hu. destruct (boot_uuid s) as [id s1]. by intros [= _ <-].
    - unfold Emit. pose proof (uuid_sent s) as Hu. destruct (str_eqb (ev_ID e) "").
      + destruct (boot_uuid s) as [id s1]. cbn in Hu. rewrite <- Hu. apply event_sent.
      + apply event_sent. }
  intros s r s'. unfold log_failure. intros [= _ <-]. destruct ((e ← NewAuditEvent t src d; Emit e) s) as [x s1] eqn:E. cbn. by eapply He.
Qed.

Lemma silent_render format table objs : silent (RenderOutput format table objs).
Proof.
  assert (Ho : forall t, silent (write_out t)) by (intros t s r s'; apply out_sent).
  assert (Hy : forall first, silent (render_objects first objs)).
  { induction objs as [|o objs IH]; intros first; cbn [render_objects]; silent; auto. }
  unfold RenderOutput, renderTable, renderYAML. silent; auto.
Qed.

Lemma silent_poll n name : silent (poll_ready (M := M) n name).
Proof.
  induction n as [|n IH]; intros s r s'; cbn [poll_ready]; [by intros [= _ <-]|].
  destruct (crd_Get name s) as [[c|[e|e]] s1] eqn:E; apply crd_get_sent in E as <-; [|apply IH|by intros [= _ <-]].
  destruct (ready_conditions _); [by intros [= _ <-]|apply IH].
Qed.

(** At most one write for a CRD. *)
Lemma ensure_crd_sends (crd : CRD X M) s r s' : ensure_crd crd s = (r, s') ->
  sent s' = sent s \/ exists q, sent s' = sent s ++ [q] /\ crd_request crd q.
Proof.
  unfold ensure_crd. cbv zeta. set (want := sanitizePrinterColumns crd). intros H.
  assert (Hp : forall r0 s1, put_crd want s = (r0, s1) -> sent s1 = sent s \/ exists q, sent s1 = sent s ++ [q] /\ crd_request crd q).
  { clear. intros r0 s1. unfold put_crd. destruct (crd_Get _ s) as [[c|[e|e]] s0] eqn:E; apply crd_get_sent in E as <-;
      [| |intros [= _ <-]; by left].
    - destruct (needsUpdate _ _); [|intros [= _ <-]; by left]. unfold wrap_err.
      destruct (crd_Update _ s0) as [[x|x] s2] eqn:Eu; intros [= _ <-]; apply crd_update_sent in Eu as [Eu|[Eu _]]; auto;
        (right; eexists; split; [exact Eu|]; cbn; split_and!; [done|done|by eexists|by eexists]).
    - unfold wrap_err. destruct (crd_Create _ s0) as [[x|x] s2] eqn:Ec; intros [= _ <-]; apply crd_create_sent in Ec as [Ec|[Ec _]]; auto;
        (right; eexists; split; [exact Ec|done]). }
  apply io_bind_case in H as [(e & H & _)|([] & s1 & H1 & H)]; [by eapply Hp|].
  assert (sent s' = sent s1) as -> by (eapply silent_wrap, H; apply silent_poll). by eapply Hp.
Qed.

Lemma crds_send (l : list (CRD X M)) : forall s r s', for_each ensure_crd l s = (r, s') ->
  exists crds qs, sublist crds l /\ Forall2 crd_request crds qs /\ sent s' = sent s ++ qs.
Proof.
  induction l as [|c l IH]; intros s r s'; cbn [for_each].
  { intros [= _ <-]. exists [], []. split_and!; [constructor|constructor|by rewrite app_nil_r]. }
  intros [(e & H%ensure_crd_sends & _)|([] & s1 & H1%ensure_crd_sends & H)]%io_bind_case.
  - destruct H as [H|(q & H & Hq)].
    + exists [], []. split_and!; [apply sublist_nil_l|constructor|by rewrite app_nil_r].
    + exists [c], [q]. split_and!; [apply sublist_skip, sublist_nil_l|by repeat constructor|done].
  - apply IH in H as (crds & qs & Hs & Hf & H). destruct H1 as [H1|(q & H1 & Hq)]; rewrite H1 in H.
    + exists crds, qs. split_and!; [by apply sublist_cons|done|done].
    + exists (c :: crds), (q :: qs). split_and!; [by apply sublist_skip|by constructor|by rewrite H, <- app_assoc].
Qed.

(** [n] of the objects were sent, in order and as prepared. *)
Definition sends (objs : list BootObject) (n : nat) (s s' : S) : Prop :=
  n <= length objs /\ exists l, sent s' = sent s ++ l /\ Forall2 prepared (take n objs) l.

Lemma prepared_sent o gvk : gvk_of o = Ok gvk -> prepared o (Applied (X := X) (M := M) defaultFieldOwner (reset_server_fields (SetGVK o gvk))).
Proof. destruct gvk as [[g v] k]. intros Eg. by exists g, v, k. Qed.

Lemma runner_sends outDir o s r s' : Runner_ApplyObject outDir o s = (r, s') ->
  exists n, sends [o] n s s' /\ (is_ok r = true -> n = 1).
Proof.
  assert (H0 : forall s1, sent s1 = sent s -> exists n, sends [o] n s s1 /\ (false = true -> n = 1)).
  { intros s1 H1. exists 0. split; [|done]. split; [cbn; lia|]. exists []. by rewrite H1, app_nil_r. }
  unfold Runner_ApplyObject, ApplyObject. intros H. unfold wrap_err, or_err in H. destruct (gvk_of o) as [gvk|e] eqn:Eg.
  2: { apply io_bind_case in H as [(e' & [= _ <-] & ->)|(? & ? & [=] & _)]. by apply H0. }
  apply io_bind_case in H as [(? & [=] & _)|(? & s0 & [= <- <-] & H)]. apply io_bind_case in H as [(e & H & ->)|(o' & s1 & H1 & H)].
  - apply io_bind_case in H as [(? & [=] & _)|(? & s0 & [= <- <-] & H)]. apply patch_sent in H as [H|[H _]]; [|by apply H0].
    exists 1. split; [|done]. split; [cbn; lia|]. eexists. split; [exact H|]. repeat constructor. by apply prepared_sent.
  - apply io_bind_case in H1 as [(? & [=] & _)|(? & s0 & [= <- <-] & H1)]. apply patch_sent in H1 as [H1|[_ [=]]].
    assert (Hs : sent s' = sent s1).
    { revert H. destruct gvk as [[g v] k]. apply (silent_bind (writeObject _ _ _)); [apply silent_write|]. intros o2.
      apply silent_bind; [apply silent_emit|]. intros _. by apply silent_pure. }
    exists 1. split; [|done]. split; [cbn; lia|]. eexists. split; [by rewrite Hs, H1|]. repeat constructor. by apply prepared_sent.
Qed.

Lemma group_sends opts objs : forall s r s', apply_group opts objs s = (r, s') ->
  exists n, sends objs n s s' /\ (is_ok r = true -> n = length objs).
Proof.
  induction objs as [|o objs IH]; intros s r s'; cbn [apply_group].
  { intros [= <- <-]. exists 0. split; [|done]. split; [done|]. exists []. by rewrite app_nil_r. }
  intros [(e & H & ->)|(x & s1 & H1 & H)]%io_bind_case.
  - apply runner_sends in H as (n & (Hn & l & Hl & Hf) & _). exists n. split; [|done]. split; [cbn in *; lia|]. exists l. split; [done|].
    destruct n as [|[|n]]; [done|done|cbn in Hn; lia].
  - apply runner_sends in H1 as (n & (Hn & l & Hl & Hf) & Hok). specialize (Hok eq_refl) as ->.
    assert (H2 : exists n, sends objs n s1 s' /\ (is_ok r = true -> n = length objs)).
    { apply io_bind_case in H as [(e & H & ->)|(rest & s2 & H2 & [= <- <-])]; [by apply IH in H|].
      by apply IH in H2 as (n & ? & Hn2); exists n. }
    destruct H2 as (n & (Hn2 & l2 & Hl2 & Hf2) & Hok2). exists (Datatypes.S n). split; [|cbn; auto]. split; [cbn; lia|].
    exists (l ++ l2). split; [by rewrite Hl2, Hl, app_assoc|]. cbn [take]. change (o :: take n objs) with ([o] ++ take n objs). by apply Forall2_app.
Qed.
End Sends.

(** ** The commands *)

Section Run.
Context {S X M : Type} `{EqDecision X} `{laws : BootLaws S X M}.
Context (bundled : result string (list (CRD X M))) (rbac webhooks defaults : result string (list BootObject)) (opts : GlobalOptions).

Definition objects_of (r : result string (list BootObject)) : list BootObject := match r with Ok l => l | Err _ => [] end.
Definition object_of (r : result string BootObject) : list BootObject := match r with Ok o => [o] | Err _ => [] end.

(** The object the flags of a command describe. *)
Inductive described : command -> BootObject -> Prop :=
| described_tenant name display billing : name <> "" -> dns1123_label name = true -> billing <> "" ->
    described (TenantCreate (mkTenantInput name display billing))
      (mkBoot "paas.kubeop.io/v1alpha1" "Tenant" "" name {["paas.kubeop.io/tenant" := name]} "" []
         (TenantSpec (if str_eqb display "" then name else display) billing))
| described_project name ns tenant purpose env env' : name <> "" -> ns <> "" -> tenant <> "" ->
    env' = (if str_eqb env "" then "dev" else env) ->
    described (ProjectCreate (mkProjectInput name ns tenant purpose env))
      (mkBoot "paas.kubeop.io/v1alpha1" "Project" ns name
         {["paas.kubeop.io/tenant" := tenant; "paas.kubeop.io/project" := name; "paas.kubeop.io/env" := env']} "" []
         (ProjectSpec tenant purpose env' ns "baseline"))
| described_domain name fqdn tenant dns policy : name <> "" -> fqdn <> "" -> tenant <> "" -> dns <> "" ->
    described (DomainAttach (mkDomainInput name fqdn tenant dns policy))
      (mkBoot "paas.kubeop.io/v1alpha1" "Domain" "" name {["paas.kubeop.io/tenant" := tenant]} "" [] (DomainSpec fqdn tenant dns policy))
| described_registry name tenant type secret type' : name <> "" -> tenant <> "" -> secret <> "" ->
    type' ∈ ["dockerHub"; "ecr"; "gcr"; "harbor"] -> ToLower type = ToLower type' ->
    described (RegistryAdd (mkRegistryInput name tenant type secret))
      (mkBoot "paas.kubeop.io/v1alpha1" "RegistryCredential" "" name {["paas.kubeop.io/tenant" := tenant]} "" []
         (RegistryCredentialSpec type' secret tenant)).

(** What a command is there to apply: the embedded manifests, or the object its flags describe,
    and nothing when they describe none. *)
Definition plan (c : command) (objs : list BootObject) : Prop :=
  match c with
  | Init => objs = objects_of rbac ++ objects_of webhooks
  | Defaults => objs = objects_of defaults
  | _ => (exists o, described c o /\ objs = [o]) \/ (objs = [] /\ forall o, ~ described c o)
  end.

(** The CRDs a command is there to install. *)
Definition planned_crds (c : command) : list (CRD X M) :=
  match c, bundled with Init, Ok l => l | _, _ => [] end.

Lemma sends_nothing objs (s s' : S) : sent s' = sent s -> sends objs 0 s s'.
Proof. intros H. split; [lia|]. exists []. by rewrite H, app_nil_r. Qed.

Lemma sends_more a b n m (s s1 s' : S) : sends a (length a) s s1 -> n = length a -> sends b m s1 s' -> sends (a ++ b) (n + m) s s'.
Proof.
  intros (_ & l & Hl & Hf) -> (Hm & l' & Hl' & Hf'). split; [rewrite length_app; lia|]. exists (l ++ l'). split; [by rewrite Hl', Hl, app_assoc|].
  rewrite take_app, Nat.add_comm, Nat.add_sub, take_ge by lia. rewrite take_ge in Hf by done. by apply Forall2_app.
Qed.

Lemma sends_prefix a b n (s s' : S) : sends a n s s' -> sends (a ++ b) n s s'.
Proof. intros (Hn & H). split; [rewrite length_app; lia|]. by rewrite take_app_le. Qed.

(** [m] sends objects of the list in order, and all of them when it succeeds. *)
Definition sends_all {A} (objs : list BootObject) (m : io S string A) : Prop :=
  forall s r s', m s = (r, s') -> exists n, sends objs n s s' /\ (is_ok r = true -> n = length objs).

Lemma all_silent {A} (m : io S string A) : silent m -> sends_all [] m.
Proof. intros Hm s r s' H. exists 0. split; [|done]. by eapply sends_nothing, Hm. Qed.
Lemma all_wrap {A} objs g (m : io S string A) : sends_all objs m -> sends_all objs (wrap_err g m).
Proof.
  intros Hm s r s'. unfold wrap_err. destruct (m s) as [[a|e] s1] eqn:E; intros [= <- <-]; apply Hm in E as (n & Hn & Hok); exists n; split; try done.
Qed.
Lemma all_bind {A B} a b (m : io S string A) (f : A -> io S string B) :
  sends_all a m -> (forall x, sends_all b (f x)) -> sends_all (a ++ b) (m ≫= f).
Proof.
  intros Hm Hf s r s' [(e & H & ->)|(x & s1 & H1 & H)]%io_bind_case.
  - apply Hm in H as (n & Hn & _). exists n. split; [by apply sends_prefix|done].
  - apply Hm in H1 as (n & Hn & Hok). specialize (Hok eq_refl) as ->. apply Hf in H as (m' & Hm' & Hok'). exists (length a + m').
    split; [by eapply sends_more|]. intros Hr. by rewrite Hok', length_app.
Qed.
(** A step that sends nothing, before or after. *)
Lemma all_skip {A B} b (m : io S string A) (f : A -> io S string B) : silent m -> (forall x, sends_all b (f x)) -> sends_all b (m ≫= f).
Proof. intros Hm. apply (all_bind []), all_silent, Hm. Qed.
Lemma all_then {A B} a (m : io S string A) (f : A -> io S string B) : sends_all a m -> (forall x, silent (f x)) -> sends_all a (m ≫= f).
Proof. intros Hm Hf. rewrite <- (app_nil_r a). apply all_bind; [done|]. intros x. apply all_silent, Hf. Qed.
Lemma all_read {A B} objs (x : result string A) (f : A -> io S string B) :
  (forall a, x = Ok a -> sends_all objs (f a)) -> sends_all objs (a ← or_err x; f a).
Proof.
  intros Hf. destruct x as [a|e]; [by apply (Hf a)|]. intros s r s' [= <- <-]. exists 0. split; [by apply sends_nothing|done].
Qed.

Lemma confirmation_silent : silent (requireConfirmation opts).
Proof. unfold requireConfirmation. destruct (op_Yes opts); by apply silent_pure. Qed.

Lemma create_sends build table : sends_all (object_of build) (createCommand opts build table).
Proof.
  apply all_skip; [apply confirmation_silent|intros _]. apply all_read. intros o ->.
  apply all_then; [intros s r s'; apply runner_sends|intros x; apply silent_render].
Qed.

Lemma apply_group_sends objs : sends_all objs (apply_group opts objs).
Proof. intros s r s'. apply group_sends. Qed.

Lemma init_sends s r s' : initCommand bundled rbac webhooks opts s = (r, s') ->
  exists crds qs s1, sublist crds (planned_crds Init) /\ Forall2 crd_request crds qs /\ sent s1 = sent s ++ qs /\
    exists n, sends (objects_of rbac ++ objects_of webhooks) n s1 s' /\ (is_ok r = true -> n = length (objects_of rbac ++ objects_of webhooks)).
Proof.
  unfold initCommand. intros [(e & H%confirmation_silent & ->)|([] & s0 & H0%confirmation_silent & H)]%io_bind_case.
  { exists [], [], s'. split_and!; [apply sublist_nil_l|constructor|by rewrite app_nil_r|]. exists 0. split; [by apply sends_nothing|done]. }
  assert (Hc : forall x s1, ensureCRDsWithClient bundled s0 = (x, s1) ->
    exists crds qs, sublist crds (planned_crds Init) /\ Forall2 crd_request crds qs /\ sent s1 = sent s ++ qs).
  { intros x s1. rewrite <- H0. unfold planned_crds, ensureCRDsWithClient. destruct bundled as [l|e]; [apply crds_send|].
    intros [= _ <-]. exists [], []. split_and!; [constructor|constructor|by rewrite app_nil_r]. }
  apply io_bind_case in H as [(e & H & ->)|([] & s1 & H1 & H)].
  { destruct (Hc _ _ H) as (crds & qs & Hs & Hf & Hq). exists crds, qs, s'. split_and!; [done..|]. exists 0. split; [by apply sends_nothing|done]. }
  destruct (Hc _ _ H1) as (crds & qs & Hs & Hf & Hq). exists crds, qs, s1. split_and!; [done..|]. revert s1 r s' H H1 Hq. clear.
  intros s1 r s' H _ _. revert s1 r s' H.
  match goal with |- forall s r s', ?m s = _ -> _ => change (sends_all (objects_of rbac ++ objects_of webhooks) m) end.
  apply all_read. intros a Ha. rewrite Ha. apply all_bind; [apply all_wrap, apply_group_sends|]. intros x.
  apply all_read. intros b ->. apply all_then; [apply all_wrap, apply_group_sends|intros y; apply silent_render].
Qed.

Lemma defaults_sends : sends_all (objects_of defaults) (defaultsCommand defaults opts).
Proof.
  apply all_skip; [apply confirmation_silent|intros _]. apply all_read. intros l Hl. rewrite Hl.
  apply all_then; [apply apply_group_sends|intros y; apply silent_render].
Qed.

(** ** The builders build what the flags describe *)

(** A flag that is missing: no object is described. *)
Ltac undescribed := right; split; [done|]; intros ? H; inversion H; subst; cbn in *; congruence.

Lemma tenant_plan i : plan (TenantCreate i) (object_of (BuildTenant i)).
Proof.
  destruct i as [name display billing]. cbn [plan]. unfold BuildTenant. cbn [ti_Name ti_DisplayName ti_BillingAccountRef].
  destruct (str_eqb name "") eqn:En; [apply str_eqb_eq in En; undescribed|]. destruct (dns1123_label name) eqn:El; cbn [negb]; [|undescribed].
  destruct (str_eqb billing "") eqn:Eb; [apply str_eqb_eq in Eb; undescribed|].
  left. eexists. split; [|done]. apply str_eqb_neq in En, Eb. by constructor.
Qed.

Lemma project_plan i : plan (ProjectCreate i) (object_of (BuildProject i)).
Proof.
  destruct i as [name ns tenant purpose env]. cbn [plan]. unfold BuildProject. cbn [pi_Name pi_Namespace pi_TenantRef pi_Purpose pi_Environment].
  destruct (str_eqb name "") eqn:En; [apply str_eqb_eq in En; undescribed|].
  destruct (str_eqb ns "") eqn:Es; [apply str_eqb_eq in Es; undescribed|].
  destruct (str_eqb tenant "") eqn:Et; [apply str_eqb_eq in Et; undescribed|]. cbn [orb].
  left. eexists. split; [|done]. apply str_eqb_neq in En, Es, Et. by constructor.
Qed.

Lemma domain_plan i : plan (DomainAttach i) (object_of (BuildDomain i)).
Proof.
  destruct i as [name fqdn tenant dns policy]. cbn [plan]. unfold BuildDomain. cbn [di_Name di_FQDN di_TenantRef di_DNSProviderRef di_CertificatePolicyRef].
  destruct (str_eqb name "") eqn:En; [apply str_eqb_eq in En; undescribed|].
  destruct (str_eqb fqdn "") eqn:Ef; [apply str_eqb_eq in Ef; undescribed|].
  destruct (str_eqb tenant "") eqn:Et; [apply str_eqb_eq in Et; undescribed|].
  destruct (str_eqb dns "") eqn:Ed; [apply str_eqb_eq in Ed; undescribed|]. cbn [orb].
  left. eexists. split; [|done]. apply str_eqb_neq in En, Ef, Et, Ed. by constructor.
Qed.

Lemma registry_plan i : plan (RegistryAdd i) (object_of
  match parseRegistryType (ri_Type i) with
  | Err e => Err e
  | Ok t => BuildRegistryCredential (mkRegistryInput (ri_Name i) (ri_TenantRef i) t (ri_SecretRef i))
  end).
Proof.
  destruct i as [name tenant type secret]. cbn [plan ri_Name ri_TenantRef ri_Type ri_SecretRef]. unfold parseRegistryType.
  destruct (List.find _ _) as [t|] eqn:Et.
  - apply find_some in Et as [Hin%list_elem_of_In Ht%str_eqb_eq]. unfold BuildRegistryCredential. cbn [ri_Name ri_TenantRef ri_Type ri_SecretRef].
    destruct (str_eqb name "") eqn:En; [apply str_eqb_eq in En; undescribed|].
    destruct (str_eqb secret "") eqn:Es; [apply str_eqb_eq in Es; undescribed|].
    destruct (str_eqb tenant "") eqn:Etn; [apply str_eqb_eq in Etn; undescribed|]. cbn [orb].
    left. eexists. split; [|done]. apply str_eqb_neq in En, Es, Etn. by constructor.
  - right. split; [done|]. intros o H. inversion H as [| | |? ? ? ? t ? ? ? Hin%list_elem_of_In E]; subst.
    apply (find_none _ _ Et) in Hin. by rewrite E, str_eqb_refl in Hin.
Qed.

(** C27: the requests of a command that write to the server are, for [init], at most one for each bundled CRD,
    in their order, which creates it or gives it its bundled specification; and then objects of
    the plan of the command only, in their order, under the name of the tool and without
    the fields the server owns: the embedded manifests, or the one object the flags describe. A
    successful command has sent the whole plan, and without the confirmation flag nothing at all happens. *)
Theorem commands_send_plan c s r s' :
  run bundled rbac webhooks defaults opts c s = (r, s') ->
  (op_Yes opts = false -> s' = s /\ is_ok r = false) /\
  exists objs crds qs n l, plan c objs /\ sent s' = sent s ++ qs ++ l /\
    sublist crds (planned_crds c) /\ Forall2 crd_request crds qs /\
    (n <= length objs)%nat /\ Forall2 prepared (take n objs) l /\ (is_ok r = true -> n = length objs).
Proof.
  intros H. split.
  { intros Hy. destruct c; cbn [run] in H; unfold initCommand, defaultsCommand, createCommand, requireConfirmation in H;
      rewrite Hy in H; by injection H as <- <-. }
  assert (Hone : forall objs (m : io S string unit), plan c objs -> sends_all objs m -> m s = (r, s') ->
    exists objs crds qs n l, plan c objs /\ sent s' = sent s ++ qs ++ l /\ sublist crds (planned_crds c) /\ Forall2 crd_request crds qs /\
    (n <= length objs)%nat /\ Forall2 prepared (take n objs) l /\ (is_ok r = true -> n = length objs)).
  { intros objs m Hp Hm (n & (Hn & l & Hl & Hf) & Hok)%Hm. exists objs, [], [], n, l. split_and!; try done. apply sublist_nil_l. }
  destruct c as [| |i|i|i|i]; cbn [run] in H.
  - apply init_sends in H as (crds & qs & s1 & Hs & Hf & H1 & n & (Hn & l & Hl & Hp) & Hok).
    eexists _, crds, qs, n, l. split; [done|]. split_and!; try done. by rewrite Hl, H1, app_assoc.
  - by eapply Hone, H; [|apply defaults_sends].
  - eapply Hone, H; [apply tenant_plan|apply create_sends].
  - eapply Hone, H; [apply project_plan|apply create_sends].
  - eapply Hone, H; [apply domain_plan|apply create_sends].
  - eapply Hone, H; [apply registry_plan|apply create_sends].
Qed.
End Run.

(** ** The tool and the webhooks *)

(** The Project as the admission webhook sees it. *)
Definition admitted_project (o : BootObject) : Project :=
  mkProject (mkMeta (bo_Name o) (bo_Namespace o) (Some (bo_Labels o)) None 0)
    (mkProjectSpec (match bo_Spec o with ProjectSpec t _ _ _ _ => t | _ => "" end) "").

Lemma unlabelled_refused p : GetLabel (project_meta p) labelApp = "" -> ~ admits (ProjectWebhook.ValidateCreate (OProject p)).
Proof.
  intros Ha. cbv beta iota delta [ProjectWebhook.ValidateCreate]. rewrite admits_errs, validateProject_nil. intros [Hl _].
  apply (Hl labelApp); [unfold requiredLabelKeys; set_solver|]. by rewrite Ha.
Qed.

(** Whatever the flags, the Project the tool builds lacks the app label the operator's webhook
    asks of every object, so the webhook refuses it. *)
Theorem bootstrap_project_refused input o :
  BuildProject input = Ok o -> ~ admits (ProjectWebhook.ValidateCreate (OProject (admitted_project o))).
Proof.
  unfold BuildProject. destruct (_ || _ || _); [done|]. intros [= <-]. apply unlabelled_refused.
  unfold GetLabel, map_get. cbn [Labels project_meta admitted_project bo_Labels paas mbind option_bind].
  by rewrite !lookup_insert_ne, lookup_singleton_ne.
Qed.

(** ** A run of the tool *)

Module BootDemo.
Import CrdDemo.
(** Patches, files and output; the server knows the groups of Kubernetes and of the operator. *)
Record machine := mkMachine { m_sent : list (request string unit); m_files : gmap string string; m_out : string; m_crds : CrdDemo.server }.
Definition known (o : BootObject) : bool := negb (str_eqb (bo_Kind o) "Kustomization").

#[export] Instance crd_api : CRDAPI machine string unit := {|
  crd_Get n s := ((crd_Get n (m_crds s)).1, s);
  crd_Create c s := (Ok tt, mkMachine (m_sent s ++ [CreatedCRD c]) (m_files s) (m_out s) (crd_Create c (m_crds s)).2);
  crd_Update c s := (Ok tt, mkMachine (m_sent s ++ [UpdatedCRD c]) (m_files s) (m_out s) (crd_Update c (m_crds s)).2)
|}.
#[export] Instance api : BootAPI machine := {|
  gvk_of o := Ok (if str_eqb (bo_APIVersion o) GroupVersion then ("paas.kubeop.io", "v1alpha1", bo_Kind o) else ("", "v1", bo_Kind o));
  boot_Patch owner o s :=
    if known o then (Ok o, mkMachine (m_sent s ++ [Applied owner o]) (m_files s) (m_out s) (m_crds s))
    else (Err ("no matches for kind " +:+ bo_Kind o), s);
  serialise o := Ok (bo_Kind o +:+ " " +:+ bo_Name o); marshal_yaml _ := Err "";
  MkdirAll _ s := (Ok tt, s);
  WriteFile p data s := (Ok tt, mkMachine (m_sent s) (<[p := data]> (m_files s)) (m_out s) (m_crds s));
  write_event _ s := (Ok tt, s); boot_uuid s := ("id", s); boot_now _ := 0%Z;
  write_out t s := (Ok tt, mkMachine (m_sent s) (m_files s) (m_out s +:+ t) (m_crds s));
  tabulate rows := Join rows newline
|}.
#[export] Instance laws : BootLaws machine string unit.
Proof.
  refine {| sent := m_sent |}; try (intros; simplify_eq/=; by auto); try done.
  - intros owner o s r s'. unfold boot_Patch, api. destruct (known o); intros [= <- <-]; [by left|by right].
Defined.

Definition start : machine := mkMachine [] ∅ "" ∅.
Definition opts : GlobalOptions := mkOptions true "table" "".
Definition manifest (kind name : string) : BootObject := mkBoot "v1" kind "" name ∅ "" [] (Manifest "").
Definition exec : command -> io machine string unit :=
  run (Ok CrdDemo.bundle) (Ok [manifest "ServiceAccount" "kubeop"]) (Ok []) (Ok []) opts.

Lemma installed : is_ok (exec Init start).1 = true.
Proof. vm_compute. reflexivity. Qed.

(** Both CRDs are created, and the manifest of the directory is applied. *)
Lemma commands_send_plan_witness : exists crds qs l, m_sent (exec Init start).2 = [] ++ qs ++ l /\
  sublist crds CrdDemo.bundle /\ Forall2 crd_request crds qs /\ Forall2 prepared [manifest "ServiceAccount" "kubeop"] l.
Proof.
  pose proof installed as Hok. unfold exec in *. destruct (run _ _ _ _ _ Init start) as [r s'] eqn:E.
  destruct (commands_send_plan (Ok CrdDemo.bundle) (Ok [manifest "ServiceAccount" "kubeop"]) (Ok []) (Ok []) opts Init start r s' E)
    as [_ (objs & crds & qs & n & l & Hp & Hs & Hc & Hq & _ & Hl & Hn)].
  exists crds, qs, l. split; [exact Hs|]. split; [exact Hc|]. split; [exact Hq|].
  rewrite (Hn Hok) in Hl. cbn in Hp. subst objs. exact Hl.
Defined.

(** The manifests of a directory include its kustomization file, which no server takes. *)
Definition rbac_dir : gmap string (result string string) :=
  {["clusterrole.yaml" := Ok "ClusterRole"; "kustomization.yaml" := Ok "Kustomization"; "serviceaccount.yaml" := Ok "ServiceAccount"]}.
Definition rbac : result string (list BootObject) :=
  loadManifests (fun kind => [Ok (mkDocument false (manifest kind "kubeop"))]) rbac_dir.

Example init_fails :
  (run (Ok CrdDemo.bundle) rbac (Ok []) (Ok []) opts Init start).1 = Err "apply rbac: no matches for kind Kustomization".
Proof. vm_compute. reflexivity. Qed.
End BootDemo.
