(* ===== verification/Credentials.v ===== *)
(** Credentials for Git repositories and OCI registries: [internal/service/credentials.go], and
    their use in [gitCredentialAuth] of [git_source.go] and [registryCredentialAuth] of
    [apps.go].

    The secret of a credential is a JSON object, encrypted with the key of the service.  Git
    and registry credentials differ in the registry and in the kinds of authentication; what
    they share is written once. *)

From Stdlib Require Import Ascii ZArith Lia.
From stdpp Require Import base gmap strings list.
From S2P Require Import Prelude Utf8 GoStrings Hash NetURL Kube Aes Crypto Json Config Events Maintenance.
From S2P Require Import Store StoreApps Tenancy.

(** ** Data *)

Definition CredentialScopeUser := "USER".
Definition CredentialScopeProject := "PROJECT".

Record CredentialScopeInput := mkScopeInput { si_Type : string; si_ID : string }.
Record CredentialListInput := mkListInput { li_UserID : string; li_ProjectID : string }.

Record GitCredentialCreateInput := mkGitInput {
  gi_Name : string; gi_Scope : CredentialScopeInput; gi_AuthType : string; gi_Username : string; gi_Token : string;
  gi_Password : string; gi_PrivateKey : string; gi_Passphrase : string
}.

Record RegistryCredentialCreateInput := mkRegistryInput {
  rgi_Name : string; rgi_Registry : string; rgi_Scope : CredentialScopeInput; rgi_AuthType : string; rgi_Username : string;
  rgi_Token : string; rgi_Password : string
}.

(** [GitCredentialOutput] and [RegistryCredentialOutput] *)
Record CredentialOutput := mkCredentialOutput {
  o_ID : string; o_Name : string; o_Registry : string; o_ScopeType : string; o_ScopeID : string; o_AuthType : string;
  o_Username : string; o_CreatedAt : Z; o_UpdatedAt : Z
}.

(** [GitCredentialSecret] and its payload; those of a registry have the first two fields. *)
Record CredentialSecret := mkCredentialSecret {
  cs_Token : string; cs_Password : string; cs_PrivateKey : string; cs_Passphrase : string
}.

Definition secret_fields (t : cred_table) : list string :=
  match t with
  | GitTable => ["token"; "password"; "privateKey"; "passphrase"]
  | RegistryTable => ["token"; "password"]
  end.

(** The payload as its fields, in order. *)
Definition payload (t : cred_table) (s : CredentialSecret) : list (string * string) :=
  match t with
  | GitTable => [("token", cs_Token s); ("password", cs_Password s); ("privateKey", cs_PrivateKey s); ("passphrase", cs_Passphrase s)]
  | RegistryTable => [("token", cs_Token s); ("password", cs_Password s)]
  end.

Definition secret_of_fields (t : cred_table) (m : gmap string string) : CredentialSecret :=
  let get k := default "" (m !! k) in
  match t with
  | GitTable => mkCredentialSecret (get "token") (get "password") (get "privateKey") (get "passphrase")
  | RegistryTable => mkCredentialSecret (get "token") (get "password") "" ""
  end.

Definition token_secret (s : string) := mkCredentialSecret s "" "" "".
Definition password_secret (s : string) := mkCredentialSecret "" s "" "".

(** The user's or the project's credential. *)
Definition mapCredentialScope (userID projectID : option string) : string * string :=
  match userID, projectID with
  | Some u, _ => (CredentialScopeUser, u)
  | None, Some p => (CredentialScopeProject, p)
  | None, None => ("", "")
  end.

Definition output (c : Credential) (scope : string * string) : CredentialOutput :=
  mkCredentialOutput (c_ID c) (c_Name c) (c_Registry c) scope.1 scope.2 (c_AuthType c) (c_Username c) (c_CreatedAt c) (c_UpdatedAt c).

Definition shown (c : Credential) : CredentialOutput := output c (mapCredentialScope (c_UserID c) (c_ProjectID c)).

(** ** Requests *)

(** The secret of a request with [TOKEN] or [BASIC]. *)
Definition common_secret (authType username token password original : string) : result string CredentialSecret :=
  if str_eqb authType "TOKEN" then
    if str_eqb (TrimSpace token) "" then Err "token is required for TOKEN authType" else Ok (token_secret (TrimSpace token))
  else if str_eqb authType "BASIC" then
    if str_eqb username "" then Err "username is required for BASIC authType"
    else if str_eqb (TrimSpace password) "" then Err "password is required for BASIC authType"
    else Ok (password_secret (TrimSpace password))
  else Err ("unsupported authType " +:+ original).

(** The [switch] of [CreateGitCredential]; the quotes of a [%q] are not rendered. *)
Definition git_secret (inp : GitCredentialCreateInput) : result string CredentialSecret :=
  let authType := ToUpper (TrimSpace (gi_AuthType inp)) in
  if str_eqb authType "SSH" then
    if str_eqb (TrimSpace (gi_PrivateKey inp)) "" then Err "privateKey is required for SSH authType"
    else Ok (mkCredentialSecret "" "" (TrimSpace (gi_PrivateKey inp)) (TrimSpace (gi_Passphrase inp)))
  else common_secret authType (TrimSpace (gi_Username inp)) (gi_Token inp) (gi_Password inp) (gi_AuthType inp).

(** That of [CreateRegistryCredential]. *)
Definition registry_secret (inp : RegistryCredentialCreateInput) : result string CredentialSecret :=
  common_secret (ToUpper (TrimSpace (rgi_AuthType inp))) (TrimSpace (rgi_Username inp)) (rgi_Token inp) (rgi_Password inp)
    (rgi_AuthType inp).

Section Credentials.
Context {Q K C R CS : Type} `{plat : Platform Q K C R CS} `{pg : Postgres}.
Context (encKey : bytes).
Local Abbreviation W := (World K C R).
Local Abbreviation svc := (io W svc_error).

(** The row the scope names must be there. *)
Definition resolveCredentialScope (scope : CredentialScopeInput) : svc (option string * option string * string * string) :=
  let scopeType := ToUpper (TrimSpace (si_Type scope)) in
  let scopeID := TrimSpace (si_ID scope) in
  if str_eqb scopeID "" then fail (EText "scope.id is required")
  else if str_eqb scopeType CredentialScopeUser then
    _ ← db (GetUser scopeID); mret (Some scopeID, None, CredentialScopeUser, scopeID)
  else if str_eqb scopeType CredentialScopeProject then
    _ ← db (GetProject scopeID); mret (None, Some scopeID, CredentialScopeProject, scopeID)
  else fail (EText "scope.type must be user or project").

Definition encryptCredentialPayload (t : cred_table) (s : CredentialSecret) : svc bytes :=
  EncryptSecret encKey (string_bytes (json_Marshal_struct (payload t s))).

(** Both creations, once the request is checked. *)
Definition store_credential (t : cred_table) (scope : CredentialScopeInput) (s : CredentialSecret)
    (name registry authType username : string) : svc CredentialOutput :=
  sc ← resolveCredentialScope scope;
  let '(userID, projectID, scopeType, scopeID) := sc in
  enc ← encryptCredentialPayload t s;
  id ← uuid_fresh;
  created ← db (insert_credential t (mkCredential id name registry userID projectID authType username 0 0) enc);
  mret (output created (scopeType, scopeID)).

Definition CreateGitCredential (inp : GitCredentialCreateInput) : svc CredentialOutput :=
  let name := TrimSpace (gi_Name inp) in
  if str_eqb name "" then fail (EText "name is required")
  else
    let authType := ToUpper (TrimSpace (gi_AuthType inp)) in
    if str_eqb authType "" then fail (EText "authType is required")
    else
      secret ← pure (git_secret inp);
      store_credential GitTable (gi_Scope inp) secret name "" authType (TrimSpace (gi_Username inp)).

Definition CreateRegistryCredential (inp : RegistryCredentialCreateInput) : svc CredentialOutput :=
  let name := TrimSpace (rgi_Name inp) in
  if str_eqb name "" then fail (EText "name is required")
  else
    let registry := TrimSpace (rgi_Registry inp) in
    if str_eqb registry "" then fail (EText "registry is required")
    else
      let authType := ToUpper (TrimSpace (rgi_AuthType inp)) in
      if str_eqb authType "" then fail (EText "authType is required")
      else
        secret ← pure (registry_secret inp);
        store_credential RegistryTable (rgi_Scope inp) secret name registry authType (TrimSpace (rgi_Username inp)).

Definition show_credentials (t : cred_table) (inp : CredentialListInput) : svc (list CredentialOutput) :=
  if negb (str_eqb (li_UserID inp) "") && negb (str_eqb (li_ProjectID inp) "")
  then fail (EText "provide either userId or projectId, not both")
  else
    creds ← db (list_credentials t (mkFilter (TrimSpace (li_UserID inp)) (TrimSpace (li_ProjectID inp))));
    mret (shown <$> creds).

Definition ListGitCredentials : CredentialListInput -> svc (list CredentialOutput) := show_credentials GitTable.
Definition ListRegistryCredentials : CredentialListInput -> svc (list CredentialOutput) := show_credentials RegistryTable.

Definition open_credential (t : cred_table) (id : string) : svc (CredentialOutput * CredentialSecret) :=
  let id := TrimSpace id in
  if str_eqb id "" then fail (EText "id is required")
  else
    rec ← db (select_credential t id);
    raw ← pure (DecryptAESGCM rec.2 encKey);
    m ← pure (json_Unmarshal_struct (secret_fields t) (bytes_string raw));
    mret (shown rec.1, secret_of_fields t m).

Definition GetGitCredential : string -> svc (CredentialOutput * CredentialSecret) := open_credential GitTable.
Definition GetRegistryCredential : string -> svc (CredentialOutput * CredentialSecret) := open_credential RegistryTable.

Definition remove_credential (t : cred_table) (id : string) : svc unit :=
  let id := TrimSpace id in
  if str_eqb id "" then fail (EText "id is required")
  else
    _ ← db (select_credential t id);
    db (delete_credential t id).

Definition DeleteGitCredential : string -> svc unit := remove_credential GitTable.
Definition DeleteRegistryCredential : string -> svc unit := remove_credential RegistryTable.

(** ** Use *)

(** Only a credential of the project or of its user is used. *)
Definition accessible (kind : string) (project : Project) (out : CredentialOutput) : result string unit :=
  if str_eqb (o_ScopeType out) CredentialScopeProject then
    if str_eqb (o_ScopeID out) (p_ID project) then Ok tt else Err (kind +:+ " credential not accessible to project")
  else if str_eqb (o_ScopeType out) CredentialScopeUser then
    if str_eqb (o_ScopeID out) (p_UserID project) then Ok tt else Err (kind +:+ " credential not accessible to project user")
  else Err (kind +:+ " credential scope unsupported").

Inductive git_auth := BasicAuth (username password : string) | PublicKeys (username key passphrase : string).

(** [ssh_key]: whether [gitssh.NewPublicKeys] takes the key and passphrase. *)
Definition gitCredentialAuth (ssh_key : string -> string -> result string unit) (project : Project) (credentialID : string)
    : svc git_auth :=
  cred ← GetGitCredential credentialID;
  let '(out, secret) := cred in
  _ ← pure (accessible "git" project out);
  let authType := ToUpper (TrimSpace (o_AuthType out)) in
  let username := TrimSpace (o_Username out) in
  let username_or_git := if str_eqb username "" then "git" else username in
  if str_eqb authType "TOKEN" then
    let token := TrimSpace (cs_Token secret) in
    if str_eqb token "" then fail (EText "git credential token is empty") else mret (BasicAuth username_or_git token)
  else if str_eqb authType "BASIC" then
    let password := TrimSpace (cs_Password secret) in
    if str_eqb username "" || str_eqb password "" then fail (EText "git credential username/password required for BASIC authType")
    else mret (BasicAuth username password)
  else if str_eqb authType "SSH" then
    let key := TrimSpace (cs_PrivateKey secret) in
    if str_eqb key "" then fail (EText "git credential privateKey required for SSH authType")
    else
      let passphrase := TrimSpace (cs_Passphrase secret) in
      _ ← wrap_err (EWrap "git credential ssh auth: ") (pure (ssh_key key passphrase));
      mret (PublicKeys username_or_git key passphrase)
  else fail (EText ("git credential authType " +:+ o_AuthType out +:+ " unsupported")).

Definition registryHostFromValue (raw : string) : string :=
  let raw := TrimSpace raw in
  if str_eqb raw "" then ""
  else
    let raw := if Contains raw "://" then raw else "https://" +:+ raw in
    match url_Parse raw with
    | Ok u => TrimSpace (Hostname u)
    | Err _ => ""
    end.

Record helmOCIAuth := mkOCIAuth { oa_Username : string; oa_Password : string }.

Definition registryCredentialAuth (project : Project) (credentialID registryHost : string) : svc helmOCIAuth :=
  cred ← GetRegistryCredential credentialID;
  let '(out, secret) := cred in
  _ ← pure (accessible "registry" project out);
  let host := registryHostFromValue (o_Registry out) in
  if negb (str_eqb host "") && negb (EqualFold host registryHost)
  then fail (EText ("registry credential host " +:+ host +:+ " does not match " +:+ registryHost))
  else
    let authType := ToUpper (TrimSpace (o_AuthType out)) in
    if str_eqb authType "TOKEN" then
      let token := TrimSpace (cs_Token secret) in
      if str_eqb token "" then fail (EText "registry credential token is empty") else mret (mkOCIAuth "" token)
    else if str_eqb authType "BASIC" then
      let username := TrimSpace (o_Username out) in
      let password := TrimSpace (cs_Password secret) in
      if str_eqb username "" || str_eqb password ""
      then fail (EText "registry credential username and password required for BASIC authType")
      else mret (mkOCIAuth username password)
    else fail (EText ("registry credential authType " +:+ o_AuthType out +:+ " unsupported for helm oci")).
End Credentials.
