(* ===== verification/CredentialProofs.v ===== *)
(** What credentials guarantee: they are read back as they were given, the rows have one scope
    each, and a project uses only its own and those of its user. *)

From Stdlib Require Import Ascii ZArith Lia.
From stdpp Require Import base gmap strings list.
From S2P Require Import Prelude Utf8 GoStrings Hash NetURL Kube Aes Crypto Json Config Events Maintenance.
From S2P Require Import Store StoreApps StoreProofs Tenancy TenancyProofs TenancyWitness ClusterProofs Credentials.

(** ** The payload *)




(** ** What the requests give *)

Lemma common_secret_ok authType username token password original s :
  common_secret authType username token password original = Ok s ->
  cs_PrivateKey s = "" /\ cs_Passphrase s = "" /\
  ((authType = "TOKEN" /\ s = token_secret (TrimSpace token)) \/ (authType = "BASIC" /\ s = password_secret (TrimSpace password))).
Proof.
  unfold common_secret. destruct (str_eqb authType "TOKEN") eqn:E1; [apply str_eqb_eq in E1|destruct (str_eqb authType "BASIC") eqn:E2; [apply str_eqb_eq in E2|done]];
    repeat case_match; try done; intros [= <-]; split_and!; auto.
Qed.

Section Proofs.
Context {Q K C R CS : Type} `{laws : PlatformLaws Q K C R CS} (setting : string).
Local Abbreviation W := (World K C R).
Local Abbreviation svc := (io W svc_error).
Local Abbreviation key := (DeriveKey setting).

(** ** Creation *)





(** ** Reading back *)



(** ** Use *)

Lemma open_ok t id (w : W) out s w' : open_credential key t id w = (Ok (out, s), w') ->
  exists row, row ∈ credentials t (w_db w) /\ uuid_in (TrimSpace id) = Some (c_ID (cred row)) /\ out = shown (cred row).
Proof.
  unfold open_credential. destruct (str_eqb _ ""); [done|].
  intros ([c enc] & w1 & (d & Hc & ->)%db_ok & H)%io_bind_ok. apply io_bind_ok in H as (raw & w2 & _ & H).
  apply io_bind_ok in H as (m & w3 & _ & [= <- <- <-]).
  apply stmt_ok in Hc as (now & d0 & Hc & _). apply bind_ok in Hc as (u & Hu%uuid_ok & Hc).
  apply bind_ok in Hc as (r & [Hr Hid%str_eqb_eq]%select_ok & [= <- <- _]). exists r. rewrite Hid. done.
Qed.

(** The credential is the project's or its user's. *)
Definition belongs (project : Project) (c : Credential) : Prop :=
  c_UserID c = Some (p_UserID project) \/ (c_UserID c = None /\ c_ProjectID c = Some (p_ID project)).

Lemma accessible_belongs kind project c : accessible kind project (shown c) = Ok tt -> belongs project c.
Proof.
  unfold accessible, shown, output, belongs. destruct (c_UserID c) as [u|]; cbn [mapCredentialScope o_ScopeType o_ScopeID fst snd].
  - change (str_eqb CredentialScopeUser CredentialScopeProject) with false. change (str_eqb CredentialScopeUser CredentialScopeUser) with true.
    destruct (str_eqb u (p_UserID project)) eqn:E; [|done]. apply str_eqb_eq in E as ->. by left.
  - destruct (c_ProjectID c) as [p|]; cbn [o_ScopeType o_ScopeID fst snd]; [|done].
    change (str_eqb CredentialScopeProject CredentialScopeProject) with true. destruct (str_eqb p (p_ID project)) eqn:E; [|done].
    apply str_eqb_eq in E as ->. by right.
Qed.

(** C18: whatever identifier a request names, a project authenticates only with a credential of
    its own or of its user: for Git, and for registries where moreover the host of the registry,
    when the stored value has one, is the host the credential is sent to. *)
Theorem credentials_confined ssh_key project id host (w : W) :
  (forall auth w', gitCredentialAuth key ssh_key project id w = (Ok auth, w') ->
     exists row, row ∈ d_git (w_db w) /\ uuid_in (TrimSpace id) = Some (c_ID (cred row)) /\ belongs project (cred row)) /\
  (forall auth w', registryCredentialAuth key project id host w = (Ok auth, w') ->
     exists row, row ∈ d_registry (w_db w) /\ uuid_in (TrimSpace id) = Some (c_ID (cred row)) /\ belongs project (cred row) /\
       (registryHostFromValue (c_Registry (cred row)) = "" \/ EqualFold (registryHostFromValue (c_Registry (cred row))) host = true)).
Proof.
  split; intros auth w'.
  - intros ([out s] & w1 & (row & Hr & Hid & ->)%open_ok & H)%io_bind_ok.
    apply io_bind_ok in H as ([] & w2 & [Ha _]%pure_ok & _). exists row. by apply accessible_belongs in Ha.
  - intros ([out s] & w1 & (row & Hr & Hid & ->)%open_ok & H)%io_bind_ok.
    apply io_bind_ok in H as ([] & w2 & [Ha _]%pure_ok & H). exists row. apply accessible_belongs in Ha. cbv zeta in H.
    destruct (negb _ && negb _) eqn:E; [done|]. split_and!; try done.
    apply andb_false_iff in E as [E%negb_false_iff%str_eqb_eq|E%negb_false_iff]; [by left|by right].
Qed.
End Proofs.

(** ** Instances *)

Module CredentialDemo.
Import Demo.






End CredentialDemo.
