(* ===== verification/Sources.v ===== *)
(** Where applications come from: Git repositories ([internal/service/git_source.go]), OCI
    bundles ([oci_bundle.go]) and Helm charts ([apps.go], from [SetHelmChartAllowedHosts] to
    [renderHelmChartFromURL]), and what [internal/delivery] adds: signatures of webhooks
    ([signature.go]) and the bill of materials ([sbom.go]).

    Name resolution, dialling, HTTP and the chart engine are parameters. *)

From Stdlib Require Import Ascii ZArith Lia.
From stdpp Require Import base gmap strings list sorting.
From S2P Require Import Prelude Utf8 GoStrings Hash NetURL NetIP Security Kube Aes Crypto Json Config Events.

(** ** delivery/signature.go *)

Definition sha256_block : nat := 64.

(** [hmac.New(sha256.New, key)] over a message. *)
Definition hmac_sha256 (key msg : bytes) : bytes :=
  let key := if (sha256_block <? length key)%nat then sha256 key else key in
  let key := key ++ replicate (sha256_block - length key) 0%Z in
  sha256 ((Z.lxor 92 <$> key) ++ sha256 ((Z.lxor 54 <$> key) ++ msg)).

Definition VerifyHMACSHA256 (body : bytes) (secret signature : string) : bool :=
  let secret := TrimSpace secret in
  if (length body =? 0)%nat || str_eqb secret "" then false
  else
    let signature := TrimSpace signature in
    if str_eqb signature "" then false
    else
      let sig := if HasPrefix (ToLower signature) "sha256=" then str_drop 7 signature else signature in
      match hex_decode sig with
      | None => false
      | Some expected => bool_decide (hmac_sha256 (string_bytes secret) body = expected)
      end.

(** ** delivery/sbom.go *)

Definition meta_set (m : Meta) (k : string) (v : any) : Meta := List.filter (fun e => negb (str_eqb e.1 k)) m ++ [(k, v)].

Definition sha256_hex (s : string) : string := hex_encode (sha256 (string_bytes s)).

Definition manifest_hash (idx : nat) (doc : string) : any := AMap [("index", AString (itoa idx)); ("sha256", AString (sha256_hex doc))].

(** [extras]: a map, in the order a [range] visits it. *)
Definition BuildSBOM (sourceType : string) (manifests : list string) (extras : list (string * string)) : Meta :=
  let out := if blank sourceType then [] else [("sourceType", AString (TrimSpace sourceType))] in
  let out := if (length manifests =? 0)%nat then out
             else out ++ [("manifests", AList (imap manifest_hash manifests));
                          ("aggregateDigest", AString (sha256_hex (String.concat "" manifests)))] in
  foldl (fun out e => if blank e.1 || blank e.2 then out else meta_set out (TrimSpace e.1) (AString e.2)) out extras.

(** ** git_source.go *)

Record AppGitSpec := mkGitSpec {
  g_URL : string; g_Ref : string; g_Path : string; g_Mode : string; g_CredentialID : string; g_InsecureSkipTLS : bool
}.

Record gitSourcePlan := mkGitPlan {
  gp_URL : string; gp_Ref : string; gp_Path : string; gp_Mode : string; gp_CredentialID : string; gp_InsecureSkipTLS : bool;
  gp_Commit : string; gp_referenceName : string; gp_checkoutHash : string
}.

Definition gitModeManifests := "manifests".
Definition gitModeKustomize := "kustomize".

(** The runes compared are ASCII, so a multi-byte rune is refused like its bytes. *)
Definition isHexHash (ref : string) : bool := (len ref =? 40)%nat && forallb ishex (chars ref).

Definition validateGitURL (allowFile : bool) (raw : string) : result string unit :=
  if HasPrefix raw "git@" then Ok tt
  else match url_Parse raw with
  | Err e => Err ("invalid git url: " +:+ url_error_text e)
  | Ok parsed =>
      let scheme := ToLower (Scheme parsed) in
      if existsb (str_eqb scheme) ["https"; "ssh"; "git+ssh"] then Ok tt
      else if str_eqb scheme "file" then
        if negb allowFile then Err "file:// git urls are disabled"
        else if str_eqb (Path parsed) "" then Err "file git url requires path"
        else Ok tt
      else Err ("unsupported git url scheme " +:+ scheme)
  end.

(** [filepath.Clean] with the guards of the code. *)
Definition git_path (path : string) : result string string :=
  let path := TrimSpace path in
  if str_eqb path "" then Ok ""
  else
    let clean := TrimPrefix (path_Clean path) "/" in
    let clean := if str_eqb clean "." then "" else clean in
    if negb (str_eqb clean "") && (HasPrefix clean ".." || Contains clean "../")
    then Err "git.path must remain within the repository"
    else Ok clean.

(** The reference name and the hash to check out. *)
Definition git_reference (ref : string) : string * string :=
  if HasPrefix ref "refs/" then (ref, "")
  else if isHexHash ref then ("", ref)
  else ("refs/heads/" +:+ ref, "").

Definition prepareGitPlan (allowFile : bool) (spec : AppGitSpec) : result string gitSourcePlan :=
  let url := TrimSpace (g_URL spec) in
  if str_eqb url "" then Err "git.url is required"
  else
    _ ← validateGitURL allowFile url;
    let ref := if blank (g_Ref spec) then "refs/heads/main" else TrimSpace (g_Ref spec) in
    let mode := ToLower (TrimSpace (g_Mode spec)) in
    let mode := if str_eqb mode "" then gitModeManifests else mode in
    if negb (existsb (str_eqb mode) [gitModeManifests; gitModeKustomize]) then Err "git.mode must be manifests or kustomize"
    else
      path ← git_path (g_Path spec);
      let '(referenceName, checkoutHash) := git_reference ref in
      Ok (mkGitPlan url ref path mode (TrimSpace (g_CredentialID spec)) (g_InsecureSkipTLS spec) "" referenceName checkoutHash).

(** ** OCI references *)

Definition parseOCIReference (ref : string) : result string (string * string) :=
  let ref := TrimSpace ref in
  if str_eqb ref "" then Err "oci ref is required"
  else if negb (HasPrefix ref "oci://") then Err "oci ref must start with oci://"
  else match Cut (TrimPrefix ref "oci://") "/"%char with
  | None => Err "oci ref must include a repository path"
  | Some (host, repo) =>
      if blank repo then Err "oci ref must include a repository path"
      else if blank host then Err "oci ref missing registry host"
      else Ok (TrimSpace host, TrimSpace repo)
  end.

Definition has_tag_or_digest (repo : string) : bool := Contains repo ":" || Contains repo "@".

(** ** The guard on hosts and addresses *)

Fixpoint normalize_hosts (seen hosts : list string) : option (list string) :=
  match hosts with
  | [] => Some []
  | host :: hosts =>
      let trimmed := ToLower (TrimSpace host) in
      if str_eqb trimmed "" then normalize_hosts seen hosts
      else if str_eqb trimmed "*" then None
      else if existsb (str_eqb trimmed) seen then normalize_hosts seen hosts
      else rest ← normalize_hosts (trimmed :: seen) hosts; Some (trimmed :: rest)
  end.

(** [None] from the loop: a wildcard was met. *)
Definition normalizeHelmAllowedHosts (hosts : list string) : list string :=
  match normalize_hosts [] hosts with
  | None => ["*"]
  | Some l => sort_Strings l
  end.

Definition ensureHelmChartHostAllowed (allowed : list string) (host : string) : result string unit :=
  if AllowedHost (ToLower (TrimSpace host)) allowed then Ok tt
  else if (length allowed =? 0)%nat then Err ("helm chart host " +:+ host +:+ " rejected: allow-list is empty")
  else Err ("helm chart host " +:+ host +:+ " not permitted").

Definition ensureHelmChartAddrAllowed (host : string) (addr : Addr) : result string unit :=
  if negb (IsValid addr) then Err ("helm chart url host " +:+ host +:+ " resolved to invalid ip")
  else if negb (IsPublicAddr addr)
  then Err ("helm chart url host " +:+ host +:+ " resolved to disallowed network " +:+ Addr_String addr)
  else Ok tt.

Section Helm.
(** [resolver]: the addresses of a host, [None] for one that is not of four or sixteen bytes *)
Context (resolver : string -> result string (list (option Addr))).

Fixpoint check_addrs (host : string) (ips : list (option Addr)) : result string (list Addr) :=
  match ips with
  | [] => Ok []
  | None :: _ => Err ("resolve helm chart host " +:+ host +:+ ": invalid ip result")
  | Some addr :: ips =>
      let addr := Unmap addr in
      _ ← ensureHelmChartAddrAllowed host addr;
      rest ← check_addrs host ips;
      Ok (addr :: rest)
  end.

Definition resolveHelmChartTarget (host : string) : result string (list Addr) :=
  if str_eqb host "" then Err "helm chart url missing hostname"
  else match ParseIP host with
  | Some addr =>
      let addr := Unmap addr in
      _ ← ensureHelmChartAddrAllowed host addr;
      Ok [addr]
  | None =>
      if str_eqb (ToLower host) "localhost" then Err ("helm chart url host " +:+ host +:+ " is not allowed")
      else match resolver host with
      | Err e => Err ("resolve helm chart host " +:+ host +:+ ": " +:+ e)
      | Ok [] => Err ("helm chart url host " +:+ host +:+ " did not resolve to any ip")
      | Ok ips => check_addrs host ips
      end
  end.

Inductive helm_error := HelmText (text : string) | HelmSecurity (e : sec_error).

Definition ParseHelmChartURL (allowed : list string) (raw : string) : result helm_error (URL * list Addr) :=
  let validator := if (0 <? length allowed)%nat then Some (fun host => AllowedHost host allowed) else None in
  match ParseAndValidateHTTPSURL raw validator with
  | Err e => Err (HelmSecurity e)
  | Ok parsed =>
      let host := Hostname parsed in
      if (length allowed =? 0)%nat then Err (HelmText ("helm chart host " +:+ host +:+ " rejected: allow-list is empty"))
      else match ensureHelmChartHostAllowed allowed host with
      | Err e => Err (HelmText e)
      | Ok _ => match resolveHelmChartTarget host with Err e => Err (HelmText e) | Ok addrs => Ok (parsed, addrs) end
      end
  end.

(** [sanitized]: without fragment and credentials; the host header is that of the URL *)
Definition newHelmChartDownloadRequest (u : URL) : URL :=
  mkURL (Scheme u) (Opaque u) None (Host u) (Path u) (RawPath u) (OmitHost u) (ForceQuery u) (RawQuery u) "" "".

(** ** Dialling *)

Section Dial.
Context {S Conn : Type} (base : string -> string -> io S string (Conn * string)) (close : Conn -> S -> S) (cancelled : S -> bool).

Inductive dial_error := DialText (text : string) | DialSecurity (e : sec_error).

(** The addresses in turn; the last error is returned. *)
Fixpoint dial_each (network port host : string) (last : option dial_error) (addrs : list Addr) : io S dial_error (Conn * string) :=
  fun s => match addrs with
  | [] => (Err (default (DialText ("helm chart dial: no allowed address succeeded for host " +:+ host)) last), s)
  | addr :: addrs =>
      if negb (IsPublicAddr addr)
      then dial_each network port host (Some (DialText ("helm chart dial: disallowed network " +:+ Addr_String addr))) addrs s
      else match DenyPrivateNetworks base close network (JoinHostPort (Addr_String addr) port) s with
      | (Ok conn, s) => (Ok conn, s)
      | (Err e, s) => if cancelled s then (Err (DialSecurity e), s) else dial_each network port host (Some (DialSecurity e)) addrs s
      end
  end.

(** The addresses the request carries for this host. *)
Definition helmDialAddrsFromContext (ctx : option (string * list Addr)) (host : string) : list Addr :=
  match ctx with
  | Some (h, addrs) => if str_eqb h "" then [] else if EqualFold h host then addrs else []
  | None => []
  end.

(** [DialContext] of the client charts are downloaded with. *)
Definition helm_dial (ctx : option (string * list Addr)) (network address : string) : io S dial_error (Conn * string) :=
  match SplitHostPort address with
  | Err e => fail (DialText e)
  | Ok (host, port) =>
      match helmDialAddrsFromContext ctx host with
      | [] => match resolveHelmChartTarget host with
              | Err e => fail (DialText e)
              | Ok addrs => dial_each network port host None addrs
              end
      | addrs => dial_each network port host None addrs
      end
  end.

(** The checks before dialling of the two registry clients, [newHelmRegistryHTTPClient] and
    [newOCIRegistryTransport]: the address must be a literal among the allowed ones. *)
Definition registry_target (ports : option (list string)) (host : string) (addrs : list Addr) (address : string)
    : result string string :=
  match SplitHostPort address with
  | Err e => Err e
  | Ok (hostPart, port) =>
      match ParseIP hostPart with
      | None => Err ("registry dial: non-ip address " +:+ hostPart)
      | Some addr =>
          _ ← ensureHelmChartAddrAllowed host addr;
          if negb (existsb (fun a => str_eqb (Addr_String a) (Addr_String addr)) addrs)
          then Err ("registry dial: " +:+ Addr_String addr +:+ " not in allowed targets")
          else if match ports with Some l => negb (existsb (str_eqb port) l) | None => false end
          then Err ("registry dial: port " +:+ port +:+ " is not permitted")
          else Ok (JoinHostPort (Addr_String addr) port)
      end
  end.

Definition registry_dial (ports : option (list string)) (host : string) (addrs : list Addr) (network address : string)
    : io S string (Conn * string) :=
  match registry_target ports host addrs address with
  | Err e => fail e
  | Ok target => base network target
  end.

Definition newHelmRegistryHTTPClient := registry_dial None.
Definition newOCIRegistryTransport := registry_dial (Some ["80"; "443"]).
End Dial.
End Helm.

(** ** Charts *)

Definition helmChartMaxDownloadSize : Z := 33554432.

Record http_response := mkResponse { StatusCode : Z; Status : string; ContentLength : Z; Body : string }.

Section Charts.
(** [Chart]: a loaded chart; [render]: the chart engine, a text per template *)
Context {Chart : Type} (LoadArchive : string -> result string Chart)
  (render : Chart -> string -> string -> Meta -> result string (gmap string string)).

Definition template_le (a b : string * string) : Prop := str_le a.1 b.1.
#[local] Instance template_le_dec a b : Decision (template_le a b) := str_le_dec a.1 b.1.

Definition renderHelmChartTemplates (ch : Chart) (releaseName namespace : string) (values : Meta) : result string string :=
  rendered ← render ch releaseName namespace values;
  Ok (Join (snd <$> merge_sort template_le (map_to_list rendered)) (String "010" "---" +:+ String "010" "")).

(** What is done with the response to a download; [http] sends the request. *)
Definition chart_body (resp : http_response) : result string string :=
  if (StatusCode resp <? 200)%Z || (300 <=? StatusCode resp)%Z then Err ("download chart failed: " +:+ Status resp)
  else if (0 <? ContentLength resp)%Z && (helmChartMaxDownloadSize <? ContentLength resp)%Z
  then Err "download chart failed: response too large"
  else
    let by_ := str_take (Z.to_nat (helmChartMaxDownloadSize + 1)) (Body resp) in
    if (helmChartMaxDownloadSize <? Z.of_nat (len by_))%Z then Err "download chart failed: body exceeded" else Ok by_.

Definition helm_wrap {A} (r : result string A) : result helm_error A :=
  match r with Ok a => Ok a | Err e => Err (HelmText e) end.

Definition renderHelmChartFromURL (resolver : string -> result string (list (option Addr))) (allowed : list string)
    (http : URL -> string * list Addr -> result string http_response)
    (chartURL releaseName namespace : string) (values : Meta) : result helm_error string :=
  parsed ← ParseHelmChartURL resolver allowed chartURL;
  let '(u, addrs) := parsed in
  resp ← helm_wrap (http (newHelmChartDownloadRequest u) (ToLower (Hostname u), addrs));
  body ← helm_wrap (chart_body resp);
  ch ← helm_wrap (LoadArchive body);
  helm_wrap (renderHelmChartTemplates ch releaseName namespace values).
End Charts.

(** ** oci_bundle.go *)

Definition isSupportedOCIBundleLayer (mediaType : string) : bool :=
  existsb (str_eqb mediaType)
    ["application/vnd.kubeop.bundle.v1+tar"; "application/vnd.kubeop.bundle.v1+tar+gzip";
     "application/vnd.oci.image.layer.v1.tar"; "application/vnd.oci.image.layer.v1.tar+gzip"].

Definition ociBundleMaxManifestBytes : Z := 8388608.

(** What [tar.Reader] yields: a file or another entry, or an error at which reading stops. *)
Inductive tar_entry := TarFile (name content : string) | TarOther | TarError (text : string).

(** [filepath.Ext] *)
Definition filepath_Ext (p : string) : string :=
  match cut_last "."%char (chars p) with
  | Some (_, ext) => if has_char "/"%char ext then "" else of_chars ("."%char :: ext)
  | None => ""
  end.

Fixpoint extract_loop (maxBytes total : Z) (docs : list string) (entries : list tar_entry) : result string (list string) :=
  match entries with
  | [] => Ok docs
  | TarError e :: _ => Err ("read oci bundle: " +:+ e)
  | TarOther :: entries => extract_loop maxBytes total docs entries
  | TarFile name content :: entries =>
      let clean := path_Clean name in
      if existsb (str_eqb clean) ["."; "/"; ""] then extract_loop maxBytes total docs entries
      else if HasPrefix clean ".." || Contains clean "../" || HasPrefix clean "/"
      then Err ("oci bundle contains invalid path " +:+ name)
      else if negb (existsb (str_eqb (ToLower (filepath_Ext clean))) [".yaml"; ".yml"; ".json"])
      then extract_loop maxBytes total docs entries
      else
        let remaining := (maxBytes - total)%Z in
        if (remaining <=? 0)%Z then Err "oci bundle exceeds maximum manifest size"
        else
          let buf := str_take (Z.to_nat (remaining + 1)) content in
          if (remaining <? Z.of_nat (len buf))%Z then Err "oci bundle exceeds maximum manifest size"
          else
            let text := TrimSpace buf in
            extract_loop maxBytes (total + Z.of_nat (len buf)) (if str_eqb text "" then docs else docs ++ [text]) entries
  end.

Definition extractOCIBundleDocuments (entries : list tar_entry) (maxBytes : Z) : result string (list string) :=
  if (maxBytes <=? 0)%Z then Err "oci bundle size limit must be positive"
  else
    docs ← extract_loop maxBytes 0 [] entries;
    if (length docs =? 0)%nat then Err "oci bundle did not contain any Kubernetes manifests" else Ok docs.
