(* ===== verification/SourceProofs.v ===== *)
(** What the sources of applications guarantee: signatures, paths, addresses and sizes. *)

From Stdlib Require Import Ascii ZArith Lia.
From stdpp Require Import base gmap strings list sets.
From S2P Require Import Prelude Utf8 GoStrings Hash Names NetURL NetIP Security SecurityProofs Kube Aes Crypto Json Config Events Sources.

(** ** Signatures *)

Example webhook_vector : VerifyHMACSHA256 (string_bytes "hello") "topsecret"
  "sha256=ed76fd36523b8becda5a3b36d0e3737e8ae5111f55e26c7c3a455a3ce29636d2" = true.
Proof. vm_compute. reflexivity. Qed.

Lemma hex_val_digit d : (0 <= d < 16)%Z -> hex_val (hex_digit d) = Some d.
Proof.
  intros H. unfold hex_val, hex_digit. destruct (Z.ltb_spec d 10); rewrite bz_byte_of_Z by lia.
  - rewrite (proj2 (in_range_true _ _ _)) by lia. f_equal. lia.
  - rewrite (proj2 (in_range_false _ _ _)) by lia. rewrite (proj2 (in_range_true _ _ _)) by lia. f_equal. lia.
Qed.

Lemma hex_decode_encode b : Forall byte_ok b -> hex_decode (hex_encode b) = Some b.
Proof.
  unfold hex_decode, hex_encode. rewrite chars_of_chars. unfold byte_ok. induction 1 as [|x l Hx _ IH]; [done|]. cbn.
  rewrite !hex_val_digit by (try apply Z.mod_pos_bound; try (split; [apply Z.div_pos|apply Z.div_lt_upper_bound]); lia). cbn.
  rewrite IH. cbn. f_equal. f_equal. pose proof (Z.div_mod x 16). lia.
Qed.

Lemma hex_encode_solid b : Forall byte_ok b -> Forall (fun c => solid c = true) (chars (hex_encode b)).
Proof.
  intros H. eapply Forall_impl; [by apply hex_encode_alnum|]. intros c Hc. cbn in Hc.
  unfold alnum in Hc. unfold solid, space1. apply orb_true_iff in Hc.
  rewrite !in_range_true in Hc. rewrite (proj2 (Z.ltb_lt _ _)) by lia. rewrite (proj2 (in_range_false _ _ _)) by lia.
  rewrite (proj2 (Z.eqb_neq _ _)) by lia. done.
Qed.

(** The digits leave case folding and the prefix test alone. *)
Lemma hex_lower b : Forall byte_ok b -> ToLower (hex_encode b) = hex_encode b /\ ToLower ("sha256=" +:+ hex_encode b) = "sha256=" +:+ hex_encode b.
Proof.
  intros H. apply hex_encode_alnum in H.
  assert (Ha : Forall (fun c => ascii_byte c /\ no_upper c) (chars (hex_encode b))).
  { eapply Forall_impl; [exact H|]. intros c Hc. apply name_char_ascii. unfold name_char. by rewrite Hc. }
  apply Forall_and in Ha as [Ha Hu]. split; apply to_lower_ascii_id; try done; rewrite chars_app; apply Forall_app; split; try done.
  all: repeat constructor; by vm_compute.
Qed.

Lemma hex_no_prefix b : Forall byte_ok b -> HasPrefix (hex_encode b) "sha256=" = false.
Proof.
  intros H. unfold HasPrefix, hex_encode. rewrite chars_of_chars. destruct H as [|x l Hx _]; [done|]. cbn.
  unfold byte_ok in Hx. case_bool_decide as E; [|done]. exfalso. apply (f_equal bz) in E. change (bz "s"%char) with 115%Z in E.
  unfold hex_digit in E. assert (0 <= x / 16 < 16)%Z by (split; [apply Z.div_pos|apply Z.div_lt_upper_bound]; lia).
  destruct (Z.ltb_spec (x / 16) 10); rewrite bz_byte_of_Z in E by lia; lia.
Qed.

(** With a secret and a body, the signature of the body is accepted, written in hexadecimal
    with or without its prefix, and whatever is accepted spells exactly that signature. *)
Theorem webhook_signature_exact body secret sig :
  let mac := hmac_sha256 (string_bytes (TrimSpace secret)) body in
  (body <> [] -> TrimSpace secret <> "" ->
     VerifyHMACSHA256 body secret (hex_encode mac) = true /\ VerifyHMACSHA256 body secret ("sha256=" +:+ hex_encode mac) = true) /\
  (VerifyHMACSHA256 body secret sig = true ->
     body <> [] /\ TrimSpace secret <> "" /\
     exists text, hex_decode text = Some mac /\
       text = if HasPrefix (ToLower (TrimSpace sig)) "sha256=" then str_drop 7 (TrimSpace sig) else TrimSpace sig).
Proof.
  cbv zeta. set (mac := hmac_sha256 _ body). assert (Hb : Forall byte_ok mac) by apply sha256_ok.
  assert (Hl : length mac = 32%nat) by apply sha256_length. unfold VerifyHMACSHA256. cbv zeta. fold mac. split.
  - intros Hbody Hsec. rewrite (proj2 (Nat.eqb_neq _ _)) by (by destruct body).
    rewrite (proj2 (str_eqb_neq _ _) Hsec). cbn [orb].
    pose proof (hex_encode_solid mac Hb) as Hs. destruct (hex_lower mac Hb) as [L1 L2].
    rewrite (trim_space_all_solid (hex_encode mac)) by done.
    rewrite (trim_space_all_solid ("sha256=" +:+ hex_encode mac))
      by (rewrite chars_app; apply Forall_app; split; [by repeat constructor|done]).
    rewrite L1, L2, (hex_no_prefix mac Hb), (has_prefix_app "sha256="), (hex_decode_encode mac Hb).
    assert (Hd : str_drop 7 ("sha256=" +:+ hex_encode mac) = hex_encode mac).
    { unfold str_drop. rewrite chars_app. cbn [drop]. apply of_chars_chars. }
    rewrite Hd, (hex_decode_encode mac Hb), bool_decide_true by done.
    destruct (str_eqb (hex_encode mac) "") eqn:E; [|done]. exfalso. apply str_eqb_eq in E.
    pose proof (hex_decode_encode mac Hb) as H. rewrite E in H. injection H as H. by rewrite <- H in Hl.
  - destruct (_ || _) eqn:E; [done|]. apply orb_false_iff in E as [E1%Nat.eqb_neq E2%str_eqb_neq].
    destruct (str_eqb (TrimSpace sig) ""); [done|]. intros H. split; [by intros ->|]. split; [done|].
    eexists. split; [|reflexivity]. destruct (hex_decode _) as [x|]; [|done]. by apply bool_decide_eq_true in H as ->.
Qed.

(** ** Paths in a repository *)

Lemma join_starts seg segs sep : exists t, Join (seg :: segs) sep = seg +:+ t.
Proof. destruct segs as [|x segs]; [exists ""; apply chars_inj; by rewrite chars_app, app_nil_r|]. by eexists. Qed.

Lemma plain_join_relative ps : Forall plain ps -> HasPrefix (Join ps "/") "/" = false.
Proof.
  intros [|seg segs (Hne & _ & _ & Hs) _]; [done|]. destruct (join_starts seg segs "/") as [t ->]. apply not_true_iff_false.
  unfold HasPrefix. rewrite chars_app. destruct (chars seg) as [|c l] eqn:E; [by apply chars_nil in E|].
  inversion Hs; subst. cbn. by case_bool_decide.
Qed.

Lemma trim_prefix_none s p : HasPrefix s p = false -> TrimPrefix s p = s.
Proof. unfold TrimPrefix. by intros ->. Qed.

(** The path of a Git source that is accepted is empty or a sequence of plain elements: relative,
    without empty, [.] or [..] elements. *)
Theorem git_path_contained path p :
  git_path path = Ok p -> p = "" \/ exists ps, ps <> [] /\ Forall plain ps /\ p = Join ps "/".
Proof.
  unfold git_path. cbv zeta. destruct (str_eqb (TrimSpace path) "") eqn:Et; [intros [= <-]; by left|].
  apply str_eqb_neq in Et. destruct (path_Clean_shape _ Et) as (n & ps & Hps & Hn & Hc). rewrite Hc.
  set (c := if str_eqb (TrimPrefix _ "/") "." then _ else _). destruct (negb _ && _) eqn:Eg; [done|]. intros [= <-].
  destruct (decide (c = "")) as [|Hne]; [by left|right]. subst c.
  destruct (str_eqb (TrimPrefix _ "/") ".") eqn:Ed; [done|]. rewrite (proj2 (str_eqb_neq _ _) Hne) in Eg.
  change (negb false) with true in Eg. rewrite andb_true_l in Eg.
  apply orb_false_iff in Eg as [Eg1 Eg2]. destruct (HasPrefix (TrimSpace path) "/") eqn:Er.
  - rewrite trim_prefix_app in *. exists ps. split_and!; [|done..]. by intros ->.
  - assert (n = 0%nat) as ->.
    { destruct n as [|n]; [done|]. exfalso. cbn [replicate app] in *.
      destruct (join_starts ".." (replicate n ".." ++ ps) "/") as [t Ht]. rewrite Ht in Eg1.
      rewrite (proj2 (str_eqb_neq _ "")) in Eg1 by done. rewrite trim_prefix_none in Eg1 by reflexivity.
      by rewrite has_prefix_app in Eg1. }
    cbn [replicate app] in *. destruct (str_eqb (Join ps "/") "") eqn:Ej.
    + by rewrite trim_prefix_none in Ed by reflexivity.
    + rewrite trim_prefix_none in * by by apply plain_join_relative. exists ps. split_and!; [|done..]. by intros ->.
Qed.

(** ** Addresses *)

Section Targets.
Context (resolver : string -> result string (list (option Addr))).

Lemma addr_allowed host addr u : ensureHelmChartAddrAllowed host addr = Ok u -> IsPublicAddr addr = true.
Proof. unfold ensureHelmChartAddrAllowed. destruct (IsValid addr); [|done]. by destruct (IsPublicAddr addr). Qed.

Lemma check_addrs_public host ips addrs :
  check_addrs host ips = Ok addrs -> Forall (fun a => IsPublicAddr a = true /\ exists b, Some b ∈ ips /\ a = Unmap b) addrs /\ length addrs = length ips.
Proof.
  revert addrs. induction ips as [|[addr|] ips IH]; intros addrs; cbn; [intros [= <-]; by split| |done].
  intros ([] & Ha%addr_allowed & H)%bind_ok. apply bind_ok in H as (rest & [Hf Hl]%IH & [= <-]). cbn. split; [|congruence].
  apply Forall_cons. split; [split; [done|]; exists addr; split; [by left|done]|].
  eapply Forall_impl; [exact Hf|]. intros a [? (b & ? & ?)]. split; [done|]. exists b. split; [by right|done].
Qed.

(** Addresses a resolution gives: there are some, and all are public. *)
Lemma resolve_public host addrs : resolveHelmChartTarget resolver host = Ok addrs ->
  addrs <> [] /\ Forall (fun a => IsPublicAddr a = true /\ exists b, a = Unmap b /\ (ParseIP host = Some b \/ exists ips, resolver host = Ok ips /\ Some b ∈ ips)) addrs.
Proof.
  unfold resolveHelmChartTarget. destruct (str_eqb host ""); [done|]. destruct (ParseIP host) as [b|] eqn:Ep.
  - intros ([] & Ha%addr_allowed & [= <-])%bind_ok. split; [done|]. repeat constructor; eauto.
  - destruct (str_eqb _ _); [done|]. destruct (resolver host) as [[|ip ips]|e] eqn:Er; [done| |done].
    intros [Hf Hl]%check_addrs_public. split; [by intros ->|].
    eapply Forall_impl; [exact Hf|]. intros a [? (b & ? & ?)]. split; [done|]. eauto 10.
Qed.

(** C29: a chart URL that is accepted is an https URL on an allowed named host, and the addresses the
    download may use are at least one and all public, whatever the resolver answers. *)
Theorem chart_target_safe allowed raw u addrs :
  ParseHelmChartURL resolver allowed raw = Ok (u, addrs) ->
  allowed <> [] /\ AllowedHost (ToLower (TrimSpace (Hostname u))) allowed = true /\
  Scheme u = "https" /\ User u = None /\ isIPLiteral (Host u) = false /\
  addrs <> [] /\ Forall (fun a => IsPublicAddr a = true) addrs.
Proof.
  unfold ParseHelmChartURL. cbv zeta. unfold ParseAndValidateHTTPSURL. destruct (url_Parse raw) as [p|e] eqn:Ep; [|done].
  destruct (ValidateHTTPSURL (Some p) _) as [u'|e] eqn:Ev; [|done].
  apply validate_https_safe in Ev; [|by eapply url_Parse_rooted].
  destruct (length allowed =? 0)%nat eqn:El; [done|]. apply Nat.eqb_neq in El.
  destruct (ensureHelmChartHostAllowed allowed (Hostname u')) as [[]|] eqn:Eh; [|done].
  destruct (resolveHelmChartTarget resolver (Hostname u')) as [as_|] eqn:Er; [|done]. intros [= <- <-].
  apply resolve_public in Er as [Hne Hp]. destruct Ev. split_and!; try done.
  - by intros ->.
  - unfold ensureHelmChartHostAllowed in Eh. destruct (AllowedHost _ _) eqn:Ea; [done|]. by destruct (length allowed =? 0)%nat.
  - by destruct safe_user.
  - eapply Forall_impl; [exact Hp|]. by intros a [? _].
Qed.

(** ** Dialling *)

Section Dial.
Context {S Conn : Type} (base : string -> string -> io S string (Conn * string)) (close : Conn -> S -> S) (cancelled : S -> bool).

Lemma deny_private_ok network address s conn s' :
  DenyPrivateNetworks base close network address s = (Ok conn, s') -> public_endpoint address \/ public_endpoint (snd conn).
Proof.
  unfold DenyPrivateNetworks. destruct (SplitHostPort address) as [[host port]|] eqn:Es; [|done].
  destruct (str_eqb host ""); [done|]. destruct (ParseIP host) as [a|] eqn:Ep.
  - destruct (IsPublicAddr a) eqn:Ea; [|done]. intros _. left. by exists host, port; split; [|exists a].
  - intros (c & s1 & _ & H)%io_bind_ok. unfold checkRemote in H. destruct (SplitHostPort (snd c)) as [[h p]|] eqn:Ec; [|done].
    destruct (ParseIP h) as [a|] eqn:Eh; [|done]. destruct (IsPublicAddr a) eqn:Ea; [|done]. injection H as <- _.
    right. by exists h, p; split; [|exists a].
Qed.

Lemma dial_each_ok network port host addrs : forall last s conn s',
  dial_each base close cancelled network port host last addrs s = (Ok conn, s') ->
  exists a, a ∈ addrs /\ IsPublicAddr a = true /\
    (public_endpoint (JoinHostPort (Addr_String a) port) \/ public_endpoint (snd conn)).
Proof.
  induction addrs as [|a addrs IH]; intros last s conn s'; cbn; [done|]. destruct (IsPublicAddr a) eqn:Ea; cbn.
  - destruct (DenyPrivateNetworks _ _ _ _ s) as [[c|e] s1] eqn:E.
    + intros [= <- <-]. apply deny_private_ok in E. exists a. split; [by left|done].
    + destruct (cancelled s1); [done|]. intros (b & Hb & H)%IH. exists b. split; [by right|done].
  - intros (b & Hb & H)%IH. exists b. split; [by right|done].
Qed.

(** Whatever address a request or a redirect leads to, the client that downloads charts hands out
    only connections dialled to a public address, literal or seen at the peer. *)
Theorem chart_dial_public ctx network address s conn s' :
  helm_dial resolver base close cancelled ctx network address s = (Ok conn, s') ->
  exists host port a, SplitHostPort address = Ok (host, port) /\ IsPublicAddr a = true /\
    (public_endpoint (JoinHostPort (Addr_String a) port) \/ public_endpoint (snd conn)).
Proof.
  unfold helm_dial. destruct (SplitHostPort address) as [[host port]|]; [|done].
  destruct (helmDialAddrsFromContext ctx host) as [|a0 as_].
  - destruct (resolveHelmChartTarget resolver host) as [l|]; [|done]. intros (a & _ & Ha & H)%dial_each_ok. eauto 10.
  - intros (a & _ & Ha & H)%dial_each_ok. eauto 10.
Qed.
End Dial.

(** ** Registries *)

(** Without a zone, as the addresses of a resolver are. *)
Definition unzoned (a : Addr) : Prop := match a with V6 _ z => z = "" | _ => True end.

Lemma parse_ip_v6 s a : ParseIP s = Some a -> IsPublicAddr a = true -> exists x, a = V6 x "".
Proof.
  unfold ParseIP. destruct (ParseAddr s) as [[|x|x z]|]; try done.
  - by intros [= <-].
  - intros [= <-]. by eexists.
  - destruct (str_eqb z "") eqn:E; [|done]. intros [= <-]. by eexists.
Qed.

Lemma unmap_not_mapped a : match Unmap a with V6 x _ => Is4In6 x = false | _ => True end.
Proof.
  destruct a as [|x|x z]; [exact I|exact I|]. unfold Unmap. destruct (Z.shiftr x 32 =? 65535)%Z eqn:E; [exact I|exact E].
Qed.

Lemma unmap_unzoned a : unzoned a -> unzoned (Unmap a).
Proof.
  destruct a as [|x|x z]; [auto|auto|]. unfold Unmap. destruct (Z.shiftr x 32 =? 65535)%Z; [intros _; exact I|auto].
Qed.

(** The text of a mapped address is that of no unmapped one. *)
Lemma mapped_text x a : Is4In6 x = true -> unzoned a -> IsPublicAddr (Unmap a) = true -> Addr_String (Unmap a) <> Addr_String (V6 x "").
Proof.
  intros Hx Hz Hp E. apply (f_equal chars) in E. pose proof (unmap_not_mapped a) as Hm. apply unmap_unzoned in Hz.
  cbn [Addr_String] in E. rewrite Hx in E. change (str_eqb "" "") with true in E. cbv iota in E.
  destruct (Unmap a) as [|y|y z]; [done| |]; cbn [Addr_String] in E.
  - rewrite !chars_of_chars in E. destruct (dotted_chars y) as [_ Hy]. apply Hy. rewrite E. left.
  - cbn in Hm, Hz. rewrite Hm in E. subst z. change (str_eqb "" "") with true in E. cbv iota in E.
    rewrite !chars_of_chars, !app_nil_r in E. apply (v6_text_dot y). rewrite E. apply elem_of_app. right. apply dotted_chars.
Qed.

(** The clients for OCI registries reach no registry that is named by a host name or by an
    IPv4 address: the dialer only takes literals, and compares the sixteen-byte form of an IPv4
    literal with the four-byte form of the allowed addresses. *)
Theorem registry_dial_ipv6_only ports host addrs address target :
  (forall ips, resolver host = Ok ips -> forall b, Some b ∈ ips -> unzoned b) ->
  resolveHelmChartTarget resolver host = Ok addrs ->
  registry_target ports host addrs address = Ok target ->
  exists hostPart port x, SplitHostPort address = Ok (hostPart, port) /\ ParseIP hostPart = Some (V6 x "") /\ Is4In6 x = false.
Proof.
  intros Hz [_ Hr]%resolve_public H. unfold registry_target in H.
  destruct (SplitHostPort address) as [[hostPart port]|] eqn:Es; [|done].
  destruct (ParseIP hostPart) as [a|] eqn:Ep; [|done]. apply bind_ok in H as ([] & Ha%addr_allowed & H).
  destruct (parse_ip_v6 _ _ Ep Ha) as [x ->]. exists hostPart, port, x. split_and!; try done.
  destruct (existsb _ addrs) eqn:Ex; [|done]. apply existsb_exists in Ex as (b & Hb%list_elem_of_In & Hs%str_eqb_eq).
  apply not_true_iff_false. intros Hx. apply (proj1 (Forall_forall _ _) Hr) in Hb as [Hp (b' & -> & Hb)].
  apply (mapped_text x b' Hx) in Hs; [done| |done].
  destruct Hb as [Hb|(ips & Hi & Hin)]; [|by eapply Hz]. unfold ParseIP in Hb.
  destruct (ParseAddr host) as [[|y|y z]|]; try done; [by injection Hb as <-|by injection Hb as <-|].
  destruct (str_eqb z ""); [|done]. by injection Hb as <-.
Qed.
End Targets.

(** ** Bundles *)

Lemma extract_loop_bounds maxBytes entries : forall total docs out,
  (0 <= total <= maxBytes)%Z -> (Z.of_nat (sum_list_with len docs) <= total)%Z -> Forall (fun x => x <> "") docs ->
  extract_loop maxBytes total docs entries = Ok out ->
  (Z.of_nat (sum_list_with len out) <= maxBytes)%Z /\ Forall (fun x => x <> "") out.
Proof.
  induction entries as [|[name content| |e] entries IH]; intros total docs out Ht Hd Hn; cbn [extract_loop].
  - intros [= <-]. split; [lia|done].
  - cbv zeta. destruct (existsb _ _); [by apply IH|]. destruct (_ || _); [done|]. destruct (negb _); [by apply IH|].
    destruct (Z.leb_spec (maxBytes - total) 0); [done|]. set (buf := str_take _ content).
    destruct (Z.ltb_spec (maxBytes - total) (Z.of_nat (len buf))); [done|].
    apply IH; [lia| |].
    + pose proof (trim_space_len buf). destruct (str_eqb _ _); [lia|]. rewrite sum_list_with_app. cbn. lia.
    + destruct (str_eqb (TrimSpace buf) "") eqn:E; [done|]. apply Forall_app. split; [done|]. repeat constructor. by apply str_eqb_neq.
  - by apply IH.
  - done.
Qed.

(** What is taken from an OCI bundle is one document or more, none of them blank, and together no
    larger than the limit, however many files the archive has. *)
Theorem bundle_bounds entries maxBytes docs :
  extractOCIBundleDocuments entries maxBytes = Ok docs ->
  docs <> [] /\ Forall (fun x => x <> "") docs /\ (Z.of_nat (sum_list_with len docs) <= maxBytes)%Z.
Proof.
  unfold extractOCIBundleDocuments. destruct (Z.leb_spec maxBytes 0); [done|].
  intros (out & Ho & Hd)%bind_ok. destruct (length out =? 0)%nat eqn:El; [done|]. injection Hd as <-. apply Nat.eqb_neq in El.
  apply extract_loop_bounds in Ho as [Hs Hf]; [|lia|cbn; lia|constructor]. split_and!; [by intros ->|done|done].
Qed.

(** ** Instances *)

Module SourceDemo.

Lemma git_path_contained_witness : "deploy/prod" = "" \/ exists ps, ps <> [] /\ Forall plain ps /\ "deploy/prod" = Join ps "/".
Proof. apply (git_path_contained " /deploy/./base/../prod "). vm_compute. reflexivity. Defined.

Definition public_resolver (_ : string) : result string (list (option Addr)) := Ok [Some (As16 (V4 (v4 93 184 216 34)))].
Definition chart_hosts := ["charts.example.com"].
Definition chart_url := "https://charts.example.com/web-1.0.tgz".
Definition chart_target : URL * list Addr := Eval vm_compute in
  match ParseHelmChartURL public_resolver chart_hosts chart_url with Ok x => x | Err _ => (empty_URL, []) end.

Lemma chart_target_safe_witness : Scheme chart_target.1 = "https" /\ Forall (fun a => IsPublicAddr a = true) chart_target.2.
Proof.
  destruct (chart_target_safe public_resolver chart_hosts chart_url chart_target.1 chart_target.2) as (_ & _ & H1 & _ & _ & _ & H2).
  - vm_compute. reflexivity.
  - exact (conj H1 H2).
Defined.

Lemma chart_dial_public_witness :
  exists host port a, SplitHostPort "charts.example.com:443" = Ok (host, port) /\ IsPublicAddr a = true /\
    (public_endpoint (JoinHostPort (Addr_String a) port) \/ public_endpoint "93.184.216.34:443").
Proof.
  apply (chart_dial_public public_resolver demo_dial demo_close (fun _ => false) (Some ("charts.example.com", chart_target.2))
    "tcp" "charts.example.com:443" 0 (tt, "93.184.216.34:443") 1).
  vm_compute. reflexivity.
Defined.

Definition v6_literal := "2606:4700::1111".
Definition v6_addrs : list Addr := Eval vm_compute in
  match resolveHelmChartTarget public_resolver v6_literal with Ok l => l | Err _ => [] end.

Lemma registry_dial_ipv6_only_witness :
  exists hostPart port x, SplitHostPort "[2606:4700::1111]:443" = Ok (hostPart, port) /\ ParseIP hostPart = Some (V6 x "") /\ Is4In6 x = false.
Proof.
  apply (registry_dial_ipv6_only public_resolver None v6_literal v6_addrs "[2606:4700::1111]:443" "[2606:4700::1111]:443").
  - intros ips [= <-] b Hb. apply list_elem_of_singleton in Hb. injection Hb as ->. reflexivity.
  - vm_compute. reflexivity.
  - vm_compute. reflexivity.
Defined.

(** A registry that is named cannot be reached although it is allowed and public. *)
Example named_registry_refused :
  registry_target None "ghcr.io" [V4 (v4 93 184 216 34)] "ghcr.io:443" = Err "registry dial: non-ip address ghcr.io" /\
  is_ok (registry_target None "93.184.216.34" [V4 (v4 93 184 216 34)] "93.184.216.34:443") = false.
Proof. split; vm_compute; reflexivity. Qed.

Lemma bundle_bounds_witness :
  ["kind: Service"] <> [] /\ Forall (fun x => x <> "") ["kind: Service"] /\ (Z.of_nat (sum_list_with len ["kind: Service"]) <= 20)%Z.
Proof. apply (bundle_bounds [TarOther; TarFile "a/svc.yaml" " kind: Service "; TarFile "README.md" "x"]). vm_compute. reflexivity. Defined.
End SourceDemo.
