(* ===== verification/GitFiles.v ===== *)
(** Git checkouts and the manifests in them: [internal/delivery/git.go].

    The Git client and the file system are the interface [GitHost]. *)

From Stdlib Require Import Ascii ZArith Lia.
From stdpp Require Import base gmap strings list sorting.
From S2P Require Import Prelude Utf8 GoStrings NetURL Security Credentials Sources.

(** ** The file system *)

(** What [fs.WalkDir] meets below a directory: the name and type of an entry and, of a
    directory, its entries in lexical order or the error of reading it. *)
Inductive dir_entry := Entry (name : string) (mode : FileMode) (children : result string (list dir_entry)).

Definition entry_name (e : dir_entry) : string := let 'Entry n _ _ := e in n.

Record Files := mkFiles {
  EvalSymlinks : string -> result string string;
  Lstat : string -> result string FileMode;
  Stat : string -> result string FileMode;
  ReadFile : string -> result string string;
  (** [os.DirFS(root)] at a slash-separated relative path, its start followed through links *)
  dir_at : string -> string -> result string dir_entry;
}.

Inductive git_error := GitText (text : string) | GitSecurity (prefix : string) (e : sec_error).

Definition git_text {A} (prefix : string) (r : result string A) : result git_error A :=
  match r with Ok a => Ok a | Err e => Err (GitText (prefix +:+ e)) end.
Definition git_sec {A} (prefix : string) (r : result sec_error A) : result git_error A :=
  match r with Ok a => Ok a | Err e => Err (GitSecurity prefix e) end.

Definition is_dir (m : FileMode) : bool := match m with Dir => true | _ => false end.
Definition is_symlink (m : FileMode) : bool := match m with Symlink => true | _ => false end.

Definition isYAML (path : string) : bool :=
  let lower := ToLower (filepath_Ext path) in str_eqb lower ".yaml" || str_eqb lower ".yml".

Section Load.
Context (fs : Files).

(** ** Walking *)

Inductive walk_outcome := Continue | SkipDir | Stop (e : git_error).

(** The callback of the walk; [files] are the ones found so far. *)
Definition visit (root path name : string) (mode : FileMode) (files : list string) : walk_outcome * list string :=
  if str_eqb path "." then (Continue, files)
  else match WithinRepo (EvalSymlinks fs) root path with
  | Err ErrPathEscape => (if is_dir mode then SkipDir else Continue, files)
  | Err e => (Stop (GitSecurity "" e), files)
  | Ok resolved =>
      match Stat fs resolved with
      | Err e => (Stop (GitText e), files)
      | Ok info =>
          if is_dir info then (if str_eqb name ".git" then SkipDir else Continue, files)
          else if negb (isYAML resolved) then (Continue, files)
          else match EnsureRegularFile (Some info) with
          | Err e => (Stop (GitSecurity "" e), files)
          | Ok _ => (Continue, files ++ [resolved])
          end
      end
  end.

(** [fs.WalkDir]: a skip of a directory leaves that directory; a skip asked for at another
    entry leaves the directory the entry is in. *)
Fixpoint walk_dir (root path : string) (e : dir_entry) (files : list string) : walk_outcome * list string :=
  match e with
  | Entry name mode children =>
      match visit root path name mode files with
      | (Continue, files) =>
          if negb (is_dir mode) then (Continue, files)
          else match children with
          | Err err => (Stop (GitText err), files)
          | Ok l =>
              (fix entries (l : list dir_entry) (files : list string) : walk_outcome * list string :=
                 match l with
                 | [] => (Continue, files)
                 | x :: l =>
                     match walk_dir root (filepath_Join path (entry_name x)) x files with
                     | (Continue, files) => entries l files
                     | (SkipDir, files) => (Continue, files)
                     | stop => stop
                     end
                 end) l files
          end
      | (SkipDir, files) => (if is_dir mode then Continue else SkipDir, files)
      | stop => stop
      end
  end.

Definition walk (root start : string) : result git_error (list string) :=
  match dir_at fs root start with
  | Err e => Err (GitText e)
  | Ok d => match walk_dir root start d [] with
            | (Stop e, _) => Err e
            | (_, files) => Ok files
            end
  end.

(** ** LoadManifests *)

(** A link is followed once more through the guard. *)
Definition follow (root base : string) (mode : FileMode) : result git_error (string * FileMode) :=
  if is_symlink mode then
    resolved ← git_sec "" (WithinRepo (EvalSymlinks fs) root base);
    info ← git_text "stat resolved git path: " (Stat fs resolved);
    Ok (resolved, info)
  else Ok (base, mode).

Fixpoint read_all (root : string) (files : list string) : result git_error (list string) :=
  match files with
  | [] => Ok []
  | file :: files =>
      resolved ← git_sec "" (WithinRepo (EvalSymlinks fs) root file);
      by_ ← git_text ("read manifest " +:+ resolved +:+ ": ") (ReadFile fs resolved);
      rest ← read_all root files;
      Ok (by_ :: rest)
  end.

(** The files under the base: all YAML files of a directory, sorted, or the file itself. *)
Definition manifest_files (root base : string) (mode : FileMode) : result git_error (list string) :=
  if is_dir mode then
    rel ← git_text "determine relative base: " (Rel root base);
    files ← walk root (if str_eqb rel "" then "." else rel);
    Ok (sort_Strings files)
  else if negb (isYAML base) then Err (GitText ("git path " +:+ base +:+ " is not a YAML file"))
  else _ ← git_sec "" (EnsureRegularFile (Some mode)); Ok [base].

Definition LoadManifests (root base : string) (info : option FileMode) : result git_error (list string) :=
  sanitizedRoot ← git_sec "sanitize repo root: " (CleanRoot (EvalSymlinks fs) root);
  sanitizedBase ← git_sec "" (WithinRepo (EvalSymlinks fs) sanitizedRoot base);
  mode ← match info with
         | Some m => if str_eqb sanitizedBase base then Ok m
                     else git_text "stat sanitized git path: " (Lstat fs sanitizedBase)
         | None => git_text "stat sanitized git path: " (Lstat fs sanitizedBase)
         end;
  at_ ← follow sanitizedRoot sanitizedBase mode;
  files ← manifest_files sanitizedRoot at_.1 at_.2;
  read_all sanitizedRoot files.
End Load.

(** ** CheckoutGit *)

Record GitCheckoutOptions := mkCheckoutOptions {
  go_URL : string; go_ReferenceName : string; go_CheckoutHash : string; go_Path : string;
  go_Auth : option git_auth; go_InsecureSkipTLS : bool
}.

(** [git.CloneOptions]; [Depth] is one. *)
Record CloneOptions := mkCloneOptions {
  co_URL : string; co_Auth : option git_auth; co_InsecureSkipTLS : bool; co_ReferenceName : string; co_SingleBranch : bool
}.

Record GitCheckoutResult := mkCheckout {
  ck_RepoRoot : string; ck_BasePath : string; ck_Info : FileMode; ck_Commit : string;
  (** the directory [Cleanup] removes *)
  ck_Cleanup : string
}.

(** [S]: the disk and the network *)
Class GitHost (S : Type) := {
  files_of : S -> Files;
  MkdirTemp : string -> io S string string;
  RemoveAll : string -> S -> S;
  PlainClone : string -> CloneOptions -> io S string unit;
  worktree_Checkout : string -> string -> io S string unit;
  (** the commit [HEAD] of the clone in a directory points to *)
  repo_Head : string -> S -> result string string;
}.

Definition ValidateCheckoutPath (path : string) : result sec_error string := NormalizeRepoPath path.

Definition blank_ref (s : string) : bool := str_eqb (TrimSpace s) "".

Definition clone_options (opts : GitCheckoutOptions) : CloneOptions :=
  mkCloneOptions (go_URL opts) (go_Auth opts) (go_InsecureSkipTLS opts)
    (if blank_ref (go_ReferenceName opts) then "" else go_ReferenceName opts)
    (negb (blank_ref (go_ReferenceName opts)) && blank_ref (go_CheckoutHash opts)).

Section Checkout.
Context {S : Type} `{host : GitHost S}.

Definition view {A} (f : Files -> result git_error A) : io S git_error A := fun s => (f (files_of s), s).

(** The base path and its type, links followed through the guard. *)
Definition checkout_base (fs : Files) (root validated : string) : result git_error (string * FileMode) :=
  base ← (if str_eqb validated "" then Ok root
          else git_sec ("resolve git path " +:+ validated +:+ ": ") (WithinRepo (EvalSymlinks fs) root validated));
  info ← git_text ("git path " +:+ validated +:+ ": ") (Lstat fs base);
  at_ ← (if is_symlink info then
           resolved ← git_sec ("resolve git path " +:+ base +:+ ": ") (WithinRepo (EvalSymlinks fs) root base);
           info ← git_text ("git path " +:+ validated +:+ ": ") (Stat fs resolved);
           Ok (resolved, info)
         else Ok (base, info));
  _ ← (if is_dir at_.2 then Ok tt
       else git_sec ("git path " +:+ validated +:+ ": ") (EnsureRegularFile (Some at_.2)));
  Ok at_.

(** What happens after the directory was made.  The clone is not bare, so it has a worktree. *)
Definition checkout_in (tmpDir : string) (opts : GitCheckoutOptions) : io S git_error GitCheckoutResult :=
  validated ← (fun s => (git_sec "invalid git path: " (ValidateCheckoutPath (go_Path opts)), s));
  _ ← wrap_err (fun e => GitText ("clone git repo: " +:+ e)) (PlainClone tmpDir (clone_options opts));
  let hash := TrimSpace (go_CheckoutHash opts) in
  _ ← (if str_eqb hash "" then mret tt
       else wrap_err (fun e => GitText ("checkout " +:+ hash +:+ ": " +:+ e)) (worktree_Checkout tmpDir hash));
  commit ← (fun s => (git_text "git head: " (repo_Head tmpDir s), s));
  root ← view (fun fs => git_sec "resolve git repo root: " (CleanRoot (EvalSymlinks fs) tmpDir));
  at_ ← view (fun fs => checkout_base fs root validated);
  mret (mkCheckout root at_.1 at_.2 commit tmpDir).

(** The cleanup of the error returns. *)
Definition removing_on_error {A} (dir : string) (m : io S git_error A) : io S git_error A := fun s =>
  match m s with
  | (Ok r, s) => (Ok r, s)
  | (Err e, s) => (Err e, RemoveAll dir s)
  end.

Definition CheckoutGit (opts : GitCheckoutOptions) : io S git_error GitCheckoutResult :=
  tmpDir ← wrap_err (fun e => GitText ("create temp dir: " +:+ e)) (MkdirTemp "kubeop-git-");
  removing_on_error tmpDir (checkout_in tmpDir opts).
End Checkout.
