(* ===== verification/Plan.v ===== *)
(** The plan of a deployment: of [internal/service/apps.go], [planAppDeployment],
    [ValidateApp], [computeIngressHost], [lbServiceAnnotations] and [renderHelmChartFromOCI]; of
    [git_source.go], [renderGitSource]; of [oci_bundle.go], [defaultOCIBundleFetcher].

    Registries, chart servers, the chart engine, Kustomize and the YAML decoder are the
    interface [Remote]; the Git client and the disk are [GitHost]. *)

From Stdlib Require Import Ascii ZArith Lia.
From stdpp Require Import base gmap strings list.
From S2P Require Import Prelude Utf8 GoStrings Hash NetURL NetIP Security Names Kube Crypto Json Config Quota Events Maintenance.
From S2P Require Import Workload Store StoreApps Tenancy Credentials Sources GitFiles.

(** ** Data *)

Record AppOCIBundleSpec := mkBundleSpec { ob_Ref : string; ob_CredentialID : string; ob_Insecure : bool }.

(** [nil] maps, pointers and slices are [None] where the code tells them from empty ones. *)
Record AppDeployInput := mkDeployInput {
  di_ProjectID : string; di_Name : string; di_Flavor : string;
  di_Resources : gmap string string; di_Replicas : option Z;
  (** in the order a [range] visits it *)
  di_Env : list (string * string);
  di_Secrets : list string; di_Ports : list AppPort; di_Domain : string; di_Repo : string; di_WebhookSecret : string;
  di_Image : string; di_Helm : option Meta; di_Manifests : list string; di_Git : option AppGitSpec;
  di_OciBundle : option AppOCIBundleSpec
}.

Record LoadBalancerSummary := mkLBSummary { Requested : Z; Existing : Z; Limit : Z }.

Record ociBundlePlan := mkBundlePlan {
  bp_Ref : string; bp_CredentialID : string; bp_Insecure : bool; bp_Digest : string; bp_MediaType : string
}.

Record ociBundleFetchResult := mkBundle { br_Documents : list string; br_Digest : string; br_MediaType : string }.

(** What the source of the application came to. *)
Record rendering := mkRendering {
  rd_SourceType : string; rd_Repo : string; rd_Manifests : list string; rd_Git : option gitSourcePlan;
  rd_OciBundle : option ociBundlePlan; rd_HelmChart : string; rd_HelmValues : option Meta; rd_HelmRendered : string;
  rd_Objects : list RenderedObjectSummary; rd_Warnings : list string
}.

Record appDeploymentPlan (C : Type) := mkPlan {
  pl_AppID : string; pl_Name : string; pl_Project : Project; pl_ClusterName : string; pl_Client : C;
  pl_KubeName : string; pl_Replicas : Z; pl_Resources : gmap string string; pl_Ports : list AppPort;
  pl_Env : list (string * string); pl_Secrets : list string; pl_Flavor : string; pl_WebhookSecret : string;
  pl_Domain : string; pl_Host : string; pl_Image : string; pl_HelmSpec : option Meta; pl_source : rendering;
  pl_LBSummary : LoadBalancerSummary; pl_Warnings : list string; pl_SBOM : Meta
}.
Arguments mkPlan {C}.
Arguments pl_AppID {C}.
Arguments pl_Name {C}.
Arguments pl_Project {C}.
Arguments pl_ClusterName {C}.
Arguments pl_Client {C}.
Arguments pl_KubeName {C}.
Arguments pl_Replicas {C}.
Arguments pl_Resources {C}.
Arguments pl_Ports {C}.
Arguments pl_Env {C}.
Arguments pl_Secrets {C}.
Arguments pl_Flavor {C}.
Arguments pl_WebhookSecret {C}.
Arguments pl_Domain {C}.
Arguments pl_Host {C}.
Arguments pl_Image {C}.
Arguments pl_HelmSpec {C}.
Arguments pl_source {C}.
Arguments pl_LBSummary {C}.
Arguments pl_Warnings {C}.
Arguments pl_SBOM {C}.

Definition pl_RenderedObjs {C} (p : appDeploymentPlan C) : list RenderedObjectSummary := rd_Objects (pl_source p).
Definition pl_SourceType {C} (p : appDeploymentPlan C) : string := rd_SourceType (pl_source p).

Record AppValidationOutput := mkValidation {
  vo_ProjectID : string; vo_ProjectNamespace : string; vo_ClusterID : string; vo_Source : string; vo_Flavor : string;
  vo_KubeName : string; vo_Replicas : Z; vo_Resources : gmap string string; vo_Ports : list AppPort; vo_Domain : string;
  vo_LoadBalancers : LoadBalancerSummary; vo_RenderedObjects : list RenderedObjectSummary; vo_HelmChart : string;
  vo_HelmValues : option Meta;
  (** repository, reference, commit, path and mode *)
  vo_Git : option (string * string * string * string * string);
  (** reference and digest *)
  vo_OciBundle : option (string * string);
  vo_Warnings : list string; vo_SBOM : Meta
}.

(** ** What is outside the repository *)

(** [K]: the state of everything outside *)
Class Remote (K : Type) := {
  decode_yaml : string -> result string Unstructured;
  Chart : Type;
  LoadArchive : string -> result string Chart;
  render_chart : Chart -> string -> string -> Meta -> result string (gmap string string);
  host_resolver : K -> string -> result string (list (option Addr));
  http_Do : K -> URL -> string * list Addr -> result string http_response;
  (** the Helm registry client made for a host, its addresses and the insecure flag *)
  helm_client : string -> list Addr -> bool -> result string unit;
  helm_Login : K -> string -> list Addr -> helmOCIAuth -> bool -> result string unit;
  helm_Pull : K -> string -> list Addr -> option helmOCIAuth -> string -> result string string;
  (** go-containerregistry: the digest of an image and, per layer, its media type and entries *)
  name_ParseReference : string -> bool -> result string unit;
  remote_Image : K -> string -> bool -> string * list Addr -> option helmOCIAuth ->
    result string (result string string * result string (list (result string string * result string (list tar_entry))));
  (** [krusty]'s build of a directory, as YAML *)
  kustomize_Run : K -> string -> result string string;
  (** whether [gitssh.NewPublicKeys] takes the key and passphrase *)
  ssh_key : string -> string -> result string unit;
}.

Section Plan.
Context {Q K C R CS : Type} `{plat : Platform Q K C R CS} `{pg : Postgres} `{rem : Remote K} `{git : GitHost K}.
Context (cfg : Config) (encKey : bytes).
Local Abbreviation W := (World K C R).
Local Abbreviation svc := (io W svc_error).

(** ** Fetching *)

Definition prefix_err {A} (prefix : string) (r : result string A) : result string A :=
  match r with Ok a => Ok a | Err e => Err (prefix +:+ e) end.

(** Credentials that are not empty. *)
Definition usable (auth : option helmOCIAuth) : option helmOCIAuth :=
  match auth with
  | Some a => if str_eqb (oa_Username a) "" && str_eqb (oa_Password a) "" then None else Some a
  | None => None
  end.

Fixpoint first_layer (digest : string) (layers : list (result string string * result string (list tar_entry)))
    : result string ociBundleFetchResult :=
  match layers with
  | [] => Err "oci bundle did not contain a supported manifest layer"
  | (mt, content) :: layers =>
      mt ← prefix_err "oci bundle layer media type: " mt;
      if negb (isSupportedOCIBundleLayer mt) then first_layer digest layers
      else
        entries ← prefix_err "read oci bundle layer: " content;
        docs ← extractOCIBundleDocuments entries ociBundleMaxManifestBytes;
        Ok (mkBundle docs digest mt)
  end.

Definition defaultOCIBundleFetcher (k : K) (ref : string) (insecure : bool) (auth : option helmOCIAuth)
    : result string ociBundleFetchResult :=
  hr ← parseOCIReference ref;
  let '(host, repo) := hr in
  if negb (has_tag_or_digest repo) then Err "oci bundle ref must include a tag or digest"
  else
    addrs ← resolveHelmChartTarget (host_resolver k) host;
    let name := TrimPrefix ref "oci://" in
    _ ← prefix_err "parse oci bundle ref: " (name_ParseReference name insecure);
    img ← prefix_err "fetch oci bundle: " (remote_Image k name insecure (host, addrs) (usable auth));
    digest ← prefix_err "digest oci bundle: " img.1;
    layers ← prefix_err "list oci bundle layers: " img.2;
    first_layer digest layers.

Definition renderHelmChartFromOCI (k : K) (ref releaseName namespace : string) (values : Meta)
    (auth : option helmOCIAuth) (insecure : bool) : result string string :=
  hr ← parseOCIReference ref;
  let '(host, repo) := hr in
  if negb (has_tag_or_digest repo) then Err "helm oci ref must include a tag or digest"
  else
    addrs ← resolveHelmChartTarget (host_resolver k) host;
    _ ← prefix_err "helm oci client: " (helm_client host addrs insecure);
    _ ← match usable auth with
        | Some a => prefix_err "helm oci login: " (helm_Login k host addrs a insecure)
        | None => Ok tt
        end;
    data ← prefix_err "helm oci pull: " (helm_Pull k host addrs (usable auth) ref);
    if str_eqb data "" then Err "helm oci pull returned empty chart data"
    else
      ch ← prefix_err "load helm chart archive: " (LoadArchive data);
      renderHelmChartTemplates render_chart ch releaseName namespace values.

Definition git_svc (e : git_error) : svc_error :=
  match e with GitText t => EText t | GitSecurity prefix e => EWrap prefix (ESecurity e) end.
Definition helm_svc (e : helm_error) : svc_error :=
  match e with HelmText t => EText t | HelmSecurity e => EWrap "validate helm chart url: " (ESecurity e) end.

Definition renderKustomize (k : K) (path : string) : result string string :=
  prefix_err "kustomize build: " (kustomize_Run k path).

(** The documents of a checkout. *)
Definition git_documents (mode : string) (checkout : GitCheckoutResult) : svc (list string) :=
  if str_eqb mode gitModeKustomize then
    r ← reads (fun k => renderKustomize k (ck_BasePath checkout));
    rendered ← pure r;
    if str_eqb (TrimSpace rendered) "" then fail (EText "kustomize rendered empty output") else mret [rendered]
  else
    r ← reads (fun k => LoadManifests (files_of k) (ck_RepoRoot checkout) (ck_BasePath checkout) (Some (ck_Info checkout)));
    docs ← or_fail git_svc (mret r);
    if (length docs =? 0)%nat then fail (EText "no YAML manifests found in git path") else mret docs.

(** [defer checkout.Cleanup()] *)
Definition with_cleanup {A} (dir : string) (m : svc A) : svc A := fun w =>
  let '(r, w) := m w in (r, set_k8s w (RemoveAll dir (w_k8s w))).

Definition renderGitSource (project : Project) (plan : gitSourcePlan) : svc (list string * string) :=
  auth ← (if str_eqb (gp_CredentialID plan) "" then mret None
          else a ← gitCredentialAuth encKey ssh_key project (gp_CredentialID plan); mret (Some a));
  checkout ← or_fail git_svc (try_k8s (CheckoutGit
    (mkCheckoutOptions (gp_URL plan) (gp_referenceName plan) (gp_checkoutHash plan) (gp_Path plan) auth
       (gp_InsecureSkipTLS plan))));
  docs ← with_cleanup (ck_Cleanup checkout) (git_documents (gp_Mode plan) checkout);
  mret (docs, ck_Commit checkout).

(** ** Small parts of the plan *)

Definition computeIngressHost (domain : string) (project : Project) (clusterName app : string) : string :=
  if negb (str_eqb domain "") then domain
  else if negb (cfg_PaaSWildcardEnabled cfg) || str_eqb (cfg_PaaSDomain cfg) "" || str_eqb app "" then ""
  else
    let projectSegment := if str_eqb (Slugify (p_Name project)) "" then Slugify (p_Namespace project)
                          else Slugify (p_Name project) in
    let clusterSegment := if str_eqb (Slugify clusterName) "" then Slugify (p_ClusterID project) else Slugify clusterName in
    if str_eqb projectSegment "" || str_eqb clusterSegment "" then ""
    else app +:+ "." +:+ projectSegment +:+ "." +:+ clusterSegment +:+ "." +:+ cfg_PaaSDomain cfg.

Definition is_lb (port : AppPort) : bool := EqualFold (ServiceType port) "LoadBalancer".

(** The replicas and resources, with those of the flavor where the request has none. *)
Definition set_default (k v : string) (m : gmap string string) : gmap string string :=
  match m !! k with Some _ => m | None => <[k := v]> m end.

Definition with_flavor (flavor : string) (replicas : option Z) (resources : gmap string string)
    : result string (Z * gmap string string) :=
  if str_eqb flavor "" then Ok (default 1%Z replicas, resources)
  else match builtinFlavors !! flavor with
  | None => Err ("unknown flavor " +:+ flavor)
  | Some f =>
      Ok (default (fl_Replicas f) replicas,
          set_default "limits.memory" (fl_Memory f) (set_default "limits.cpu" (fl_CPU f)
            (set_default "requests.memory" (fl_Memory f) (set_default "requests.cpu" (fl_CPU f) resources))))
  end.

(** The load balancers: asked for, in use, allowed; in use counts as none when the list fails. *)
Definition lb_summary (c : C) (namespace : string) (ports : list AppPort) (overrides : gmap string string)
    : svc (LoadBalancerSummary * list string) :=
  let requested := Z.of_nat (length (List.filter is_lb ports)) in
  listed ← reads (list_services c namespace);
  let '(existing, warnings) :=
    if (0 <? requested)%Z then
      match listed with
      | Err e => (0%Z, ["failed to inspect existing services: " +:+ e])
      | Ok types => (Z.of_nat (length (List.filter (str_eqb ServiceTypeLoadBalancer) types)), [])
      end
    else (0%Z, []) in
  let limit := match overrides !! "services.loadbalancers" with
               | Some v => default (cfg_MaxLoadBalancersPerProject cfg) (parseInt v)
               | None => cfg_MaxLoadBalancersPerProject cfg
               end in
  if (0 <? requested)%Z && (limit <? existing + requested)%Z
  then fail (EText "exceeds services.loadbalancers quota")
  else mret (mkLBSummary requested existing limit, warnings).

Definition cluster_name (p : Project) : svc (string * list string) :=
  r ← try_db (GetCluster (p_ClusterID p));
  mret (match r with
        | Ok (cl, _) => (if str_eqb (TrimSpace (cl_Name cl)) "" then p_ClusterID p else cl_Name cl, [])
        | Err e => (p_ClusterID p, ["cluster lookup failed"])
        end).

(** The summaries and warnings of the documents, one after the other. *)
Fixpoint summarise_docs (namespace : string) (docs : list string)
    : result string (list RenderedObjectSummary * list string) :=
  match docs with
  | [] => Ok ([], [])
  | doc :: docs =>
      objs ← decodeManifestDocuments decode_yaml doc;
      rest ← summarise_docs namespace docs;
      let '(s, ws) := summariseObjects objs namespace in
      Ok (s ++ rest.1, ws ++ rest.2)
  end.

(** ** The source *)

Definition rendered_image (host kubeName namespace : string) (ports : list AppPort) : list RenderedObjectSummary :=
  let obj kind name := mkRendered kind name namespace in
  [obj "Deployment" kubeName] ++
  (if (0 <? length ports)%nat then [obj "Service" kubeName] else []) ++
  (if negb (str_eqb host "") && (0 <? length ports)%nat
   then obj "Ingress" kubeName :: (if cfg_EnableCertManager cfg then [obj "Certificate" (kubeName +:+ "-cert")] else [])
   else []).

Definition bundle_source (p : Project) (repo : string) (b : ociBundlePlan) : svc rendering :=
  let ref := TrimSpace (bp_Ref b) in
  if str_eqb ref "" then fail (EText "ociBundle.ref is required")
  else
    hr ← pure (parseOCIReference ref);
    auth ← (if str_eqb (bp_CredentialID b) "" then mret None
            else a ← registryCredentialAuth encKey p (bp_CredentialID b) hr.1; mret (Some a));
    fetched ← reads (fun k => defaultOCIBundleFetcher k ref (bp_Insecure b) auth);
    result ← pure fetched;
    sw ← wrap_err (EWrap "validate oci bundle manifest: ") (pure (summarise_docs (p_Namespace p) (br_Documents result)));
    mret (mkRendering "ociBundle" (if str_eqb repo "" then ref else repo) (br_Documents result) None
            (Some (mkBundlePlan (bp_Ref b) (bp_CredentialID b) (bp_Insecure b) (br_Digest result) (br_MediaType result)))
            "" None "" sw.1 sw.2).

Definition manifests_source (p : Project) (repo : string) (docs : list string) : svc rendering :=
  sw ← wrap_err (EWrap "validate manifest: ") (pure (summarise_docs (p_Namespace p) docs));
  mret (mkRendering "manifests" repo docs None None "" None "" sw.1 sw.2).

Definition git_source (p : Project) (repo : string) (g : gitSourcePlan) : svc rendering :=
  dc ← renderGitSource p g;
  let '(docs, commit) := dc in
  sw ← wrap_err (EWrap "validate git manifest: ") (pure (summarise_docs (p_Namespace p) docs));
  mret (mkRendering ("git:" +:+ gp_Mode g) (if str_eqb repo "" then gp_URL g else repo) docs
          (Some (mkGitPlan (gp_URL g) (gp_Ref g) (gp_Path g) (gp_Mode g) (gp_CredentialID g) (gp_InsecureSkipTLS g) commit
                   (gp_referenceName g) (gp_checkoutHash g)))
          None "" None "" sw.1 sw.2).

Definition helm_oci (p : Project) (kubeName : string) (values : Meta) (oci : any) : svc (string * string) :=
  match oci with
  | AMap m =>
      let ref := TrimSpace (getString m "ref") in
      if str_eqb ref "" then fail (EText "helm.oci.ref is required")
      else
        let insecure := match lookup_meta m "insecure" with Some (AOther b) => str_eqb b "true" | _ => false end in
        let credID := TrimSpace (getString m "registryCredentialId") in
        auth ← (if str_eqb credID "" then mret None
                else hr ← pure (parseOCIReference ref);
                     a ← registryCredentialAuth encKey p credID hr.1; mret (Some a));
        r ← reads (fun k => renderHelmChartFromOCI k ref kubeName (p_Namespace p) values auth insecure);
        rendered ← pure r;
        mret (ref, rendered)
  | _ => fail (EText "helm.oci must be an object")
  end.

Definition helm_url (p : Project) (kubeName : string) (values : Meta) (chart : string) : svc (string * string) :=
  if str_eqb chart "" then fail (EText "helm chart source requires helm.chart or helm.oci")
  else
    r ← reads (fun k => renderHelmChartFromURL LoadArchive render_chart (host_resolver k)
                          (normalizeHelmAllowedHosts (cfg_HelmChartAllowedHosts cfg)) (http_Do k) chart kubeName
                          (p_Namespace p) values);
    rendered ← or_fail helm_svc (mret r);
    mret (chart, rendered).

Definition helm_source (p : Project) (repo kubeName : string) (spec : Meta) : svc rendering :=
  let chart := TrimSpace (getString spec "chart") in
  let values := match lookup_meta spec "values" with Some (AMap m) => Some m | _ => None end in
  cr ← match lookup_meta spec "oci" with
       | Some oci => if negb (str_eqb chart "") then fail (EText "helm spec must not set both chart and oci")
                     else helm_oci p kubeName (default [] values) oci
       | None => helm_url p kubeName (default [] values) chart
       end;
  objs ← wrap_err (EWrap "parse rendered helm manifests: ") (pure (decodeManifestDocuments decode_yaml cr.2));
  let sw := summariseObjects objs (p_Namespace p) in
  mret (mkRendering "helm" repo [] None None cr.1 values cr.2 sw.1 sw.2).

Definition plan_source (p : Project) (inp : AppDeployInput) (gitPlan : option gitSourcePlan)
    (kubeName host : string) : svc rendering :=
  let repo := TrimSpace (di_Repo inp) in
  if negb (str_eqb (TrimSpace (di_Image inp)) "") then
    mret (mkRendering "image" repo [] None None "" None ""
            (rendered_image host kubeName (p_Namespace p) (di_Ports inp)) [])
  else match di_OciBundle inp with
  | Some b => bundle_source p repo (mkBundlePlan (TrimSpace (ob_Ref b)) (TrimSpace (ob_CredentialID b)) (ob_Insecure b) "" "")
  | None =>
      if (0 <? length (di_Manifests inp))%nat then manifests_source p repo (di_Manifests inp)
      else match gitPlan with
      | Some g => git_source p repo g
      | None =>
          match di_Helm inp with
          | Some spec => helm_source p repo kubeName spec
          | None => mret (mkRendering "" repo [] None None "" None "" [] [])
          end
      end
  end.

(** ** planAppDeployment *)

Definition srcCount (inp : AppDeployInput) : nat :=
  length (List.filter id [negb (str_eqb (TrimSpace (di_Image inp)) ""); (0 <? length (di_Manifests inp))%nat;
                          bool_decide (is_Some (di_Helm inp)); bool_decide (is_Some (di_Git inp));
                          bool_decide (is_Some (di_OciBundle inp))]).

Definition nonempty_entry (k v : string) : list (string * string) := if str_eqb v "" then [] else [(k, v)].

Definition sbom_extras (image : string) (rd : rendering) : list (string * string) :=
  nonempty_entry "image" image ++
  match rd_Git rd with
  | Some g => nonempty_entry "gitCommit" (gp_Commit g) ++ nonempty_entry "gitRef" (gp_Ref g) ++ nonempty_entry "gitPath" (gp_Path g)
  | None => []
  end ++
  match rd_OciBundle rd with
  | Some b => nonempty_entry "ociDigest" (bp_Digest b) ++ [("ociRef", bp_Ref b)]
  | None => []
  end ++
  nonempty_entry "helmChart" (rd_HelmChart rd).

Definition planAppDeployment (inp : AppDeployInput) (appID : string) : svc (appDeploymentPlan C) :=
  if blank (di_ProjectID inp) || blank (di_Name inp) then fail (EText "projectId and name are required")
  else if negb (srcCount inp =? 1)%nat then fail (EText "provide exactly one of image, manifests, helm, git, or ociBundle")
  else
    gitPlan ← match di_Git inp with
              | Some spec => g ← pure (prepareGitPlan (cfg_AllowGitFileProtocol cfg) spec); mret (Some g)
              | None => mret None
              end;
    let kubeName := deriveKubeName (di_Name inp) appID in
    r ← db (GetProject (di_ProjectID inp));
    let '(p, qo, _) := r in
    overrides ← pure (DecodeQuotaOverrides qo);
    client ← GetOrCreate encKey (p_ClusterID p);
    let flavor := TrimSpace (di_Flavor inp) in
    rr ← pure (with_flavor flavor (di_Replicas inp) (di_Resources inp));
    lb ← lb_summary client (p_Namespace p) (di_Ports inp) overrides;
    cn ← cluster_name p;
    let domain := TrimSpace (di_Domain inp) in
    let host := computeIngressHost domain p cn.1 kubeName in
    rd ← plan_source p inp gitPlan kubeName host;
    let image := TrimSpace (di_Image inp) in
    mret (mkPlan appID (TrimSpace (di_Name inp)) p cn.1 client kubeName rr.1 rr.2 (di_Ports inp) (di_Env inp)
            (di_Secrets inp) flavor (TrimSpace (di_WebhookSecret inp)) domain host image (di_Helm inp) rd lb.1
            (lb.2 ++ cn.2 ++ rd_Warnings rd) (BuildSBOM (rd_SourceType rd) (rd_Manifests rd) (sbom_extras image rd))).

Definition ValidateApp (inp : AppDeployInput) : svc AppValidationOutput :=
  plan ← planAppDeployment inp "";
  let p := pl_Project plan in
  let rd := pl_source plan in
  mret (mkValidation (p_ID p) (p_Namespace p) (p_ClusterID p) (pl_SourceType plan) (pl_Flavor plan) (pl_KubeName plan)
          (pl_Replicas plan) (pl_Resources plan) (pl_Ports plan) (pl_Host plan) (pl_LBSummary plan) (pl_RenderedObjs plan)
          (rd_HelmChart rd) (rd_HelmValues rd)
          ((fun g => (gp_URL g, gp_Ref g, gp_Commit g, gp_Path g, gp_Mode g)) <$> rd_Git rd)
          ((fun b => (bp_Ref b, bp_Digest b)) <$> rd_OciBundle rd) (pl_Warnings plan) (pl_SBOM plan)).
End Plan.
