(* ===== verification/Releases.v ===== *)
(** The record of a deployment: [internal/service/releases.go].

    A JSON document is a value of [any] whose maps are in the order they are written in; the
    value a document decodes to is [decoded]. *)

From Stdlib Require Import Ascii ZArith Lia.
From stdpp Require Import base gmap strings list sorting pretty.
From S2P Require Import Prelude Utf8 GoStrings Hash NetURL NetIP Security Names Kube Crypto Json Config Quota Events Maintenance.
From S2P Require Import Workload Store StoreApps Tenancy Credentials Sources GitFiles Plan.

(** ** Encoding *)

Fixpoint json_text (v : any) : list ascii :=
  match v with
  | AString s => json_quote s
  | AOther r => chars r
  | AList l =>
      "["%char :: (fix items (first : bool) (l : list any) : list ascii :=
        match l with
        | [] => []
        | v :: l => (if first then [] else [","%char]) ++ json_text v ++ items false l
        end) true l ++ ["]"%char]
  | AMap m =>
      "{"%char :: (fix members (first : bool) (m : list (string * any)) : list ascii :=
        match m with
        | [] => []
        | (k, v) :: m => (if first then [] else [","%char]) ++ json_quote k ++ ":"%char :: json_text v ++ members false m
        end) true m ++ ["}"%char]
  end.

Definition member_le (a b : string * any) : Prop := str_le a.1 b.1.
#[export] Instance member_le_dec a b : Decision (member_le a b) := str_le_dec a.1 b.1.

(** A Go map is written with its keys in order. *)
Fixpoint sorted_map (v : any) : any :=
  match v with
  | AMap m => AMap (merge_sort member_le (List.map (fun '(k, v) => (k, sorted_map v)) m))
  | AList l => AList (List.map sorted_map l)
  | _ => v
  end.

(** What [json.Unmarshal] makes of the text of a value: texts lose their invalid UTF-8. *)
Fixpoint decoded (v : any) : any :=
  match v with
  | AString s => AString (to_valid_utf8 s)
  | AMap m => AMap (List.map (fun '(k, v) => (to_valid_utf8 k, decoded v)) m)
  | AList l => AList (List.map decoded l)
  | AOther r => AOther r
  end.

Definition json_bytes (v : any) : string := of_chars (json_text v).

(** The decoded document and the digest of its text. *)
Definition encodeForRelease (payload : Meta) : Meta * string :=
  (List.map (fun '(k, v) => (to_valid_utf8 k, decoded v)) payload, sha256_hex (json_bytes (AMap payload))).

(** ** The specification of a release *)

Record ReleaseGitSource := mkReleaseGit {
  rg_URL : string; rg_Ref : string; rg_Commit : string; rg_Path : string; rg_Mode : string; rg_CredentialID : string
}.
Record ReleaseOCIBundle := mkReleaseBundle {
  rb_Ref : string; rb_Digest : string; rb_CredentialID : string; rb_Insecure : bool; rb_MediaType : string
}.
Record ReleaseSource := mkReleaseSource {
  rs_Type : string; rs_Image : string; rs_Helm : Meta; rs_Manifests : list string; rs_Git : option ReleaseGitSource;
  rs_OciBundle : option ReleaseOCIBundle
}.
Record ReleaseSpec := mkReleaseSpec {
  rp_Name : string; rp_KubeName : string; rp_Flavor : string; rp_Resources : gmap string string; rp_Replicas : Z;
  rp_Env : gmap string string; rp_Secrets : list string; rp_Ports : list AppPort; rp_Domain : string; rp_Host : string;
  rp_Repo : string; rp_Source : ReleaseSource
}.

(** [omitempty] *)
Definition opt_text (k v : string) : Meta := if str_eqb v "" then [] else [(k, AString v)].
Definition opt_list (k : string) (l : list any) : Meta := match l with [] => [] | _ => [(k, AList l)] end.
Definition opt_map (k : string) (m : Meta) : Meta := match m with [] => [] | _ => [(k, AMap m)] end.
Definition any_int (z : Z) : any := AOther (pretty z).
Definition any_bool (b : bool) : any := AOther (if b then "true" else "false").
Definition any_strings (m : gmap string string) : Meta := (fun e => (e.1, AString e.2)) <$> sorted_entries m.

Definition port_any (p : AppPort) : any :=
  AMap ([("containerPort", any_int (ContainerPort p)); ("servicePort", any_int (ServicePort_ p))] ++
        opt_text "protocol" (Protocol p) ++ opt_text "serviceType" (ServiceType p)).

Definition git_any (g : ReleaseGitSource) : any :=
  AMap ([("url", AString (rg_URL g))] ++ opt_text "ref" (rg_Ref g) ++ opt_text "commit" (rg_Commit g) ++
        opt_text "path" (rg_Path g) ++ opt_text "mode" (rg_Mode g) ++ opt_text "credentialId" (rg_CredentialID g)).

Definition bundle_any (b : ReleaseOCIBundle) : any :=
  AMap ([("ref", AString (rb_Ref b))] ++ opt_text "digest" (rb_Digest b) ++ opt_text "credentialId" (rb_CredentialID b) ++
        (if rb_Insecure b then [("insecure", any_bool true)] else []) ++ opt_text "mediaType" (rb_MediaType b)).

Definition members (v : any) : Meta := match v with AMap m => m | _ => [] end.

Definition source_any (s : ReleaseSource) : any :=
  AMap ([("type", AString (rs_Type s))] ++ opt_text "image" (rs_Image s) ++
        opt_map "helm" (members (sorted_map (AMap (rs_Helm s)))) ++ opt_list "manifests" (AString <$> rs_Manifests s) ++
        match rs_Git s with Some g => [("git", git_any g)] | None => [] end ++
        match rs_OciBundle s with Some b => [("ociBundle", bundle_any b)] | None => [] end).

Definition spec_meta (s : ReleaseSpec) : Meta :=
  [("name", AString (rp_Name s)); ("kubeName", AString (rp_KubeName s))] ++ opt_text "flavor" (rp_Flavor s) ++
  opt_map "resources" (any_strings (rp_Resources s)) ++ [("replicas", any_int (rp_Replicas s))] ++
  opt_map "env" (any_strings (rp_Env s)) ++ opt_list "secrets" (AString <$> rp_Secrets s) ++
  opt_list "ports" (port_any <$> rp_Ports s) ++ opt_text "domain" (rp_Domain s) ++ opt_text "host" (rp_Host s) ++
  opt_text "repo" (rp_Repo s) ++ [("source", source_any (rp_Source s))].

(** ** Decoding

    A member sets the field whose name it folds to; of several, the last in the order the
    document is written in. *)

Definition field (m : Meta) (name : string) : option any :=
  snd <$> List.find (fun e => EqualFold e.1 name) (reverse (merge_sort member_le m)).

Definition bad_field {A} (name : string) : result string A := Err ("json: cannot unmarshal into field " +:+ name).

Definition text_field (m : Meta) (name : string) : result string string :=
  match field m name with
  | None => Ok ""
  | Some (AString s) => Ok s
  | Some (AOther r) => if str_eqb r "null" then Ok "" else bad_field name
  | _ => bad_field name
  end.

Definition int_field (m : Meta) (name : string) : result string Z :=
  match field m name with
  | None => Ok 0%Z
  | Some (AOther r) =>
      if str_eqb r "null" then Ok 0%Z
      else match Atoi r with
      | Some z => if int32_range z then Ok z else bad_field name
      | None => bad_field name
      end
  | _ => bad_field name
  end.

Definition bool_field (m : Meta) (name : string) : result string bool :=
  match field m name with
  | None => Ok false
  | Some (AOther r) =>
      if str_eqb r "true" then Ok true
      else if str_eqb r "false" || str_eqb r "null" then Ok false
      else bad_field name
  | _ => bad_field name
  end.

Definition as_text (v : any) : result string string :=
  match v with
  | AString s => Ok s
  | AOther r => if str_eqb r "null" then Ok "" else Err "json: cannot unmarshal into string"
  | _ => Err "json: cannot unmarshal into string"
  end.

Fixpoint all_ok {A B} (f : A -> result string B) (l : list A) : result string (list B) :=
  match l with
  | [] => Ok []
  | x :: l => y ← f x; ys ← all_ok f l; Ok (y :: ys)
  end.

Definition list_field {A} (f : any -> result string A) (m : Meta) (name : string) : result string (list A) :=
  match field m name with
  | None => Ok []
  | Some (AList l) => all_ok f l
  | Some (AOther r) => if str_eqb r "null" then Ok [] else bad_field name
  | _ => bad_field name
  end.

Definition strings_field (m : Meta) (name : string) : result string (gmap string string) :=
  match field m name with
  | None => Ok ∅
  | Some (AMap l) => es ← all_ok (fun e => s ← as_text e.2; Ok (e.1, s)) l;
                     Ok (foldl (fun acc e => <[e.1 := e.2]> acc) ∅ es)
  | Some (AOther r) => if str_eqb r "null" then Ok ∅ else bad_field name
  | _ => bad_field name
  end.

Definition meta_field (m : Meta) (name : string) : result string Meta :=
  match field m name with
  | None => Ok []
  | Some (AMap l) => Ok l
  | Some (AOther r) => if str_eqb r "null" then Ok [] else bad_field name
  | _ => bad_field name
  end.

(** A pointer to a struct; [null] is nil. *)
Definition struct_field {A} (f : Meta -> result string A) (m : Meta) (name : string) : result string (option A) :=
  match field m name with
  | None => Ok None
  | Some (AMap l) => a ← f l; Ok (Some a)
  | Some (AOther r) => if str_eqb r "null" then Ok None else bad_field name
  | _ => bad_field name
  end.

Definition port_of (v : any) : result string AppPort :=
  match v with
  | AMap m =>
      c ← int_field m "containerPort"; s ← int_field m "servicePort"; p ← text_field m "protocol";
      t ← text_field m "serviceType"; Ok (mkAppPort c s p t)
  | AOther r => if str_eqb r "null" then Ok (mkAppPort 0 0 "" "") else Err "json: cannot unmarshal into AppPort"
  | _ => Err "json: cannot unmarshal into AppPort"
  end.

Definition git_of (m : Meta) : result string ReleaseGitSource :=
  u ← text_field m "url"; r ← text_field m "ref"; c ← text_field m "commit"; p ← text_field m "path";
  mo ← text_field m "mode"; cr ← text_field m "credentialId"; Ok (mkReleaseGit u r c p mo cr).

Definition bundle_of (m : Meta) : result string ReleaseOCIBundle :=
  r ← text_field m "ref"; d ← text_field m "digest"; c ← text_field m "credentialId"; i ← bool_field m "insecure";
  t ← text_field m "mediaType"; Ok (mkReleaseBundle r d c i t).

Definition source_of (m : Meta) : result string ReleaseSource :=
  t ← text_field m "type"; i ← text_field m "image"; h ← meta_field m "helm"; ms ← list_field as_text m "manifests";
  g ← struct_field git_of m "git"; b ← struct_field bundle_of m "ociBundle";
  Ok (mkReleaseSource t i h ms g b).

Definition empty_source : ReleaseSource := mkReleaseSource "" "" [] [] None None.

Definition spec_of (m : Meta) : result string ReleaseSpec :=
  n ← text_field m "name"; k ← text_field m "kubeName"; f ← text_field m "flavor"; r ← strings_field m "resources";
  c ← int_field m "replicas"; e ← strings_field m "env"; s ← list_field as_text m "secrets"; p ← list_field port_of m "ports";
  d ← text_field m "domain"; h ← text_field m "host"; rp ← text_field m "repo"; src ← struct_field source_of m "source";
  Ok (mkReleaseSpec n k f r c e s p d h rp (default empty_source src)).

Definition rendered_of (m : Meta) : result string RenderedObjectSummary :=
  k ← text_field m "kind"; n ← text_field m "name"; ns ← text_field m "namespace"; Ok (mkRendered k n ns).

(** ** Recording *)

Definition rendered_any (o : RenderedObjectSummary) : Meta :=
  [("kind", AString (ro_Kind o)); ("name", AString (ro_Name o))] ++ opt_text "namespace" (ro_Namespace o).

Definition encodeRenderedObjects (objs : list RenderedObjectSummary) : list Meta :=
  (fun o => (encodeForRelease (rendered_any o)).1) <$> objs.

Definition hashIfNotEmpty (value : string) : string := if blank value then "" else sha256_hex value.

Definition hashSliceIfNotEmpty (values : list string) : string :=
  match values with [] => "" | _ => sha256_hex (json_bytes (AList (AString <$> values))) end.

Definition lb_meta (lb : LoadBalancerSummary) : Meta :=
  [("requested", any_int (Requested lb)); ("existing", any_int (Existing lb)); ("limit", any_int (Limit lb))].

(** A nil slice is written as [null]. *)
Definition objects_any (objs : list RenderedObjectSummary) : any :=
  match objs with [] => AOther "null" | _ => AList ((fun o => AMap (rendered_any o)) <$> objs) end.

Definition nonempty (s : string) : option string := if str_eqb s "" then None else Some s.

Section Record_.
Context {Q K C R CS : Type} `{plat : Platform Q K C R CS} `{pg : Postgres}.
Local Abbreviation W := (World K C R).
Local Abbreviation svc := (io W svc_error).

Definition release_source (plan : appDeploymentPlan C) : ReleaseSource :=
  let rd := pl_source plan in
  let t := pl_SourceType plan in
  let bare := mkReleaseSource t "" [] [] None None in
  if str_eqb t "image" then mkReleaseSource t (pl_Image plan) [] [] None None
  else if str_eqb t "manifests" then mkReleaseSource t "" [] (rd_Manifests rd) None None
  else if str_eqb t "ociBundle" then
    mkReleaseSource t "" [] (rd_Manifests rd) None
      ((fun b => mkReleaseBundle (bp_Ref b) (bp_Digest b) (bp_CredentialID b) (bp_Insecure b) (bp_MediaType b)) <$> rd_OciBundle rd)
  else if str_eqb t "helm" then mkReleaseSource t "" (default [] (pl_HelmSpec plan)) [] None None
  else match rd_Git rd with
  | Some g =>
      if HasPrefix t "git:"
      then mkReleaseSource t "" [] (rd_Manifests rd)
             (Some (mkReleaseGit (gp_URL g) (gp_Ref g) (gp_Commit g) (gp_Path g) (gp_Mode g) (gp_CredentialID g))) None
      else bare
  | None => bare
  end.

Definition release_spec (plan : appDeploymentPlan C) (inp : AppDeployInput) : ReleaseSpec :=
  mkReleaseSpec (di_Name inp) (pl_KubeName plan) (pl_Flavor plan) (pl_Resources plan) (pl_Replicas plan)
    (list_to_map (pl_Env plan)) (pl_Secrets plan) (pl_Ports plan) (pl_Domain plan) (pl_Host plan)
    (rd_Repo (pl_source plan)) (release_source plan).

(** A map: its keys are written in order. *)
Definition renderFingerprint (plan : appDeploymentPlan C) : Meta :=
  let rd := pl_source plan in
  opt_text "helmChart" (rd_HelmChart rd) ++ opt_text "helmRenderSha" (hashIfNotEmpty (rd_HelmRendered rd)) ++
  opt_map "helmValues" (members (sorted_map (AMap (default [] (rd_HelmValues rd))))) ++
  opt_text "manifestsSha" (hashSliceIfNotEmpty (rd_Manifests rd)) ++
  match rd_OciBundle rd with Some b => opt_text "ociBundleDigest" (bp_Digest b) | None => [] end ++
  [("renderedObjects", objects_any (rd_Objects rd))].

Definition new_release (id : string) (plan : appDeploymentPlan C) (inp : AppDeployInput) : Release :=
  let rd := pl_source plan in
  let '(specMap, specDigest) := encodeForRelease (spec_meta (release_spec plan inp)) in
  mkRelease id (p_ID (pl_Project plan)) (pl_AppID plan) (pl_SourceType plan) specDigest
    (encodeForRelease (renderFingerprint plan)).2 specMap (encodeRenderedObjects (rd_Objects rd))
    (lb_meta (pl_LBSummary plan)) (pl_Warnings plan) (nonempty (rd_HelmChart rd)) (default [] (rd_HelmValues rd))
    (nonempty (hashIfNotEmpty (rd_HelmRendered rd))) (nonempty (hashSliceIfNotEmpty (rd_Manifests rd)))
    (nonempty (TrimSpace (rd_Repo rd))) (pl_SBOM plan) "succeeded" "" 0.

Definition recordRelease (plan : appDeploymentPlan C) (inp : AppDeployInput) : svc string :=
  id ← uuid_fresh;
  _ ← db (CreateRelease (new_release id plan inp));
  mret id.

(** ** Presenting *)

(** [AppRelease] of the API *)
Record ReleaseView := mkReleaseView {
  rv_ID : string; rv_ProjectID : string; rv_AppID : string; rv_CreatedAt : Z; rv_Source : string; rv_SpecDigest : string;
  rv_RenderDigest : string; rv_Repo : string; rv_Spec : ReleaseSpec; rv_RenderedObjects : list RenderedObjectSummary;
  rv_LoadBalancers : LoadBalancerSummary; rv_Warnings : list string; rv_HelmChart : string; rv_HelmValues : Meta;
  rv_HelmRenderSHA : string; rv_ManifestsSHA : string; rv_SBOM : Meta; rv_Status : string; rv_Message : string
}.

(** An integer read as a [float64]: beyond fifty-three bits it is rounded to the nearest even. *)
Definition float64_of_Z (z : Z) : Z :=
  let a := Z.abs z in
  if (a <? 2 ^ 53)%Z then z
  else
    let e := (Z.log2 a - 52)%Z in
    let q := (a / 2 ^ e)%Z in
    let r := (a mod 2 ^ e)%Z in
    let half := (2 ^ (e - 1))%Z in
    let q := if (half <? r)%Z || ((r =? half)%Z && Z.odd q) then (q + 1)%Z else q in
    (Z.sgn z * q * 2 ^ e)%Z.

(** The counts that are stored are integers; they come back as [float64]. *)
Definition toInt (v : option any) : option Z :=
  match v with Some (AOther r) => float64_of_Z <$> Atoi r | _ => None end.

Definition decodeLoadBalancers (m : Meta) : LoadBalancerSummary :=
  let get k := default 0%Z (toInt (lookup_meta m k)) in
  mkLBSummary (get "requested") (get "existing") (get "limit").

Definition convertRelease (rel : Release) : result string ReleaseView :=
  spec ← prefix_err "decode spec: " (spec_of (rl_Spec rel));
  objs ← prefix_err "decode rendered objects: " (all_ok rendered_of (rl_RenderedObjects rel));
  let status := TrimSpace (rl_Status rel) in
  Ok (mkReleaseView (rl_ID rel) (rl_ProjectID rel) (rl_AppID rel) (rl_CreatedAt rel) (rl_Source rel) (rl_SpecDigest rel)
        (rl_RenderDigest rel) (default "" (rl_Repo rel)) spec objs (decodeLoadBalancers (rl_LoadBalancers rel))
        (rl_Warnings rel) (default "" (rl_HelmChart rel)) (rl_HelmValues rel) (default "" (rl_HelmRenderSHA rel))
        (default "" (rl_ManifestsSHA rel)) (rl_SBOM rel) (if str_eqb status "" then "succeeded" else status)
        (TrimSpace (rl_Message rel))).

(** The releases of a page and the cursor of the next, empty on the last. *)
Definition page_limit (limit : Z) : Z :=
  let limit := if (limit <=? 0)%Z then 20%Z else limit in
  if (100 <? limit)%Z then 100%Z else limit.

Definition release_cursor (projectID appID cursor : string) : svc (option (string * Z)) :=
  let cursor := TrimSpace cursor in
  if str_eqb cursor "" then mret None
  else
    rel ← wrap_err (EWrap "invalid cursor: ") (db (GetRelease cursor));
    if negb (str_eqb (rl_ProjectID rel) projectID) then fail (EText "cursor does not match project")
    else if negb (str_eqb (rl_AppID rel) appID) then fail (EText "cursor does not match app")
    else mret (Some (rl_ID rel, rl_CreatedAt rel)).

Definition ListAppReleases (projectID appID : string) (limit : Z) (cursor : string) : svc (list ReleaseView * string) :=
  let projectID := TrimSpace projectID in
  let appID := TrimSpace appID in
  if str_eqb projectID "" || str_eqb appID "" then fail (EText "projectId and appId are required")
  else
    let limit := page_limit limit in
    app ← db (GetApp appID);
    if negb (str_eqb (a_ProjectID app) projectID) then fail (EText "app does not belong to project")
    else
      cur ← release_cursor projectID appID cursor;
      rows ← db (ListReleasesByApp projectID appID (limit + 1) cur);
      let hasMore := (limit <? Z.of_nat (length rows))%Z in
      let rows := if hasMore then take (Z.to_nat limit) rows else rows in
      views ← pure (all_ok convertRelease rows);
      mret (views, match last rows with Some r => if hasMore then rl_ID r else "" | None => "" end).
End Record_.
