(* ===== verification/Deploy.v ===== *)
(** Deploying and deleting applications, and Git webhooks: of [internal/service/apps.go],
    [DeployApp], [applyRawManifest], [ensureAppCRDForPlan], [mirrorAppCRD],
    [ensureDNSForService], [waitForServiceDNS], [waitForLoadBalancerAddrs],
    [collectLoadBalancerAddrs], [HandleGitWebhook] and [DeleteApp].

    An applied object comes back from the API server as it was sent; log lines are left out. *)

From Stdlib Require Import Ascii ZArith Lia.
From stdpp Require Import base gmap strings list.
From S2P Require Import Prelude Utf8 GoStrings Hash GoTime NetURL NetIP Security Names Kube Attachments Crypto Json Config Quota.
From S2P Require Import Dns Events Maintenance Workload Store StoreApps Tenancy Credentials Sources GitFiles Plan Releases.

(** ** What is outside the repository *)

(** The App resource as the service applies it and as it reads it back; [sa_Spec] and
    [sa_Status] are the documents their encodings are. *)
Record AppObject := mkAppObject {
  ao_Namespace : string; ao_Name : string; ao_Labels : labels; ao_Image : string; ao_Replicas : Z; ao_Hosts : list string
}.
(** The document an App resource is sent as. *)
Definition app_document (o : AppObject) : Unstructured :=
  mkUnstructured "paas.kubeop.io/v1alpha1" "App" (ao_Namespace o) (ao_Name o) "" (ao_Labels o)
    [("spec", AMap ([("type", AString ""); ("image", AString (ao_Image o)); ("replicas", any_int (ao_Replicas o))] ++
                    match ao_Hosts o with [] => [] | hosts => [("hosts", AList (AString <$> hosts))] end))].
Record StoredApp := mkStoredApp {
  sa_Kind : string; sa_Namespace : string; sa_Name : string; sa_UID : string; sa_ResourceVersion : string;
  sa_Spec : Meta; sa_Status : Meta
}.

Class AppPlatform (Q K C CS : Type) := {
  (** [logging.Files().EnsureApp]; [Ok] when there is no file manager *)
  EnsureApp : string -> string -> result string unit;
  get_deployment : C -> string -> string -> K -> get_result (AppDeployment Q);
  (** the objects of a kind in a namespace with the given labels: their names and, of an
      Ingress, the hosts of its rules *)
  list_labelled : C -> string -> string -> labels -> K -> result string (list (string * list string));
  (** [Patch] with [crclient.Apply], [ForceOwnership] and the owner [kubeop-api] *)
  patch_app : C -> AppObject -> io K string unit;
  get_app : C -> string -> string -> K -> get_result StoredApp;
  (** the type of a Service and the addresses of its load balancer; a read moves the clock *)
  get_service : CS -> string -> string -> io K string (string * list string);
  (** the services behind the DNS providers *)
  app_dns :: DnsHttp K;
}.

Record AppDeployOutput := mkDeployOutput { do_AppID : string; do_Name : string; do_Service : string; do_Ingress : string }.

(** The goroutine that waits for the address of a load balancer. *)
Record dns_job := mkDnsJob { dj_ClusterID : string; dj_Namespace : string; dj_Service : string; dj_Host : string }.

(** ** Objects of an image *)

Definition app_selector (appID : string) : labels := {[labelAppID := appID]}.

Definition labels_project (p : Project) : Names.Project :=
  Names.mkProject (p_ID p) (p_UserID p) (p_ClusterID p) (p_Name p) (p_Namespace p).

Definition app_labels {C} (plan : appDeploymentPlan C) : labels :=
  CanonicalAppLabels (labels_project (pl_Project plan)) (pl_Name plan) (pl_KubeName plan) (pl_AppID plan).

Definition secret_env (name : string) : EnvFromSource := mkEnvFromSource "" None (Some name).

Definition set_env_from {Q} (l : list EnvFromSource) (c : AppContainer Q) : AppContainer Q :=
  mkAppContainer (ac_Name c) (ac_Image c) (ac_Security c) (ac_Requests c) (ac_Limits c) (ac_Env c) l (ac_Ports c).

Definition set_containers {Q} (d : AppDeployment Q) (l : list (AppContainer Q)) : AppDeployment Q :=
  mkAppDeployment (dp_Namespace d) (dp_Name d) (dp_Labels d) (dp_Annotations d) (dp_Replicas d) (dp_Selector d)
    (dp_TemplateLabels d) l.

Definition set_annotation {Q} (k v : string) (d : AppDeployment Q) : AppDeployment Q :=
  mkAppDeployment (dp_Namespace d) (dp_Name d) (dp_Labels d) (<[k := v]> (dp_Annotations d)) (dp_Replicas d)
    (dp_Selector d) (dp_TemplateLabels d) (dp_Containers d).

Definition blank_app_deployment {Q} (namespace name : string) : AppDeployment Q :=
  mkAppDeployment namespace name ∅ ∅ None ∅ ∅ [].

Section Deploy.
Context {Q K C R CS : Type} `{plat : Platform Q K C R CS} `{pg : Postgres} `{rem : Remote K} `{git : GitHost K}.
Context `{apl : AppPlatform Q K C CS}.
Context (cfg : Config) (encKey : bytes) (actor : string).
Local Abbreviation W := (World K C R).
Local Abbreviation svc := (io W svc_error).

(** One entry of a resource list; a blank or missing value leaves the list as it is. *)
Definition resource_entry (resources : gmap string string) (key name : string) (rl : ResourceList Q) : option (ResourceList Q) :=
  let v := default "" (resources !! key) in
  if str_eqb v "" then Some rl else q ← resourceMustParse ParseQuantity v; Some (<[name := q]> rl).

Definition app_container (plan : appDeploymentPlan C) : option (AppContainer Q) :=
  let r := pl_Resources plan in
  requests ← resource_entry r "requests.cpu" "cpu" ∅;
  requests ← resource_entry r "requests.memory" "memory" requests;
  limits ← resource_entry r "limits.cpu" "cpu" ∅;
  limits ← resource_entry r "limits.memory" "memory" limits;
  Some (mkAppContainer "app" (pl_Image plan) (DefaultContainerSecurityContext (cfg_PodSecurityLevel cfg)) requests limits
          ((fun e => mkEnvVar e.1 e.2 None) <$> pl_Env plan) []
          (List.filter (fun p => (0 <? p)%Z) (ContainerPort <$> pl_Ports plan))).

Definition app_deployment (plan : appDeploymentPlan C) (ctn : AppContainer Q) : AppDeployment Q :=
  let l := <["app.kubernetes.io/name" := pl_KubeName plan]> (app_labels plan) in
  mkAppDeployment (p_Namespace (pl_Project plan)) (pl_KubeName plan) l ∅ (Some (pl_Replicas plan))
    (app_selector (pl_AppID plan)) l [ctn].

Definition lbServiceAnnotations : labels :=
  if EqualFold (cfg_LBDriver cfg) "metallb" && negb (str_eqb (cfg_LBMetallbPool cfg) "")
  then {["metallb.universe.tf/address-pool" := cfg_LBMetallbPool cfg]} else ∅.

Definition service_port (pr : AppPort) : ServicePort :=
  mkServicePort (ServicePort_ pr) (ContainerPort pr) (if EqualFold (Protocol pr) "UDP" then "UDP" else "").

Definition app_service (plan : appDeploymentPlan C) : AppService :=
  let shown := List.filter (fun pr => (0 <? ServicePort_ pr)%Z) (pl_Ports plan) in
  mkAppService (p_Namespace (pl_Project plan)) (pl_KubeName plan) (app_labels plan) lbServiceAnnotations
    (service_port <$> shown) (if existsb is_lb shown then ServiceTypeLoadBalancer else "ClusterIP")
    (app_selector (pl_AppID plan)).

Definition http_port (ports : list AppPort) : Z :=
  match List.find (fun pr => (ServicePort_ pr =? 80)%Z || (ServicePort_ pr =? 8080)%Z) ports with
  | Some pr => ServicePort_ pr
  | None => 80
  end.

Definition app_ingress (plan : appDeploymentPlan C) : AppIngress :=
  let name := pl_KubeName plan in
  let host := pl_Host plan in
  mkAppIngress (p_Namespace (pl_Project plan)) name (app_labels plan)
    (if cfg_EnableCertManager cfg
     then {["cert-manager.io/cluster-issuer" := "letsencrypt-prod"; "kubernetes.io/tls-acme" := "true"]} else ∅)
    [mkIngressRule host name (http_port (pl_Ports plan))]
    (if cfg_EnableCertManager cfg then [([host], name +:+ "-tls")] else []).

Definition app_certificate (plan : appDeploymentPlan C) : Unstructured :=
  let name := pl_KubeName plan in
  mkUnstructured "cert-manager.io/v1" "Certificate" (p_Namespace (pl_Project plan)) (name +:+ "-cert") "" ∅
    [("spec", AMap [("dnsNames", AList [AString (pl_Host plan)]); ("secretName", AString (name +:+ "-tls"));
                    ("issuerRef", AMap [("name", AString "letsencrypt-prod"); ("kind", AString "ClusterIssuer")])])].

(** ** DNS *)

Fixpoint collectLoadBalancerAddrs (ips : list string) : list Addr :=
  match ips with
  | [] => []
  | ip :: ips =>
      let ip := TrimSpace ip in
      if str_eqb ip "" then collectLoadBalancerAddrs ips
      else match ParseAddr ip with
      | Some addr => addr :: collectLoadBalancerAddrs ips
      | None => collectLoadBalancerAddrs ips
      end
  end.

(** A job is what is left for the goroutine. *)
Definition ensureDNSForService (clusterID namespace serviceName host : string) : svc (option dns_job) :=
  if str_eqb host "" then mret None
  else match NewProvider cfg with
  | None => mret None
  | Some provider =>
      cs ← wrap_err (EWrap "load kube client") (GetClientset encKey clusterID);
      svc_ ← wrap_err (EWrap "fetch service") (k8s (get_service cs namespace serviceName));
      if negb (str_eqb svc_.1 ServiceTypeLoadBalancer) then mret None
      else match collectLoadBalancerAddrs svc_.2 with
      | [] => mret (Some (mkDnsJob clusterID namespace serviceName host))
      | addrs => _ ← wrap_err (EWrap "ensure dns record") (k8s (EnsureRecords provider host addrs (cfg_DNSRecordTTL cfg))); mret None
      end
  end.

(** [polls]: the reads until the context ends, one at once and one per tick of five seconds
    within the two minutes. *)
Fixpoint waitForLoadBalancerAddrs (polls : nat) (cs : CS) (namespace name : string) : svc (list Addr) :=
  match polls with
  | O => fail (EText "context deadline exceeded")
  | S polls =>
      svc_ ← k8s (get_service cs namespace name);
      match collectLoadBalancerAddrs svc_.2 with
      | [] => waitForLoadBalancerAddrs polls cs namespace name
      | addrs => mret addrs
      end
  end.

Definition lb_polls : nat := 24.

Definition waitForServiceDNS (job : dns_job) : svc unit :=
  match NewProvider cfg with
  | None => mret tt
  | Some provider =>
      cs ← GetClientset encKey (dj_ClusterID job);
      addrs ← waitForLoadBalancerAddrs lb_polls cs (dj_Namespace job) (dj_Service job);
      k8s (EnsureRecords provider (dj_Host job) addrs (cfg_DNSRecordTTL cfg))
  end.

(** ** Applying *)

(** The namespace of the project where the object has none, and the labels of the app. *)
Definition adopt (namespace : string) (l : labels) (u : Unstructured) : Unstructured :=
  mkUnstructured (un_APIVersion u) (un_Kind u)
    (if isNamespacedKind (un_Kind u) && str_eqb (un_Namespace u) "" then namespace else un_Namespace u)
    (un_Name u) (un_GenerateName u) (l ∪ un_Labels u) (un_Object u).

Definition applyRawManifest (clusterID raw namespace : string) (l : labels) : svc unit :=
  objs ← pure (decodeManifestDocuments decode_yaml raw);
  match objs with
  | [] => mret tt
  | _ =>
      c ← GetOrCreate encKey clusterID;
      for_each (fun u => apply c (KRaw (adopt namespace l u))) objs
  end.

(** The names of the Service and the Ingress, and what is left to wait for. *)
Record deployed := mkDeployed { dd_service : string; dd_ingress : string; dd_job : option dns_job }.

Definition recover {A} (a : A) (m : svc A) : svc A := fun w =>
  match m w with (Ok x, w) => (Ok x, w) | (Err _, w) => (Ok a, w) end.

Definition deploy_ingress (plan : appDeploymentPlan C) (svcName : string) : svc (option dns_job) :=
  let p := pl_Project plan in
  let c := pl_Client plan in
  _ ← (if cfg_EnableCertManager cfg then ignore_err (apply c (KRaw (app_certificate plan))) else mret tt);
  _ ← apply c (KIngress (app_ingress plan));
  id ← uuid_fresh;
  _ ← ignore_err (db (UpsertAppDomain id (pl_AppID plan) (pl_Host plan) "pending"));
  recover None (ensureDNSForService (p_ClusterID p) (p_Namespace p) svcName (pl_Host plan)).

Definition deploy_image (plan : appDeploymentPlan C) : svc deployed :=
  let c := pl_Client plan in
  ctn ← panics (app_container plan);
  let dep := app_deployment plan ctn in
  _ ← apply c (KDeployment dep);
  _ ← (if (0 <? length (pl_Secrets plan))%nat
       then apply c (KDeployment (set_containers dep [set_env_from (secret_env <$> pl_Secrets plan) ctn]))
       else mret tt);
  if (0 <? length (pl_Ports plan))%nat then
    _ ← apply c (KService (app_service plan));
    let svcName := pl_KubeName plan in
    if str_eqb (pl_Host plan) "" then mret (mkDeployed svcName "" None)
    else
      job ← deploy_ingress plan svcName;
      mret (mkDeployed svcName (pl_KubeName plan) job)
  else mret (mkDeployed "" "" None).

Definition deploy_documents (plan : appDeploymentPlan C) (docs : list string) : svc deployed :=
  let p := pl_Project plan in
  _ ← for_each (fun doc => applyRawManifest (p_ClusterID p) doc (p_Namespace p) (app_labels plan)) docs;
  mret (mkDeployed "" "" None).

Definition deploy_objects (plan : appDeploymentPlan C) : svc deployed :=
  let rd := pl_source plan in
  let t := pl_SourceType plan in
  if str_eqb t "image" then deploy_image plan
  else if str_eqb t "manifests" || str_eqb t "ociBundle" then deploy_documents plan (rd_Manifests rd)
  else if str_eqb t "helm" then
    if blank (rd_HelmRendered rd) then fail (EText "helm render unexpectedly empty")
    else deploy_documents plan [rd_HelmRendered rd]
  else if HasPrefix t "git:" then deploy_documents plan (rd_Manifests rd)
  else fail (EText ("unsupported source type " +:+ t)).

(** ** What is recorded *)

Definition null_or {A} (f : A -> any) (l : option A) : any := match l with Some a => f a | None => AOther "null" end.
(** A nil slice or map. *)
Definition nil_or {A} (f : list A -> any) (l : list A) : any := match l with [] => AOther "null" | _ => f l end.

Definition git_meta (g : gitSourcePlan) : any :=
  AMap ([("url", AString (gp_URL g)); ("ref", AString (gp_Ref g)); ("path", AString (gp_Path g)); ("mode", AString (gp_Mode g))] ++
        opt_text "commit" (gp_Commit g) ++ opt_text "credentialId" (gp_CredentialID g)).

Definition bundle_meta (b : ociBundlePlan) : any :=
  AMap ([("ref", AString (bp_Ref b))] ++ opt_text "digest" (bp_Digest b) ++ opt_text "credentialId" (bp_CredentialID b) ++
        (if bp_Insecure b then [("insecure", any_bool true)] else []) ++ opt_text "mediaType" (bp_MediaType b)).

Definition source_details (rd : rendering) : Meta :=
  match rd_Git rd with Some g => [("git", git_meta g)] | None => [] end ++
  match rd_OciBundle rd with Some b => [("ociBundle", bundle_meta b)] | None => [] end.

Definition sourceMeta (plan : appDeploymentPlan C) : Meta :=
  [("image", AString (pl_Image plan)); ("ports", nil_or (fun l => AList (port_any <$> l)) (pl_Ports plan));
   ("env", nil_or (fun l => AMap ((fun e => (e.1, AString e.2)) <$> l)) (pl_Env plan));
   ("helm", null_or AMap (pl_HelmSpec plan)); ("kubeName", AString (pl_KubeName plan))] ++ source_details (pl_source plan).

Definition deliveryMeta (plan : appDeploymentPlan C) : Meta :=
  [("type", AString (pl_SourceType plan)); ("sbom", AMap (pl_SBOM plan))] ++ source_details (pl_source plan).

Definition externalRef (plan : appDeploymentPlan C) : string :=
  match rd_Git (pl_source plan) with
  | Some g => gp_Commit g
  | None => match rd_OciBundle (pl_source plan) with Some b => bp_Digest b | None => "" end
  end.

(** A failure to store the mirror is logged only. *)
Definition mirrorAppCRD (project : Project) (crd : StoredApp) : svc unit :=
  let kind := if str_eqb (TrimSpace (sa_Kind crd)) "" then "App" else sa_Kind crd in
  ignore_err (db (UpsertK8sCRD (mkCRDRow (p_ClusterID project) (p_ID project) kind (sa_Namespace crd) (sa_Name crd)
    (sa_UID crd) (sa_ResourceVersion crd) (sha256_hex (json_bytes (AMap (sa_Spec crd)))) (encodeForRelease (sa_Spec crd)).1
    (encodeForRelease (sa_Status crd)).1 None))).

(** The App resource of a plan. *)
Definition plan_app (plan : appDeploymentPlan C) : AppObject :=
  let p := pl_Project plan in
  let l := <["kubeop.io/managed" := "true"]> (<["kubeop.io/project-id" := p_ID p]> (<["kubeop.io/app-id" := pl_AppID plan]>
             (<["app.kubernetes.io/name" := pl_KubeName plan]> (app_labels plan)))) in
  let host := TrimSpace (pl_Host plan) in
  mkAppObject (p_Namespace p) (pl_KubeName plan) l (pl_Image plan) (pl_Replicas plan) (if str_eqb host "" then [] else [host]).

Definition ensureAppCRDForPlan (plan : appDeploymentPlan C) : svc unit :=
  if negb (str_eqb (pl_SourceType plan) "image") then mret tt
  else if blank (pl_Image plan) then fail (EText "image source missing for CRD sync")
  else
    let p := pl_Project plan in
    _ ← wrap_err (EWrap "apply app crd: ") (k8s (patch_app (pl_Client plan) (plan_app plan)));
    got ← reads (get_app (pl_Client plan) (p_Namespace p) (pl_KubeName plan));
    match got with
    | Found crd => mirrorAppCRD p crd
    | NotFound => fail (EText "load app crd: not found")
    | GetFailed e => fail (EText ("load app crd: " +:+ e))
    end.

Definition deployed_meta (plan : appDeploymentPlan C) (name release : string) (d : deployed) : Meta :=
  let p := pl_Project plan in
  [("app_id", AString (pl_AppID plan)); ("app_name", AString name); ("kube_name", AString (pl_KubeName plan));
   ("cluster_id", AString (p_ClusterID p)); ("namespace", AString (p_Namespace p)); ("source", AString (pl_SourceType plan));
   ("release_id", AString release)] ++ opt_text "service_name" (dd_service d) ++ opt_text "ingress_name" (dd_ingress d).

(** ** DeployApp *)

(** The row, the release, the custom resource and the event of an application whose objects are
    in place. *)
Definition record_deployment (inp : AppDeployInput) (plan : appDeploymentPlan C) (d : deployed)
    : svc (AppDeployOutput * option dns_job) :=
  let p := pl_Project plan in
  _ ← wrap_err (EWrap "persist app: ")
        (db (CreateApp (pl_AppID plan) (p_ID p) (di_Name inp) "deployed" (rd_Repo (pl_source plan)) (pl_WebhookSecret plan)
               (externalRef plan) (sourceMeta plan) (deliveryMeta plan)));
  release ← wrap_err (EWrap "record release: ") (recordRelease plan inp);
  _ ← ignore_err (ensureAppCRDForPlan plan);
  _ ← append_app_event cfg actor (p_ID p) (pl_AppID plan) "app_deployed" SeverityInfo
        ("app " +:+ di_Name inp +:+ " deployed") (deployed_meta plan (di_Name inp) release d);
  mret (mkDeployOutput (pl_AppID plan) (di_Name inp) (dd_service d) (dd_ingress d), dd_job d).

Definition deploy_plan (inp : AppDeployInput) (plan : appDeploymentPlan C) : svc (AppDeployOutput * option dns_job) :=
  _ ← wrap_err (EWrap "prepare app logs: ") (pure (EnsureApp (p_ID (pl_Project plan)) (pl_AppID plan)));
  d ← deploy_objects plan;
  record_deployment inp plan d.

Definition DeployApp (inp : AppDeployInput) : svc (AppDeployOutput * option dns_job) :=
  _ ← maintenance_gate;
  if blank (di_ProjectID inp) || blank (di_Name inp) then fail (EText "projectId and name are required")
  else
    appID ← uuid_fresh;
    plan ← planAppDeployment cfg encKey inp appID;
    deploy_plan inp plan.

(** ** Webhooks *)

Definition redeploy (c : C) (namespace name : string) : svc unit :=
  got ← reads (fun k => (get_deployment c namespace name k, time_Now k));
  let dep := match got.1 with Found d => d | _ => blank_app_deployment namespace name end in
  ignore_err (apply c (KDeployment (set_annotation "kubeop.io/redeploy" (FormatRFC3339 got.2) dep))).

(** The secret a delivery for the app has to be signed with; empty when none is asked for. *)
Definition webhook_secret (a : App) : string :=
  match a_WebhookSecret a with
  | Some s => s
  | None => cfg_GitWebhookSecret cfg
  end.

Definition webhook_app (raw : bytes) (signature : string) (a : App) : svc unit :=
  let secret := webhook_secret a in
  if negb (str_eqb secret "") && negb (VerifyHMACSHA256 raw secret signature) then mret tt
  else
    r ← try_db (GetProject (a_ProjectID a));
    match r with
    | Err _ => mret tt
    | Ok (p, _, _) =>
        recover tt (c ← GetOrCreate encKey (p_ClusterID p); redeploy c (p_Namespace p) (Slugify (a_Name a)))
    end.

Definition HandleGitWebhook (payload : Meta) (raw : bytes) (signature : string) : svc unit :=
  let repo := getMapString payload ["repository"; "full_name"] in
  let repo := if str_eqb repo "" then getMapString payload ["repository"; "clone_url"] else repo in
  if str_eqb repo "" || str_eqb (getString payload "ref") "" then fail (EText "unsupported payload: missing repository/ref")
  else
    apps ← db (FindAppsByRepo repo);
    for_each (webhook_app raw signature) apps.

(** ** DeleteApp *)

(** The objects of one kind with the label of the app; the hosts of the rules met. *)
Definition delete_labelled (c : C) (namespace appID kind : string) : svc (list string) :=
  r ← reads (list_labelled c kind namespace (app_selector appID));
  match r with
  | Err _ => mret []
  | Ok found =>
      _ ← for_each (fun o => _ ← try_k8s (delete_object c (kind, namespace, o.1)); mret tt) found;
      mret (List.filter (fun h => negb (str_eqb h "")) (found ≫= snd))
  end.

Definition workload_kinds : list string := ["Deployment"; "StatefulSet"; "DaemonSet"; "Service"].
Definition other_kinds : list string := ["Job"; "CronJob"; "ConfigMap"; "Secret"; "PersistentVolumeClaim"].

Definition app_kube_name (a : App) : string :=
  appKubeName (match lookup_meta (a_Source a) "kubeName" with Some (AString s) => Some s | _ => None end) (a_Name a).

Definition delete_kinds (c : C) (namespace appID : string) (kinds : list string) : svc unit :=
  for_each (fun kind => _ ← delete_labelled c namespace appID kind; mret tt) kinds.

Definition delete_objects (c : C) (p : Project) (a : App) (appID : string) : svc (list string) :=
  let ns := p_Namespace p in
  _ ← delete_kinds c ns appID workload_kinds;
  hosts ← delete_labelled c ns appID "Ingress";
  _ ← delete_kinds c ns appID other_kinds;
  let slug := app_kube_name a in
  _ ← (if cfg_EnableCertManager cfg && negb (str_eqb slug "") then
         _ ← try_k8s (delete_object c ("Secret", ns, slug +:+ "-tls"));
         _ ← try_k8s (delete_object c ("Certificate", ns, slug +:+ "-cert"));
         mret tt
       else mret tt);
  _ ← (match NewProvider cfg with
       | Some provider => for_each (fun h => _ ← try_k8s (DeleteRecords provider h); mret tt) hosts
       | None => mret tt
       end);
  mret hosts.

Definition DeleteApp (projectID appID : string) : svc unit :=
  _ ← maintenance_gate;
  a ← db (GetApp appID);
  if negb (str_eqb (a_ProjectID a) projectID) then fail (EText "app does not belong to project")
  else
    r ← db (GetProject projectID);
    let p := r.1.1 in
    c ← GetOrCreate encKey (p_ClusterID p);
    hosts ← delete_objects c p a appID;
    _ ← ignore_err (db (DeleteAppDomains appID));
    now ← reads time_Now;
    _ ← ignore_err (db (MarkK8sCRDDeleted (p_ClusterID p) "App" (p_Namespace p) (app_kube_name a) now));
    _ ← ignore_err (db (SoftDeleteApp appID));
    append_app_event cfg actor projectID appID "app_deleted" "WARN" ("app " +:+ a_Name a +:+ " deleted")
      [("cluster_id", AString (p_ClusterID p)); ("namespace", AString (p_Namespace p));
       ("ingress_hosts_removed", any_int (Z.of_nat (length hosts))); ("ingress_hosts", nil_or (fun l => AList (AString <$> l)) hosts);
       ("app_name", AString (a_Name a))].
End Deploy.
