(* ===== verification/GitProofs.v ===== *)
(** What a Git checkout hands out, and that it is removed. *)

From Stdlib Require Import Ascii ZArith Lia.
From stdpp Require Import base gmap strings list sorting.
From S2P Require Import Prelude Utf8 GoStrings NetURL Security SecurityProofs Credentials Sources GitFiles.

(** ** Induction on a tree of entries *)

Section Trees.
Context (P : dir_entry -> Prop).
Context (Hentry : forall name mode children,
  match children with Ok l => Forall P l | Err _ => True end -> P (Entry name mode children)).

Fixpoint dir_entry_ind' (e : dir_entry) : P e :=
  match e with
  | Entry name mode children =>
      Hentry name mode children
        (match children with
         | Err _ => I
         | Ok l => (fix all (l : list dir_entry) : Forall P l :=
                      match l with
                      | [] => List.Forall_nil P
                      | x :: l => List.Forall_cons P x l (dir_entry_ind' x) (all l)
                      end) l
         end)
  end.
End Trees.

(** ** The manifests of a checkout *)

Lemma git_sec_ok {A} prefix (r : result sec_error A) a : git_sec prefix r = Ok a <-> r = Ok a.
Proof. destruct r; cbn; split; congruence. Qed.

Lemma git_text_ok {A} prefix (r : result string A) a : git_text prefix r = Ok a <-> r = Ok a.
Proof. destruct r; cbn; split; congruence. Qed.

Section Load.
Context (fs : Files).

Lemma CleanRoot_abs root r : CleanRoot (EvalSymlinks fs) root = Ok r -> IsAbs r = true.
Proof.
  unfold CleanRoot. cbv zeta. destruct (str_eqb _ _); [done|]. destruct (EvalSymlinks fs _) as [x|e]; [|done].
  destruct (IsAbs x) eqn:E; cbn; [|done]. by intros [= <-].
Qed.

(** A file the walk may list: YAML by its name, a file that is not special, below the root. *)
Definition listed (root p : string) : Prop :=
  under root p /\ isYAML p = true /\ exists m, Stat fs p = Ok m /\ EnsureRegularFile (Some m) = Ok tt.

Lemma visit_listed root path name mode files o files' :
  IsAbs root = true -> visit fs root path name mode files = (o, files') ->
  Forall (listed root) files -> Forall (listed root) files'.
Proof.
  intros Ha. unfold visit. destruct (str_eqb path "."); [by intros [= _ <-]|].
  destruct (WithinRepo _ root path) as [p|[]] eqn:Ew; try by intros [= _ <-].
  destruct (Stat fs p) as [m|e] eqn:Es; [|by intros [= _ <-]].
  destruct (is_dir m); [by intros [= _ <-]|]. destruct (isYAML p) eqn:Ey; cbn [negb]; [|by intros [= _ <-]].
  destruct (EnsureRegularFile (Some m)) as [[]|e] eqn:Er; [|by intros [= _ <-]].
  intros [= _ <-] Hf. apply Forall_app. split; [done|]. apply Forall_singleton.
  split; [by eapply WithinRepo_under|]. eauto.
Qed.

Lemma walk_dir_listed root : IsAbs root = true -> forall e path files o files',
  walk_dir fs root path e files = (o, files') -> Forall (listed root) files -> Forall (listed root) files'.
Proof.
  intros Ha e. induction e as [name mode children IH] using dir_entry_ind'. intros path files o files'. cbn [walk_dir].
  destruct (visit fs root path name mode files) as [v files1] eqn:Ev.
  intros H Hf. assert (Hf1 : Forall (listed root) files1) by by eapply visit_listed.
  destruct v; [|by injection H as _ <-|by injection H as _ <-].
  destruct (is_dir mode); cbn [negb] in H; [|by injection H as _ <-].
  destruct children as [l|err]; [|by injection H as _ <-].
  clear Ev Hf. revert files1 H Hf1. induction IH as [|x l Hx _ IHl]; intros files1 H Hf1; [by injection H as _ <-|].
  destruct (walk_dir fs root (filepath_Join path (entry_name x)) x files1) as [w files2] eqn:Ew.
  apply Hx in Ew; [|done]. destruct w; [by eapply IHl|by injection H as _ <-|by injection H as _ <-].
Qed.

Lemma manifest_files_listed root base mode files :
  IsAbs root = true -> under root base -> manifest_files fs root base mode = Ok files ->
  Forall (fun p => under root p /\ isYAML p = true) files.
Proof.
  intros Ha Hb. unfold manifest_files. destruct (is_dir mode).
  - intros (rel & _ & H)%bind_ok. apply bind_ok in H as (fl & Hw & [= <-]).
    unfold walk in Hw. destruct (dir_at fs root _) as [d|e]; [|done].
    destruct (walk_dir fs root _ d []) as [o fl'] eqn:E. apply walk_dir_listed in E; [|done|done].
    assert (fl' = fl) as -> by (destruct o; congruence).
    unfold sort_Strings. rewrite (merge_sort_Permutation str_le fl).
    eapply Forall_impl; [exact E|]. by intros p (? & ? & _).
  - destruct (isYAML base) eqn:Ey; cbn [negb]; [|done]. intros (u & _ & [= <-])%bind_ok. by apply Forall_singleton.
Qed.

Lemma read_all_ok root files docs : IsAbs root = true -> read_all fs root files = Ok docs ->
  exists paths, Forall2 (fun f p => WithinRepo (EvalSymlinks fs) root f = Ok p /\ under root p) files paths /\
    Forall2 (fun p doc => ReadFile fs p = Ok doc) paths docs.
Proof.
  intros Ha. revert docs. induction files as [|f files IH]; intros docs; cbn [read_all].
  { intros [= <-]. by exists []. }
  intros (p & Hp%git_sec_ok & H)%bind_ok. apply bind_ok in H as (doc & Hd%git_text_ok & H).
  apply bind_ok in H as (rest & Hr & [= <-]). apply IH in Hr as (paths & H1 & H2).
  exists (p :: paths). split; constructor; [|done..]. split; [done|]. by eapply WithinRepo_under.
Qed.

(** C22: whatever links a repository has, every document that is read from a checkout is the
    content of a path below the root of the checkout, reached from a YAML file below it. *)
Theorem manifests_contained root base info docs : LoadManifests fs root base info = Ok docs ->
  exists r files paths, CleanRoot (EvalSymlinks fs) root = Ok r /\
    Forall (fun f => under r f /\ isYAML f = true) files /\
    Forall2 (fun f p => WithinRepo (EvalSymlinks fs) r f = Ok p /\ under r p) files paths /\
    Forall2 (fun p doc => ReadFile fs p = Ok doc) paths docs.
Proof.
  intros (r & Hr%git_sec_ok & H)%bind_ok. pose proof (CleanRoot_abs _ _ Hr) as Ha.
  apply bind_ok in H as (b & Hb%git_sec_ok & H). apply bind_ok in H as (mode & _ & H).
  apply bind_ok in H as ([b' m'] & Hfl & H). cbn [fst snd] in H. apply bind_ok in H as (files & Hfs & H).
  apply read_all_ok in H as (paths & H1 & H2); [|done].
  exists r, files, paths. split; [done|]. split; [|done]. eapply manifest_files_listed; [done| |exact Hfs].
  unfold follow in Hfl. destruct (is_symlink mode).
  - apply bind_ok in Hfl as (x & Hx%git_sec_ok & Hfl). apply bind_ok in Hfl as (y & _ & [= <- <-]).
    by eapply WithinRepo_under.
  - injection Hfl as <- <-. by eapply WithinRepo_under.
Qed.
End Load.

(** ** Cleaning up *)

(** What the code relies on: the directories made for checkouts. *)
Class GitHostLaws (S : Type) `{host : GitHost S} := {
  checkouts : S -> gset string;
  MkdirTemp_new p s d s' : MkdirTemp p s = (Ok d, s') -> (d ∉ checkouts s) /\ checkouts s' = ({[d]} ∪ checkouts s);
  MkdirTemp_failed p s e s' : MkdirTemp p s = (Err e, s') -> checkouts s' = checkouts s;
  RemoveAll_gone d s : checkouts (RemoveAll d s) = (checkouts s ∖ {[d]});
  PlainClone_keeps d o s r s' : PlainClone d o s = (r, s') -> checkouts s' = checkouts s;
  Checkout_keeps d h s r s' : worktree_Checkout d h s = (r, s') -> checkouts s' = checkouts s;
}.

Section Checkout.
Context {S : Type} `{laws : GitHostLaws S}.

Lemma view_inv {A} (f : Files -> result git_error A) s r s' : view f s = (r, s') -> s' = s /\ r = f (files_of s).
Proof. by intros [= <- <-]. Qed.

Lemma wrap_err_inv {E E' A} (f : E -> E') (m : io S E A) s r s' :
  wrap_err f m s = (r, s') -> exists r0, m s = (r0, s').
Proof. unfold wrap_err. destruct (m s) as [[a|e] s1]; intros [= _ <-]; eauto. Qed.

Lemma checkout_in_inv dir opts s r s' : checkout_in dir opts s = (r, s') ->
  checkouts s' = checkouts s /\
  match r with Ok c => ck_Cleanup c = dir /\ under (ck_RepoRoot c) (ck_BasePath c) | Err _ => True end.
Proof.
  unfold checkout_in. intros H. apply io_bind_case in H as [(e & [= _ <-] & ->)|(v & s0 & [= Hv <-] & H)]; [done|].
  apply io_bind_case in H as [(e & (r0 & H)%wrap_err_inv & ->)|([] & s1 & (r0 & H1)%wrap_err_inv & H)].
  { by apply PlainClone_keeps in H. }
  apply PlainClone_keeps in H1. rewrite <- H1. clear H1 r0 s.
  apply io_bind_case in H as [(e & He & ->)|([] & s2 & H2 & H)].
  { split; [|done]. destruct (str_eqb _ ""); [done|]. apply wrap_err_inv in He as (r0 & He). by apply Checkout_keeps in He. }
  assert (checkouts s2 = checkouts s1) as <-.
  { destruct (str_eqb _ ""); [by injection H2 as <-|]. apply wrap_err_inv in H2 as (r0 & H2). by apply Checkout_keeps in H2. }
  apply io_bind_case in H as [(e & [= _ <-] & ->)|(commit & s3 & [= _ <-] & H)]; [done|].
  apply io_bind_case in H as [(e & [-> _]%view_inv & ->)|(root & s4 & [-> Hr]%view_inv & H)]; [done|].
  apply io_bind_case in H as [(e & [-> _]%view_inv & ->)|([base mode] & s5 & [-> Hb]%view_inv & [= <- <-])]; [done|].
  split; [done|]. cbn [ck_Cleanup ck_RepoRoot ck_BasePath fst snd]. split; [done|].
  symmetry in Hr. apply git_sec_ok, CleanRoot_abs in Hr.
  symmetry in Hb. apply bind_ok in Hb as (b & Hb & H). apply bind_ok in H as (m & _ & H).
  apply bind_ok in H as ([b1 m1] & Hb1 & H). apply bind_ok in H as ([] & _ & [= <- <-]).
  assert (Hu : under root b).
  { destruct (str_eqb v "").
    - injection Hb as <-. split; [by apply path_Clean_abs|done].
    - apply git_sec_ok in Hb. by eapply WithinRepo_under. }
  destruct (is_symlink m); [|by injection Hb1 as <- _].
  apply bind_ok in Hb1 as (x & Hx%git_sec_ok & Hb1). apply bind_ok in Hb1 as (y & _ & [= <- _]). by eapply WithinRepo_under.
Qed.

(** A checkout leaves one directory, the one its cleanup removes, and none when it fails; its
    base path lies in it. *)
Lemma CheckoutGit_inv opts s r s' : CheckoutGit opts s = (r, s') ->
  match r with
  | Err _ => checkouts s' = checkouts s
  | Ok c => (ck_Cleanup c ∉ checkouts s) /\ checkouts s' = ({[ck_Cleanup c]} ∪ checkouts s) /\
            under (ck_RepoRoot c) (ck_BasePath c)
  end.
Proof.
  unfold CheckoutGit. intros [(e & He & ->)|(dir & s1 & H1 & H)]%io_bind_case.
  { unfold wrap_err in He. destruct (MkdirTemp _ s) as [[d|e'] s1] eqn:E; [done|]. injection He as _ <-.
    by eapply MkdirTemp_failed. }
  apply wrap_err_ok, MkdirTemp_new in H1 as [Hnew H1]. unfold removing_on_error in H.
  destruct (checkout_in dir opts s1) as [[c|e] s2] eqn:E; apply checkout_in_inv in E as [Hc E]; injection H as <- <-.
  - destruct E as [-> Hu]. rewrite Hc, H1. done.
  - rewrite RemoveAll_gone, Hc, H1. set_solver.
Qed.
End Checkout.
