(* ===== verification/PlanProofs.v ===== *)
(** What the plan of a deployment guarantees. *)

From Stdlib Require Import Ascii ZArith Lia.
From stdpp Require Import base gmap strings list.
From S2P Require Import Prelude Utf8 GoStrings Hash NetURL NetIP Security Names Kube Aes Crypto Json Config Quota Events Maintenance.
From S2P Require Import Workload Store StoreApps StoreProofs Tenancy TenancyProofs ProjectProofs Credentials Sources GitFiles GitProofs Plan.

(** ** Statements that only read *)

Section Reads.
Context `{pg : Postgres}.

Lemma GetApp_ro id : read_only (GetApp id). Proof. read_only_tac. Qed.
Lemma FindAppsByRepo_ro repo : read_only (FindAppsByRepo repo). Proof. read_only_tac. Qed.
Lemma GetCluster_ro id : read_only (GetCluster id). Proof. read_only_tac. Qed.
Lemma select_credential_ro t id : read_only (select_credential t id). Proof. read_only_tac. Qed.
End Reads.
#[export] Hint Resolve GetApp_ro FindAppsByRepo_ro GetCluster_ro select_credential_ro : read_only.

Section Plan.
Context {Q K C R CS : Type} `{laws : PlatformLaws Q K C R CS} `{rem : Remote K} `{ghl : GitHostLaws K}.
Context (cfg : Config) (encKey : bytes).
Local Abbreviation W := (World K C R).
Local Abbreviation svc := (io W svc_error).
Local Abbreviation kept := (keeps (K := K) (C := C) (R := R)).

(** ** Fetching leaves the database and the set of checkouts as they were *)

Definition fetched (w w' : W) : Prop :=
  same_rows (w_db w) (w_db w') /\ checkouts (w_k8s w') = checkouts (w_k8s w).
#[export] Instance fetched_preorder : PreOrder fetched.
Proof.
  split; [by intros w; split|]. intros a b c [H1 H2] [H3 H4]. split; [by etransitivity|congruence].
Qed.

Lemma quiet_fetched {A} (m : svc A) : kept quiet m -> kept fetched m.
Proof. intros Hm w r w' [H1 H2]%Hm. split; [done|]. by rewrite H2. Qed.
#[local] Hint Resolve quiet_fetched : keeps.

Lemma keeps_or_fail_pure {E A} (P : W -> W -> Prop) `{!PreOrder P} (f : E -> svc_error) (x : result E A) :
  keeps P (or_fail f (mret x)).
Proof. apply keeps_or_fail; [done|]. apply keeps_ret, _. Qed.
#[local] Hint Resolve keeps_or_fail_pure : keeps.

Lemma quiet_open_credential t id : kept quiet (open_credential encKey t id).
Proof. unfold open_credential. keep. Qed.
#[local] Hint Resolve quiet_open_credential : keeps.

Lemma quiet_gitCredentialAuth key p id : kept quiet (gitCredentialAuth encKey key p id).
Proof. unfold gitCredentialAuth, GetGitCredential. keep. Qed.

Lemma quiet_registryCredentialAuth p id h : kept quiet (registryCredentialAuth encKey p id h).
Proof. unfold registryCredentialAuth, GetRegistryCredential. keep. Qed.
#[local] Hint Resolve quiet_gitCredentialAuth quiet_registryCredentialAuth : keeps.

Lemma quiet_git_documents mode ck : kept quiet (git_documents mode ck).
Proof. unfold git_documents. keep. all: apply keeps_or_fail_pure, _. Qed.

(** The checkout of a repository does not outlive the call, whatever comes of it. *)
Lemma fetched_renderGitSource p plan : kept fetched (renderGitSource encKey p plan).
Proof.
  unfold renderGitSource. apply keeps_bind; [apply _| |intros auth]; [keep|].
  intros w r w' H. apply io_bind_case in H as [(e & H & ->)|(ck & w1 & H & H')].
  - apply io_bind_case in H as [(e' & H & _)|(x & w1 & H & H')];
      unfold try_k8s in H; destruct (CheckoutGit _ (w_k8s w)) as [y k] eqn:E; injection H as H; [done|].
    subst x w1. apply CheckoutGit_inv in E. destruct y; [done|]. injection H' as _ <-. by split.
  - apply io_bind_ok in H as (x & w2 & H & H1). unfold try_k8s in H.
    destruct (CheckoutGit _ (w_k8s w)) as [y k] eqn:E. injection H as <- <-. destruct y as [c|]; [|done].
    injection H1 as <- <-. apply CheckoutGit_inv in E as (Hn & Hk & _).
    assert (Hf : forall r1 w2, with_cleanup (ck_Cleanup c) (git_documents (gp_Mode plan) c) (set_k8s w k) = (r1, w2) -> fetched w w2).
    { intros r1 w2. unfold with_cleanup. destruct (git_documents _ c (set_k8s w k)) as [r2 w3] eqn:Eg.
      apply quiet_git_documents in Eg as [Hr Hk3]. intros [= _ <-]. split; [done|]. cbn in *.
      rewrite RemoveAll_gone, Hk3, Hk. set_solver. }
    apply io_bind_case in H' as [(e & H & ->)|(docs & w2 & H & [= _ <-])]; by eapply Hf.
Qed.
#[local] Hint Resolve fetched_renderGitSource : keeps.

Lemma fetched_plan_source p inp g kn h : kept fetched (plan_source cfg encKey p inp g kn h).
Proof.
  unfold plan_source, bundle_source, manifests_source, git_source, helm_source, helm_oci, helm_url. keep.
Qed.

Lemma quiet_lb_summary c ns ports ov : kept quiet (lb_summary cfg c ns ports ov).
Proof. unfold lb_summary. keep. Qed.

Lemma quiet_cluster_name p : kept quiet (cluster_name (K := K) (C := C) (R := R) p).
Proof. unfold cluster_name. keep. Qed.
#[local] Hint Resolve fetched_plan_source quiet_lb_summary quiet_cluster_name : keeps.

Lemma fetched_plan inp id : kept fetched (planAppDeployment cfg encKey inp id).
Proof. unfold planAppDeployment. keep. Qed.

(** ** The shape of a plan *)

Definition document_type (t : string) : Prop :=
  t = "manifests" \/ t = "ociBundle" \/ HasPrefix t "git:" = true.

(** What the objects of a plan are, for each kind of source. *)
Inductive planned (ns kn h : string) (ports : list AppPort) (image : string) (rd : rendering) : Prop :=
| planned_image : rd_SourceType rd = "image" -> image <> "" -> rd_Objects rd = rendered_image cfg h kn ns ports -> planned ns kn h ports image rd
| planned_documents ws : document_type (rd_SourceType rd) ->
    summarise_docs ns (rd_Manifests rd) = Ok (rd_Objects rd, ws) -> planned ns kn h ports image rd
| planned_helm objs : rd_SourceType rd = "helm" -> decodeManifestDocuments decode_yaml (rd_HelmRendered rd) = Ok objs ->
    rd_Objects rd = summarise ns <$> objs -> planned ns kn h ports image rd
| planned_nothing : rd_SourceType rd = "" -> planned ns kn h ports image rd.

Lemma wrap_pure_ok {A} (f : svc_error -> svc_error) (x : result string A) (w : W) a w' : wrap_err f (pure x) w = (Ok a, w') -> x = Ok a /\ w' = w.
Proof. intros H%wrap_err_ok. by apply pure_ok. Qed.

Lemma plan_source_ok p inp g kn h (w : W) rd w' : plan_source cfg encKey p inp g kn h w = (Ok rd, w') ->
  planned (p_Namespace p) kn h (di_Ports inp) (TrimSpace (di_Image inp)) rd.
Proof.
  unfold plan_source. destruct (str_eqb (TrimSpace (di_Image inp)) "") eqn:Ei; cbn [negb].
  2: { intros [= <- _]. apply planned_image; [done|by apply str_eqb_neq|done]. }
  destruct (di_OciBundle inp) as [b|].
  { unfold bundle_source. cbv zeta. cbn [bp_Ref]. destruct (str_eqb (TrimSpace (TrimSpace (ob_Ref b))) ""); [done|]. intros (hr & w1 & _ & H)%io_bind_ok.
    apply io_bind_ok in H as (a & w2 & _ & H). apply io_bind_ok in H as (fe & w3 & _ & H).
    apply io_bind_ok in H as (re & w4 & _ & H). apply io_bind_ok in H as ([os ws] & w5 & [Hs _]%wrap_pure_ok & [= <- _]).
    eapply planned_documents; cbn; [by right; left|exact Hs]. }
  destruct (0 <? length (di_Manifests inp))%nat.
  { intros ([os ws] & w1 & [Hs _]%wrap_pure_ok & [= <- _])%io_bind_ok. eapply planned_documents; cbn; [by left|exact Hs]. }
  destruct g as [g|].
  { unfold git_source. intros ([docs commit] & w1 & _ & H)%io_bind_ok.
    apply io_bind_ok in H as ([os ws] & w2 & [Hs _]%wrap_pure_ok & [= <- _]).
    eapply planned_documents; cbn; [right; right|exact Hs]. done. }
  destruct (di_Helm inp) as [spec|]; [|intros [= <- _]; by apply planned_nothing].
  unfold helm_source. intros ([ch re] & w1 & _ & H)%io_bind_ok.
  apply io_bind_ok in H as (objs & w2 & [Hs _]%wrap_pure_ok & [= <- _]). by eapply planned_helm.
Qed.

(** A source that is not Git and not a bundle leaves no reference. *)
Lemma plan_source_plain p inp kn h (w : W) rd w' : di_OciBundle inp = None ->
  plan_source cfg encKey p inp None kn h w = (Ok rd, w') -> rd_Git rd = None /\ rd_OciBundle rd = None.
Proof.
  unfold plan_source. intros ->. destruct (negb _); [by intros [= <- _]|].
  destruct (0 <? _)%nat; [by intros (sw & w1 & _ & [= <- _])%io_bind_ok|].
  destruct (di_Helm inp); [|by intros [= <- _]].
  intros (cr & w1 & _ & H)%io_bind_ok. by apply io_bind_ok in H as (objs & w2 & _ & [= <- _]).
Qed.

(** The parts of a plan that the deployment relies on. *)
Record plan_facts (inp : AppDeployInput) (id : string) (w : W) (plan : appDeploymentPlan C) (w' : W) : Prop := {
  pf_id : pl_AppID plan = id;
  pf_kube : pl_KubeName plan = deriveKubeName (di_Name inp) id;
  pf_ports : pl_Ports plan = di_Ports inp;
  pf_secret : pl_WebhookSecret plan = TrimSpace (di_WebhookSecret inp);
  pf_image : pl_Image plan = TrimSpace (di_Image inp);
  pf_project : exists r, project_row (w_db w) (di_ProjectID inp) r /\ pl_Project plan = pr r;
  pf_planned : planned (p_Namespace (pl_Project plan)) (pl_KubeName plan) (pl_Host plan) (pl_Ports plan) (pl_Image plan) (pl_source plan);
  pf_plain : di_Git inp = None -> di_OciBundle inp = None -> rd_Git (pl_source plan) = None /\ rd_OciBundle (pl_source plan) = None;
  pf_lb : exists ov ws w1 w2, lb_summary cfg (pl_Client plan) (p_Namespace (pl_Project plan)) (di_Ports inp) ov w1 = (Ok (pl_LBSummary plan, ws), w2) /\
    w_k8s w1 = w_k8s w /\ exists qo d', GetProject (di_ProjectID inp) (w_db w) = (Ok (pl_Project plan, qo.1, qo.2), d') /\ DecodeQuotaOverrides qo.1 = Ok ov;
}.

Lemma plan_ok inp id (w : W) plan w' : planAppDeployment cfg encKey inp id w = (Ok plan, w') -> plan_facts inp id w plan w'.
Proof.
  unfold planAppDeployment. destruct (blank _ || _); [done|]. destruct (negb _); [done|].
  intros (g & w1 & Hg & H)%io_bind_ok.
  assert (w1 = w /\ (di_Git inp = None -> g = None)) as [-> Hg'].
  { destruct (di_Git inp).
    - apply io_bind_ok in Hg as (x & w2 & [_ ->]%pure_ok & [= <- <-]). done.
    - by injection Hg as <- <-. }
  apply io_bind_ok in H as ([[p qo] e] & w2 & (d & Hp & ->)%db_ok & H).
  apply io_bind_ok in H as (ov & w3 & [Hov ->]%pure_ok & H).
  apply io_bind_ok in H as (c & w4 & Hc%quiet_GetOrCreate & H).
  apply io_bind_ok in H as (rr & w5 & [_ ->]%pure_ok & H).
  apply io_bind_ok in H as ([lb lws] & w6 & Hlb & H).
  apply io_bind_ok in H as (cn & w7 & _ & H).
  apply io_bind_ok in H as (rd & w8 & Hrd & [= <- _]).
  split; cbn; try done.
  - apply GetProject_ok in Hp as (_ & r & Hr & -> & _). eauto.
  - by eapply plan_source_ok.
  - intros HG HB. rewrite (Hg' HG) in Hrd. by eapply plan_source_plain.
  - exists ov, lws, w4, w6. split; [done|]. split; [by rewrite (proj2 Hc)|]. by exists (qo, e), d.
Qed.
End Plan.

#[export] Hint Resolve quiet_fetched keeps_or_fail_pure quiet_open_credential quiet_gitCredentialAuth quiet_registryCredentialAuth
  quiet_git_documents fetched_renderGitSource fetched_plan_source quiet_lb_summary quiet_cluster_name fetched_plan : keeps.
