(* ===== verification/DeployProofs.v ===== *)
(** What the deployment of an application does, on the cluster and in the database. *)

From Stdlib Require Import Ascii ZArith Lia.
From stdpp Require Import base gmap strings list.
From S2P Require Import Prelude Utf8 GoStrings Hash GoTime NetURL NetIP Security Names Kube Attachments Aes Crypto Json Config Quota.
From S2P Require Import Dns DnsProofs Events Maintenance Workload Store StoreApps StoreProofs Tenancy TenancyProofs ProjectProofs Credentials.
From S2P Require Import Sources GitFiles GitProofs Plan PlanProofs Releases Deploy.

(** What the operations rely on: the log of the objects that were sent to a cluster grows by the
    object of each patch, the App resource included, and by nothing else, and a Deployment is read
    under its own name. *)
Class AppLaws (Q K C R CS : Type) `{plat : Platform Q K C R CS} `{host : GitHost K} `{apl : AppPlatform Q K C CS} := {
  sent : K -> list (KObject Q);
  patch_sent c o k r k' : patch_object c o k = (r, k') -> sent k' = sent k ++ [o];
  patch_app_sent c o k r k' : patch_app c o k = (r, k') -> sent k' = sent k ++ [KRaw (app_document o)];
  get_service_sent (cs : CS) ns n k r k' : get_service cs ns n k = (r, k') -> sent k' = sent k;
  dns_Do_sent req k r k' : dns_Do req k = (r, k') -> sent k' = sent k;
  MkdirTemp_sent p k r k' : MkdirTemp p k = (r, k') -> sent k' = sent k;
  RemoveAll_sent d k : sent (RemoveAll d k) = sent k;
  PlainClone_sent d o k r k' : PlainClone d o k = (r, k') -> sent k' = sent k;
  Checkout_sent d h k r k' : worktree_Checkout d h k = (r, k') -> sent k' = sent k;
  get_deployment_named (c : C) ns n k d : get_deployment c ns n k = Found d -> dp_Namespace d = ns /\ dp_Name d = n;
}.

Section Deploy.
Context {Q K C R CS : Type} `{laws : PlatformLaws Q K C R CS} `{rem : Remote K} `{ghl : GitHostLaws K}.
Context `{apl : AppPlatform Q K C CS}.
Context `{alaws : !AppLaws Q K C R CS}.
Context (cfg : Config) (encKey : bytes) (actor : string).
Local Abbreviation W := (World K C R).
Local Abbreviation svc := (io W svc_error).
Local Abbreviation kept := (keeps (K := K) (C := C) (R := R)).

(** ** Programs that send nothing *)

Definition unsent (w w' : W) : Prop := sent (w_k8s w') = sent (w_k8s w).
#[export] Instance unsent_preorder : PreOrder unsent.
Proof. split; [by intros w|]. intros a b c H1 H2. unfold unsent in *. congruence. Qed.

Lemma quiet_unsent {A} (m : svc A) : kept quiet m -> kept unsent m.
Proof. intros Hm w r w' [_ H]%Hm. unfold unsent. by rewrite H. Qed.
#[local] Hint Resolve quiet_unsent : keeps.

Lemma unsent_try_db {A} (m : io DB db_error A) : kept unsent (try_db m).
Proof. intros w r w'. unfold try_db. destruct (m (w_db w)). by intros [= _ <-]. Qed.

Lemma unsent_db {A} (m : io DB db_error A) : kept unsent (db m).
Proof. apply keeps_or_fail; [apply _|apply unsent_try_db]. Qed.

Lemma unsent_try_k8s {E A} (m : io K E A) :
  (forall k r k', m k = (r, k') -> sent k' = sent k) -> kept unsent (try_k8s m).
Proof. intros Hm w r w'. unfold try_k8s. destruct (m (w_k8s w)) as [x k] eqn:Ek. intros [= _ <-]. by eapply Hm. Qed.

Lemma unsent_k8s {A} (m : io K string A) : (forall k r k', m k = (r, k') -> sent k' = sent k) -> kept unsent (k8s m).
Proof. intros Hm. apply keeps_or_fail; [apply _|by apply unsent_try_k8s]. Qed.

Lemma keeps_ignore (P : W -> W -> Prop) {A} (m : svc A) : kept P m -> kept P (ignore_err m).
Proof. intros Hm w r w'. unfold ignore_err. destruct (m w) as [x w1] eqn:E. intros [= _ <-]. by eapply Hm. Qed.

Lemma keeps_recover (P : W -> W -> Prop) {A} (a : A) (m : svc A) : kept P m -> kept P (recover a m).
Proof. intros Hm w r w'. unfold recover. destruct (m w) as [[x|e] w1] eqn:E; intros [= _ <-]; by eapply Hm. Qed.

#[local] Hint Resolve unsent_try_db unsent_db : keeps.

Lemma CheckoutGit_sent opts k r k' : CheckoutGit opts k = (r, k') -> sent k' = sent k.
Proof.
  unfold CheckoutGit. intros [(e & (r0 & H%MkdirTemp_sent)%wrap_err_inv & _)|(d & k1 & (r0 & H1%MkdirTemp_sent)%wrap_err_inv & H)]%io_bind_case;
    [done|]. rewrite <- H1. clear H1 r0 k.
  assert (Hin : forall r2 k2, checkout_in d opts k1 = (r2, k2) -> sent k2 = sent k1).
  { clear. intros r2 k2. unfold checkout_in. intros H.
    apply io_bind_case in H as [(e & [= _ <-] & _)|(v & k0 & [= _ <-] & H)]; [done|].
    apply io_bind_case in H as [(e & (r0 & H%PlainClone_sent)%wrap_err_inv & _)|([] & k3 & (r0 & H3%PlainClone_sent)%wrap_err_inv & H)]; [done|].
    rewrite <- H3. clear H3 r0 k1.
    apply io_bind_case in H as [(e & He & _)|([] & k4 & H4 & H)].
    { destruct (str_eqb _ ""); [done|]. by apply wrap_err_inv in He as (r0 & He%Checkout_sent). }
    assert (sent k4 = sent k3) as <-.
    { destruct (str_eqb _ ""); [by injection H4 as <-|]. by apply wrap_err_inv in H4 as (r0 & H4%Checkout_sent). }
    apply io_bind_case in H as [(e & [= _ <-] & _)|(commit & k5 & [= _ <-] & H)]; [done|].
    apply io_bind_case in H as [(e & [-> _]%view_inv & _)|(root & k6 & [-> _]%view_inv & H)]; [done|].
    apply io_bind_case in H as [(e & [-> _]%view_inv & _)|(bm & k7 & [-> _]%view_inv & [= _ <-])]; done. }
  unfold removing_on_error in H. destruct (checkout_in d opts k1) as [[c|e] k2] eqn:E; injection H as _ <-;
    rewrite ?RemoveAll_sent; by eapply Hin.
Qed.

Lemma unsent_cleanup {A} d (m : svc A) : kept unsent m -> kept unsent (with_cleanup d m).
Proof.
  intros Hm w r w'. unfold with_cleanup. destruct (m w) as [x w1] eqn:E. intros [= _ <-]. unfold unsent. cbn.
  rewrite RemoveAll_sent. by eapply Hm.
Qed.

Lemma unsent_git p plan : kept unsent (renderGitSource encKey p plan).
Proof.
  unfold renderGitSource.
  apply keeps_bind; [apply _| |intros auth]. { keep. }
  apply keeps_bind; [apply _| |intros ck].
  { apply keeps_or_fail; [apply _|]. apply unsent_try_k8s, CheckoutGit_sent. }
  apply keeps_bind; [apply _| |intros docs; apply keeps_ret, _]. apply unsent_cleanup, quiet_unsent, quiet_git_documents.
Qed.

Lemma unsent_plan inp id : kept unsent (planAppDeployment cfg encKey inp id).
Proof.
  pose proof unsent_git.
  unfold planAppDeployment, plan_source, bundle_source, manifests_source, git_source, helm_source, helm_oci, helm_url. keep.
Qed.

(** C23: a dry run changes no row, sends no object to the cluster and leaves no checkout behind, whatever
    comes of it. *)
Theorem dry_run inp (w : W) r w' : ValidateApp cfg encKey inp w = (r, w') ->
  same_rows (w_db w) (w_db w') /\ sent (w_k8s w') = sent (w_k8s w) /\ checkouts (w_k8s w') = checkouts (w_k8s w).
Proof.
  unfold ValidateApp. intros [(e & H & _)|(plan & w1 & H & [= _ <-])]%io_bind_case;
    (split; [|split]); first [by eapply unsent_plan in H|by eapply fetched_plan in H as [??]].
Qed.

(** ** What is sent *)

(** An object as the dry run shows it. *)
Definition summary_of (o : KObject Q) : RenderedObjectSummary :=
  match o with
  | KRaw u => mkRendered (un_Kind u) (object_name u) (un_Namespace u)
  | _ => let '(kind, ns, name) := object_key o in mkRendered kind name ns
  end.

(** Nothing is sent but objects of a kind. *)
Definition only (G : KObject Q -> Prop) (w w' : W) : Prop :=
  exists new, sent (w_k8s w') = sent (w_k8s w) ++ new /\ Forall G new.
#[export] Instance only_preorder G : PreOrder (only G).
Proof.
  split; [intros w; exists []; by rewrite app_nil_r|]. intros a b c (n1 & H1 & F1) (n2 & H2 & F2).
  exists (n1 ++ n2). rewrite H2, H1, app_assoc. split; [done|]. by apply Forall_app.
Qed.

Lemma unsent_only G {A} (m : svc A) : kept unsent m -> kept (only G) m.
Proof. intros Hm w r w' H%Hm. exists []. rewrite app_nil_r. by split. Qed.

Lemma only_apply (G : KObject Q -> Prop) c o : G o -> kept (only G) (apply c o).
Proof.
  intros Ho. unfold apply. apply keeps_bind; [apply _| |intros _].
  { apply unsent_only, quiet_unsent. destruct o; keep. }
  apply keeps_or_fail; [apply _|]. intros w r w'. unfold try_k8s.
  destruct (patch_object c o (w_k8s w)) as [x k] eqn:E. intros [= _ <-]. exists [o]. cbn. apply patch_sent in E.
  split; [done|]. by apply Forall_singleton.
Qed.

Local Abbreviation within l := (only (fun o => summary_of o ∈ l)).

(** The objects a success has sent. *)
Definition sends {A} (objs : list (KObject Q)) (m : svc A) : Prop :=
  forall w a w', m w = (Ok a, w') -> sent (w_k8s w') = sent (w_k8s w) ++ objs.

Lemma sends_bind {A B} l1 l2 (m : svc A) (f : A -> svc B) : sends l1 m -> (forall a, sends l2 (f a)) -> sends (l1 ++ l2) (m ≫= f).
Proof. intros Hm Hf w b w' (a & w1 & H1%Hm & H2%Hf)%io_bind_ok. by rewrite H2, H1, app_assoc. Qed.

Lemma sends_nil {A} (m : svc A) : kept unsent m -> sends [] m.
Proof. intros Hm w a w' H%Hm. by rewrite app_nil_r. Qed.

Lemma sends_apply c o : sends [o] (apply c o).
Proof. intros w [] w' (k & H%patch_sent & ->)%apply_ok. done. Qed.

Lemma sends_wrap {A} l (f : svc_error -> svc_error) (m : svc A) : sends l m -> sends l (wrap_err f m).
Proof. intros Hm w a w' H%wrap_err_ok. by eapply Hm. Qed.

(** An unstructured object is sent whether its error is looked at or not. *)
Lemma sends_ignored_raw c u : sends [KRaw u] (ignore_err (apply c (KRaw u))).
Proof.
  intros w a w'. unfold ignore_err, apply, k8s, or_fail, try_k8s. cbn [mbind io_bind mret io_ret].
  unfold mbind, io_bind, mret, io_ret. destruct (patch_object c (KRaw u) (w_k8s w)) as [[x|e] k] eqn:E;
    intros [= _ <-]; by apply patch_sent in E.
Qed.

Lemma sends_for_each {A} (f : A -> svc unit) (g : A -> list (KObject Q)) l :
  (forall x, sends (g x) (f x)) -> sends (l ≫= g) (for_each f l).
Proof.
  intros Hf. induction l as [|x l IH]; [apply sends_nil, keeps_ret, _|]. cbn. by apply sends_bind.
Qed.

(** ** The objects of an image *)

Lemma unsent_dns cluster ns name h : kept unsent (ensureDNSForService cfg encKey cluster ns name h).
Proof.
  unfold ensureDNSForService. keep.
  - apply unsent_try_k8s, get_service_sent.
  - apply unsent_try_k8s. refine (EnsureRecords_frame (same sent) dns_Do_sent _ _ _ _).
Qed.

Definition cert_objects (plan : appDeploymentPlan C) : list (KObject Q) :=
  if cfg_EnableCertManager cfg then [KRaw (app_certificate plan)] else [].

Definition image_objects (plan : appDeploymentPlan C) (ctn : AppContainer Q) : list (KObject Q) :=
  let dep := app_deployment plan ctn in
  [KDeployment dep] ++
  (if (0 <? length (pl_Secrets plan))%nat
   then [KDeployment (set_containers dep [set_env_from (secret_env <$> pl_Secrets plan) ctn])] else []) ++
  (if (0 <? length (pl_Ports plan))%nat
   then [KService (app_service cfg plan)] ++
        (if str_eqb (pl_Host plan) "" then [] else cert_objects plan ++ [KIngress (app_ingress cfg plan)])
   else []).

Lemma sends_app_nil {A} l (m : svc A) : sends (l ++ []) m -> sends l m.
Proof. by rewrite app_nil_r. Qed.

Lemma sends_ingress plan name : sends (cert_objects plan ++ [KIngress (app_ingress cfg plan)]) (deploy_ingress cfg encKey plan name).
Proof.
  unfold deploy_ingress, cert_objects. apply sends_bind.
  { destruct (cfg_EnableCertManager cfg); [apply sends_ignored_raw|apply sends_nil, keeps_ret, _]. }
  intros _. apply sends_app_nil, sends_bind; [apply sends_apply|intros _]. apply sends_nil.
  apply keeps_bind; [apply _|keep|intros id]. apply keeps_bind; [apply _|apply keeps_ignore, unsent_db|intros _].
  apply keeps_recover, unsent_dns.
Qed.

Lemma sends_image plan w d w' : deploy_image cfg encKey plan w = (Ok d, w') ->
  exists ctn, app_container cfg plan = Some ctn /\ sent (w_k8s w') = sent (w_k8s w) ++ image_objects plan ctn.
Proof.
  unfold deploy_image. intros (ctn & w1 & [Hc ->]%panics_ok & H)%io_bind_ok. exists ctn. split; [done|].
  revert w d w' H. change (sends (image_objects plan ctn) (
    _ ← apply (pl_Client plan) (KDeployment (app_deployment plan ctn));
    _ ← (if (0 <? length (pl_Secrets plan))%nat
         then apply (pl_Client plan) (KDeployment (set_containers (app_deployment plan ctn) [set_env_from (secret_env <$> pl_Secrets plan) ctn]))
         else mret tt);
    if (0 <? length (pl_Ports plan))%nat then
      _ ← apply (pl_Client plan) (KService (app_service cfg plan));
      if str_eqb (pl_Host plan) "" then mret (mkDeployed (pl_KubeName plan) "" None)
      else job ← deploy_ingress cfg encKey plan (pl_KubeName plan); mret (mkDeployed (pl_KubeName plan) (pl_KubeName plan) job)
    else mret (mkDeployed "" "" None))).
  unfold image_objects. apply sends_bind; [apply sends_apply|intros _]. apply sends_bind.
  { destruct (0 <? _)%nat; [apply sends_apply|apply sends_nil, keeps_ret, _]. }
  intros _. destruct (0 <? _)%nat; [|apply sends_nil, keeps_ret, _].
  apply sends_bind; [apply sends_apply|intros _]. destruct (str_eqb _ ""); [apply sends_nil, keeps_ret, _|].
  apply sends_app_nil, sends_bind; [apply sends_ingress|intros job; apply sends_nil, keeps_ret, _].
Qed.

(** ** The objects of documents *)

Definition raw_objects (ns : string) (l : labels) (docs : list string) : list (KObject Q) :=
  docs ≫= fun doc => match decodeManifestDocuments decode_yaml doc with
                     | Ok objs => (fun u => KRaw (adopt ns l u)) <$> objs
                     | Err _ => []
                     end.

Lemma summary_adopt ns l u : summary_of (KRaw (adopt ns l u)) = summarise ns u.
Proof. by apply summarise_set_namespace. Qed.

Lemma summary_raw ns l docs os ws : summarise_docs ns docs = Ok (os, ws) -> summary_of <$> raw_objects ns l docs = os.
Proof.
  revert os ws. induction docs as [|doc docs IH]; intros os ws; cbn [summarise_docs]; [by intros [= <- _]|].
  intros (objs & Hd & H)%bind_ok. apply bind_ok in H as ([os' ws'] & Hs & [= <- _]).
  unfold raw_objects. cbn [mbind list_bind]. fold (raw_objects ns l docs). rewrite Hd, fmap_app, (IH _ _ Hs). f_equal.
  rewrite <- list_fmap_compose. apply list_fmap_ext. intros _ u _. apply summary_adopt.
Qed.

Lemma sends_raw cluster doc ns l : sends (raw_objects ns l [doc]) (applyRawManifest encKey cluster doc ns l).
Proof.
  intros w a w' (objs & w1 & [Hd ->]%pure_ok & H)%io_bind_ok. unfold raw_objects. cbn. rewrite Hd, app_nil_r.
  destruct objs as [|u objs]; [injection H as _ <-; by rewrite app_nil_r|].
  apply io_bind_ok in H as (c & w1 & [_ H1]%quiet_GetOrCreate & H). rewrite <- H1. clear H1 Hd.
  revert H. generalize (u :: objs). clear u objs. intros objs H.
  eapply (sends_for_each _ (fun u => [KRaw (adopt ns l u)])) in H; [|intros; apply sends_apply].
  rewrite H. f_equal.
Qed.

Lemma sends_documents plan docs :
  sends (raw_objects (p_Namespace (pl_Project plan)) (app_labels plan) docs) (deploy_documents encKey plan docs).
Proof.
  apply sends_app_nil, sends_bind; [|intros; apply sends_nil, keeps_ret, _].
  set (ns := p_Namespace _). set (l := app_labels plan).
  assert (raw_objects ns l docs = docs ≫= fun doc => raw_objects ns l [doc]) as ->.
  { clear. induction docs as [|d docs IH]; cbn; [done|]. unfold raw_objects in *. cbn in *. by rewrite IH, app_nil_r. }
  apply sends_for_each. intros doc. apply sends_raw.
Qed.

Lemma summarise_docs_elem ns docs os ws doc objs u : summarise_docs ns docs = Ok (os, ws) ->
  doc ∈ docs -> decodeManifestDocuments decode_yaml doc = Ok objs -> u ∈ objs -> summarise ns u ∈ os.
Proof.
  revert os ws. induction docs as [|d docs IH]; intros os ws; [by intros _ ?%not_elem_of_nil|]. cbn [summarise_docs].
  intros (objs' & Hd & H)%bind_ok. apply bind_ok in H as ([os' ws'] & Hs & [= <- _]). cbn [fst].
  intros [->|Hin]%elem_of_cons Hobjs Hu; apply elem_of_app; [left|right; by eapply IH].
  replace objs with objs' in Hu by congruence. by apply list_elem_of_fmap_2.
Qed.

Lemma within_documents plan docs os ws : summarise_docs (p_Namespace (pl_Project plan)) docs = Ok (os, ws) ->
  kept (within os) (deploy_documents encKey plan docs).
Proof.
  intros Hs. unfold deploy_documents. apply keeps_bind; [apply _| |intros _; apply keeps_ret, _].
  apply keeps_for_each; [apply _|]. intros doc Hin w r w' H. unfold applyRawManifest in H.
  apply io_bind_case in H as [(e & H & _)|(objs & w1 & [Hd ->]%pure_ok & H)].
  { eapply (unsent_only (fun o => summary_of o ∈ os)); [|exact H]. apply keeps_pure, _. }
  destruct objs as [|u objs]; [injection H as _ <-; reflexivity|].
  revert w r w' H. change (kept (within os) (c ← GetOrCreate encKey (p_ClusterID (pl_Project plan));
    for_each (fun u => apply c (KRaw (adopt (p_Namespace (pl_Project plan)) (app_labels plan) u))) (u :: objs))).
  apply keeps_bind; [apply _|apply unsent_only, quiet_unsent, quiet_GetOrCreate|intros c].
  apply keeps_for_each; [apply _|]. intros v Hv. apply only_apply. rewrite summary_adopt. by eapply summarise_docs_elem.
Qed.

(** ** Preview and deployment agree *)

Lemma name_char_solid c : name_char c = true -> solid c = true.
Proof. unfold name_char. intros H. destruct c as [[] [] [] [] [] [] [] []]; try done; vm_compute in H; done. Qed.

Lemma kube_name_trimmed n id : blank id = false -> TrimSpace (deriveKubeName n id +:+ "-cert") = deriveKubeName n id +:+ "-cert".
Proof.
  intros Hb. destruct (deriveKubeName_split n id Hb) as (b & h & t & -> & _ & Hbn & _ & _ & Hh & Ht & _).
  apply trim_space_all_solid. rewrite !chars_app.
  assert (Hs : forall l, name_bytes l -> Forall (fun c => solid c = true) l)
    by (intros l Hl; eapply Forall_impl; [exact Hl|apply name_char_solid]).
  rewrite !Forall_app. split_and!; try (by apply Hs); try (by apply Hs, alnum_name_bytes); by repeat constructor.
Qed.

Lemma image_summaries plan ctn s :
  TrimSpace (pl_KubeName plan +:+ "-cert") = pl_KubeName plan +:+ "-cert" ->
  s ∈ summary_of <$> image_objects plan ctn <->
  s ∈ rendered_image cfg (pl_Host plan) (pl_KubeName plan) (p_Namespace (pl_Project plan)) (pl_Ports plan).
Proof.
  intros Ht. unfold rendered_image, image_objects, cert_objects. cbv zeta.
  rewrite !fmap_app. set (kn := pl_KubeName plan) in *. set (ns := p_Namespace _).
  assert (Hc : summary_of (KRaw (app_certificate plan)) = mkRendered "Certificate" (kn +:+ "-cert") ns).
  { cbn [summary_of app_certificate un_Kind un_Namespace]. unfold object_name. cbn [un_Name app_certificate]. fold kn. rewrite Ht.
    replace (str_eqb _ "") with false; [done|]. symmetry. apply str_eqb_neq. by destruct kn. }
  destruct (0 <? length (pl_Secrets plan))%nat, (0 <? length (pl_Ports plan))%nat, (str_eqb (pl_Host plan) ""),
    (cfg_EnableCertManager cfg); cbn [negb andb app fmap list_fmap]; rewrite ?Hc; cbn [summary_of object_key];
    fold kn ns; set_solver.
Qed.

Lemma within_image plan : TrimSpace (pl_KubeName plan +:+ "-cert") = pl_KubeName plan +:+ "-cert" ->
  kept (within (rendered_image cfg (pl_Host plan) (pl_KubeName plan) (p_Namespace (pl_Project plan)) (pl_Ports plan)))
    (deploy_image cfg encKey plan).
Proof.
  intros Ht. set (l := rendered_image _ _ _ _ _). unfold deploy_image. intros w r w' H.
  apply io_bind_case in H as [(e & H & _)|(ctn & w1 & [_ ->]%panics_ok & H)].
  { eapply (unsent_only (fun o => summary_of o ∈ l)); [|exact H]. apply keeps_panics, _. }
  assert (Hin : forall o, o ∈ image_objects plan ctn -> summary_of o ∈ l).
  { intros o Ho. apply (image_summaries plan ctn _ Ht). by apply list_elem_of_fmap_2. }
  revert Hin H. unfold image_objects. cbv zeta. intros Hin. revert w r w'.
  match goal with |- forall w r w', ?m w = (r, w') -> _ => change (kept (within l) m) end.
  apply keeps_bind; [apply _|apply only_apply, Hin; set_solver|intros _].
  apply keeps_bind; [apply _| |intros _].
  { destruct (0 <? length (pl_Secrets plan))%nat; [apply only_apply, Hin; set_solver|apply keeps_ret, _]. }
  destruct (0 <? length (pl_Ports plan))%nat; [|apply keeps_ret, _].
  apply keeps_bind; [apply _|apply only_apply, Hin; set_solver|intros _].
  destruct (str_eqb (pl_Host plan) ""); [apply keeps_ret, _|].
  apply keeps_bind; [apply _| |intros; apply keeps_ret, _]. unfold deploy_ingress, cert_objects in *.
  apply keeps_bind; [apply _| |intros _].
  { destruct (cfg_EnableCertManager cfg); [|apply keeps_ret, _]. apply keeps_ignore, only_apply, Hin. set_solver. }
  apply keeps_bind; [apply _|apply only_apply, Hin; set_solver|intros _].
  apply unsent_only, keeps_bind; [apply _|apply quiet_unsent, quiet_uuid|intros id].
  apply keeps_bind; [apply _|apply keeps_ignore, unsent_db|intros _]. apply keeps_recover, unsent_dns.
Qed.

(** The objects of a plan are what is sent for it. *)
Lemma deploy_objects_sent inp id (w0 : W) plan w1 w r w' : blank id = false ->
  plan_facts cfg inp id w0 plan w1 -> deploy_objects cfg encKey plan w = (r, w') ->
  exists new, sent (w_k8s w') = sent (w_k8s w) ++ new /\ Forall (fun o => summary_of o ∈ pl_RenderedObjs plan) new /\
    (is_ok r = true -> Forall (fun s => s ∈ summary_of <$> new) (pl_RenderedObjs plan)).
Proof.
  intros Hid [Hpid Hkn _ _ _ _ Hpl _ _] H.
  assert (Ht : TrimSpace (pl_KubeName plan +:+ "-cert") = pl_KubeName plan +:+ "-cert") by (rewrite Hkn; by apply kube_name_trimmed).
  assert (Hgen : forall objs : list (KObject Q), kept (within (pl_RenderedObjs plan)) (deploy_objects cfg encKey plan) ->
    (is_ok r = true -> sent (w_k8s w') = sent (w_k8s w) ++ objs /\ Forall (fun s => s ∈ summary_of <$> objs) (pl_RenderedObjs plan)) ->
    exists new, sent (w_k8s w') = sent (w_k8s w) ++ new /\ Forall (fun o => summary_of o ∈ pl_RenderedObjs plan) new /\
    (is_ok r = true -> Forall (fun s => s ∈ summary_of <$> new) (pl_RenderedObjs plan))).
  { intros objs Hw Hok. apply Hw in H as (new & Hn & Hf). exists new. split; [done|]. split; [done|].
    intros [Hs Ho]%Hok. rewrite Hn in Hs. apply app_inv_head in Hs as ->. done. }
  unfold deploy_objects, pl_SourceType in *. cbv zeta in *. unfold pl_RenderedObjs in *.
  destruct Hpl as [Ety Him Hobj|ws Hty Hs|objs Ety Hd Hobj|Ety].
  - rewrite Ety in *. cbn [str_eqb String.eqb Ascii.eqb Bool.eqb orb] in *. rewrite Hobj in *.
    destruct r as [d|e].
    + pose proof (sends_image _ _ _ _ H) as (ctn & _ & Hs). apply (Hgen (image_objects plan ctn)); [by apply within_image|].
      intros _. split; [done|]. apply Forall_forall. intros x Hx. by apply image_summaries.
    + apply (Hgen []); [by apply within_image|done].
  - assert (Hdoc : deploy_objects cfg encKey plan = deploy_documents encKey plan (rd_Manifests (pl_source plan))).
    { unfold deploy_objects, pl_SourceType. cbv zeta. destruct Hty as [E|[E|E]]; rewrite ?E; [done..|].
      assert (forall a, HasPrefix a "git:" = true -> str_eqb a "image" || (str_eqb a "manifests" || str_eqb a "ociBundle") || str_eqb a "helm" = false) as Hn.
      { intros a Ha. apply not_true_iff_false. rewrite !orb_true_iff, !str_eqb_eq. intros [[->|[->| ->]]| ->]; done. }
      specialize (Hn _ E). apply orb_false_iff in Hn as [[-> ->]%orb_false_iff ->]. done. }
    unfold deploy_objects, pl_SourceType in Hdoc. cbv zeta in Hdoc. rewrite Hdoc in H, Hgen.
    apply (Hgen (raw_objects (p_Namespace (pl_Project plan)) (app_labels plan) (rd_Manifests (pl_source plan)))).
    + by eapply within_documents.
    + destruct r as [d|e]; [|done]. intros _. split; [by eapply sends_documents|].
      rewrite (summary_raw _ _ _ _ _ Hs). by apply Forall_forall.
  - rewrite Ety in *. cbn [str_eqb String.eqb Ascii.eqb Bool.eqb orb] in *.
    destruct (blank (rd_HelmRendered (pl_source plan))).
    { injection H as <- <-. exists []. rewrite app_nil_r. done. }
    assert (Hs : summarise_docs (p_Namespace (pl_Project plan)) [rd_HelmRendered (pl_source plan)]
                 = Ok (rd_Objects (pl_source plan), (summariseObjects objs (p_Namespace (pl_Project plan))).2 ++ [])).
    { cbn [summarise_docs]. rewrite Hd. cbn. rewrite Hobj, app_nil_r. done. }
    apply (Hgen (raw_objects (p_Namespace (pl_Project plan)) (app_labels plan) [rd_HelmRendered (pl_source plan)])).
    + by eapply within_documents.
    + destruct r as [d|e]; [|done]. intros _. split; [by eapply sends_documents|].
      rewrite (summary_raw _ _ _ _ _ Hs). by apply Forall_forall.
  - rewrite Ety in *. cbn in H. injection H as <- <-. exists []. by rewrite app_nil_r.
Qed.

Lemma unsent_mirror p crd : kept unsent (mirrorAppCRD p crd).
Proof. apply keeps_ignore, unsent_db. Qed.

(** The App resource, which only an image has, and which is sent behind the objects of the plan. *)
Definition app_resource (plan : appDeploymentPlan C) : list (KObject Q) :=
  if str_eqb (pl_SourceType plan) "image" then [KRaw (app_document (plan_app plan))] else [].

Lemma crd_sends plan (w : W) r w' : ensureAppCRDForPlan plan w = (r, w') ->
  sent (w_k8s w') = sent (w_k8s w) ++ (if blank (pl_Image plan) then [] else app_resource plan).
Proof.
  unfold ensureAppCRDForPlan, app_resource. destruct (str_eqb (pl_SourceType plan) "image"); cbn [negb].
  2: { intros [= _ <-]. destruct (blank _); by rewrite app_nil_r. }
  destruct (blank (pl_Image plan)); [intros [= _ <-]; by rewrite app_nil_r|]. unfold wrap_err, k8s, or_fail, try_k8s.
  unfold mbind, io_bind, mret, io_ret.
  destruct (patch_app (pl_Client plan) (plan_app plan) (w_k8s w)) as [[[]|e] k] eqn:E; apply patch_app_sent in E.
  2: { by intros [= _ <-]. }
  unfold reads. destruct (get_app _ _ _ _); [|by intros [= _ <-]..].
  intros H%unsent_mirror. by rewrite H.
Qed.

Lemma record_sends inp plan d (w : W) r w' : record_deployment cfg actor inp plan d w = (r, w') ->
  exists crs, sent (w_k8s w') = sent (w_k8s w) ++ crs /\ (crs = [] \/ crs = app_resource plan) /\
    (is_ok r = true -> blank (pl_Image plan) = false -> crs = app_resource plan).
Proof.
  unfold record_deployment. intros H.
  apply io_bind_case in H as [(e & (r0 & H%unsent_db)%wrap_err_inv & ->)|(x & w1 & (r0 & H1%unsent_db)%wrap_err_inv & H)].
  { exists []. rewrite app_nil_r. split; [done|]. split; [by left|done]. }
  rewrite <- H1. assert (Hr : kept unsent (recordRelease plan inp)) by (unfold recordRelease; keep).
  apply io_bind_case in H as [(e & (r1 & H%Hr)%wrap_err_inv & ->)|(rel & w2 & (r1 & H2%Hr)%wrap_err_inv & H)].
  { exists []. rewrite app_nil_r. split; [done|]. split; [by left|done]. }
  rewrite <- H2. apply io_bind_case in H as [(e & H & _)|(y & w3 & H3 & H)].
  { unfold ignore_err in H. by destruct (ensureAppCRDForPlan plan w2). }
  assert (H4 : sent (w_k8s w') = sent (w_k8s w3)).
  { revert H. match goal with |- ?m w3 = _ -> _ => assert (Hk : kept unsent m) by keep end. by intros ?%Hk. }
  unfold ignore_err in H3. destruct (ensureAppCRDForPlan plan w2) as [z w4] eqn:E. injection H3 as _ <-.
  eexists. rewrite H4, (crd_sends _ _ _ _ E). split; [reflexivity|]. split; [destruct (blank _); eauto|]. by intros _ ->.
Qed.

(** The steps of a deployment after the plan. *)
Lemma deploy_plan_steps inp plan (w : W) r w' : deploy_plan cfg encKey actor inp plan w = (r, w') ->
  (exists e, r = Err e /\ w' = w) \/
  exists r1 w1 crs, deploy_objects cfg encKey plan w = (r1, w1) /\ sent (w_k8s w') = sent (w_k8s w1) ++ crs /\
    (crs = [] \/ crs = app_resource plan) /\
    (is_ok r = true -> is_ok r1 = true /\ (blank (pl_Image plan) = false -> crs = app_resource plan)).
Proof.
  unfold deploy_plan. intros H.
  apply io_bind_case in H as [(e & H & ->)|([] & w1 & [_ ->]%wrap_pure_ok & H)].
  { left. exists e. split; [done|]. apply wrap_err_inv in H as (r0 & H). symmetry. by eapply (keeps_pure eq). }
  right. apply io_bind_case in H as [(e & H & ->)|(d & w1 & Ho & H)].
  { exists (Err e), w', []. rewrite app_nil_r. split; [done|]. split; [done|]. split; [by left|done]. }
  apply record_sends in H as (crs & Hs & Hc & Hok). exists (Ok d), w1, crs. naive_solver.
Qed.

(** ** What ValidateApp shows *)

(** An object of the dry run and the same object of a deployment: what is named after the
    application differs in the derived name. *)
Definition same_object (shown used : string) (s s' : RenderedObjectSummary) : Prop :=
  ro_Kind s' = ro_Kind s /\ ro_Namespace s' = ro_Namespace s /\
  (ro_Name s' = ro_Name s \/ exists suffix, ro_Name s = shown +:+ suffix /\ ro_Name s' = used +:+ suffix).

Lemma deriveKubeName_nonempty n id : deriveKubeName n id <> "".
Proof.
  unfold deriveKubeName. set (b := if str_eqb (Slugify n) "" then "app" else Slugify n).
  assert (Hb : b <> "") by (unfold b; destruct (str_eqb (Slugify n) "") eqn:E; [done|by apply str_eqb_neq]).
  destruct (str_eqb (resourceSuffix id) "").
  - destruct (maxKubeNameLen <? len b)%nat; [|done]. destruct b; [done|]. by unfold maxKubeNameLen.
  - intros H%(f_equal len). rewrite !len_app in H. change (len "-") with 1%nat in H. change (len "") with 0%nat in H. lia.
Qed.

Lemma host_empty domain p cn a b : a <> "" -> b <> "" ->
  str_eqb (computeIngressHost cfg domain p cn a) "" = str_eqb (computeIngressHost cfg domain p cn b) "".
Proof.
  intros Ha%str_eqb_neq Hb%str_eqb_neq. unfold computeIngressHost. rewrite Ha, Hb. do 5 (case_match; try done);
    apply str_eqb_neq in Ha, Hb; (destruct a; [done|]); by destruct b.
Qed.

Lemma rendered_image_renamed h h' kn kn' ns ports : str_eqb h "" = str_eqb h' "" ->
  Forall2 (same_object kn kn') (rendered_image cfg h kn ns ports) (rendered_image cfg h' kn' ns ports).
Proof.
  intros E. unfold rendered_image. rewrite E.
  assert (Hs : forall kind suffix, same_object kn kn' (mkRendered kind (kn +:+ suffix) ns) (mkRendered kind (kn' +:+ suffix) ns))
    by (intros; split_and!; eauto).
  assert (H0 : forall kind, same_object kn kn' (mkRendered kind kn ns) (mkRendered kind kn' ns)).
  { intros kind. assert (He : forall x, x +:+ "" = x) by (intros x; induction x as [|c x IH]; [done|exact (f_equal (String c) IH)]).
    specialize (Hs kind ""). by rewrite !He in Hs. }
  repeat apply Forall2_app; repeat case_match;
    repeat first [solve [constructor]|constructor; [first [apply H0|apply Hs]|]].
Qed.

Lemma same_object_refl kn kn' l : Forall2 (same_object kn kn') l l.
Proof. apply Forall_Forall2_diag, Forall_forall. intros s _. split_and!; auto. Qed.

(** The plan of the dry run and that of the deployment, from the same world. *)
Lemma plans_agree inp id (w : W) plan w1 plan0 w2 : di_Helm inp = None ->
  planAppDeployment cfg encKey inp "" w = (Ok plan0, w1) -> planAppDeployment cfg encKey inp id w = (Ok plan, w2) ->
  pl_Project plan0 = pl_Project plan /\
  Forall2 (same_object (pl_KubeName plan0) (pl_KubeName plan)) (pl_RenderedObjs plan0) (pl_RenderedObjs plan).
Proof.
  intros Hh. unfold planAppDeployment. destruct (blank _ || _); [done|]. destruct (negb _); [done|].
  intros H0 H1.
  apply io_bind_ok in H0 as (g & w3 & Hg & H0), H1 as (g' & w3' & Hg' & H1). rewrite Hg in Hg'. injection Hg' as <- <-.
  apply io_bind_ok in H0 as (r & w4 & Hr & H0), H1 as (r' & w4' & Hr' & H1). rewrite Hr in Hr'. injection Hr' as <- <-.
  destruct r as [[p qo] e].
  apply io_bind_ok in H0 as (ov & w5 & Hov & H0), H1 as (ov' & w5' & Hov' & H1). rewrite Hov in Hov'. injection Hov' as <- <-.
  apply io_bind_ok in H0 as (c & w6 & Hc & H0), H1 as (c' & w6' & Hc' & H1). rewrite Hc in Hc'. injection Hc' as <- <-.
  apply io_bind_ok in H0 as (rr & w7 & Hrr & H0), H1 as (rr' & w7' & Hrr' & H1). rewrite Hrr in Hrr'. injection Hrr' as <- <-.
  apply io_bind_ok in H0 as (lb & w8 & Hlb & H0), H1 as (lb' & w8' & Hlb' & H1). rewrite Hlb in Hlb'. injection Hlb' as <- <-.
  apply io_bind_ok in H0 as (cn & w9 & Hcn & H0), H1 as (cn' & w9' & Hcn' & H1). rewrite Hcn in Hcn'. injection Hcn' as <- <-.
  apply io_bind_ok in H0 as (rd & w10 & Hrd & [= <- _]), H1 as (rd' & w10' & Hrd' & [= <- _]). split; [done|].
  unfold pl_RenderedObjs. cbn. revert Hrd Hrd'. unfold plan_source. rewrite Hh. destruct (negb _).
  { intros [= <- _] [= <- _]. cbn. apply rendered_image_renamed, host_empty; apply deriveKubeName_nonempty. }
  repeat case_match; intros HA HB; rewrite HA in HB; injection HB as <- _; apply same_object_refl.
Qed.

Lemma image_plan_app inp id (w : W) plan w' : planAppDeployment cfg encKey inp id w = (Ok plan, w') ->
  blank (pl_Image plan) = false \/ app_resource plan = [].
Proof.
  intros [_ _ _ _ Him _ Hpl _ _]%plan_ok. unfold app_resource, pl_SourceType.
  destruct Hpl as [_ Hne _|ws [->|[->|Ht]] _|objs -> _ _| ->]; [left|by right..|right|by right|by right].
  - rewrite Him in *. unfold blank. rewrite trim_space_idem. by apply str_eqb_neq.
  - destruct (str_eqb _ _) eqn:E; [|done]. apply str_eqb_eq in E. by rewrite E in Ht.
Qed.

Lemma gate_uuids (w : W) r w' : maintenance_gate w = (r, w') -> w_uuids w' = w_uuids w.
Proof. unfold maintenance_gate. destruct (ensureMaintenanceAllows _) as [[]?]; by intros [= _ <-]. Qed.

(** C2: a deployment that sends anything goes by a plan made under a fresh identifier from the
    tables and the clusters it was called with. Whatever the source of the application, it sends,
    besides the App resource, no object that this plan does not list, under the kind, name and
    namespace listed; a deployment that succeeds has sent all of them, and the App resource when
    the source is an image. The dry run [ValidateApp] in the world the plan was made in shows,
    but for a Helm chart, the objects of the plan one by one, those named after the
    application under the name without identifier that it reports. The App resource, of the kind App under the derived
    name in the namespace of the project, is not among the objects shown; the release name of a
    chart is the derived name, so what a chart renders may depend on the identifier. *)
Theorem deploy_matches_preview inp (w : W) r w' : DeployApp cfg encKey actor inp w = (r, w') ->
  (is_ok r = false /\ sent (w_k8s w') = sent (w_k8s w)) \/
  exists plan w1 w2 new crs, same_rows (w_db w) (w_db w1) /\ w_k8s w1 = w_k8s w /\
    planAppDeployment cfg encKey inp (uuid_New (w_uuids w)) w1 = (Ok plan, w2) /\
    sent (w_k8s w') = sent (w_k8s w) ++ new ++ crs /\
    Forall (fun o => summary_of o ∈ pl_RenderedObjs plan) new /\ (crs = [] \/ crs = app_resource plan) /\
    (is_ok r = true -> Forall (fun s => s ∈ summary_of <$> new) (pl_RenderedObjs plan) /\ crs = app_resource plan) /\
    (di_Helm inp = None -> forall v w3, ValidateApp cfg encKey inp w1 = (Ok v, w3) ->
       vo_ProjectNamespace v = p_Namespace (pl_Project plan) /\
       Forall2 (same_object (vo_KubeName v) (pl_KubeName plan)) (vo_RenderedObjects v) (pl_RenderedObjs plan)).
Proof.
  unfold DeployApp. intros H.
  apply io_bind_case in H as [(e & [_ H]%quiet_gate & ->)|([] & w1 & Hg & H)]; [left; by rewrite H|].
  pose proof (quiet_gate _ _ _ Hg) as [Hrows H1]. destruct (blank _ || _); [injection H as <- <-; left; by rewrite H1|].
  apply io_bind_case in H as [(e & [= _ _] & _)|(id & w2 & [= <- <-] & H)].
  rewrite (gate_uuids _ _ _ Hg) in H. set (w2 := mkWorld _ _ _ _ _ _) in H.
  assert (Hw2 : same_rows (w_db w) (w_db w2) /\ w_k8s w2 = w_k8s w) by done. clearbody w2. destruct Hw2 as [Hr2 Hk2].
  apply io_bind_case in H as [(e & H%unsent_plan & ->)|(plan & w3 & Hp & H)]; [left; split; [done|]; by rewrite H, Hk2|].
  pose proof (unsent_plan _ _ _ _ _ Hp) as Hu. unfold unsent in Hu. rewrite Hk2 in Hu.
  apply deploy_plan_steps in H as [(e & -> & ->)|(r1 & w4 & crs & Ho & Hs & Hcr & Hok)]; [left; by rewrite Hu|].
  right. eapply deploy_objects_sent in Ho as (new & Hn & Hf & Hc); [| |by eapply plan_ok].
  2: { destruct (uuid_New_trim (w_uuids w)) as [Htr Hne]. unfold blank. rewrite Htr. by apply str_eqb_neq. }
  exists plan, w2, w3, new, crs. split_and!; try done.
  - by rewrite Hs, Hn, Hu, app_assoc.
  - intros [H1' H2']%Hok. split; [by apply Hc|]. destruct (image_plan_app _ _ _ _ _ Hp) as [Hb|Hb]; [by apply H2'|].
    rewrite Hb in *. by destruct Hcr.
  - intros Hh v w5 (plan0 & w6 & H0 & [= <- _])%io_bind_ok. cbn. destruct (plans_agree _ _ _ _ _ _ _ Hh H0 Hp) as [-> Ha]. done.
Qed.
End Deploy.
