(* ===== verification/DeployRecords.v ===== *)
(** What the deployment of an application leaves in the database. *)

From Stdlib Require Import Ascii ZArith Lia.
From stdpp Require Import base gmap strings list.
From S2P Require Import Prelude Utf8 GoStrings Hash GoTime NetURL NetIP Security Names Kube Attachments Aes Crypto Json Config Quota.
From S2P Require Import Events Maintenance Workload Store StoreApps StoreProofs Tenancy TenancyProofs ProjectProofs Credentials.
From S2P Require Import Sources GitFiles GitProofs Plan PlanProofs Releases Deploy DeployProofs.

Section Records.
Context {Q K C R CS : Type} `{laws : PlatformLaws Q K C R CS} `{rem : Remote K} `{ghl : GitHostLaws K}.
Context `{apl : AppPlatform Q K C CS}.
Context `{alaws : !AppLaws Q K C R CS}.
Context (cfg : Config) (encKey : bytes) (actor : string).
Local Abbreviation W := (World K C R).
Local Abbreviation svc := (io W svc_error).
Local Abbreviation kept := (keeps (K := K) (C := C) (R := R)).

(** ** The rows while objects are placed *)

(** Applications, projects, releases and mirrors stay as they are; domains do while there is no
    application of the given identifier. *)
Definition placed (id : string) (w w' : W) : Prop :=
  d_apps (w_db w') = d_apps (w_db w) /\ d_projects (w_db w') = d_projects (w_db w) /\
  d_releases (w_db w') = d_releases (w_db w) /\ d_crds (w_db w') = d_crds (w_db w) /\
  (Forall (fun x => ar_ID x <> id) (d_apps (w_db w)) -> d_domains (w_db w') = d_domains (w_db w)).
#[export] Instance placed_preorder id : PreOrder (placed id).
Proof.
  split; [by intros w|]. intros a b c (H1 & H2 & H3 & H4 & H5) (G1 & G2 & G3 & G4 & G5).
  unfold placed. rewrite G1, G2, G3, G4, H1, H2, H3, H4. split_and!; try done.
  intros Hf. rewrite G5, H5; [done|done|]. by rewrite H1.
Qed.

Lemma rows_placed id {A} (m : svc A) : kept rows_kept m -> kept (placed id) m.
Proof. intros Hm w r w' H%Hm. unfold rows_kept, same_rows in H. destruct_and?. by split_and!. Qed.

Lemma quiet_placed id {A} (m : svc A) : kept quiet m -> kept (placed id) m.
Proof. intros Hm. by apply rows_placed, quiet_rows. Qed.

Lemma fetched_placed id {A} (m : svc A) : kept fetched m -> kept (placed id) m.
Proof. intros Hm. apply rows_placed. intros w r w' H%Hm. apply H. Qed.

Lemma placed_try_k8s id {E A} (m : io K E A) : kept (placed id) (try_k8s m).
Proof. apply rows_placed, rows_try_k8s. Qed.

Lemma placed_apply id c o : kept (placed id) (apply (CS := CS) c o).
Proof. apply rows_placed, rows_apply. Qed.
#[local] Hint Resolve quiet_placed placed_try_k8s placed_apply fetched_placed : keeps.

(** The domain is refused where its application is not in the table. *)
Lemma UpsertAppDomain_inv did id fqdn st d r d' : uuid_in id = Some id -> UpsertAppDomain did id fqdn st d = (r, d') ->
  d_apps d' = d_apps d /\ d_projects d' = d_projects d /\ d_releases d' = d_releases d /\ d_crds d' = d_crds d /\
  (Forall (fun x => ar_ID x <> id) (d_apps d) -> d_domains d' = d_domains d).
Proof.
  intros Hid [(e & _ & ->)|(now & a & d0 & H & _ & ->)]%stmt_case; [done|].
  apply bind_ok in H as (c & _ & H). apply bind_ok in H as (c' & Hc%uuid_ok & H).
  rewrite Hid in Hc. injection Hc as <-.
  destruct (existsb _ (d_apps d)) eqn:E; cbn [negb] in H; [|done].
  apply existsb_exists in E as (x & Hx%list_elem_of_In & Hxid%str_eqb_eq).
  assert (Hno : ~ Forall (fun x => ar_ID x <> id) (d_apps d)) by (intros Hf; rewrite Forall_forall in Hf; by eapply Hf).
  destruct (List.find _ _) as [y|]; [injection H as _ <-; by split_and!|].
  destruct (existsb _ _); [done|]. injection H as _ <-. by split_and!.
Qed.

Lemma placed_domain did id fqdn st : uuid_in id = Some id -> kept (placed id) (db (UpsertAppDomain did id fqdn st)).
Proof.
  intros Hid. apply keeps_or_fail; [apply _|]. intros w r w' (x & d & Hm & _ & ->)%try_db_inv.
  by apply UpsertAppDomain_inv in Hm.
Qed.

Lemma placed_dns id cluster ns name h : kept (placed id) (ensureDNSForService (CS := CS) cfg encKey cluster ns name h).
Proof. unfold ensureDNSForService. keep. Qed.

Lemma placed_objects plan : uuid_in (pl_AppID plan) = Some (pl_AppID plan) ->
  kept (placed (pl_AppID plan)) (deploy_objects (Q := Q) (CS := CS) cfg encKey plan).
Proof.
  intros Hid. unfold deploy_objects, deploy_image, deploy_documents, deploy_ingress, applyRawManifest.
  keep; try apply keeps_ignore; try apply keeps_recover; try apply placed_dns; try apply placed_apply; by apply placed_domain.
Qed.

(** ** The records of a deployment *)

Lemma CreateApp_ok id pid name st repo secret ref src del d u d' :
  CreateApp id pid name st repo secret ref src del d = (Ok u, d') ->
  exists now c p, uuid_in id = Some c /\ uuid_in pid = Some p /\
    Forall (fun x => a_ExternalRef (ar x) = Some ref -> ar_deleted x = true) (d_apps d) /\
    d' = bump (set_apps d (mkAppRow (mkApp c p name st (Some repo) (Some secret) (Some ref) src del) now false :: d_apps d)).
Proof.
  intros (now & d0 & H & ->)%stmt_ok. apply bind_ok in H as (c & Hc%uuid_ok & H). apply bind_ok in H as (p & Hp%uuid_ok & H).
  destruct (existsb _ (d_apps d)); [done|]. destruct (existsb _ (d_apps d)) eqn:E; [done|]. injection H as _ <-.
  exists now, c, p. split_and!; try done. apply Forall_forall. intros x Hx Href.
  destruct (ar_deleted x) eqn:Ed; [done|]. rewrite <- E. eapply existsb_true; [done|]. cbn.
  by rewrite Ed, bool_decide_true.
Qed.

Lemma CreateRelease_ok rel d u d' : CreateRelease rel d = (Ok u, d') ->
  exists now i p a, uuid_in (rl_ID rel) = Some i /\ uuid_in (rl_ProjectID rel) = Some p /\ uuid_in (rl_AppID rel) = Some a /\
  exists row, d' = bump (set_releases d (row :: d_releases d)) /\
    rl_ID row = i /\ rl_ProjectID row = p /\ rl_AppID row = a /\ rl_CreatedAt row = now /\
    rl_SpecDigest row = rl_SpecDigest rel /\ rl_Spec row = rl_Spec rel /\ rl_RenderedObjects row = rl_RenderedObjects rel.
Proof.
  unfold CreateRelease. destruct (release_guard rel); [done|]. intros (now & d0 & H & ->)%stmt_ok.
  apply bind_ok in H as (i & Hi%uuid_ok & H). apply bind_ok in H as (p & Hp%uuid_ok & H). apply bind_ok in H as (a & Ha%uuid_ok & H).
  destruct (existsb _ _); [done|]. destruct (negb _); [done|]. injection H as _ <-. exists now, i, p, a. split_and!; try done. eexists. split; [done|]. done.
Qed.

Lemma new_release_fields id (plan : appDeploymentPlan C) inp : let rel := new_release id plan inp in
  rl_ProjectID rel = p_ID (pl_Project plan) /\ rl_AppID rel = pl_AppID plan /\
  (rl_Spec rel, rl_SpecDigest rel) = encodeForRelease (spec_meta (release_spec plan inp)) /\
  rl_RenderedObjects rel = encodeRenderedObjects (pl_RenderedObjs plan).
Proof. unfold new_release. by destruct (encodeForRelease (spec_meta _)) as [sm sd]. Qed.

Lemma UpsertK8sCRD_inv k d r d' : UpsertK8sCRD k d = (r, d') ->
  d_apps d' = d_apps d /\ d_releases d' = d_releases d /\ d_domains d' = d_domains d /\ d_projects d' = d_projects d.
Proof.
  unfold UpsertK8sCRD. destruct (crd_guard k); [by intros [= _ <-]|].
  intros [(e & _ & ->)|(now & a & d0 & H & _ & ->)]%stmt_case; [done|].
  apply bind_ok in H as (c & _ & H). apply bind_ok in H as (p & _ & H).
  destruct (existsb _ _); [by injection H as _ <-|]. destruct (negb _); [done|]. by injection H as _ <-.
Qed.

(** The mirror of the custom resource changes nothing but its own table. *)
Definition mirrored (w w' : W) : Prop :=
  d_apps (w_db w') = d_apps (w_db w) /\ d_releases (w_db w') = d_releases (w_db w) /\ d_domains (w_db w') = d_domains (w_db w).
#[export] Instance mirrored_preorder : PreOrder mirrored.
Proof. split; [by intros w|]. intros a b c (H1 & H2 & H3) (G1 & G2 & G3). unfold mirrored. by rewrite G1, G2, G3. Qed.

Lemma quiet_mirrored {A} (m : svc A) : kept quiet m -> kept mirrored m.
Proof. intros Hm w r w' [H _]%Hm. unfold same_rows in H. destruct_and?. by split_and!. Qed.

Lemma mirrored_k8s {E A} (m : io K E A) : kept mirrored (try_k8s m).
Proof. intros w r w'. unfold try_k8s. destruct (m (w_k8s w)). by intros [= _ <-]. Qed.
#[local] Hint Resolve quiet_mirrored mirrored_k8s : keeps.

Lemma mirrored_mirror p crd : kept mirrored (mirrorAppCRD p crd).
Proof.
  apply keeps_ignore, keeps_or_fail; [apply _|]. intros w r w' (x & d & Hm & _ & ->)%try_db_inv.
  by apply UpsertK8sCRD_inv in Hm as (? & ? & ? & _).
Qed.

Lemma mirrored_crd plan : kept mirrored (ensureAppCRDForPlan (CS := CS) plan).
Proof. unfold ensureAppCRDForPlan. pose proof mirrored_mirror. keep. Qed.

(** No application has an identifier that is still to be drawn. *)
Definition fresh_ids (w : W) : Prop := forall n, (w_uuids w <= n)%nat -> Forall (fun x => ar_ID x <> uuid_New n) (d_apps (w_db w)).

(** The way of a deployment up to the row of the application. *)
Lemma deploy_reaches inp (w : W) r w' : DeployApp cfg encKey actor inp w = (r, w') ->
  placed (uuid_New (w_uuids w)) w w' /\ is_ok r = false \/
  exists plan w1 w2 w3 d, planAppDeployment cfg encKey inp (uuid_New (w_uuids w)) w1 = (Ok plan, w2) /\
    (same_rows (w_db w) (w_db w1) /\ w_k8s w1 = w_k8s w) /\ placed (uuid_New (w_uuids w)) w w3 /\ record_deployment cfg actor inp plan d w3 = (r, w').
Proof.
  unfold DeployApp. set (id := uuid_New (w_uuids w)). intros H.
  assert (Hq : forall A (m : svc A) w0 r0 w1, placed id w w0 -> kept (placed id) m -> m w0 = (r0, w1) -> placed id w w1).
  { intros A m w0 r0 w1 Hw Hm Hr. etransitivity; [exact Hw|]. by eapply Hm. }
  apply io_bind_case in H as [(e & H & ->)|([] & w1 & H1 & H)].
  { left. split; [|done]. by eapply quiet_placed, H; apply quiet_gate. }
  pose proof (gate_uuids _ _ _ H1) as Hu. pose proof (quiet_gate _ _ _ H1) as [Hr1 Hk1].
  assert (Hp1 : placed id w w1) by (eapply quiet_placed, H1; apply quiet_gate).
  destruct (blank _ || _); [injection H as <- <-; by left|].
  apply io_bind_case in H as [(e & [= ] & _)|(i & w2 & [= <- <-] & H)].
  rewrite Hu in H. fold id in H. set (w2 := mkWorld _ _ _ _ _ _) in H.
  assert (Hp2 : placed id w w2) by done.
  apply io_bind_case in H as [(e & H & ->)|(plan & w3 & Hpl & H)].
  { left. split; [|done]. eapply Hq, H; [done|]. auto with keeps. }
  assert (Hp3 : placed id w w3) by (eapply Hq, Hpl; [done|auto with keeps]).
  pose proof (plan_ok _ _ _ _ _ _ _ Hpl) as Hf. unfold deploy_plan in H.
  apply io_bind_case in H as [(e & H & ->)|([] & w4 & [_ ->]%wrap_pure_ok & H)].
  { left. split; [|done]. eapply Hq, H; [done|]. apply keeps_wrap, keeps_pure, _. }
  assert (Hid : pl_AppID plan = id) by apply Hf.
  assert (Ho : kept (placed id) (deploy_objects cfg encKey plan)).
  { rewrite <- Hid. apply placed_objects. rewrite Hid. apply uuid_New_canonical. }
  apply io_bind_case in H as [(e & H & ->)|(d & w4 & H4 & H)]; [left; split; [by eapply Hq, H|done]|].
  right. exists plan, w2, w3, w4, d. split_and!; [done|done|done|by eapply Hq, H4|done].
Qed.

(** The row an application is stored as. *)
Definition app_row (plan : appDeploymentPlan C) (name pid : string) (now : Z) : AppRow :=
  mkAppRow (mkApp (pl_AppID plan) pid name "deployed" (Some (rd_Repo (pl_source plan))) (Some (pl_WebhookSecret plan))
    (Some (externalRef plan)) (sourceMeta plan) (deliveryMeta plan)) now false.

Lemma wrap_db_ok {A} (f : svc_error -> svc_error) (m : io DB db_error A) (w : W) a w' :
  wrap_err f (db m) w = (Ok a, w') -> exists d, m (w_db w) = (Ok a, d) /\ w' = set_db w d.
Proof. intros H%wrap_err_ok. by apply db_ok. Qed.

Lemma record_deployment_ok inp plan d (w : W) out job w' :
  uuid_in (pl_AppID plan) = Some (pl_AppID plan) ->
  record_deployment cfg actor inp plan d w = (Ok (out, job), w') ->
  do_AppID out = pl_AppID plan /\
  Forall (fun x => a_ExternalRef (ar x) = Some (externalRef plan) -> ar_deleted x = true) (d_apps (w_db w)) /\
  d_domains (w_db w') = d_domains (w_db w) /\
  exists now pid, uuid_in (p_ID (pl_Project plan)) = Some pid /\
    d_apps (w_db w') = app_row plan (di_Name inp) pid now :: d_apps (w_db w) /\
  exists rel, d_releases (w_db w') = rel :: d_releases (w_db w) /\ rl_AppID rel = pl_AppID plan /\ rl_ProjectID rel = pid /\
    (rl_Spec rel, rl_SpecDigest rel) = encodeForRelease (spec_meta (release_spec plan inp)) /\
    rl_RenderedObjects rel = encodeRenderedObjects (pl_RenderedObjs plan).
Proof.
  intros Hid. unfold record_deployment. cbv zeta. intros (u & w1 & (d1 & Hc & ->)%wrap_db_ok & H)%io_bind_ok.
  apply CreateApp_ok in Hc as (now & c & pid & Hc & Hp & Hf & ->).
  rewrite Hid in Hc. injection Hc as <-.
  apply io_bind_ok in H as (release & w2 & Hrel%wrap_err_ok & H).
  apply io_bind_ok in Hrel as (rid & w3 & [= <- <-] & Hrel).
  apply io_bind_ok in Hrel as (u2 & w4 & (d2 & Hr & ->)%db_ok & [= <- <-]). cbn [w_db] in Hr.
  apply CreateRelease_ok in Hr as (now2 & i & p2 & a2 & _ & Hp2 & Ha2 & row & -> & _ & Hpp & Haa & _ & Hsd & Hsp & Hro).
  destruct (new_release_fields (uuid_New (w_uuids w)) plan inp) as (F1 & F2 & F3 & F4).
  rewrite F1, Hp in Hp2. injection Hp2 as Hp2. rewrite F2, Hid in Ha2. injection Ha2 as Ha2.
  apply io_bind_ok in H as (u3 & w5 & H5 & H).
  apply keeps_ignore with (P := mirrored) in H5; [|apply mirrored_crd]. destruct H5 as (A1 & A2 & A3).
  apply io_bind_ok in H as ([] & w6 & [H6 _]%quiet_event & [= <- _ <-]).
  unfold same_rows in H6. destruct H6 as (_ & _ & _ & _ & _ & B1 & _ & _ & B2 & _ & _ & B3 & _).
  split; [done|]. split; [done|]. split; [by rewrite B2, A3|]. exists now, pid. split; [done|]. split; [by rewrite B1, A1|].
  exists row. split; [by rewrite B3, A2|]. rewrite Hsd, Hsp, Hro, F3, F4. split_and!; congruence.
Qed.

(** C10: a successful deployment has a plan, made by [planAppDeployment] for the request under a fresh
    identifier from the tables and the clusters the deployment was called with, and adds one row and
    one release of this plan: the row of the application, live, with the trimmed webhook secret
    of the request and the reference of its source, and a release of it with the
    specification and the objects rendered in the plan, under the digest of the specification;
    nothing else is added to these tables. *)
Theorem deployed_app_recorded inp (w : W) out job w' : DeployApp cfg encKey actor inp w = (Ok (out, job), w') ->
  exists plan w1 w2 now pid rel, planAppDeployment cfg encKey inp (uuid_New (w_uuids w)) w1 = (Ok plan, w2) /\
    same_rows (w_db w) (w_db w1) /\ w_k8s w1 = w_k8s w /\
    do_AppID out = uuid_New (w_uuids w) /\ pl_AppID plan = do_AppID out /\
    pl_WebhookSecret plan = TrimSpace (di_WebhookSecret inp) /\ uuid_in (p_ID (pl_Project plan)) = Some pid /\
    d_apps (w_db w') = app_row plan (di_Name inp) pid now :: d_apps (w_db w) /\
    d_releases (w_db w') = rel :: d_releases (w_db w) /\ rl_AppID rel = do_AppID out /\ rl_ProjectID rel = pid /\
    (rl_Spec rel, rl_SpecDigest rel) = encodeForRelease (spec_meta (release_spec plan inp)) /\
    rl_RenderedObjects rel = encodeRenderedObjects (pl_RenderedObjs plan).
Proof.
  intros [[_ [=]]|(plan & w1 & w2 & w3 & d & Hf & [Hr1 Hk1] & (P1 & _ & P3 & _) & H)]%deploy_reaches.
  pose proof (plan_ok _ _ _ _ _ _ _ Hf) as [Hid _ _ Hsec _ _ _ _ _].
  apply record_deployment_ok in H as (Ho & _ & _ & now & pid & Hpid & Ha & rel & Hr & R1 & R2 & R3 & R4);
    [|rewrite Hid; apply uuid_New_canonical].
  exists plan, w1, w2, now, pid, rel. rewrite P1 in Ha. rewrite P3 in Hr. split_and!; congruence.
Qed.

(** An application of an image, a chart or manifests is stored with the empty reference, which is
    unique among live applications: while one is live, in any project, no other can be deployed. *)
Theorem one_app_without_reference inp (w : W) other r w' :
  other ∈ d_apps (w_db w) -> ar_deleted other = false -> a_ExternalRef (ar other) = Some "" ->
  di_Git inp = None -> di_OciBundle inp = None ->
  DeployApp cfg encKey actor inp w = (r, w') -> is_ok r = false.
Proof.
  intros Hin Hlive Href Hg Hb [[_ ?]|(plan & w1 & w2 & w3 & d & Hf & _ & (P1 & _) & H)]%deploy_reaches; [done|].
  destruct r as [[out job]|e]; [|done]. exfalso.
  apply plan_ok in Hf as [Hid _ _ _ _ _ _ Hplain _]. destruct (Hplain Hg Hb) as [HG HB].
  apply record_deployment_ok in H as (_ & Hall & _); [|rewrite Hid; apply uuid_New_canonical].
  rewrite P1, Forall_forall in Hall. specialize (Hall _ Hin). unfold externalRef in Hall. rewrite HG, HB in Hall.
  rewrite (Hall Href) in Hlive. done.
Qed.

Definition domains_kept (w w' : W) : Prop := d_domains (w_db w') = d_domains (w_db w).
#[local] Instance domains_kept_preorder : PreOrder domains_kept.
Proof. split; [by intros w|]. intros a b c H1 H2. unfold domains_kept in *. congruence. Qed.

Lemma domains_kept_db {A} (m : io DB db_error A) :
  (forall d r d', m d = (r, d') -> d_domains d' = d_domains d) -> kept domains_kept (db m).
Proof. intros Hm. apply keeps_or_fail; [apply _|]. by intros w r w' (x & d & ?%Hm & _ & ->)%try_db_inv. Qed.

Lemma domains_kept_record inp plan d : kept domains_kept (record_deployment (CS := CS) cfg actor inp plan d).
Proof.
  assert (Hq : forall A (m : svc A), kept quiet m -> kept domains_kept m).
  { intros A m Hm w r w' [(_ & _ & _ & _ & _ & _ & _ & _ & H & _) _]%Hm. exact H. }
  unfold record_deployment, recordRelease. cbv zeta. apply keeps_bind; [apply _| |intros _].
  { apply keeps_wrap, domains_kept_db. intros d0 r d0' [(e & _ & ->)|(now & a & d1 & H & _ & ->)]%stmt_case; [done|].
    apply bind_ok in H as (c & _ & H). apply bind_ok in H as (p & _ & H). repeat case_match; try done. by injection H as _ <-. }
  apply keeps_bind; [apply _| |intros release].
  { apply keeps_wrap, keeps_bind; [apply _|apply Hq, quiet_uuid|intros id]. apply keeps_bind; [apply _| |intros; apply keeps_ret, _].
    apply domains_kept_db. intros d0 r d0'. unfold CreateRelease. destruct (release_guard _); [by intros [= _ <-]|].
    intros [(e & _ & ->)|(now & a & d1 & H & _ & ->)]%stmt_case; [done|].
    repeat (let v := fresh in apply bind_ok in H as (v & _ & H)). repeat case_match; try done. by injection H as _ <-. }
  apply keeps_bind; [apply _| |intros _].
  { apply keeps_ignore. intros w r w' (_ & _ & H)%mirrored_crd. exact H. }
  apply keeps_bind; [apply _|apply Hq, quiet_event|intros; apply keeps_ret, _].
Qed.

(** The domain of an application is stored before the application is, so the foreign key of its
    table refuses it: no deployment, whatever comes of it, ever adds a domain. *)
Theorem domains_never_recorded inp (w : W) r w' : fresh_ids w ->
  DeployApp cfg encKey actor inp w = (r, w') -> d_domains (w_db w') = d_domains (w_db w).
Proof.
  intros Hfresh H. pose proof (Hfresh (w_uuids w) (Nat.le_refl _)) as Hn.
  apply deploy_reaches in H as [[(_ & _ & _ & _ & Hd) _]|(plan & w1 & w2 & w3 & d & _ & _ & (_ & _ & _ & _ & Hd) & H)]; [by apply Hd|].
  rewrite <- (Hd Hn). by eapply domains_kept_record.
Qed.

(** ** Load balancers *)

(** C30: a deployment whose Service gets a load balancer is planned only within the limit of the project,
    which is the override of the project or else the setting: the load balancers listed in
    the namespace and those the ports ask for are together at most the limit.  When the Services
    cannot be listed the ones in use count as none: only those asked for are held against
    the limit. *)
Theorem load_balancer_quota inp id (w : W) plan w' :
  planAppDeployment cfg encKey inp id w = (Ok plan, w') -> sv_Type (app_service cfg plan) = ServiceTypeLoadBalancer ->
  let limit := Limit (pl_LBSummary plan) in
  let requested := Z.of_nat (length (List.filter is_lb (di_Ports inp))) in
  (1 <= requested)%Z /\
  match list_services (pl_Client plan) (p_Namespace (pl_Project plan)) (w_k8s w) with
  | Ok types => (Z.of_nat (length (List.filter (str_eqb ServiceTypeLoadBalancer) types)) + requested <= limit)%Z
  | Err _ => (requested <= limit)%Z
  end /\
  exists qo kc d' ov, GetProject (di_ProjectID inp) (w_db w) = (Ok (pl_Project plan, qo, kc), d') /\
    DecodeQuotaOverrides qo = Ok ov /\
    limit = default (cfg_MaxLoadBalancersPerProject cfg) (ov !! "services.loadbalancers" ≫= parseInt).
Proof.
  intros Hplan Hty. apply plan_ok in Hplan as [_ _ Hports _ _ _ _ _ (ov & ws & w1 & w2 & Hlb & Hk & [qo kc] & d' & Hp & Hov)].
  cbn [fst snd] in *. cbv zeta. unfold lb_summary in Hlb. cbv zeta in Hlb.
  apply io_bind_ok in Hlb as (listed & w3 & [= <- <-] & Hlb). rewrite Hk in Hlb.
  assert (Hreq : (0 < Z.of_nat (length (List.filter is_lb (di_Ports inp))))%Z).
  { unfold app_service in Hty. cbn in Hty. rewrite Hports in Hty. destruct (existsb _ _) eqn:E; [|done].
    apply existsb_exists in E as (pr & [Hin _]%filter_In & Hl).
    assert (Hpr : In pr (List.filter is_lb (di_Ports inp))) by (by apply filter_In).
    destruct (List.filter is_lb _); [done|]. cbn. lia. }
  apply Z.ltb_lt in Hreq as Hb. rewrite Hb in Hlb. cbn [andb] in Hlb.
  assert (Hlim : match ov !! "services.loadbalancers" with Some v => default (cfg_MaxLoadBalancersPerProject cfg) (parseInt v) | None => cfg_MaxLoadBalancersPerProject cfg end
    = default (cfg_MaxLoadBalancersPerProject cfg) (ov !! "services.loadbalancers" ≫= parseInt)) by by destruct (ov !! _).
  destruct (list_services _ _ _) as [types|e].
  all: match type of Hlb with (if ?b then _ else _) _ = _ => destruct b eqn:El; [done|] end.
  all: injection Hlb as <- _; apply Z.ltb_ge in El; cbn [Existing Limit]; rewrite Hlim in *; split; [lia|].
  all: split; [done|]; by exists qo, kc, d', ov.
Qed.
End Records.
