(* ===== verification/DeliveryProofs.v ===== *)
(** What Git webhooks and deletions of applications do. *)

From Stdlib Require Import Ascii ZArith Lia.
From stdpp Require Import base gmap strings list.
From S2P Require Import Prelude Utf8 GoStrings Hash GoTime NetURL NetIP Security Names Kube Attachments Aes Crypto Json Config Quota.
From S2P Require Import Events Maintenance Workload Store StoreApps StoreProofs Tenancy TenancyProofs ProjectProofs Credentials.
From S2P Require Import Sources GitFiles GitProofs Plan PlanProofs Releases Deploy DeployProofs DeployRecords.

Section Delivery.
Context {Q K C R CS : Type} `{laws : PlatformLaws Q K C R CS} `{rem : Remote K} `{ghl : GitHostLaws K}.
Context `{apl : AppPlatform Q K C CS}.
Context `{alaws : !AppLaws Q K C R CS}.
Context (cfg : Config) (encKey : bytes) (actor : string).
Local Abbreviation W := (World K C R).
Local Abbreviation svc := (io W svc_error).
Local Abbreviation kept := (keeps (K := K) (C := C) (R := R)).

(** ** Webhooks *)

(** The delivery may mark the application: its body is signed with the secret stored with the
    application or, when the column is NULL, with that of the configuration; where this secret is empty
    no signature is asked for. *)
Definition authorised (raw : bytes) (signature : string) (a : App) : Prop :=
  match a_WebhookSecret a with
  | Some secret => secret = "" \/ VerifyHMACSHA256 raw secret signature = true
  | None => cfg_GitWebhookSecret cfg = "" \/ VerifyHMACSHA256 raw (cfg_GitWebhookSecret cfg) signature = true
  end.

(** A patch with the mark of a restart, on the Deployment under the slug of the name of a live
    application of the repository. *)
Definition restarts (d : DB) (repo : string) (raw : bytes) (signature : string) (o : KObject Q) : Prop :=
  exists row p dep, row ∈ d_apps d /\ ar_deleted row = false /\ a_Repo (ar row) = Some repo /\
    authorised raw signature (ar row) /\ project_row d (ar_ProjectID row) p /\
    o = KDeployment dep /\ dp_Namespace dep = p_Namespace (pr p) /\ dp_Name dep = Slugify (a_Name (ar row)) /\
    is_Some (dp_Annotations dep !! "kubeop.io/redeploy").

Lemma redeploy_only (G : KObject Q -> Prop) c ns name :
  (forall dep, dp_Namespace dep = ns -> dp_Name dep = name -> is_Some (dp_Annotations dep !! "kubeop.io/redeploy") -> G (KDeployment dep)) ->
  kept (only G) (redeploy c ns name).
Proof.
  intros HG w r w' H. unfold redeploy in H. apply io_bind_case in H as [(e & [=] & _)|(got & w1 & [= <- <-] & H)].
  eapply keeps_ignore, H. apply only_apply. cbn [fst snd]. destruct (get_deployment c ns name (w_k8s w)) as [d| |e] eqn:E.
  1: apply get_deployment_named in E as [H1 H2].
  all: apply HG; cbn; rewrite ?lookup_insert_eq; by eauto.
Qed.

Lemma rows_redeploy c ns name : kept rows_kept (redeploy (CS := CS) c ns name).
Proof.
  unfold redeploy. apply keeps_bind; [apply rows_kept_preorder|apply quiet_rows, quiet_reads|intros got].
  apply keeps_ignore, rows_apply.
Qed.

Lemma webhook_app_only d0 repo raw sig row (w : W) r w' :
  row ∈ d_apps d0 -> ar_deleted row = false -> a_Repo (ar row) = Some repo -> same_rows d0 (w_db w) ->
  webhook_app cfg encKey raw sig (ar row) w = (r, w') ->
  only (restarts d0 repo raw sig) w w' /\ same_rows d0 (w_db w').
Proof.
  intros Hin Hlive Hrepo Hd H. unfold webhook_app in H. cbv zeta in H.
  destruct (negb (str_eqb (webhook_secret cfg (ar row)) "") && _) eqn:Ea; [injection H as _ <-; split; [done|done]|].
  assert (Hauth : authorised raw sig (ar row)).
  { assert (Hw : webhook_secret cfg (ar row) = "" \/ VerifyHMACSHA256 raw (webhook_secret cfg (ar row)) sig = true).
    { destruct (str_eqb _ "") eqn:E; [left; by apply str_eqb_eq|right]. cbn in Ea. by destruct (VerifyHMACSHA256 _ _ _). }
    unfold authorised, webhook_secret in *. by destruct (a_WebhookSecret (ar row)). }
  apply io_bind_case in H as [(e & (x & d & _ & [=] & _)%try_db_inv & _)|(x & w1 & Hp & H)].
  pose proof Hp as (y & d & Hm & [= <-] & ->)%try_db_inv.
  assert (Hd1 : same_rows d0 (w_db (set_db w d))) by (cbn; rewrite (GetProject_ro _ _ _ _ Hm); done).
  assert (H1 : only (restarts d0 repo raw sig) w (set_db w d)) by (exists []; by rewrite app_nil_r).
  destruct x as [[[p qo] kc]|e]; [|injection H as _ <-; done].
  apply GetProject_ok in Hm as (_ & prow & Hrow & -> & _). apply (project_row_rows d0) in Hrow; [|done].
  split.
  - etransitivity; [exact H1|]. eapply keeps_recover, H.
    apply keeps_bind; [apply _|apply unsent_only, quiet_unsent, quiet_GetOrCreate|intros c].
    apply redeploy_only. intros dep Hns Hn Ha. exists row, prow, dep. done.
  - etransitivity; [exact Hd1|]. change (rows_kept (set_db w d) w'). eapply keeps_recover, H.
    apply keeps_bind; [apply rows_kept_preorder|apply quiet_rows, quiet_GetOrCreate|intros c; apply rows_redeploy].
Qed.

Lemma FindAppsByRepo_ok repo d apps d' : FindAppsByRepo repo d = (Ok apps, d') ->
  d' = bump d /\ Forall (fun a => exists row, row ∈ d_apps d /\ ar row = a /\ ar_deleted row = false /\ a_Repo a = Some repo) apps.
Proof.
  intros H. split; [by eapply FindAppsByRepo_ro|]. apply stmt_ok in H as (now & d0 & [= <- _] & _).
  apply Forall_forall. intros a (row & -> & Hin)%list_elem_of_fmap. rewrite scan_order_rows in Hin. apply list_elem_of_In, filter_In in Hin as [Hin H].
  apply andb_true_iff in H as [H1%bool_decide_eq_true H2%negb_true_iff]. exists row. by rewrite list_elem_of_In.
Qed.

Definition webhook_repo (payload : Meta) : string :=
  let repo := getMapString payload ["repository"; "full_name"] in
  if str_eqb repo "" then getMapString payload ["repository"; "clone_url"] else repo.

(** C19: a webhook changes no row and sends nothing but marks of a restart, each on a Deployment in the
    namespace of the project of a live application of the pushed repository, and only for
    applications whose secret signed the delivery: the secret stored with the application or, when
    none is stored, that of the configuration; an application whose secret is the empty text asks
    for no signature.  The Deployment marked is the one called like the slug of the application's name, not
    the one under the derived name that a deployment creates. *)
Theorem webhook_authorised payload raw sig (w : W) r w' : HandleGitWebhook cfg encKey payload raw sig w = (r, w') ->
  same_rows (w_db w) (w_db w') /\
  exists new, sent (w_k8s w') = sent (w_k8s w) ++ new /\ Forall (restarts (w_db w) (webhook_repo payload) raw sig) new.
Proof.
  unfold HandleGitWebhook. fold (webhook_repo payload). cbv zeta. intros H.
  enough (only (restarts (w_db w) (webhook_repo payload) raw sig) w w' /\ same_rows (w_db w) (w_db w')) as [??] by done.
  destruct (str_eqb (webhook_repo payload) "" || _); [injection H as _ <-; done|].
  apply io_bind_case in H as [(e & H & _)|(apps & w1 & H1 & H)].
  { assert (Hq : quiet w w') by (by eapply quiet_db; [apply FindAppsByRepo_ro|]). destruct Hq as [Hq1 Hq2].
    split; [exists []; by rewrite app_nil_r, Hq2|done]. }
  apply db_ok in H1 as (d & [-> Hall]%FindAppsByRepo_ok & ->).
  assert (Hstart : only (restarts (w_db w) (webhook_repo payload) raw sig) w (set_db w (bump (w_db w)))) by (exists []; by rewrite app_nil_r).
  assert (Hd : same_rows (w_db w) (w_db (set_db w (bump (w_db w))))) by done.
  revert Hstart Hd H. generalize (set_db w (bump (w_db w))). revert r w'.
  induction Hall as [|a apps (row & Hin & <- & Hlive & Hrepo) _ IH]; intros r w' w1 Ho Hd H; [injection H as _ <-; done|].
  cbn [for_each] in H. apply io_bind_case in H as [(e & H & _)|([] & w2 & H2 & H)].
  - eapply webhook_app_only in H as [H1 H2]; [|done..]. split; [by etransitivity|done].
  - eapply webhook_app_only in H2 as [H1 H2]; [|done..]. eapply IH, H; [by etransitivity|done].
Qed.

(** An application deployed without a secret of its own is stored with the empty secret, not with
    none, so the secret of the configuration is never asked for: whatever it is, every delivery
    for the application is treated alike, signed or not. *)
Theorem unsigned_webhook_accepted inp (w : W) out job w' : blank (di_WebhookSecret inp) = true ->
  DeployApp cfg encKey actor inp w = (Ok (out, job), w') ->
  exists row, row ∈ d_apps (w_db w') /\ ar_ID row = do_AppID out /\ ar_deleted row = false /\
    forall cfg' raw sig raw' sig', webhook_app cfg' encKey raw sig (ar row) = webhook_app cfg' encKey raw' sig' (ar row).
Proof.
  intros Hb [[_ [=]]|(plan & w1 & w2 & w3 & d & Hf & _ & _ & H)]%deploy_reaches.
  apply plan_ok in Hf as [Hid _ _ Hsec _ _ _ _ _].
  apply record_deployment_ok in H as (Ho & _ & _ & now & pid & _ & Ha & _); [|rewrite Hid; apply uuid_New_canonical].
  rewrite Ha. eexists. split; [by left|]. split; [by rewrite Ho|]. split; [done|].
  intros cfg' raw sig raw' sig'. unfold webhook_app, webhook_secret. cbn. rewrite Hsec.
  unfold blank in Hb. apply str_eqb_eq in Hb. by rewrite Hb.
Qed.

(** ** Deletion *)

Lemma rows_delete_objects c p a id : kept rows_kept (delete_objects (CS := CS) cfg c p a id).
Proof.
  pose proof (@rows_kept_preorder K C R). unfold delete_objects, delete_kinds, delete_labelled.
  assert (Hk : forall E A (m : io K E A), kept rows_kept (try_k8s m)) by (intros; apply rows_try_k8s).
  assert (Hq : forall A (m : svc A), kept quiet m -> kept rows_kept m) by (intros; by apply quiet_rows).
  keep.
Qed.

Lemma ignored_db {A} (m : io DB db_error A) (w : W) u w' : ignore_err (db m) w = (Ok u, w') -> w' = set_db w (m (w_db w)).2.
Proof.
  unfold ignore_err, db, or_fail, try_db. unfold mbind, io_bind. destruct (m (w_db w)) as [[a|e] d]; by intros [= _ <-].
Qed.

(** What the three statements of a deletion leave. *)
Lemma DeleteAppDomains_leaves appID c d : uuid appID = Ok c -> let d' := (DeleteAppDomains appID d).2 in
  d' = bump (set_domains d (match db_fault (d_stmts d) with
                            | Some _ => d_domains d
                            | None => List.filter (fun x => negb (str_eqb (ad_AppID x) c)) (d_domains d)
                            end)).
Proof. intros Hc. unfold DeleteAppDomains, stmt. destruct (db_fault _); [by destruct d|]. by rewrite Hc. Qed.

Lemma SoftDeleteApp_leaves appID c d : uuid appID = Ok c ->
  (SoftDeleteApp appID d).2 = bump (match db_fault (d_stmts d) with Some _ => d | None => delete_apps (fun r => str_eqb (ar_ID r) c) d end).
Proof. intros Hc. unfold SoftDeleteApp, stmt. destruct (db_fault _); [done|]. by rewrite Hc. Qed.

Lemma MarkK8sCRDDeleted_leaves cluster kind ns name at_ d : exists rows,
  (MarkK8sCRDDeleted cluster kind ns name at_ d).2 = bump (set_crds d rows).
Proof.
  unfold MarkK8sCRDDeleted, stmt. destruct (db_fault _); [by exists (d_crds d); destruct d|].
  destruct (uuid cluster); [by eexists|by exists (d_crds d); destruct d].
Qed.

Definition without_app (c : string) (r : AppRow) : AppRow :=
  if str_eqb (ar_ID r) c then mkAppRow (ar r) (ar_UpdatedAt r) true else r.

Lemma without_app_gone c l :
  List.find (fun r => str_eqb (ar_ID r) c && negb (ar_deleted r)) (without_app c <$> l) = None.
Proof.
  induction l as [|r l IH]; [done|]. cbn. rewrite IH. unfold without_app.
  destruct (str_eqb (ar_ID r) c) eqn:E; cbn; by rewrite ?E, ?andb_false_r.
Qed.

Lemma insert_event_stmts e d r d' : insert_event e d = (r, d') -> d_stmts d' = d_stmts d \/ d_stmts d' = S (d_stmts d).
Proof.
  unfold insert_event. destruct (store_event_guard e); [intros [= _ <-]; by left|].
  intros [(x & _ & ->)|(now & a & d0 & H & _ & ->)]%stmt_case; right; [done|].
  repeat (let v := fresh in apply bind_ok in H as (v & _ & H)). destruct (existsb _ _); [done|]. by injection H as _ <-.
Qed.

Lemma event_stmts project app kind sev msg meta (w : W) r w' : append_app_event cfg actor project app kind sev msg meta w = (r, w') ->
  d_stmts (w_db w') = d_stmts (w_db w) \/ d_stmts (w_db w') = S (d_stmts (w_db w)).
Proof.
  intros H. unfold append_app_event in H. destruct (AppendProjectEvent _ _ _ w) as [x w1] eqn:E.
  assert (w1 = w') as -> by (destruct x; by injection H). unfold AppendProjectEvent in E. cbv zeta in E.
  repeat match type of E with (if ?b then _ else _) = _ => destruct b; [injection E as _ <-; by left|] end.
  cbn [newUUID InsertProjectEvent world_events] in E.
  match type of E with (if ?b then _ else _) = _ => destruct b; [injection E as _ <-; by left|] end.
  cbn [w_db] in E. destruct (insert_event _ _) as [y d] eqn:Ei. apply insert_event_stmts in Ei.
  by destruct y as [?|[|?]]; injection E as _ <-.
Qed.

(** C21: a deletion that answers with success has removed the domains of the application and marked its
    row as deleted, and touched no other application, domain, project or release; a row marked is not
    found afterwards.  The errors of the two statements are not looked at: where the one fails the domains
    stay, and where the other fails the row stays live. *)
Theorem delete_app_effect projectID appID (w : W) w' : DeleteApp cfg encKey actor projectID appID w = (Ok tt, w') ->
  exists c n, uuid_in appID = Some c /\ (d_stmts (w_db w') = n + 3 \/ d_stmts (w_db w') = n + 4)%nat /\
    (exists row, row ∈ d_apps (w_db w) /\ ar_ID row = c /\ ar_deleted row = false /\ ar_ProjectID row = projectID) /\
    (db_fault n = None -> d_domains (w_db w') = List.filter (fun x => negb (str_eqb (ad_AppID x) c)) (d_domains (w_db w))) /\
    (db_fault n <> None -> d_domains (w_db w') = d_domains (w_db w)) /\
    (db_fault (S (S n)) = None -> d_apps (w_db w') = without_app c <$> d_apps (w_db w) /\
       forall a, (GetApp appID (w_db w')).1 <> Ok a) /\
    (db_fault (S (S n)) <> None -> d_apps (w_db w') = d_apps (w_db w)) /\
    d_projects (w_db w') = d_projects (w_db w) /\ d_releases (w_db w') = d_releases (w_db w).
Proof.
  unfold DeleteApp. intros ([] & w1 & [H1 _]%quiet_gate & H)%io_bind_ok.
  apply io_bind_ok in H as (a & w2 & (d2 & Ha & ->)%db_ok & H).
  pose proof (GetApp_ro _ _ _ _ Ha) as ->. apply stmt_ok in Ha as (now & d0 & Ha & _).
  apply bind_ok in Ha as (c & Hc & Ha). apply bind_ok in Ha as (row & [Hin Hrow]%select_ok & [= <- _]).
  apply andb_true_iff in Hrow as [Hrid%str_eqb_eq Hlive%negb_true_iff].
  destruct (str_eqb (a_ProjectID (ar row)) projectID) eqn:Ep; cbn [negb] in H; [|done]. apply str_eqb_eq in Ep.
  apply io_bind_ok in H as (pr_ & w3 & H3 & H).
  assert (Q3 : quiet (set_db w1 (bump (w_db w1))) w3) by (by eapply quiet_db; [apply GetProject_ro|]).
  apply io_bind_ok in H as (cl & w4 & [H4 _]%quiet_GetOrCreate & H).
  apply io_bind_ok in H as (hosts & w5 & H5%rows_delete_objects & H).
  assert (S5 : same_rows (w_db w) (w_db w5)).
  { etransitivity; [exact H1|]. etransitivity; [exact (proj1 Q3)|]. etransitivity; [exact H4|exact H5]. }
  assert (Hin0 : row ∈ d_apps (w_db w)) by (destruct H1 as (_ & _ & _ & _ & _ & E & _); by rewrite <- E).
  clear H1 Q3 H3 H4 H5.
  apply io_bind_ok in H as (u6 & w6 & ->%ignored_db & H).
  apply io_bind_ok in H as (now' & w7 & [= <- <-] & H).
  apply io_bind_ok in H as (u8 & w8 & ->%ignored_db & H).
  apply io_bind_ok in H as (u9 & w9 & ->%ignored_db & H).
  pose proof (event_stmts _ _ _ _ _ _ _ _ _ H) as Hn. apply quiet_event in H as [Hev _].
  cbn [set_db w_db] in Hev, Hn. rewrite (DeleteAppDomains_leaves appID c) in Hev, Hn by done.
  match type of Hev with context [MarkK8sCRDDeleted ?k ?kind ?ns ?n ?t ?d] =>
    destruct (MarkK8sCRDDeleted_leaves k kind ns n t d) as [rows Hm] end.
  rewrite Hm, (SoftDeleteApp_leaves appID c) in Hev, Hn by done. cbn [bump set_crds set_domains d_stmts] in Hev, Hn.
  destruct S5 as (_ & Sp & _ & _ & _ & Sa & _ & _ & Sd & _ & _ & Sr & _). set (n := d_stmts (w_db w5)) in *.
  destruct Hev as (_ & Ep' & _ & _ & _ & Ea & _ & _ & Ed & _ & _ & Er & _).
  assert (Hn' : (d_stmts (w_db w') = n + 3 \/ d_stmts (w_db w') = n + 4)%nat) by (destruct (db_fault (S (S n))); cbn in Hn; lia).
  assert (Happs : d_apps (w_db w') = match db_fault (S (S n)) with Some _ => d_apps (w_db w) | None => without_app c <$> d_apps (w_db w) end)
    by (rewrite Ea; destruct (db_fault (S (S n))); cbn; by rewrite Sa).
  assert (Hdom : d_domains (w_db w') = match db_fault n with Some _ => d_domains (w_db w) | None => List.filter (fun x => negb (str_eqb (ad_AppID x) c)) (d_domains (w_db w)) end)
    by (rewrite Ed; destruct (db_fault (S (S n))), (db_fault n); cbn; by rewrite Sd).
  exists c, n. split; [unfold uuid in Hc; destruct (uuid_in appID); congruence|]. split; [done|]. split; [by exists row|].
  split; [by intros E; rewrite E in Hdom|]. split; [revert Hdom; by destruct (db_fault n)|]. split.
  { intros E. rewrite E in Happs. split; [done|]. unfold GetApp, stmt. destruct (db_fault (d_stmts (w_db w'))); [done|]. rewrite Hc.
    unfold mbind, result_bind, select. rewrite Happs, without_app_gone. done. }
  split; [revert Happs; by destruct (db_fault (S (S n)))|].
  split; [rewrite Ep'|rewrite Er]; destruct (db_fault (S (S n))); cbn; congruence.
Qed.
End Delivery.
