(* ===== verification/Status.v ===== *)
(** Queries on deployed applications and the ConfigMaps and Secrets of projects: of
    [internal/service/apps.go], [CollectAppStatus], [summariseAppConditions], [loadAppCRD],
    [domainStatuses], [lookupCertificateStatus], [ListProjectAppsStatus], [GetAppStatus],
    [GetAppDelivery] and [StreamAppLogs]; [internal/service/configs.go].

    Log lines are left out. *)

From Stdlib Require Import Ascii ZArith Lia.
From stdpp Require Import base gmap strings list sorting.
From S2P Require Import Prelude Utf8 GoStrings Hash GoTime NetURL NetIP Security Names Kube Attachments Crypto Json Config Quota.
From S2P Require Import Events Maintenance Workload Store StoreApps Tenancy Credentials Sources GitFiles Plan Releases Deploy.

(** ** Data *)

Record ServiceSummary := mkServiceSummary { ss_Name : string; ss_Type : string; ss_Ports : list Z }.
Record PodSummary := mkPodSummary { ps_Name : string; ps_Phase : string; ps_Ready : bool }.
Record AppDomainInfo := mkDomainInfo { di_FQDN : string; di_CertificateStatus : string }.

Record AppConditionStatus := mkConditionStatus {
  cs_Type : string; cs_Status : string; cs_Reason : string; cs_Message : string; cs_ObservedGeneration : Z
}.

(** [service.AppStatus] *)
Record AppStatusView := mkStatusView {
  st_AppID : string; st_Name : string; st_Desired : Z; st_Ready : Z; st_Available : Z; st_ResourceVersion : string;
  st_UID : string; st_ObservedGeneration : Z; st_Service : option ServiceSummary; st_IngressHosts : list string;
  st_Pods : list PodSummary; st_Domains : list AppDomainInfo; st_Conditions : list AppConditionStatus
}.

Record AppDeliveryInfo := mkDeliveryInfo {
  dl_AppID : string; dl_ProjectID : string; dl_Source : Meta; dl_Delivery : Meta; dl_SBOM : Meta
}.

Record AppLogsInput := mkLogsInput {
  li_ProjectID : string; li_AppID : string; li_Container : string; li_TailLines : option Z; li_Follow : bool
}.

(** ** What is outside the repository *)

(** The App resource, as the status is read from it. *)
Record AppResource := mkAppResource {
  ax_ResourceVersion : string; ax_UID : string; ax_Replicas : option Z; ax_AvailableReplicas : Z;
  ax_ObservedGeneration : Z; ax_Conditions : list Condition
}.
(** Replicas asked for, ready and available. *)
Record DeploymentStatus := mkDeploymentStatus { ds_Replicas : option Z; ds_ReadyReplicas : Z; ds_AvailableReplicas : Z }.
(** A Pod with the [Ready] of its containers and its creation time. *)
Record Pod := mkPod { pod_Name : string; pod_Phase : string; pod_Ready : list bool; pod_Created : Z }.
Record PodLogOptions := mkPodLogOptions { plo_Follow : bool; plo_TailLines : option Z; plo_Container : string }.

Class StatusPlatform (K C CS : Type) := {
  get_app_resource : C -> string -> string -> K -> get_result AppResource;
  get_deployment_status : C -> string -> string -> K -> get_result DeploymentStatus;
  (** [List] of a namespace with [MatchingLabels] *)
  list_app_services : C -> string -> labels -> K -> result string (list AppService);
  list_app_ingresses : C -> string -> labels -> K -> result string (list AppIngress);
  list_app_pods : C -> string -> labels -> K -> result string (list Pod);
  (** the Certificate as the document it is *)
  get_certificate : C -> string -> string -> K -> get_result Meta;
  (** [unstructured.NestedSlice] *)
  NestedSlice : Meta -> list string -> result string (option (list any));
  (** [Pods(namespace).List] with a label selector, and [GetLogs(name, opts).Stream] *)
  list_pods_selector : CS -> string -> string -> K -> result string (list Pod);
  stream_logs : CS -> string -> string -> PodLogOptions -> K -> result string string;
  list_configmaps : C -> string -> K -> result string (list string);
  (** name and type *)
  list_secrets : C -> string -> K -> result string (list (string * string));
}.

(** ** fmt.Sprint *)

(** Of a decoded document; maps are written in the order of their keys, and numbers as they are
    in the document. *)
Fixpoint sprint_value (v : any) : string :=
  match v with
  | AString s => s
  | AOther r => if str_eqb r "null" then "<nil>" else r
  | AList l => "[" +:+ String.concat " " (List.map sprint_value l) +:+ "]"
  | AMap m => "map[" +:+ String.concat " " (List.map (fun e : string * string => e.1 +:+ ":" +:+ e.2)
                (merge_sort (fun a b => str_le a.1 b.1) (List.map (fun '(k, v) => (k, sprint_value v)) m))) +:+ "]"
  end.

Definition Sprint (v : option any) : string := match v with Some v => sprint_value v | None => "<nil>" end.

Section Status.
Context {Q K C R CS : Type} `{plat : Platform Q K C R CS} `{pg : Postgres} `{apl : AppPlatform Q K C CS}.
Context `{sp : StatusPlatform K C CS}.
Context (cfg : Config) (encKey : bytes).
Local Abbreviation W := (World K C R).
Local Abbreviation svc := (io W svc_error).

(** ** CollectAppStatus *)

Definition summariseAppConditions (conds : list Condition) : list AppConditionStatus :=
  (fun c => mkConditionStatus (cond_Type c) (cond_Status c) (cond_Reason c) (cond_Message c) (cond_ObservedGeneration c)) <$> conds.

Definition found {A} (r : get_result A) : option A := match r with Found a => Some a | _ => None end.
Definition items {A} (r : result string (list A)) : list A := match r with Ok l => l | Err _ => [] end.

Definition service_summary (s : AppService) : ServiceSummary := mkServiceSummary (sv_Name s) (sv_Type s) (sp_Port <$> sv_Ports s).

Definition ingress_hosts (l : list AppIngress) : list string :=
  List.filter (fun h => negb (str_eqb h "")) (l ≫= fun i => ir_Host <$> ig_Rules i).

Definition pod_summary (p : Pod) : PodSummary := mkPodSummary (pod_Name p) (pod_Phase p) (existsb id (pod_Ready p)).

(** Replicas asked for, ready and available, of the App resource. *)
Definition crd_replicas (crd : AppResource) (desired : Z) : Z * Z * Z :=
  let ready := match find_condition "Ready" (ax_Conditions crd) with
               | Some c => if str_eqb (cond_Status c) "True" then default (ax_AvailableReplicas crd) (ax_Replicas crd)
                           else ax_AvailableReplicas crd
               | None => ax_AvailableReplicas crd
               end in
  (default desired (ax_Replicas crd), ready, ax_AvailableReplicas crd).

Definition CollectAppStatus (c : C) (namespace : string) (app : App) : svc AppStatusView :=
  let name := app_kube_name app in
  let sel := app_selector (a_ID app) in
  reads (fun k =>
    let crd := found (get_app_resource c namespace name k) in
    let dep := found (get_deployment_status c namespace name k) in
    let desired := match dep with Some d => default 0%Z (ds_Replicas d) | None => 0%Z end in
    let '(desired, ready, available) :=
      match crd with
      | Some a => crd_replicas a desired
      | None => (desired, from_option ds_ReadyReplicas 0%Z dep, from_option ds_AvailableReplicas 0%Z dep)
      end in
    mkStatusView (a_ID app) (a_Name app) desired ready available (from_option ax_ResourceVersion "" crd)
      (from_option ax_UID "" crd) (from_option ax_ObservedGeneration 0%Z crd)
      (service_summary <$> head (items (list_app_services c namespace sel k)))
      (ingress_hosts (items (list_app_ingresses c namespace sel k)))
      (pod_summary <$> items (list_app_pods c namespace sel k)) []
      (summariseAppConditions (from_option ax_Conditions [] crd))).

(** ** Domains *)

Definition certificate_condition (m : Meta) : option string :=
  if negb (EqualFold (Sprint (lookup_meta m "type")) "Ready") then None
  else if str_eqb (ToLower (Sprint (lookup_meta m "status"))) "true" then Some "issued"
  else
    let reason := TrimSpace (Sprint (lookup_meta m "reason")) in
    let message := TrimSpace (Sprint (lookup_meta m "message")) in
    if str_eqb reason "" && str_eqb message "" then Some "pending"
    else if negb (str_eqb reason "") && negb (str_eqb message "")
    then Some ("error: " +:+ ToLower reason +:+ " (" +:+ message +:+ ")")
    else if negb (str_eqb reason "") then Some ("error: " +:+ ToLower reason)
    else Some ("error: " +:+ message).

Fixpoint certificate_status (conditions : list any) : string :=
  match conditions with
  | [] => "pending"
  | AMap m :: l => match certificate_condition m with Some s => s | None => certificate_status l end
  | _ :: l => certificate_status l
  end.

Definition lookupCertificateStatus (c : C) (namespace certName : string) : svc string :=
  r ← reads (get_certificate c namespace certName);
  match r with
  | NotFound => mret "pending"
  | GetFailed e => fail (EText e)
  | Found cert =>
      conditions ← pure (NestedSlice cert ["status"; "conditions"]);
      mret (match conditions with Some l => certificate_status l | None => "pending" end)
  end.

(** The status shown for a domain. *)
Definition domain_status (desired : string) (d : AppDomain) : string :=
  let status := if str_eqb desired "" then ad_CertStatus d else desired in
  if str_eqb status "" then "pending" else status.

Definition update_domain (desired : string) (d : AppDomain) : svc unit :=
  let status := domain_status desired d in
  if str_eqb status (ad_CertStatus d) then mret tt
  else id ← uuid_fresh; ignore_err (db (UpsertAppDomain id (ad_AppID d) (ad_FQDN d) status)).

Definition desired_status (c : C) (namespace : string) (app : App) : svc string :=
  if cfg_EnableCertManager cfg
  then recover "" (lookupCertificateStatus c namespace (app_kube_name app +:+ "-cert"))
  else mret "".

Definition domainStatuses (c : C) (namespace : string) (app : App) : svc (list AppDomainInfo) :=
  r ← try_db (ListAppDomains (a_ID app));
  match r with
  | Err _ | Ok [] => mret []
  | Ok domains =>
      desired ← desired_status c namespace app;
      _ ← for_each (update_domain desired) domains;
      mret ((fun d => mkDomainInfo (ad_FQDN d) (domain_status desired d)) <$> domains)
  end.

(** ** The queries *)

Definition with_domains (st : AppStatusView) (l : list AppDomainInfo) : AppStatusView :=
  mkStatusView (st_AppID st) (st_Name st) (st_Desired st) (st_Ready st) (st_Available st) (st_ResourceVersion st) (st_UID st)
    (st_ObservedGeneration st) (st_Service st) (st_IngressHosts st) (st_Pods st) l (st_Conditions st).

Definition loadAppCRD (c : C) (namespace name : string) : svc (get_result StoredApp) := reads (get_app c namespace name).

(** The status of one application; a resource that was seen is mirrored. *)
Definition app_status (c : C) (p : Project) (a : App) : svc AppStatusView :=
  st ← CollectAppStatus c (p_Namespace p) a;
  _ ← (if str_eqb (st_ResourceVersion st) "" then mret tt
       else r ← loadAppCRD c (p_Namespace p) (app_kube_name a);
            match r with Found crd => mirrorAppCRD p crd | _ => mret tt end);
  domains ← domainStatuses c (p_Namespace p) a;
  mret (with_domains st domains).

Fixpoint collect {A B} (f : A -> svc B) (l : list A) : svc (list B) :=
  match l with
  | [] => mret []
  | x :: l => y ← f x; ys ← collect f l; mret (y :: ys)
  end.

Definition project_client (projectID : string) : svc (Project * C) :=
  r ← db (GetProject projectID);
  c ← GetOrCreate encKey (p_ClusterID r.1.1);
  mret (r.1.1, c).

Definition ListProjectAppsStatus (projectID : string) : svc (list AppStatusView) :=
  pc ← project_client projectID;
  apps ← db (ListAppsByProject projectID);
  collect (app_status pc.2 pc.1) apps.

Definition GetAppStatus (projectID appID : string) : svc AppStatusView :=
  pc ← project_client projectID;
  a ← db (GetApp appID);
  if negb (str_eqb (a_ProjectID a) projectID) then fail (EText "app does not belong to project")
  else app_status pc.2 pc.1 a.

(** A copy of a list that is empty is nil. *)
Fixpoint cloneAnyValue (v : any) : any :=
  match v with
  | AMap m => AMap (List.map (fun '(k, v) => (k, cloneAnyValue v)) m)
  | AList [] => AOther "null"
  | AList l => AList (List.map cloneAnyValue l)
  | _ => v
  end.
Definition cloneAnyMap (m : Meta) : Meta := List.map (fun '(k, v) => (k, cloneAnyValue v)) m.

Definition GetAppDelivery (projectID appID : string) : svc AppDeliveryInfo :=
  if blank projectID || blank appID then fail (EText "projectId and appId are required")
  else
    app ← db (GetApp appID);
    if negb (str_eqb (a_ProjectID app) projectID) then fail (EText "app does not belong to project")
    else
      let delivery := cloneAnyMap (a_Delivery app) in
      (* the copy of a list is a list, of an empty one the nil list *)
      let sbom := match lookup_meta (a_Delivery app) "sbom" with
                  | Some (AMap m) => cloneAnyMap (cloneAnyMap m)
                  | Some (AList l) => [("documents", nil_or AList (List.map cloneAnyValue l))]
                  | _ => []
                  end in
      mret (mkDeliveryInfo (a_ID app) (a_ProjectID app) (cloneAnyMap (a_Source app)) delivery sbom).

(** ** Logs *)

(** The youngest Pod; of several the first. *)
Fixpoint latest_pod (latest : Pod) (l : list Pod) : Pod :=
  match l with
  | [] => latest
  | p :: l => latest_pod (if (pod_Created latest <? pod_Created p)%Z then p else latest) l
  end.

Definition StreamAppLogs (inp : AppLogsInput) : svc string :=
  r ← db (GetProject (li_ProjectID inp));
  let p := r.1.1 in
  cs ← GetClientset encKey (p_ClusterID p);
  pods ← reads (list_pods_selector cs (p_Namespace p) (labelAppID +:+ "=" +:+ li_AppID inp));
  match pods with
  | Err _ | Ok [] => fail (EText "no pods for app")
  | Ok (first :: rest) =>
      log ← reads (stream_logs cs (p_Namespace p) (pod_Name (latest_pod first rest))
                     (mkPodLogOptions (li_Follow inp) (li_TailLines inp) (li_Container inp)));
      pure log
  end.

(** ** configs.go *)

Definition project_label (projectID : string) : labels := {["kubeop.project-id" := projectID]}.

Definition CreateConfigMap (projectID name : string) (data : gmap string string) : svc unit :=
  pc ← project_client projectID;
  apply pc.2 (KConfig (mkConfigObject (p_Namespace pc.1) name (project_label projectID) data)).

Definition ListConfigMaps (projectID : string) : svc (list string) :=
  pc ← project_client projectID;
  r ← reads (list_configmaps pc.2 (p_Namespace pc.1));
  pure r.

Definition api_call {A} (m : io K api_error A) : svc A := or_fail (fun e => EText (api_text e)) (try_k8s m).

Definition DeleteConfigMap (projectID name : string) : svc unit :=
  pc ← project_client projectID;
  api_call (delete_object pc.2 ("ConfigMap", p_Namespace pc.1, name)).

Definition CreateSecret (projectID name typ : string) (stringData : gmap string string) : svc unit :=
  pc ← project_client projectID;
  apply pc.2 (KSecret (mkSecretObject (p_Namespace pc.1) name (project_label projectID) typ stringData)).

Definition ListSecrets (projectID : string) : svc (list (string * string)) :=
  pc ← project_client projectID;
  r ← reads (list_secrets pc.2 (p_Namespace pc.1));
  pure r.

Definition DeleteSecret (projectID name : string) : svc unit :=
  pc ← project_client projectID;
  api_call (delete_object pc.2 ("Secret", p_Namespace pc.1, name)).
End Status.
