(* ===== verification/StatusProofs.v ===== *)
(** Queries change nothing but what they cache, and ConfigMaps and Secrets stay in the namespace
    of their project. *)

From Stdlib Require Import Ascii ZArith Lia.
From stdpp Require Import base gmap strings list sorting.
From S2P Require Import Prelude Utf8 GoStrings Hash GoTime NetURL NetIP Security Names Kube Attachments Aes Crypto Json Config Quota.
From S2P Require Import Events Maintenance Workload Store StoreApps StoreProofs Tenancy TenancyProofs ProjectProofs Credentials.
From S2P Require Import Sources GitFiles GitProofs Plan PlanProofs Releases Deploy DeployProofs DeployRecords Status.

Lemma ListAppDomains_ro `{pg : Postgres} id : read_only (ListAppDomains id). Proof. read_only_tac. Qed.
Lemma ListAppsByProject_ro `{pg : Postgres} id : read_only (ListAppsByProject id). Proof. read_only_tac. Qed.
#[export] Hint Resolve ListAppDomains_ro ListAppsByProject_ro : read_only.

Section Status.
Context {Q K C R CS : Type} `{laws : PlatformLaws Q K C R CS} `{plaws : !PostgresLaws}.
Context `{host : GitHost K} `{apl : AppPlatform Q K C CS} `{sp : StatusPlatform K C CS} `{alaws : !AppLaws Q K C R CS}.
Context (cfg : Config) (encKey : bytes).
Local Abbreviation W := (World K C R).
Local Abbreviation svc := (io W svc_error).
Local Abbreviation kept := (keeps (K := K) (C := C) (R := R)).

(** ** What a query leaves *)

Definition domain_keys (d : DB) : list (string * string) := (fun x => (ad_AppID x, ad_FQDN x)) <$> d_domains d.

(** The clusters stay as they are, and so do the tables but for the mirrors of resources and
    the states of certificates. *)
Definition observed (w w' : W) : Prop :=
  w_k8s w' = w_k8s w /\ domain_keys (w_db w') = domain_keys (w_db w) /\
  d_users (w_db w') = d_users (w_db w) /\ d_projects (w_db w') = d_projects (w_db w) /\
  d_spaces (w_db w') = d_spaces (w_db w) /\ d_kubeconfigs (w_db w') = d_kubeconfigs (w_db w) /\
  d_clusters (w_db w') = d_clusters (w_db w) /\ d_apps (w_db w') = d_apps (w_db w) /\
  d_releases (w_db w') = d_releases (w_db w) /\ d_git (w_db w') = d_git (w_db w) /\
  d_registry (w_db w') = d_registry (w_db w).
#[export] Instance observed_preorder : PreOrder observed.
Proof.
  split; [by intros w; split_and!|]. intros a b c H1 H2. unfold observed in *. destruct_and?. split_and!; congruence.
Qed.

Lemma quiet_observed {A} (m : svc A) : kept quiet m -> kept observed m.
Proof.
  intros Hm w r w' [H Hk]%Hm. unfold same_rows in H. destruct_and?. unfold observed, domain_keys. split_and!; congruence.
Qed.
#[local] Hint Resolve quiet_observed : keeps.

Lemma UpsertK8sCRD_rows k d r d' : UpsertK8sCRD k d = (r, d') -> d' = d \/ exists rows, d' = bump (set_crds d rows).
Proof.
  unfold UpsertK8sCRD. destruct (crd_guard k); [intros [= _ <-]; by left|]. intros H. right. revert H.
  intros [(e & _ & ->)|(now & a & d0 & H & _ & ->)]%stmt_case; [exists (d_crds d); by destruct d|].
  apply bind_ok in H as (c & _ & H). apply bind_ok in H as (p & _ & H).
  destruct (existsb _ _); [injection H as _ <-; eauto|]. destruct (negb _); [done|]. injection H as _ <-. eauto.
Qed.

Lemma observed_mirror p crd : kept observed (mirrorAppCRD p crd).
Proof.
  apply keeps_ignore, keeps_or_fail; [apply _|]. intros w r w' (x & d & Hm & _ & ->)%try_db_inv.
  apply UpsertK8sCRD_rows in Hm as [->|[rows ->]]; by split_and!.
Qed.

(** ** Domains *)

(** A domain that is in the table, under an identifier as the table holds it. *)
Definition known (w : W) (d : AppDomain) : Prop :=
  uuid_in (ad_AppID d) = Some (ad_AppID d) /\ (ad_AppID d, ad_FQDN d) ∈ domain_keys (w_db w).

Lemma upsert_known d0 id d status r d' :
  uuid_in (ad_AppID d) = Some (ad_AppID d) -> (ad_AppID d, ad_FQDN d) ∈ domain_keys d0 ->
  UpsertAppDomain id (ad_AppID d) (ad_FQDN d) status d0 = (r, d') ->
  exists rows, d' = bump (set_domains d0 rows) /\ ((fun x => (ad_AppID x, ad_FQDN x)) <$> rows) = domain_keys d0.
Proof.
  intros Hid Hin [(e & _ & ->)|(now & a & d1 & H & _ & ->)]%stmt_case; [exists (d_domains d0); split; [by destruct d0|done]|].
  apply bind_ok in H as (i & _ & H). apply bind_ok in H as (c & Hc%uuid_ok & H). rewrite Hid in Hc. injection Hc as <-.
  destruct (negb _); [done|]. apply list_elem_of_fmap in Hin as (x & [= H1 H2] & Hx).
  cbv zeta in H. destruct (List.find _ (d_domains d0)) as [y|] eqn:Ef.
  - injection H as _ <-. eexists. split; [done|]. unfold domain_keys. rewrite <- list_fmap_compose. apply list_fmap_ext.
    intros j z Hz. cbn. destruct (str_eqb (ad_AppID z) (ad_AppID d) && str_eqb (ad_FQDN z) (ad_FQDN d)) eqn:E; [|done].
    apply andb_true_iff in E as [->%str_eqb_eq ->%str_eqb_eq]. done.
  - eapply find_none in Ef; [|by apply list_elem_of_In]. by rewrite <- H1, <- H2, !str_eqb_refl in Ef.
Qed.

Lemma observed_update desired d (w : W) r w' : known w d -> update_domain desired d w = (r, w') -> observed w w'.
Proof.
  intros [Hid Hin]. unfold update_domain. cbv zeta. destruct (str_eqb _ _); [by intros [= _ <-]|].
  intros [(e & [= _ _] & _)|(id & w1 & [= <- <-] & H)]%io_bind_case.
  unfold ignore_err, db, or_fail, try_db in H. unfold mbind, io_bind in H. cbn [w_db] in H.
  destruct (UpsertAppDomain _ _ _ _ (w_db w)) as [x d'] eqn:E. apply upsert_known in E as (rows & -> & Hk); [|done..].
  assert (Hw : w_db w' = bump (set_domains (w_db w) rows) /\ w_k8s w' = w_k8s w) by (destruct x; by injection H as _ <-).
  destruct Hw as [Hw Hk8]. unfold observed, domain_keys. rewrite Hw. by split_and!.
Qed.

Lemma known_observed (w w' : W) d : observed w w' -> known w d -> known w' d.
Proof. intros (_ & Hk & _) [H1 H2]. split; [done|]. by rewrite Hk. Qed.

Lemma observed_updates desired l (w : W) r w' : Forall (known w) l -> for_each (update_domain desired) l w = (r, w') -> observed w w'.
Proof.
  revert w. induction l as [|d l IH]; intros w; cbn [for_each]; [by intros _ [= _ <-]|]. rewrite Forall_cons. intros [Hd Hl] H.
  apply io_bind_case in H as [(e & H & _)|([] & w1 & H1 & H)]; [by eapply observed_update|].
  pose proof (observed_update _ _ _ _ _ Hd H1) as Ho. etransitivity; [exact Ho|]. eapply IH, H.
  eapply Forall_impl; [exact Hl|]. intros x. by apply known_observed.
Qed.

Lemma ListAppDomains_known id (w : W) l d' : ListAppDomains id (w_db w) = (Ok l, d') -> Forall (known w) l.
Proof.
  intros (now & d0 & H & _)%stmt_ok. apply bind_ok in H as (c & Hc%uuid_ok & [= <- _]).
  unfold ordered. rewrite merge_sort_Permutation, scan_order_rows. apply Forall_forall. intros x [Hx Hid%str_eqb_eq]%list_elem_of_In%filter_In.
  apply list_elem_of_In in Hx. split; [rewrite Hid; by eapply uuid_canonical|].
  apply list_elem_of_fmap. by exists x.
Qed.

Lemma observed_desired c ns a : kept observed (desired_status cfg c ns a).
Proof.
  unfold desired_status, lookupCertificateStatus. case_match; [apply keeps_recover|apply keeps_ret, _]. keep.
Qed.

Lemma observed_domains c ns a : kept observed (domainStatuses cfg c ns a).
Proof.
  intros w r w'. unfold domainStatuses. intros [(e & (x & d & _ & [=] & _)%try_db_inv & _)|(x & w1 & H1 & H)]%io_bind_case.
  pose proof H1 as (y & d & Hm & [= <-] & ->)%try_db_inv.
  assert (Ho : observed w (set_db w d)) by (rewrite (ListAppDomains_ro _ _ _ _ Hm); by split_and!).
  destruct x as [[|d0 l]|e]; [injection H as _ <-; done| |injection H as _ <-; done].
  apply ListAppDomains_known in Hm. set (doms := d0 :: l) in *. etransitivity; [exact Ho|].
  apply io_bind_case in H as [(e & H & _)|(desired & w2 & H2 & H)]; [by eapply observed_desired|].
  apply observed_desired in H2 as Ho2. etransitivity; [exact Ho2|].
  assert (Hk : Forall (known w2) doms).
  { eapply Forall_impl; [exact Hm|]. intros z Hz. eapply known_observed; [exact Ho2|]. by eapply known_observed. }
  apply io_bind_case in H as [(e & H & _)|([] & w3 & H3 & [= _ <-])]; by eapply observed_updates.
Qed.

(** ** Queries *)

Lemma observed_status c p a : kept observed (app_status cfg c p a).
Proof.
  pose proof observed_mirror. pose proof (observed_domains c (p_Namespace p) a). unfold app_status, CollectAppStatus, loadAppCRD. keep.
Qed.

Lemma observed_collect {A B} (f : A -> svc B) l : (forall x, kept observed (f x)) -> kept observed (collect f l).
Proof. intros Hf. induction l as [|x l IH]; cbn; keep. Qed.

Lemma quiet_project_client id : kept quiet (project_client encKey id).
Proof. unfold project_client. pose proof quiet_GetOrCreate. keep. Qed.
#[local] Hint Resolve quiet_project_client : keeps.

(** The queries on applications, their delivery and logs, and the listings of ConfigMaps and
    Secrets. *)
Lemma observed_ListProjectAppsStatus id : kept observed (ListProjectAppsStatus cfg encKey id).
Proof. pose proof observed_status. pose proof (@observed_collect). unfold ListProjectAppsStatus. keep. Qed.
Lemma observed_GetAppStatus id app : kept observed (GetAppStatus cfg encKey id app).
Proof. pose proof observed_status. unfold GetAppStatus. keep. Qed.
Lemma observed_GetAppDelivery id app : kept observed (GetAppDelivery id app).
Proof. unfold GetAppDelivery. keep. Qed.
Lemma observed_StreamAppLogs inp : kept observed (StreamAppLogs encKey inp).
Proof. pose proof quiet_GetClientset. unfold StreamAppLogs. keep. Qed.
Lemma observed_ListConfigMaps id : kept observed (ListConfigMaps encKey id).
Proof. unfold ListConfigMaps. keep. Qed.
Lemma observed_ListSecrets id : kept observed (ListSecrets encKey id).
Proof. unfold ListSecrets. keep. Qed.

(** ** ConfigMaps and Secrets *)

(** An object in the namespace of the project, labelled with it. *)
Definition project_object (d : DB) (projectID name : string) (o : KObject Q) : Prop :=
  exists row, project_row d projectID row /\
    match o with
    | KConfig c => cm_Namespace c = p_Namespace (pr row) /\ cm_Name c = name /\ cm_Labels c = project_label projectID
    | KSecret s => so_Namespace s = p_Namespace (pr row) /\ so_Name s = name /\ so_Labels s = project_label projectID
    | _ => False
    end.

Lemma project_client_ok id (w : W) p c w' : project_client encKey id w = (Ok (p, c), w') ->
  exists row, project_row (w_db w) id row /\ p = pr row.
Proof.
  unfold project_client. intros ([[p0 q] kc] & w1 & (d & Hm & ->)%db_ok & H)%io_bind_ok.
  apply io_bind_ok in H as (c0 & w2 & _ & [= <- _ _]). apply GetProject_ok in Hm as (_ & row & Hr & -> & _). eauto.
Qed.

Lemma only_in_project id name (mk : Project -> KObject Q) :
  (forall row (w : W), project_row (w_db w) id row -> project_object (w_db w) id name (mk (pr row))) ->
  forall (w : W) r w', (pc ← project_client encKey id; apply (CS := CS) pc.2 (mk pc.1)) w = (r, w') ->
  only (project_object (w_db w) id name) w w' /\ same_rows (w_db w) (w_db w').
Proof.
  intros Hmk w r w' [(e & [H1 H2]%quiet_project_client & _)|([p c] & w1 & H1 & H)]%io_bind_case.
  - split; [exists []; by rewrite app_nil_r, H2|done].
  - apply project_client_ok in H1 as Hp. destruct Hp as (row & Hr & ->). cbn [fst snd] in H. apply quiet_project_client in H1 as [Hd Hk].
    split; [|etransitivity; [exact Hd|]; by eapply rows_apply in H].
    eapply (only_apply (project_object (w_db w) id name)) in H as (new & Hn & Hf); [|by apply Hmk].
    exists new. by rewrite Hn, Hk.
Qed.

(** A ConfigMap or Secret that is created through a project is sent to the namespace of that
    project, under the requested name and with the label of the project, nothing else is sent,
    and no row changes. *)
Theorem config_objects_confined projectID name typ data (w : W) :
  (forall r w', CreateConfigMap encKey projectID name data w = (r, w') ->
     only (project_object (w_db w) projectID name) w w' /\ same_rows (w_db w) (w_db w')) /\
  (forall r w', CreateSecret encKey projectID name typ data w = (r, w') ->
     only (project_object (w_db w) projectID name) w w' /\ same_rows (w_db w) (w_db w')).
Proof.
  split; intros r w' H.
  - apply (only_in_project projectID name (fun p => KConfig (mkConfigObject (p_Namespace p) name (project_label projectID) data))) in H;
      [done|]. intros row w0 Hr. by exists row.
  - apply (only_in_project projectID name (fun p => KSecret (mkSecretObject (p_Namespace p) name (project_label projectID) typ data))) in H;
      [done|]. intros row w0 Hr. by exists row.
Qed.
End Status.

(** A Ready condition without a reason and a message is shown as an error, since the text of a
    missing value is not empty. *)
Example missing_reason_shown :
  certificate_status [AMap [("type", AString "Ready"); ("status", AString "False")]] = "error: <nil> (<nil>)".
Proof. reflexivity. Qed.

(** With a Ready condition, which the controller sets on every reconciliation, the replicas asked
    for count as ready although none is available. *)
Example ready_without_pods :
  crd_replicas (mkAppResource "1" "u" (Some 3%Z) 0%Z 1%Z [mkCondition "Ready" "True" "Reconciled" "" 1%Z]) 0 = (3, 3, 0)%Z.
Proof. reflexivity. Qed.
