(* ===== verification/Templates.v ===== *)
(** Application templates: [internal/service/templates.go].

    Schemas, the template engine with its functions and the YAML converter are the interface
    [TemplateEngine].  The functions of a template come from sprig: some of them draw random
    values or read the clock, the environment or the network, so what a template writes
    depends on the state outside and on the number of the draw, which is counted as for nonces.
    A Go map is a list of members with different keys; documents are those of decoded requests
    and are stored as they are.  Log lines are left out. *)

From Stdlib Require Import Ascii ZArith Lia.
From stdpp Require Import base gmap strings list sorting.
From S2P Require Import Prelude Utf8 GoStrings Hash GoTime NetURL NetIP Security Names Kube Crypto Json Config Quota Events Maintenance.
From S2P Require Import Workload Store StoreApps Tenancy Credentials Sources GitFiles Plan Releases Deploy.

(** ** Merging *)

Fixpoint cloneValue (v : any) : any :=
  match v with
  | AMap m => AMap (List.map (fun '(k, v) => (k, cloneValue v)) m)
  | AList l => AList (List.map cloneValue l)
  | _ => v
  end.
Definition cloneMap (m : Meta) : Meta := List.map (fun '(k, v) => (k, cloneValue v)) m.
Definition cloneSlice (l : list any) : list any := List.map cloneValue l.

(** The value of a key of the overlay over the one that is there. *)
Fixpoint merge_value (b : option any) (v : any) {struct v} : any :=
  match v with
  | AMap o =>
      match b with
      | Some (AMap m) =>
          AMap ((fix over (o : list (string * any)) (out : Meta) : Meta :=
            match o with
            | [] => out
            | (k, x) :: o => over o (set_key k (merge_value (lookup_meta out k) x) out)
            end) o (cloneMap m))
      | _ => AMap (cloneMap o)
      end
  | AList l => AList (cloneSlice l)
  | _ => v
  end.

Fixpoint merge_over (o : list (string * any)) (out : Meta) : Meta :=
  match o with
  | [] => out
  | (k, x) :: o => merge_over o (set_key k (merge_value (lookup_meta out k) x) out)
  end.

Definition mergeMaps (base overlay : Meta) : Meta := merge_over overlay (cloneMap base).

(** ** Data *)

Record TemplateCreateInput := mkTemplateInput {
  ti_Name : string; ti_Kind : string; ti_Description : string; ti_Schema : Meta; ti_Defaults : Meta; ti_Example : Meta;
  ti_Base : Meta; ti_DeliveryTemplate : string
}.
Record TemplateSummary := mkTemplateSummary {
  ts_ID : string; ts_Name : string; ts_Kind : string; ts_Description : string; ts_CreatedAt : Z
}.
Record TemplateDetail := mkTemplateDetail {
  td_Summary : TemplateSummary; td_Schema : Meta; td_Defaults : Meta; td_Example : Meta; td_Base : Meta; td_DeliveryTemplate : string
}.
Record TemplateRenderedApp := mkRenderedApp {
  ra_Name : string; ra_Flavor : string; ra_Resources : gmap string string; ra_Replicas : option Z; ra_Env : gmap string string;
  ra_Secrets : list string; ra_Ports : list AppPort; ra_Domain : string; ra_Repo : string; ra_WebhookSecret : string;
  ra_Image : string; ra_Helm : option Meta; ra_Manifests : list string
}.
Record TemplateRenderOutput := mkRenderOutput { ro_Template : TemplateSummary; ro_Values : Meta; ro_App : TemplateRenderedApp }.

(** ** Decoding the rendered document *)

(** A pointer to a number; [null] is nil. *)
Definition opt_int_field (m : Meta) (name : string) : result string (option Z) :=
  match field m name with
  | None => Ok None
  | Some (AOther r) => if str_eqb r "null" then Ok None else z ← int_field m name; Ok (Some z)
  | _ => bad_field name
  end.

(** A map; nil when it is missing or [null]. *)
Definition opt_meta_field (m : Meta) (name : string) : result string (option Meta) :=
  match field m name with
  | None => Ok None
  | Some (AMap l) => Ok (Some l)
  | Some (AOther r) => if str_eqb r "null" then Ok None else bad_field name
  | _ => bad_field name
  end.

Definition rendered_app (m : Meta) : result string TemplateRenderedApp :=
  n ← text_field m "name"; f ← text_field m "flavor"; r ← strings_field m "resources"; c ← opt_int_field m "replicas";
  e ← strings_field m "env"; s ← list_field as_text m "secrets"; p ← list_field port_of m "ports"; d ← text_field m "domain";
  rp ← text_field m "repo"; w ← text_field m "webhookSecret"; i ← text_field m "image"; h ← opt_meta_field m "helm";
  ms ← list_field as_text m "manifests"; Ok (mkRenderedApp n f r c e s p d rp w i h ms).

Definition git_spec_of (m : Meta) : result string AppGitSpec :=
  u ← text_field m "URL"; r ← text_field m "Ref"; p ← text_field m "Path"; mo ← text_field m "Mode";
  c ← text_field m "CredentialID"; i ← bool_field m "InsecureSkipTLS"; Ok (mkGitSpec u r p mo c i).

Definition bundle_spec_of (m : Meta) : result string AppOCIBundleSpec :=
  r ← text_field m "Ref"; c ← text_field m "CredentialID"; i ← bool_field m "Insecure"; Ok (mkBundleSpec r c i).

(** [AppDeployInput] has no field names of its own for JSON. *)
Definition app_input (m : Meta) : result string AppDeployInput :=
  p ← text_field m "ProjectID"; n ← text_field m "Name"; f ← text_field m "Flavor"; r ← strings_field m "Resources";
  c ← opt_int_field m "Replicas"; e ← strings_field m "Env"; s ← list_field as_text m "Secrets"; po ← list_field port_of m "Ports";
  d ← text_field m "Domain"; rp ← text_field m "Repo"; w ← text_field m "WebhookSecret"; i ← text_field m "Image";
  h ← opt_meta_field m "Helm"; ms ← list_field as_text m "Manifests"; g ← struct_field git_spec_of m "Git";
  b ← struct_field bundle_spec_of m "OciBundle";
  Ok (mkDeployInput p n f r c (sorted_entries e) s po d rp w i h ms g b).

Definition with_project (p : string) (i : AppDeployInput) : AppDeployInput :=
  mkDeployInput p (di_Name i) (di_Flavor i) (di_Resources i) (di_Replicas i) (di_Env i) (di_Secrets i) (di_Ports i) (di_Domain i)
    (di_Repo i) (di_WebhookSecret i) (di_Image i) (di_Helm i) (di_Manifests i) (di_Git i) (di_OciBundle i).

(** ** What is outside the repository *)

Class TemplateEngine (K : Type) := {
  Schema : Type;
  compile_schema : Meta -> result string Schema;
  schema_Validate : Schema -> Meta -> result string unit;
  Tmpl : Type;
  (** [template.New("delivery").Funcs(sprig and toJSON).Parse] *)
  template_Parse : string -> result string Tmpl;
  (** what is written for the data at this draw from the random source, in this state *)
  template_Execute : Tmpl -> Meta -> nat -> K -> result string string;
  (** [yaml.YAMLToJSON], as the value of its text *)
  YAMLToJSON : string -> result string any;
}.

(** ** Rendering *)

Definition template_summary (t : Template) : TemplateSummary :=
  mkTemplateSummary (t_ID t) (t_Name t) (t_Kind t) (t_Description t) (t_CreatedAt t).
Definition template_detail (t : Template) : TemplateDetail :=
  mkTemplateDetail (template_summary t) (t_Schema t) (t_Defaults t) (t_Example t) (t_Base t) (t_DeliveryTemplate t).

Section Templates.
Context {K C R : Type} `{eng : TemplateEngine K}.
Local Abbreviation W := (World K C R).
Local Abbreviation svc := (io W svc_error).

Definition compileSchema (doc : Meta) : result string Schema := compile_schema doc.

(** [json.Unmarshal] into a map. *)
Definition as_object (v : any) : result string Meta :=
  match v with
  | AMap m => Ok m
  | AOther r => if str_eqb r "null" then Ok [] else Err "json: cannot unmarshal into map"
  | _ => Err "json: cannot unmarshal into map"
  end.

Definition template_data (t : Template) (values : Meta) : Meta :=
  [("values", AMap values); ("defaults", AMap (t_Defaults t)); ("base", AMap (t_Base t)); ("schema", AMap (t_Schema t))].

(** [tmpl.Execute] *)
Definition execute_template (tmpl : Tmpl) (data : Meta) : svc string := fun w =>
  (match template_Execute tmpl data (w_nonces w) (w_k8s w) with
   | Ok out => Ok out
   | Err e => Err (EText ("execute delivery template: " +:+ e))
   end,
   mkWorld (w_db w) (w_k8s w) (w_clients w) (w_rest w) (w_uuids w) (S (w_nonces w))).

(** Up to the execution: the values are checked and the template parsed. *)
Definition prepare_template (t : Template) (values : Meta) : result string Tmpl :=
  schema ← prefix_err "compile schema: " (compileSchema (t_Schema t));
  _ ← prefix_err "values do not satisfy schema: " (schema_Validate schema values);
  prefix_err "parse delivery template: " (template_Parse (t_DeliveryTemplate t)).

(** After it: what was written is decoded. *)
Definition decode_payload (t : Template) (values : Meta) (out : string) : result string (TemplateRenderOutput * AppDeployInput) :=
  let payload := TrimSpace out in
  if str_eqb payload "" then Err "delivery template rendered empty payload"
  else
    raw ← prefix_err "render to json: " (YAMLToJSON payload);
    spec ← prefix_err "decode rendered payload: " (as_object raw);
    let merged := mergeMaps (cloneMap (t_Base t)) spec in
    rendered ← prefix_err "decode rendered app: " (rendered_app merged);
    if blank (ra_Name rendered) then Err "rendered spec missing name"
    else if blank (ra_Image rendered) && (length (default [] (ra_Helm rendered)) =? 0)%nat && (length (ra_Manifests rendered) =? 0)%nat
    then Err "rendered spec missing delivery source (image/helm/manifests)"
    else
      input ← prefix_err "decode app input: " (app_input merged);
      Ok (mkRenderOutput (template_summary t) values rendered, input).

Definition renderTemplate (t : Template) (input : Meta) : svc (TemplateRenderOutput * AppDeployInput) :=
  let values := mergeMaps (cloneMap (t_Defaults t)) input in
  tmpl ← pure (prepare_template t values);
  out ← execute_template tmpl (template_data t values);
  pure (decode_payload t values out).

(** The checks of a request. *)
Definition template_guard (inp : TemplateCreateInput) : option string :=
  if blank (ti_Name inp) then Some "name is required"
  else if blank (ti_Kind inp) then Some "kind is required"
  else if blank (ti_Description inp) then Some "description is required"
  else if (length (ti_Schema inp) =? 0)%nat then Some "schema is required"
  else if (length (ti_Defaults inp) =? 0)%nat then Some "defaults are required"
  else if blank (ti_DeliveryTemplate inp) then Some "deliveryTemplate is required"
  else None.

Section Service.
Context {Q CS : Type} `{plat : Platform Q K C R CS} `{pg : Postgres} `{rem : Remote K} `{git : GitHost K}.
Context `{apl : AppPlatform Q K C CS}.
Context (cfg : Config) (encKey : bytes) (actor : string).

Definition CreateTemplate (inp : TemplateCreateInput) : svc TemplateDetail :=
  match template_guard inp with
  | Some text => fail (EText text)
  | None =>
      schema ← pure (prefix_err "compile schema: " (compileSchema (ti_Schema inp)));
      _ ← pure (prefix_err "defaults do not satisfy schema: " (schema_Validate schema (ti_Defaults inp)));
      _ ← pure (if (0 <? length (ti_Example inp))%nat
                then prefix_err "example does not satisfy schema: " (schema_Validate schema (ti_Example inp)) else Ok tt);
      id ← uuid_fresh;
      let t := mkTemplate id (TrimSpace (ti_Name inp)) (TrimSpace (ti_Kind inp)) (TrimSpace (ti_Description inp))
                 (cloneMap (ti_Schema inp)) (cloneMap (ti_Defaults inp)) (cloneMap (ti_Example inp)) (cloneMap (ti_Base inp))
                 (ti_DeliveryTemplate inp) 0 in
      _ ← wrap_err (EWrap "render defaults: ") (renderTemplate t []);
      _ ← db (StoreApps.CreateTemplate t);
      stored ← db (StoreApps.GetTemplate id);
      mret (template_detail stored)
  end.

Definition ListTemplates : svc (list TemplateSummary) :=
  records ← db StoreApps.ListTemplates;
  mret (template_summary <$> records).

Definition GetTemplate (id : string) : svc TemplateDetail :=
  t ← db (StoreApps.GetTemplate id);
  mret (template_detail t).

Definition RenderTemplate (id : string) (values : Meta) : svc TemplateRenderOutput :=
  t ← db (StoreApps.GetTemplate id);
  r ← renderTemplate t values;
  mret r.1.

(** The deploy function of the service is [DeployApp]. *)
Definition DeployTemplate (projectID templateID : string) (values : Meta) : svc (AppDeployOutput * option dns_job) :=
  t ← db (StoreApps.GetTemplate templateID);
  r ← renderTemplate t values;
  DeployApp cfg encKey actor (with_project projectID r.2).
End Service.
End Templates.
