(* ===== verification/TemplateProofs.v ===== *)
(** Templates: how values are merged, and that a template deploys what its own rendering shows. *)

From Stdlib Require Import Ascii ZArith Lia.
From stdpp Require Import base gmap strings list sorting.
From S2P Require Import Prelude Utf8 GoStrings Hash GoTime NetURL NetIP Security Names Kube Crypto Json Config Quota Events Maintenance.
From S2P Require Import Workload Store StoreApps StoreProofs Tenancy TenancyProofs ProjectProofs Credentials Sources GitFiles.
From S2P Require Import Plan PlanProofs Releases Deploy DeployProofs Templates.

(** ** Copies *)

(** Induction on a value, into maps and lists. *)
Section Values.
Context (P : any -> Prop) (Hs : forall s, P (AString s)) (Ho : forall r, P (AOther r)).
Context (Hm : forall m, Forall (fun e => P e.2) m -> P (AMap m)) (Hl : forall l, Forall P l -> P (AList l)).

Fixpoint any_nested (v : any) : P v :=
  match v with
  | AString s => Hs s
  | AOther r => Ho r
  | AMap m => Hm m ((fix go (m : list (string * any)) : Forall (fun e => P e.2) m :=
      match m with
      | [] => List.Forall_nil _
      | (k, x) :: m => List.Forall_cons (fun e => P e.2) (k, x) m (any_nested x) (go m)
      end) m)
  | AList l => Hl l ((fix go (l : list any) : Forall P l :=
      match l with
      | [] => List.Forall_nil _
      | x :: l => List.Forall_cons P x l (any_nested x) (go l)
      end) l)
  end.
End Values.

Lemma cloneValue_id v : cloneValue v = v.
Proof.
  induction v as [s|r|m IH|l IH] using any_nested; [done|done| |]; cbn; f_equal.
  - induction IH as [|[k x] m Hx _ IHm]; [done|]. cbn in *. by rewrite Hx, IHm.
  - induction IH as [|x l Hx _ IHl]; [done|]. cbn. by rewrite Hx, IHl.
Qed.

Lemma cloneMap_id m : cloneMap m = m.
Proof. pose proof (cloneValue_id (AMap m)) as H. by injection H. Qed.

(** ** Merging *)

Lemma lookup_cons k0 v0 (m : Meta) k : lookup_meta ((k0, v0) :: m) k = if str_eqb k0 k then Some v0 else lookup_meta m k.
Proof. unfold lookup_meta. cbn. by destruct (str_eqb k0 k). Qed.

Lemma lookup_set_key k v m k' : lookup_meta (set_key k v m) k' = if str_eqb k k' then Some v else lookup_meta m k'.
Proof.
  induction m as [|[k0 v0] m IH]; cbn [set_key]; [by rewrite lookup_cons|].
  destruct (str_eqb k0 k) eqn:E; rewrite !lookup_cons.
  - apply str_eqb_eq in E as ->. by destruct (str_eqb k k').
  - rewrite IH. destruct (str_eqb k0 k') eqn:E'; [|done]. apply str_eqb_eq in E' as <-.
    destruct (str_eqb k k0) eqn:E2; [apply str_eqb_eq in E2 as ->; by rewrite str_eqb_refl in E|done].
Qed.

Lemma merge_value_maps m o : merge_value (Some (AMap m)) (AMap o) = AMap (mergeMaps m o).
Proof. reflexivity. Qed.

Lemma lookup_merge_over o out k : NoDup o.*1 ->
  lookup_meta (merge_over o out) k =
  match lookup_meta o k with Some v => Some (merge_value (lookup_meta out k) v) | None => lookup_meta out k end.
Proof.
  revert out. induction o as [|[k0 x] o IH]; intros out; [done|]. rewrite fmap_cons, NoDup_cons. cbn [fst]. intros [Hk Hn].
  cbn [merge_over]. rewrite IH by done. rewrite lookup_set_key, lookup_cons.
  destruct (str_eqb k0 k) eqn:E; [|done]. apply str_eqb_eq in E as ->.
  destruct (lookup_meta o k) as [y|] eqn:El; [|done]. exfalso. apply Hk. unfold lookup_meta in El.
  apply fmap_Some in El as ([k1 y1] & Hf & _). apply find_some in Hf as [Hin Hk1%str_eqb_eq]. cbn in Hk1. subst k1.
  apply list_elem_of_fmap. exists (k, y1). split; [done|]. by apply list_elem_of_In.
Qed.

(** A Go map at every level. *)
Fixpoint distinct_keys (v : any) : Prop :=
  match v with
  | AMap m => NoDup m.*1 /\ (fix all (m : list (string * any)) : Prop :=
      match m with [] => True | (_, x) :: m => distinct_keys x /\ all m end) m
  | _ => True
  end.

Lemma distinct_member m k x : distinct_keys (AMap m) -> lookup_meta m k = Some x -> distinct_keys x.
Proof.
  intros [_ H]. induction m as [|[k0 x0] m IH]; [done|]. destruct H as [H0 H]. rewrite lookup_cons.
  destruct (str_eqb k0 k); [by intros [= <-]|by apply IH].
Qed.

(** The overlay leaves the place alone: above it are maps, and it is not set. *)
Fixpoint untouched (o : Meta) (path : list string) : Prop :=
  match path with
  | [] => False
  | k :: path => match lookup_meta o k with
                 | None => True
                 | Some (AMap o') => untouched o' path
                 | Some _ => False
                 end
  end.

Definition is_map (v : any) : bool := match v with AMap _ => true | _ => false end.

Lemma path_get_map k path m : path_get (k :: path) (AMap m) = lookup_meta m k ≫= path_get path.
Proof. unfold lookup_meta. cbn. by destruct (List.find _ m) as [[k' v]|]. Qed.

Lemma untouched_none o path : untouched o path -> path_get path (AMap o) = None.
Proof.
  revert o. induction path as [|k path IH]; [done|]. intros o H. rewrite path_get_map. cbn [untouched] in H.
  destruct (lookup_meta o k) as [[s|o'|l|r]|]; try done. by apply IH.
Qed.

Lemma untouched_cons o path : untouched o path -> exists k rest, path = k :: rest.
Proof. destruct path; [done|eauto]. Qed.

(** A value that the overlay sets, at any depth, is the value of the merged document, and at a place
    the overlay leaves alone the merged document has what the base has. *)
Theorem merge_paths (base overlay : Meta) (path : list string) : distinct_keys (AMap overlay) ->
  (forall v, path_get path (AMap overlay) = Some v -> is_map v = false -> path_get path (AMap (mergeMaps base overlay)) = Some v) /\
  (untouched overlay path -> path_get path (AMap (mergeMaps base overlay)) = path_get path (AMap base)).
Proof.
  revert base overlay. induction path as [|k path IH]; intros base overlay Hd.
  { split; [by intros v [= <-]|done]. }
  rewrite !path_get_map. unfold mergeMaps. rewrite lookup_merge_over by apply Hd. rewrite cloneMap_id. cbn [untouched].
  destruct (lookup_meta overlay k) as [x|] eqn:Ek; [|done]. cbn [mbind option_bind].
  apply (distinct_member _ _ _ Hd) in Ek. destruct x as [s|o|l|r].
  1, 3, 4: destruct (lookup_meta base k); split; try done; destruct path as [|k' path]; try done;
    cbn; unfold cloneSlice; intros v [= <-] _; try done; f_equal; apply (cloneValue_id (AList l)).
  destruct (lookup_meta base k) as [[s|b|l|r]|]; cbn [mbind option_bind].
  2: rewrite merge_value_maps; by apply IH.
  all: cbn [merge_value]; rewrite cloneMap_id; split; [done|]; intros Hu; rewrite (untouched_none _ _ Hu);
    apply untouched_cons in Hu as (k' & rest & ->); done.
Qed.

(** ** The preview and the deployment *)

(** Fields of two structs whose names fold to the same text read the same member. *)
Section Fold.
Context (m : Meta) (a b : string).
Context (Hab : (fold_rune <$> decode_runes (chars a)) = (fold_rune <$> decode_runes (chars b))).

Lemma field_fold : field m a = field m b.
Proof.
  unfold field. f_equal. generalize (reverse (merge_sort member_le m)). intros l. induction l as [|e l IH]; [done|].
  cbn. unfold EqualFold at 1 3. by rewrite Hab, IH.
Qed.

Lemma text_fold x y : text_field m a = Ok x -> text_field m b = Ok y -> x = y.
Proof. unfold text_field, bad_field. rewrite field_fold. repeat case_match; congruence. Qed.
Lemma strings_fold x y : strings_field m a = Ok x -> strings_field m b = Ok y -> x = y.
Proof. unfold strings_field, bad_field. rewrite field_fold. repeat case_match; congruence. Qed.
Lemma list_fold {A} (f : any -> result string A) x y : list_field f m a = Ok x -> list_field f m b = Ok y -> x = y.
Proof. unfold list_field, bad_field. rewrite field_fold. repeat case_match; congruence. Qed.
Lemma opt_meta_fold x y : opt_meta_field m a = Ok x -> opt_meta_field m b = Ok y -> x = y.
Proof. unfold opt_meta_field, bad_field. rewrite field_fold. repeat case_match; congruence. Qed.
Lemma opt_int_fold x y : opt_int_field m a = Ok x -> opt_int_field m b = Ok y -> x = y.
Proof.
  unfold opt_int_field, int_field, bad_field. rewrite field_fold. repeat case_match; try congruence; cbn; congruence.
Qed.
End Fold.

(** What the preview shows is what is deployed; the environment in some order. *)
Definition shows (r : TemplateRenderedApp) (i : AppDeployInput) : Prop :=
  ra_Name r = di_Name i /\ ra_Flavor r = di_Flavor i /\ ra_Resources r = di_Resources i /\ ra_Replicas r = di_Replicas i /\
  di_Env i ≡ₚ map_to_list (ra_Env r) /\ ra_Secrets r = di_Secrets i /\ ra_Ports r = di_Ports i /\ ra_Domain r = di_Domain i /\
  ra_Repo r = di_Repo i /\ ra_WebhookSecret r = di_WebhookSecret i /\ ra_Image r = di_Image i /\ ra_Helm r = di_Helm i /\
  ra_Manifests r = di_Manifests i.

Lemma decoded_alike m r i : rendered_app m = Ok r -> app_input m = Ok i -> shows r i.
Proof.
  unfold rendered_app, app_input. intros Hr Hi.
  repeat match type of Hr with mbind _ _ = _ => let x := fresh "x" in let Hx := fresh "Hx" in apply bind_ok in Hr as (x & Hx & Hr) end.
  injection Hr as <-.
  repeat match type of Hi with mbind _ _ = _ => let y := fresh "y" in let Hy := fresh "Hy" in apply bind_ok in Hi as (y & Hy & Hi) end.
  injection Hi as <-. unfold shows. cbn.
  assert (Henv : x3 = y4) by (by eapply strings_fold; [|exact Hx3|exact Hy4]).
  split_and!; first [by eapply text_fold; [|eassumption..]|by eapply strings_fold; [|eassumption..]|by eapply list_fold; [|eassumption..]
    |by eapply opt_int_fold; [|eassumption..]|by eapply opt_meta_fold; [|eassumption..]|idtac].
  rewrite Henv. unfold sorted_entries. apply merge_sort_Permutation.
Qed.

Section Templates.
Context {Q K C R CS : Type} `{laws : PlatformLaws Q K C R CS} `{rem : Remote K} `{git : GitHost K}.
Context `{apl : AppPlatform Q K C CS} `{eng : TemplateEngine K}.
Context (cfg : Config) (encKey : bytes) (actor : string).
Local Abbreviation W := (World K C R).
Local Abbreviation svc := (io W svc_error).

Lemma prefix_ok {A} p (r : result string A) a : prefix_err p r = Ok a -> r = Ok a.
Proof. destruct r; cbn; congruence. Qed.

Lemma execute_inv tmpl data (w : W) r w' : execute_template tmpl data w = (r, w') -> quiet w w' /\
  forall out, r = Ok out -> template_Execute tmpl data (w_nonces w) (w_k8s w) = Ok out.
Proof. unfold execute_template. intros [= <- <-]. split; [done|]. intros out.
  destruct (template_Execute _ _ _ _); [by intros [= ->]|done].
Qed.

Lemma quiet_render t values : keeps quiet (renderTemplate (C := C) (R := R) t values).
Proof.
  unfold renderTemplate. keep. intros w r w' H. by apply execute_inv in H as [H _].
Qed.

(** A rendering fails with a text of its own. *)
Lemma render_err t values (w : W) e w' : renderTemplate t values w = (Err e, w') -> exists text, e = EText text.
Proof.
  assert (Hp : forall A (x : result string A) (w : W) e w', pure x w = (Err e, w') -> exists text, e = EText text).
  { intros A x w0 e0 w1. unfold pure, or_fail. destruct x; [done|]. intros [= <- _]. eauto. }
  unfold renderTemplate. intros [(e' & H%Hp & [= ->])|(tmpl & w1 & _ & H)]%io_bind_case; [done|].
  apply io_bind_case in H as [(e' & H & [= ->])|(o & w2 & _ & H%Hp)]; [|done].
  unfold execute_template in H. destruct (template_Execute _ _ _ _); [done|]. injection H as <- _. eauto.
Qed.

(** Rendering looks at the documents of a template and at nothing else. *)
Lemma render_same t t' v (w : W) : t_Schema t' = t_Schema t -> t_Defaults t' = t_Defaults t -> t_Base t' = t_Base t ->
  t_DeliveryTemplate t' = t_DeliveryTemplate t -> is_ok (renderTemplate t' v w).1 = is_ok (renderTemplate t v w).1.
Proof.
  intros H1 H2 H3 H4. unfold renderTemplate, prepare_template, template_data. rewrite H1, H2, H3, H4.
  unfold mbind, io_bind. fold (@mbind (result string) _). destruct (pure _ w) as [[tmpl|e] w1]; [|done]. destruct (execute_template _ _ w1) as [[o|e] w2]; [|done].
  unfold pure, or_fail, decode_payload. rewrite H3. unfold mbind, result_bind.
  repeat match goal with
    | |- context [prefix_err ?p ?r] => destruct (prefix_err p r) as [?|?]; [cbv zeta|done]
    | |- context [if ?b then Err _ else _] => destruct b; [done|]
    end.
  done.
Qed.

(** What is known of a template that renders. *)
Lemma renderTemplate_ok t input (w : W) out inp w' : renderTemplate t input w = (Ok (out, inp), w') ->
  shows (ro_App out) inp /\ ro_Template out = template_summary t /\ ro_Values out = mergeMaps (t_Defaults t) input /\
  (exists schema, compileSchema (t_Schema t) = Ok schema /\ schema_Validate schema (ro_Values out) = Ok tt) /\
  blank (di_Name inp) = false /\
  (blank (di_Image inp) = false \/ default [] (di_Helm inp) <> [] \/ di_Manifests inp <> []).
Proof.
  unfold renderTemplate, prepare_template. rewrite cloneMap_id. set (values := mergeMaps _ _).
  intros (tmpl & w1 & [Hp _]%pure_ok & H)%io_bind_ok. apply io_bind_ok in H as (text & w2 & _ & [H _]%pure_ok).
  apply bind_ok in Hp as (schema & Hs%prefix_ok & Hp). apply bind_ok in Hp as ([] & Hv%prefix_ok & _).
  unfold decode_payload in H. cbv zeta in H. destruct (str_eqb _ ""); [done|].
  apply bind_ok in H as (raw & _ & H). apply bind_ok in H as (spec & _ & H). apply bind_ok in H as (r & Hr%prefix_ok & H).
  destruct (blank (ra_Name r)) eqn:En; [done|]. destruct (_ && _ && _) eqn:Es; [done|].
  apply bind_ok in H as (i & Hi%prefix_ok & [= <- <-]). cbn [ro_App ro_Template ro_Values].
  pose proof (decoded_alike _ _ _ Hr Hi) as Hsh. split; [done|]. split; [done|]. split; [done|]. split; [eauto|].
  destruct Hsh as (H1 & _ & _ & _ & _ & _ & _ & _ & _ & _ & H2 & H3 & H4). rewrite <- H1, <- H2, <- H3, <- H4. split; [done|].
  apply andb_false_iff in Es as [[Es|Es]%andb_false_iff|Es].
  - by left.
  - right. left. intros E. by rewrite E in Es.
  - right. right. intros E. by rewrite E in Es.
Qed.

(** What the template writes for the values does not depend on a draw or on the state outside. *)
Definition deterministic (t : Template) (input : Meta) : Prop :=
  let values := mergeMaps (t_Defaults t) input in
  forall tmpl, template_Parse (t_DeliveryTemplate t) = Ok tmpl -> forall n k n' k',
    template_Execute tmpl (template_data t values) n k = template_Execute tmpl (template_data t values) n' k'.

Lemma deterministic_render t input (w1 w2 : W) x y w1' w2' : deterministic t input ->
  renderTemplate t input w1 = (Ok x, w1') -> renderTemplate t input w2 = (Ok y, w2') -> x = y.
Proof.
  unfold renderTemplate, deterministic. rewrite cloneMap_id. intros Hd H1 H2.
  apply io_bind_ok in H1 as (tmpl & w3 & [Hp ->]%pure_ok & H1), H2 as (tmpl' & w4 & [Hp' ->]%pure_ok & H2).
  rewrite Hp in Hp'. injection Hp' as <-.
  apply io_bind_ok in H1 as (o1 & w5 & [_ E1]%execute_inv & [H1 _]%pure_ok), H2 as (o2 & w6 & [_ E2]%execute_inv & [H2 _]%pure_ok).
  apply bind_ok in Hp as (schema & _ & Hp). apply bind_ok in Hp as ([] & _ & Hp%prefix_ok).
  specialize (E1 _ eq_refl). specialize (E2 _ eq_refl). rewrite (Hd _ Hp _ _ (w_nonces w2) (w_k8s w2)) in E1. congruence.
Qed.

Lemma deployed_one_source inp (w : W) out w' : DeployApp cfg encKey actor inp w = (Ok out, w') -> srcCount inp = 1.
Proof.
  unfold DeployApp. intros ([] & w1 & _ & H)%io_bind_ok. destruct (blank _ || _); [done|].
  apply io_bind_ok in H as (id & w2 & _ & H). apply io_bind_ok in H as (plan & w3 & H & _). unfold planAppDeployment in H.
  destruct (blank _ || _); [done|]. destruct (negb (srcCount inp =? 1)%nat) eqn:E; [done|].
  by apply negb_false_iff, Nat.eqb_eq in E.
Qed.

(** C33: a template that is deployed is rendered once, and puts into the requested project exactly the
    application this rendering shows, under the given values over the defaults, which satisfy
    the schema; it never deploys a Git repository or a bundle.  Rendering in the world the
    deployment starts in shows this application.  Functions of a template may draw random
    values or read the clock or the environment, and rendering at another time may then show
    another application; for a template that writes the same whatever they return, every
    rendering for these values, while the templates stay as they are, shows what is deployed. *)
Theorem template_deploys_preview projectID templateID values (w : W) out w' :
  DeployTemplate cfg encKey actor projectID templateID values w = (Ok out, w') ->
  exists t preview inp w1, t ∈ d_templates (w_db w) /\ uuid_in templateID = Some (t_ID t) /\
    RenderTemplate templateID values w = (Ok preview, w1) /\ shows (ro_App preview) inp /\
    ro_Values preview = mergeMaps (t_Defaults t) values /\
    (exists schema, compileSchema (t_Schema t) = Ok schema /\ schema_Validate schema (ro_Values preview) = Ok tt) /\
    di_ProjectID inp = projectID /\ di_Git inp = None /\ di_OciBundle inp = None /\
    DeployApp cfg encKey actor inp w1 = (Ok out, w') /\
    (deterministic t values -> forall (w0 : W) p w2, d_templates (w_db w0) = d_templates (w_db w) ->
       RenderTemplate templateID values w0 = (Ok p, w2) -> p = preview).
Proof.
  unfold DeployTemplate, RenderTemplate. intros (t & w1 & Ht & H)%io_bind_ok.
  apply io_bind_ok in H as ([preview inp] & w2 & Hr & H). cbn [snd] in H.
  pose proof (renderTemplate_ok _ _ _ _ _ _ Hr) as (Hsh & _ & Hv & Hs & Hn & Hsrc).
  pose proof (deployed_one_source _ _ _ _ H) as Hc.
  exists t, preview, (with_project projectID inp), w2. pose proof Ht as (d & Hm & ->)%db_ok.
  pose proof Hm as (now & d0 & Hm0 & _)%stmt_ok. apply bind_ok in Hm0 as (c & Hc'%uuid_ok & Hm0).
  apply bind_ok in Hm0 as (row & Hsel & [= <- _]). pose proof Hsel as [Hin Hid%str_eqb_eq]%select_ok.
  split; [done|]. split; [by rewrite Hid|]. split; [unfold mbind, io_bind; rewrite Ht, Hr; done|].
  split; [done|]. split; [done|]. split; [done|]. split; [done|].
  enough (di_Git inp = None /\ di_OciBundle inp = None) as [Hg Hb].
  { split; [exact Hg|]. split; [exact Hb|]. split; [exact H|]. intros Hdet w0 p w3 Htab Hp.
    apply io_bind_ok in Hp as (t0 & w4 & (d4 & Hg4 & ->)%db_ok & Hp). apply stmt_ok in Hg4 as (now4 & d5 & Hg4 & _).
    apply bind_ok in Hg4 as (c4 & Hc4%uuid_ok & Hg4). rewrite Hc' in Hc4. injection Hc4 as <-.
    rewrite Htab in Hg4. apply bind_ok in Hg4 as (row4 & Hsel4 & [= <- _]).
    assert (row4 = row) as -> by congruence.
    apply io_bind_ok in Hp as ([p' i'] & w5 & Hr5 & [= <- _]). cbn [fst].
    by injection (deterministic_render _ _ _ _ _ _ _ _ Hdet Hr5 Hr). }
  unfold srcCount in Hc. cbn [with_project di_Image di_Manifests di_Helm di_Git di_OciBundle] in Hc. unfold blank in Hsrc.
  destruct (di_Git inp), (di_OciBundle inp), (di_Helm inp), (di_Manifests inp), (str_eqb (TrimSpace (di_Image inp)) "");
    cbn in Hc, Hsrc |- *; try done; destruct Hsrc as [?|[?|?]]; done.
Qed.

(** A template that was created is stored under the identifier that is returned, its defaults
    satisfy its schema, and it rendered with its defaults alone before it was stored. *)
Theorem created_template_renders inp (w : W) out w' : CreateTemplate inp w = (Ok out, w') ->
  exists t rest, d_templates (w_db w') = t :: rest /\ rest = d_templates (w_db w) /\ out = template_detail t /\
    (exists schema, compileSchema (t_Schema t) = Ok schema /\ schema_Validate schema (t_Defaults t) = Ok tt) /\
    exists w1 : W, w_k8s w1 = w_k8s w /\ is_ok (renderTemplate t [] w1).1 = true.
Proof.
  unfold CreateTemplate. destruct (template_guard inp); [done|].
  intros (schema & w1 & [Hs%prefix_ok ->]%pure_ok & H)%io_bind_ok. apply io_bind_ok in H as ([] & w2 & [Hd%prefix_ok ->]%pure_ok & H).
  apply io_bind_ok in H as ([] & w3 & [_ ->]%pure_ok & H). apply io_bind_ok in H as (id & w4 & [= <- <-] & H). cbv zeta in H.
  apply io_bind_ok in H as ([ro ai] & w5 & Hr%wrap_err_ok & H). pose proof (quiet_render _ _ _ _ _ Hr) as [Hq _].
  apply io_bind_ok in H as (u & w6 & (d1 & Hc & ->)%db_ok & H). apply io_bind_ok in H as (t & w7 & (d2 & Hg & ->)%db_ok & [= <- <-]).
  apply stmt_ok in Hc as (now & d0 & Hc & ->). apply bind_ok in Hc as (c & Hid%uuid_ok & Hc).
  destruct (existsb _ _); [done|]. injection Hc as _ <-.
  apply stmt_ok in Hg as (now' & d3 & Hg & ->). apply bind_ok in Hg as (c' & Hid'%uuid_ok & Hg).
  cbn [t_ID] in Hid. rewrite Hid in Hid'. injection Hid' as <-.
  apply bind_ok in Hg as (row & Hsel & [= <- <-]). unfold select in Hsel. cbn in Hsel. rewrite str_eqb_refl in Hsel. injection Hsel as <-.
  eexists _, _. split; [done|]. split; [by destruct Hq as (_ & _ & _ & _ & _ & _ & _ & _ & _ & _ & _ & _ & _ & E & _)|].
  split; [done|]. rewrite !cloneMap_id in *. split; [eauto|]. eexists. split; [|erewrite <- render_same; [by rewrite Hr|done..]]. done.
Qed.
End Templates.
