(* ===== verification/EventPages.v ===== *)
(** Listing project events: [ListProjectEvents], [encodeEventCursor] and [decodeEventCursor] of
    [internal/store/events.go], [ListProjectEvents] of [internal/service/events.go], and what
    they use of Go's [time].

    Instants are microseconds since 1970, as the database keeps them; years 0 to 9999.  [LOWER]
    and [LIKE] are those of the database. *)

From Stdlib Require Import Ascii ZArith Lia.
From stdpp Require Import base gmap strings list sorting.
From S2P Require Import CursorOrder Prelude Utf8 GoStrings Hash GoTime NetURL Events Store StoreApps Config Tenancy.

(** ** time.RFC3339Nano *)

(** The digits of a fraction without the zeros at its end. *)
Definition fraction (us : Z) : list ascii :=
  if (us =? 0)%Z then []
  else
    let digits := dig (us / 100000) :: dig (us / 10000) :: four us in
    "."%char :: reverse (drop_while (Ascii.eqb "0") (reverse digits)).

Definition FormatRFC3339Nano (t : Z) : string :=
  let s := (t / 1000000)%Z in
  of_chars (format_date s ++ ["T"%char] ++ two (Hour s) ++ [":"%char] ++ two (s mod 3600 / 60) ++ [":"%char] ++ two (s mod 60)
    ++ fraction (t mod 1000000) ++ ["Z"%char]).

(** The days of a date since 1970. *)
Definition days_of (y m d : Z) : Z :=
  let y := if (m <=? 2)%Z then (y - 1)%Z else y in
  let era := (y / 400)%Z in
  let yoe := (y mod 400)%Z in
  let doy := ((153 * (if (2 <? m) then m - 3 else m + 9) + 2) / 5 + d - 1)%Z in
  (era * 146097 + (yoe * 365 + yoe / 4 - yoe / 100 + doy) - 719468)%Z.

Definition leap (y : Z) : bool := (y mod 4 =? 0)%Z && (negb (y mod 100 =? 0)%Z || (y mod 400 =? 0)%Z).
Definition days_in (m y : Z) : Z :=
  if (m =? 2)%Z then (if leap y then 29 else 28)%Z
  else if existsb (Z.eqb m) [4; 6; 9; 11]%Z then 30%Z else 31%Z.

Definition digit_of (c : ascii) : option Z := if is_digit c then Some (bz c - 48)%Z else None.

(** [n] digits. *)
Fixpoint take_digits (n : nat) (acc : Z) (l : list ascii) : option (Z * list ascii) :=
  match n with
  | O => Some (acc, l)
  | S n => match l with c :: l => d ← digit_of c; take_digits n (10 * acc + d)%Z l | [] => None end
  end.

(** One digit or two, as for the hour. *)
Definition one_or_two (l : list ascii) : option (Z * list ascii) :=
  match take_digits 2 0 l with Some r => Some r | None => take_digits 1 0 l end.

Definition eat (c : ascii) (l : list ascii) : option (list ascii) :=
  match l with x :: l => if Ascii.eqb x c then Some l else None | [] => None end.

Fixpoint span_digits (l : list ascii) : list ascii * list ascii :=
  match l with
  | c :: l' => if is_digit c then let '(a, b) := span_digits l' in (c :: a, b) else ([], l)
  | [] => ([], [])
  end.

(** The optional fraction, in microseconds; digits after the sixth do not count. *)
Definition take_fraction (l : list ascii) : Z * list ascii :=
  match l with
  | p :: (c :: _) as l' =>
      if (Ascii.eqb p "." || Ascii.eqb p ",") && is_digit c
      then let '(ds, rest) := span_digits (tail l) in
           (digits_val (take 6 (ds ++ replicate 6 "0"%char)), rest)
      else (0%Z, l)
  | _ => (0%Z, l)
  end.

(** [Z] or an offset, in seconds. *)
Definition take_zone (l : list ascii) : option (Z * list ascii) :=
  match l with
  | c :: l =>
      if Ascii.eqb c "Z" then Some (0%Z, l)
      else if Ascii.eqb c "+" || Ascii.eqb c "-" then
        '(h, l) ← take_digits 2 0 l; l ← eat ":" l; '(m, l) ← take_digits 2 0 l;
        if (h <=? 24)%Z && (m <=? 60)%Z
        then let off := (3600 * h + 60 * m)%Z in Some ((if Ascii.eqb c "+" then off else - off)%Z, l)
        else None
      else None
  | [] => None
  end.

(** [time.Parse(time.RFC3339Nano, s)], which accepts what [time.RFC3339] does. *)
Definition time_Parse (s : string) : option Z :=
  '(y, l) ← take_digits 4 0 (chars s); l ← eat "-" l;
  '(mo, l) ← take_digits 2 0 l; l ← eat "-" l;
  '(d, l) ← take_digits 2 0 l; l ← eat "T" l;
  '(h, l) ← one_or_two l; l ← eat ":" l;
  '(mi, l) ← take_digits 2 0 l; l ← eat ":" l;
  '(sec, l) ← take_digits 2 0 l;
  let '(us, l) := take_fraction l in
  '(off, l) ← take_zone l;
  if bool_decide (l = []) && (1 <=? mo)%Z && (mo <=? 12)%Z && (1 <=? d)%Z && (d <=? days_in mo y)%Z
       && (h <? 24)%Z && (mi <? 60)%Z && (sec <? 60)%Z
  then Some (1000000 * (86400 * days_of y mo d + 3600 * h + 60 * mi + sec - off) + us)%Z
  else None.

Example time_format_ex : FormatRFC3339Nano 1709210096012300 = "2024-02-29T12:34:56.0123Z".
Proof. vm_compute. reflexivity. Qed.
Example time_parse_ex :
  time_Parse "2024-02-29T12:34:56.0123Z" = Some 1709210096012300%Z /\
  time_Parse "2024-02-29T14:34:56.0123+02:00" = Some 1709210096012300%Z /\ time_Parse "2023-02-29T12:34:56Z" = None.
Proof. vm_compute. done. Qed.

(** ** Cursors *)

Definition encodeEventCursor (at_ : Z) (id : string) : string :=
  if str_eqb id "" then "" else FormatRFC3339Nano at_ +:+ "|" +:+ id.

Definition decodeEventCursor (raw : string) : option (Z * string) :=
  match Split raw "|"%char with
  | [t; id] =>
      at_ ← time_Parse t;
      let id := TrimSpace id in
      if str_eqb id "" then None else Some (at_, id)
  | _ => None
  end.

(** ** store.ListProjectEvents *)

Record ProjectEventFilter := mkEventFilter {
  ef_Kinds : list string; ef_Severities : list string; ef_ActorUserID : string;
  (** [None] for the zero time *)
  ef_Since : option Z;
  ef_Limit : Z; ef_Cursor : string; ef_Search : string
}.
Record ProjectEventPage := mkEventPage { ep_Events : list ProjectEvent; ep_NextCursor : string }.

(** [ORDER BY at DESC, id DESC] *)
Abbreviation event_order := (first_by e_At e_ID).

Definition event_limit (limit : Z) : Z :=
  let limit := if (limit <=? 0)%Z then 50%Z else limit in
  if (500 <? limit)%Z then 500%Z else limit.

(** [column IN (...)] of the names that are not blank; no condition without them. *)
Definition in_list (names : list string) (v : string) : bool :=
  match List.filter (fun n => negb (blank n)) names with [] => true | l => existsb (str_eqb v) l end.

Definition before_event (cursor : option (Z * string)) (e : ProjectEvent) : bool :=
  match cursor with
  | None => true
  | Some (at_, id) => (e_At e <? at_)%Z || ((e_At e =? at_)%Z && String.ltb (e_ID e) id)
  end.

Section Pages.
Context `{pg : Postgres} (sql_lower : string -> string) (sql_like : string -> string -> bool).

(** What the filter asks for, but for the cursor. *)
Definition event_matches (f : ProjectEventFilter) (e : ProjectEvent) : bool :=
  in_list (ef_Kinds f) (e_Kind e) && in_list (ef_Severities f) (e_Severity e) &&
  (blank (ef_ActorUserID f) || str_eqb (e_ActorUserID e) (ef_ActorUserID f)) &&
  match ef_Since f with Some t => (t <=? e_At e)%Z | None => true end &&
  (blank (ef_Search f) ||
   let term := "%" +:+ ToLower (TrimSpace (ef_Search f)) +:+ "%" in
   sql_like (sql_lower (e_Message e)) term || sql_like (sql_lower (e_Kind e)) term).

Definition cursor_param (f : ProjectEventFilter) : result db_error (option (Z * string)) :=
  if blank (ef_Cursor f) then Ok None
  else match decodeEventCursor (ef_Cursor f) with
  | Some (at_, id) => id ← uuid id; Ok (Some (at_, id))
  | None => Ok None
  end.

(** The page of the rows a query returned, one more than fits. *)
Definition page_of (limit : nat) (rows : list ProjectEvent) : ProjectEventPage :=
  match rows !! limit with
  | Some last => mkEventPage (take limit rows) (encodeEventCursor (e_At last) (e_ID last))
  | None => mkEventPage rows ""
  end.

Definition store_ListProjectEvents (projectID : string) (f : ProjectEventFilter) : io DB db_error ProjectEventPage :=
  if blank projectID then fail (DbError "project id required")
  else stmt (fun _ d =>
    project ← uuid projectID;
    cursor ← cursor_param f;
    let limit := Z.to_nat (event_limit (ef_Limit f)) in
    let rows := merge_sort event_order
      (List.filter (fun e => str_eqb (e_ProjectID e) project && event_matches f e && before_event cursor e) (d_events d)) in
    Ok (page_of limit (take (S limit) rows), d)).

(** ** service.ListProjectEvents *)

Definition ListProjectEvents {K C R} (cfg : Config) (projectID : string) (f : ProjectEventFilter)
    : io (World K C R) svc_error ProjectEventPage :=
  if negb (cfg_EventsDBEnabled cfg) then fail (EText "events db disabled")
  else
    page ← db (store_ListProjectEvents projectID f);
    mret (mkEventPage (presentEvents (ep_Events page)) (ep_NextCursor page)).
End Pages.
