(* ===== verification/LogFiles.v ===== *)
(** The log files of projects and applications: [internal/logging/files.go].

    The disk is the interface [Disk]; the tables of [unicode] above ASCII are an argument.  A
    logger is the file it writes to and the fields of its lines.  [Sync] and the mutex, which
    every access to the handles takes, are left out, and so are values quoted in error texts. *)

From Stdlib Require Import Ascii ZArith Lia.
From stdpp Require Import base gmap strings list.
From S2P Require Import Prelude Utf8 GoStrings NetURL NetIP Security Kube.

Class Disk (D : Type) := {
  (** [os.Getwd] *)
  Getwd : D -> result string string;
  (** [os.MkdirAll(path, 0o755)] *)
  MkdirAll : string -> io D string unit;
  (** [os.OpenFile] with [O_CREATE|O_APPEND|O_WRONLY], and [Close] of the result *)
  open_append : string -> io D string unit;
  close_opened : string -> io D string unit;
  (** [lumberjack.Logger.Close] of the logger of a file *)
  close_writer : string -> io D string unit;
}.

Record rotationConfig := mkRotation { MaxSizeMB : Z; MaxBackups : Z; MaxAgeDays : Z; Compress : bool }.
Record Metadata := mkMetadata { md_Version : string; md_Commit : string; md_ClusterID : string }.
Record Logger := mkLogger { lg_File : string; lg_Rotation : rotationConfig; lg_Fields : list (string * string) }.
Record FileManager := mkFileManager {
  fm_root : string; fm_meta : Metadata; fm_rot : rotationConfig; fm_handles : gmap string Logger
}.

Definition globalFields (meta : Metadata) : list (string * string) :=
  [("service", "kubeop"); ("version", md_Version meta); ("commit", md_Commit meta)] ++
  (if str_eqb (md_ClusterID meta) "" then [] else [("cluster_id", md_ClusterID meta)]).

(** [filepath.Join] of elements none of which is empty. *)
Definition Join_path (l : list string) : string := path_Clean (Join l "/").

(** [filepath.Dir] *)
Definition filepath_Dir (p : string) : string :=
  match cut_list "/"%char (reverse (chars p)) with
  | Some (_, before) => path_Clean (of_chars (reverse before) +:+ "/")
  | None => "."
  end.

Definition prefixed {A} (p : string) (r : result string A) : result string A :=
  match r with Ok a => Ok a | Err e => Err (p +:+ e) end.

Section Names.
Context (unicode_letter_or_digit : rune -> bool).

Definition letter_or_digit (r : rune) : bool :=
  if (r <? 128)%Z then is_letter (byte_of_Z r) || is_digit (byte_of_Z r) else unicode_letter_or_digit r.

Definition segment_rune (r : rune) : bool :=
  letter_or_digit r || existsb (Z.eqb r) (bz <$> ["-"%char; "_"%char; "."%char]).

Definition sanitizeSegment (id : string) : result string string :=
  let trimmed := TrimSpace id in
  if str_eqb trimmed "" then Err "empty path segment"
  else if existsb (fun c => Ascii.eqb c "/" || Ascii.eqb c (ascii_of_nat 92)) (chars trimmed)
  then Err "path separator not allowed"
  else
    let cleaned := path_Clean trimmed in
    if str_eqb cleaned "." || str_eqb cleaned ".." then Err ("path segment cannot be " +:+ cleaned)
    else if negb (str_eqb cleaned trimmed) then Err ("path segment normalizes to " +:+ cleaned)
    else if forallb segment_rune (decode_runes (chars cleaned)) then Ok cleaned
    else Err "invalid character in path segment".

Fixpoint sanitizeSegments (parts : list string) : result string (list string) :=
  match parts with
  | [] => Ok []
  | part :: parts => clean ← sanitizeSegment part; rest ← sanitizeSegments parts; Ok (clean :: rest)
  end.

Definition ensureWithin (base candidate : string) : result string string :=
  let baseClean := path_Clean base in
  let candidateClean := path_Clean candidate in
  if negb (IsAbs baseClean) then Err ("logs root must be absolute: " +:+ baseClean)
  else if negb (IsAbs candidateClean) then Err ("path must be absolute: " +:+ candidateClean)
  else
    rel ← prefixed "determine relative path: " (Rel baseClean candidateClean);
    let rel := path_Clean rel in
    if str_eqb rel "." || str_eqb rel "" then Ok candidateClean
    else if str_eqb rel ".." || HasPrefix rel "../" then Err "path escapes logs root"
    else if IsAbs rel then Err ("relative path unexpectedly absolute: " +:+ rel)
    else Ok candidateClean.

Definition joinWithinRoot (root : string) (parts : list string) : result string string :=
  if str_eqb root "" then Err "logs root not configured"
  else
    cleanParts ← prefixed "invalid path segment: " (sanitizeSegments parts);
    ensureWithin root (Join_path (root :: cleanParts)).

(** ** Files *)

Definition validateLogPath (path : string) : result string string :=
  if blank path then Err "log path cannot be empty"
  else
    let clean := path_Clean path in
    if negb (str_eqb clean path) then Err "log path normalizes"
    else if negb (IsAbs clean) then Err ("log path must be absolute: " +:+ clean)
    else Ok clean.

Section Disk.
Context {D : Type} `{disk : Disk D}.

Definition lifted {A} (r : result string A) : io D string A := fun d => (r, d).
Definition wrapped {A} (p : string) (m : io D string A) : io D string A := wrap_err (fun e => p +:+ e) m.

Definition touchAbsoluteFile (path : string) : io D string unit :=
  clean ← lifted (validateLogPath path);
  _ ← wrapped "touch log file: " (open_append clean);
  wrapped "close log file: " (close_opened clean).

Definition ensureRoot (root : string) : io D string unit :=
  if str_eqb root "" then mret tt
  else
    _ ← wrapped "create logs root: " (MkdirAll root);
    wrapped "create projects log root: " (MkdirAll (Join_path [root; "projects"])).

Definition NewFileManager (root : string) (rot : rotationConfig) (meta : Metadata) : io D string FileManager :=
  let root := TrimSpace root in
  let root := if str_eqb root "" then "/var/log/kubeop" else root in
  let root := path_Clean root in
  absRoot ← (if IsAbs root then mret root
             else fun d => (prefixed "resolve logs root: " (wd ← Getwd d; Ok (Join_path [wd; root])), d));
  _ ← ensureRoot absRoot;
  mret (mkFileManager absRoot meta rot ∅).

Definition ensureFile (root : string) (parts : list string) : io D string string :=
  _ ← ensureRoot root;
  fullPath ← lifted (joinWithinRoot root parts);
  dirWithin ← lifted (ensureWithin root (filepath_Dir fullPath));
  _ ← wrapped "ensure log dir: " (MkdirAll dirWithin);
  _ ← touchAbsoluteFile fullPath;
  mret fullPath.

Definition EnsureApp (root projectID appID : string) : io D string unit :=
  project ← lifted (prefixed "invalid project id: " (sanitizeSegment projectID));
  app ← lifted (prefixed "invalid app id: " (sanitizeSegment appID));
  _ ← ensureRoot root;
  appDir ← lifted (prefixed "resolve app directory: " (joinWithinRoot root ["projects"; project; "apps"; app]));
  _ ← wrapped "create app dir: " (MkdirAll appDir);
  _ ← wrapped "prepare app log file: " (ensureFile root ["projects"; project; "apps"; app; "app.log"]);
  _ ← wrapped "prepare app error log file: " (ensureFile root ["projects"; project; "apps"; app; "app.err.log"]);
  mret tt.

Fixpoint ensure_apps (root project : string) (apps : list string) : io D string unit :=
  match apps with
  | [] => mret tt
  | app :: apps => _ ← EnsureApp root project app; ensure_apps root project apps
  end.

Fixpoint clean_apps (apps : list string) : result string (list string) :=
  match apps with
  | [] => Ok []
  | app :: apps => clean ← prefixed "invalid app id: " (sanitizeSegment app); rest ← clean_apps apps; Ok (clean :: rest)
  end.

Definition EnsureProject (root projectID : string) (appIDs : list string) : io D string unit :=
  project ← lifted (prefixed "invalid project id: " (sanitizeSegment projectID));
  _ ← ensureRoot root;
  projectDir ← lifted (prefixed "resolve project directory: " (joinWithinRoot root ["projects"; project]));
  _ ← wrapped "create project dir: " (MkdirAll projectDir);
  _ ← wrapped "prepare project log file: " (ensureFile root ["projects"; project; "project.log"]);
  _ ← wrapped "prepare project events log file: " (ensureFile root ["projects"; project; "events.jsonl"]);
  appsDir ← lifted (prefixed "resolve apps directory: " (joinWithinRoot root ["projects"; project; "apps"]));
  _ ← wrapped "create apps dir: " (MkdirAll appsDir);
  cleanAppIDs ← lifted (clean_apps appIDs);
  ensure_apps root project (sort_Strings cleanAppIDs).

(** ** Loggers

    The state is the manager and the disk. *)

Local Abbreviation S := (FileManager * D)%type.

Definition on_disk {A} (m : io D string A) : io S string A := fun s => let '(r, d) := m s.2 in (r, (s.1, d)).

Definition add_handle (fm : FileManager) (rel : string) (l : Logger) : FileManager :=
  mkFileManager (fm_root fm) (fm_meta fm) (fm_rot fm) (<[rel := l]> (fm_handles fm)).

Definition keep_handle (rel : string) (l : Logger) : io S string Logger := fun s => (Ok l, (add_handle s.1 rel l, s.2)).

Definition getLogger (parts : list string) : io S string Logger := fun s =>
  (_ ← on_disk (ensureRoot (fm_root s.1));
   cleanParts ← on_disk (lifted (sanitizeSegments parts));
   let cleanRel := Join_path cleanParts in
   match fm_handles s.1 !! cleanRel with
   | Some logger => mret logger
   | None =>
       fullPath ← on_disk (ensureFile (fm_root s.1) cleanParts);
       keep_handle cleanRel (mkLogger fullPath (fm_rot s.1) (globalFields (fm_meta s.1)))
   end) s.

Definition with_fields (l : Logger) (fields : list (string * string)) : Logger :=
  mkLogger (lg_File l) (lg_Rotation l) (lg_Fields l ++ fields).

(** [None] for a logger that drops its lines; an error goes to the standard error stream. *)
Definition or_nop (m : io S string Logger) : S -> option Logger * S := fun s =>
  match m s with (Ok l, s) => (Some l, s) | (Err _, s) => (None, s) end.

Definition project_logger (name projectID : string) : S -> option Logger * S :=
  or_nop (project ← on_disk (lifted (sanitizeSegment projectID));
          logger ← getLogger ["projects"; project; name];
          mret (with_fields logger [("project_id", project)])).

Definition app_logger (name projectID appID : string) : S -> option Logger * S :=
  or_nop (project ← on_disk (lifted (sanitizeSegment projectID));
          app ← on_disk (lifted (sanitizeSegment appID));
          logger ← getLogger ["projects"; project; "apps"; app; name];
          mret (with_fields logger [("project_id", project); ("app_id", app)])).

Definition ProjectLogger := project_logger "project.log".
Definition ProjectEventsLogger := project_logger "events.jsonl".
Definition AppLogger := app_logger "app.log".
Definition AppErrorLogger := app_logger "app.err.log".

(** Every writer is closed and every handle forgotten; the first error is returned. *)
Fixpoint close_all (handles : list (string * Logger)) (first : option string) (d : D) : option string * D :=
  match handles with
  | [] => (first, d)
  | (_, l) :: handles =>
      let '(r, d) := close_writer (lg_File l) d in
      close_all handles (match first, r with None, Err e => Some e | _, _ => first end) d
  end.

Definition Close : S -> option string * S := fun s =>
  let '(err, d) := close_all (map_to_list (fm_handles s.1)) None s.2 in
  (err, (mkFileManager (fm_root s.1) (fm_meta s.1) (fm_rot s.1) ∅, d)).
End Disk.

Definition ProjectLogPath (fm : option FileManager) (projectID : string) : result string string :=
  match fm with
  | None => Err "file manager not initialised"
  | Some fm => project ← sanitizeSegment projectID; joinWithinRoot (fm_root fm) ["projects"; project; "project.log"]
  end.
End Names.
