(* ===== verification/LogFileProofs.v ===== *)
(** Log files stay below the root, each project's in a directory of its own. *)

From Stdlib Require Import Ascii ZArith Lia.
From stdpp Require Import base gmap strings list.
From S2P Require Import Prelude Utf8 GoStrings NetURL NetIP Security SecurityProofs Kube LogFiles.

(** ** Cleaned paths *)

Lemma split_list_app sep a b : split_list sep (a ++ sep :: b) = split_list sep a ++ split_list sep b.
Proof.
  induction a as [|c a IH]; cbn.
  - by rewrite bool_decide_eq_true_2.
  - case_bool_decide; rewrite IH; [done|].
    destruct (split_list sep a) as [|x l] eqn:El; [by apply split_list_nonempty in El|done].
Qed.

Lemma split_list_single sep l : Forall (fun c => c <> sep) l -> split_list sep l = [l].
Proof.
  induction 1 as [|c l Hc _ IH]; [done|]. cbn.
  rewrite bool_decide_eq_false_2 by done. by rewrite IH.
Qed.

Definition no_slash (s : string) : Prop := Forall (fun c => c <> "/"%char) (chars s).

Lemma Split_app a b : Split (a +:+ "/" +:+ b) "/"%char = Split a "/"%char ++ Split b "/"%char.
Proof. unfold Split. rewrite !chars_app. cbn [chars app]. by rewrite split_list_app, fmap_app. Qed.

Lemma Split_single s : no_slash s -> Split s "/"%char = [s].
Proof. intros H. unfold Split. rewrite split_list_single by done. cbn. by rewrite of_chars_chars. Qed.

Lemma str_assoc a b c : (a +:+ b) +:+ c = a +:+ b +:+ c.
Proof. rewrite <- (of_chars_chars ((a +:+ b) +:+ c)), !chars_app, <- app_assoc, <- !chars_app. by rewrite of_chars_chars. Qed.

Lemma Join_cons s l : l <> [] -> Join (s :: l) "/" = s +:+ "/" +:+ Join l "/".
Proof. by destruct l. Qed.

Lemma Split_Join l : l <> [] -> Forall no_slash l -> Split (Join l "/") "/"%char = l.
Proof.
  intros Hn H. induction H as [|s l Hs Hl IH]; [done|]. destruct (decide (l = [])) as [->|Hne].
  - by apply Split_single.
  - rewrite Join_cons, Split_app, Split_single, IH by done. done.
Qed.

Lemma plain_no_slash s : plain s -> no_slash s.
Proof. by intros (_ & _ & _ & H). Qed.
#[local] Hint Resolve plain_no_slash : core.

(** Elements that do not move are kept. *)
Lemma clean_segs_plain rooted segs : forall stack, Forall (fun s => s = "" \/ plain s) segs ->
  clean_segs rooted stack segs = rev stack ++ List.filter (fun s => negb (str_eqb s "")) segs.
Proof.
  induction segs as [|s segs IH]; intros stack; cbn [clean_segs List.filter]; [by rewrite app_nil_r|].
  rewrite Forall_cons. intros [[->|Hs] H]; [by apply IH|]. destruct Hs as (H1 & H2 & H3 & _).
  apply str_eqb_neq in H1, H2, H3. rewrite H1, H2, H3. cbn [orb negb]. rewrite IH by done.
  cbn [rev]. by rewrite <- app_assoc.
Qed.

Lemma filter_plain l : Forall plain l -> List.filter (fun s => negb (str_eqb s "")) l = l.
Proof.
  induction 1 as [|s l (H & _) _ IH]; [done|]. cbn. apply str_eqb_neq in H. by rewrite H, IH.
Qed.

(** The absolute path with these elements. *)
Definition abs_path (ps : list string) : string := "/" +:+ Join ps "/".

Lemma Split_abs ps : Forall plain ps -> exists e, Split (abs_path ps) "/"%char = "" :: e /\
  Forall (fun s => s = "" \/ plain s) e /\ List.filter (fun s => negb (str_eqb s "")) e = ps.
Proof.
  intros H. unfold abs_path. change ("/" +:+ Join ps "/") with ("" +:+ "/" +:+ Join ps "/"). rewrite Split_app.
  destruct (decide (ps = [])) as [->|Hne]; [exists [""]; by split_and!; [|repeat constructor; left|]|].
  exists ps. rewrite Split_Join; [|done|by eapply Forall_impl, plain_no_slash]. split_and!; [done| |by apply filter_plain].
  eapply Forall_impl; [exact H|]. by right.
Qed.

Lemma clean_abs ps : Forall plain ps -> path_Clean (abs_path ps) = abs_path ps.
Proof.
  intros H. destruct (Split_abs ps H) as (e & He & Hp & Hf). unfold path_Clean. cbv zeta. rewrite He.
  change (str_eqb (abs_path ps) "") with false. cbv iota. unfold abs_path at 1. rewrite has_prefix_app.
  rewrite clean_segs_plain by (constructor; [by left|done]). cbn. by rewrite Hf.
Qed.

(** A root as [NewFileManager] leaves it. *)
Definition good_root (root : string) : Prop := exists ps, Forall plain ps /\ root = abs_path ps.

Lemma clean_good p : IsAbs p = true -> good_root (path_Clean p).
Proof.
  intros H. destruct (path_Clean_shape p) as (n & ps & Hp & _ & ->); [by intros ->|]. unfold IsAbs in H. rewrite H. by exists ps.
Qed.

Lemma elems_abs ps : Forall plain ps -> elems (abs_path ps) = ps.
Proof. intros H. destruct (Split_abs ps H) as (e & He & _ & Hf). unfold elems. by rewrite He. Qed.

Lemma join_abs ps l : Forall plain ps -> Forall plain l -> Join_path (abs_path ps :: l) = abs_path (ps ++ l).
Proof.
  intros Hp Hl. unfold Join_path. destruct (decide (l = [])) as [->|Hne].
  { rewrite app_nil_r. cbn. by apply clean_abs. }
  rewrite Join_cons by done. destruct (Split_abs ps Hp) as (e & He & Hpe & Hf).
  unfold path_Clean. cbv zeta.
  assert (Hpre : HasPrefix (abs_path ps +:+ "/" +:+ Join l "/") "/" = true).
  { apply has_prefix_spec. exists (Join ps "/" +:+ "/" +:+ Join l "/"). done. }
  assert (Hneq : str_eqb (abs_path ps +:+ "/" +:+ Join l "/") "" = false) by done.
  rewrite Hneq, Hpre, Split_app, He, Split_Join by (done || by eapply Forall_impl, plain_no_slash).
  rewrite clean_segs_plain.
  - rewrite List.filter_app. cbn. by rewrite Hf, filter_plain.
  - apply Forall_app. split; [constructor; [by left|done]|]. eapply Forall_impl; [exact Hl|]. by right.
Qed.

Lemma cut_list_app sep a b : Forall (fun c => c <> sep) a -> cut_list sep (a ++ sep :: b) = Some (a, b).
Proof.
  induction 1 as [|c a Hc _ IH]; cbn; [by rewrite bool_decide_eq_true_2|]. by rewrite bool_decide_eq_false_2, IH.
Qed.

Lemma abs_snoc l x : abs_path (l ++ [x]) = (if decide (l = []) then "" else abs_path l) +:+ "/" +:+ x.
Proof.
  unfold abs_path. destruct (decide (l = [])) as [->|Hl]; [done|]. cut (Join (l ++ [x]) "/" = Join l "/" +:+ "/" +:+ x); [by intros ->|].
  induction l as [|y l IH]; [done|]. cbn [app]. destruct (decide (l = [])) as [->|Hne]; [done|].
  rewrite !Join_cons by (done || by destruct l). rewrite IH by done. by rewrite !str_assoc.
Qed.

(** The directory of a file. *)
Lemma dir_abs l x : Forall plain (l ++ [x]) -> filepath_Dir (abs_path (l ++ [x])) = abs_path l.
Proof.
  intros [Hl [Hx _]%Forall_cons]%Forall_app. unfold filepath_Dir. rewrite abs_snoc, !chars_app, reverse_app.
  rewrite reverse_app. cbn [chars]. rewrite reverse_singleton, <- app_assoc. cbn [app].
  rewrite cut_list_app by by apply Forall_reverse, plain_no_slash. rewrite reverse_involutive, of_chars_chars.
  destruct (decide (l = [])) as [->|Hne]; [done|]. destruct (Split_abs l Hl) as (e & He & Hpe & Hf).
  unfold path_Clean. cbv zeta. change (str_eqb (abs_path l +:+ "/") "") with false. cbv iota.
  assert (HasPrefix (abs_path l +:+ "/") "/" = true) as -> by (apply has_prefix_spec; by exists (Join l "/" +:+ "/")).
  change (abs_path l +:+ "/") with (abs_path l +:+ "/" +:+ ""). rewrite Split_app, He. rewrite clean_segs_plain.
  - rewrite List.filter_app. cbn. by rewrite Hf, app_nil_r.
  - apply Forall_app. split; [constructor; [by left|done]|]. repeat constructor.
Qed.

(** ** Names *)

Section Names.
Context (ld : rune -> bool).

Lemma sanitize_plain id s : sanitizeSegment ld id = Ok s -> plain s /\ s = TrimSpace id.
Proof.
  unfold sanitizeSegment. cbv zeta. set (t := TrimSpace id). destruct (str_eqb t "") eqn:E0; [done|].
  destruct (existsb _ (chars t)) eqn:Es; [done|]. destruct (str_eqb (path_Clean t) "." || str_eqb (path_Clean t) "..") eqn:Ed; [done|].
  destruct (str_eqb (path_Clean t) t) eqn:Ec; cbn [negb]; [|done]. apply str_eqb_eq in Ec. rewrite Ec in *.
  destruct (forallb _ _); [|done]. intros [= <-]. apply orb_false_iff in Ed as [H1 H2].
  rewrite str_eqb_neq in E0, H1, H2. split; [|done]. split_and!; [done..|].
  apply Forall_forall. intros c Hc ->. rewrite <- not_true_iff_false in Es. apply Es. apply existsb_exists.
  exists "/"%char. split; [by apply list_elem_of_In|done].
Qed.

Lemma sanitize_segments parts l : sanitizeSegments ld parts = Ok l -> Forall plain l /\ l = TrimSpace <$> parts.
Proof.
  revert l. induction parts as [|p parts IH]; intros l; cbn [sanitizeSegments]; [intros [= <-]; by split|].
  intros (s & [Hs ->]%sanitize_plain & (rest & [Hr ->]%IH & [= <-])%bind_ok)%bind_ok. split; [by constructor|done].
Qed.

Lemma ensureWithin_ok base p q : ensureWithin base p = Ok q -> q = path_Clean p.
Proof.
  unfold ensureWithin. cbv zeta. do 2 (case_match; [done|]). intros (rel & _ & Hr)%bind_ok.
  repeat case_match; congruence.
Qed.

(** What is accepted below a root is the root with the cleaned segments. *)
Lemma join_within root parts p : good_root root -> joinWithinRoot ld root parts = Ok p ->
  exists segs, Forall plain segs /\ segs = TrimSpace <$> parts /\ p = Join_path (root :: segs).
Proof.
  intros (ps & Hps & ->). unfold joinWithinRoot. case_match; [done|].
  intros (segs & Hs & ->%ensureWithin_ok)%bind_ok. unfold prefixed in Hs.
  destruct (sanitizeSegments ld parts) as [l|] eqn:El; [|done]. injection Hs as ->. apply sanitize_segments in El as [Hp ->]. eexists. split_and!; [done..|]. rewrite join_abs by done. apply clean_abs.
  by apply Forall_app.
Qed.

(** ** Where the disk is written *)

Section Disk.
Context {D : Type} `{disk : Disk D}.

(** Directories and files with these paths are made or opened. *)
Inductive writes (P : string -> Prop) : D -> D -> Prop :=
| writes_nothing d : writes P d d
| writes_dir p d r d1 d2 : P p -> MkdirAll p d = (r, d1) -> writes P d1 d2 -> writes P d d2
| writes_file p d r d1 d2 : P p -> open_append p d = (r, d1) -> writes P d1 d2 -> writes P d d2
| closes_file p d r d1 d2 : P p -> close_opened p d = (r, d1) -> writes P d1 d2 -> writes P d d2.

#[export] Instance writes_preorder P : PreOrder (writes P).
Proof.
  split; [constructor|]. intros a b c H. revert c. induction H; intros ? ?; eauto using writes.
Qed.

Definition confined {A} (P : string -> Prop) (m : io D string A) : Prop := forall d r d', m d = (r, d') -> writes P d d'.

Lemma confined_ret {A} P (a : A) : confined P (mret a).
Proof. intros d r d' [= _ <-]. done. Qed.
Lemma confined_lifted {A} P (x : result string A) : confined P (lifted x).
Proof. intros d r d' [= _ <-]. done. Qed.
Lemma confined_bind {A B} P (m : io D string A) (f : A -> io D string B) :
  confined P m -> (forall a, confined P (f a)) -> confined P (m ≫= f).
Proof. intros Hm Hf d r d' [(e & H%Hm & _)|(a & d1 & H1%Hm & H2%Hf)]%io_bind_case; [done|by etransitivity]. Qed.
Lemma confined_wrapped {A} P p (m : io D string A) : confined P m -> confined P (wrapped p m).
Proof. intros Hm d r d'. unfold wrapped, wrap_err. destruct (m d) as [[a|e] d1] eqn:E; intros [= _ <-]; by eapply Hm. Qed.
(** The rest only runs with the value of a successful check. *)
Lemma confined_checked {A B} P (x : result string A) (f : A -> io D string B) :
  (forall a, x = Ok a -> confined P (f a)) -> confined P (lifted x ≫= f).
Proof. intros H. destruct x as [a|e]; [by apply H|]. intros d r d' [= _ <-]. done. Qed.
Lemma confined_mkdir (P : string -> Prop) p : P p -> confined P (MkdirAll p).
Proof. intros Hp d r d' H. by eapply writes_dir. Qed.
Lemma confined_touch (P : string -> Prop) p : P p -> confined P (touchAbsoluteFile p).
Proof.
  intros Hp. apply confined_checked. intros q Hq. assert (q = p) as ->.
  { revert Hq. unfold validateLogPath. cbv zeta. case_match; [done|]. case_match eqn:E; [done|]. case_match; [done|].
    intros [= <-]. by apply negb_false_iff, str_eqb_eq in E. }
  apply confined_bind; [apply confined_wrapped|intros _; apply confined_wrapped]; intros d r d' H.
  - by eapply writes_file.
  - by eapply closes_file.
Qed.

(** ** One project *)

(** The root, the directory of all projects, or a path in the directory of the project. *)
Definition in_project (root project p : string) : Prop :=
  p = root \/ p = Join_path [root; "projects"] \/
  exists segs, Forall plain segs /\ p = Join_path (root :: "projects" :: project :: segs).

Lemma confined_root root project : confined (in_project root project) (ensureRoot root).
Proof.
  unfold ensureRoot. case_match; [apply confined_ret|].
  apply confined_bind; [apply confined_wrapped, confined_mkdir; by left|].
  intros _. apply confined_wrapped, confined_mkdir. by right; left.
Qed.

Lemma dir_of_file root project parts p q : good_root root -> TrimSpace project = project -> parts <> [] ->
  joinWithinRoot ld root ("projects" :: project :: parts) = Ok p -> ensureWithin root (filepath_Dir p) = Ok q ->
  in_project root project p /\ in_project root project q.
Proof.
  intros Hr Ht Hn (segs & Hs & -> & ->)%join_within; [|done]. intros ->%ensureWithin_ok.
  rewrite !fmap_cons, Ht in *. change (TrimSpace "projects") with "projects" in *.
  destruct Hr as (ps & Hps & ->). pose proof Hs as Hs'. apply Forall_cons in Hs' as [H1 [H2 H3]%Forall_cons].
  set (l := TrimSpace <$> parts) in *. assert (l <> []) as Hl by by destruct parts.
  destruct (exists_last Hl) as (l0 & x & E). rewrite E in *. apply Forall_app in H3 as [H3 H4].
  assert (Hb : Forall plain (ps ++ "projects" :: project :: l0)) by (apply Forall_app; auto using Forall_cons_2).
  split; right; right.
  - exists (l0 ++ [x]). split; [by apply Forall_app|done].
  - exists l0. split; [done|]. rewrite !join_abs; [|done|by auto using Forall_cons_2|done|done].
    replace (ps ++ "projects" :: project :: l0 ++ [x]) with ((ps ++ "projects" :: project :: l0) ++ [x]) by by rewrite <- app_assoc.
    rewrite dir_abs; [by apply clean_abs|by apply Forall_app].
Qed.

Lemma confined_file root project parts : good_root root -> TrimSpace project = project -> parts <> [] ->
  confined (in_project root project) (ensureFile ld root ("projects" :: project :: parts)).
Proof.
  intros Hr Ht Hn. unfold ensureFile. apply confined_bind; [apply confined_root|]. intros _.
  apply confined_checked. intros p Hp. apply confined_checked. intros q Hq.
  destruct (dir_of_file _ _ _ _ _ Hr Ht Hn Hp Hq) as [H1 H2].
  apply confined_bind; [by apply confined_wrapped, confined_mkdir|]. intros _.
  apply confined_bind; [by apply confined_touch|]. intros _. apply confined_ret.
Qed.

Lemma confined_dir root project parts p : good_root root -> TrimSpace project = project ->
  joinWithinRoot ld root ("projects" :: project :: parts) = Ok p -> confined (in_project root project) (MkdirAll p).
Proof.
  intros Hr Ht (segs & Hs & -> & ->)%join_within; [|done]. apply confined_mkdir. right; right.
  rewrite !fmap_cons, Ht in *. eexists. split; [|done]. by apply Forall_cons in Hs as [_ [_ Hs]%Forall_cons].
Qed.

Lemma prefixed_ok {A} p (x : result string A) a : prefixed p x = Ok a -> x = Ok a.
Proof. by destruct x. Qed.

Lemma sanitize_trimmed id s : sanitizeSegment ld id = Ok s -> s = TrimSpace id /\ TrimSpace s = s.
Proof. intros [_ ->]%sanitize_plain. split; [done|]. apply trim_space_idem. Qed.

Ltac confine :=
  repeat first
  [ apply confined_ret
  | apply confined_root
  | apply confined_file; [done|done|done]
  | eapply confined_dir; [done|done|eassumption]
  | apply confined_checked; intros ? ?%prefixed_ok
  | apply confined_wrapped
  | apply confined_bind; [|intros ?]
  | apply confined_lifted ].

Lemma confined_app root projectID appID : good_root root ->
  confined (in_project root (TrimSpace projectID)) (EnsureApp ld root projectID appID).
Proof.
  intros Hr. unfold EnsureApp. apply confined_checked. intros project [-> Ht]%prefixed_ok%sanitize_trimmed. confine.
Qed.

Lemma confined_project root projectID apps : good_root root ->
  confined (in_project root (TrimSpace projectID)) (EnsureProject ld root projectID apps).
Proof.
  intros Hr. unfold EnsureProject. apply confined_checked. intros project [-> Ht]%prefixed_ok%sanitize_trimmed. confine.
  match goal with |- context [sort_Strings ?l] => generalize (sort_Strings l) as l' end. induction l' as [|x l' IH]; cbn [ensure_apps]; [apply confined_ret|].
  apply confined_bind; [|by intros _]. rewrite <- Ht at 1. by apply confined_app.
Qed.

(** ** Loggers *)

(** The disk is written for the project, and the manager keeps its root. *)
Definition logs_for {A} (root project : string) (m : FileManager * D -> A * (FileManager * D)) : Prop := forall s r s',
  fm_root s.1 = root -> m s = (r, s') -> writes (in_project root project) s.2 s'.2 /\ fm_root s'.1 = root.

Lemma logs_on_disk {A} root project (m : io D string A) : confined (in_project root project) m -> logs_for root project (on_disk m).
Proof.
  intros Hm s r s' Hr. unfold on_disk. destruct (m s.2) as [x d] eqn:E. intros [= _ <-]. split; [by eapply Hm|done].
Qed.

Lemma logs_bind {A B} root project (m : io (FileManager * D) string A) (f : A -> io (FileManager * D) string B) :
  logs_for root project m -> (forall a, logs_for root project (f a)) -> logs_for root project (m ≫= f).
Proof.
  intros Hm Hf s r s' Hr [(e & H & _)|(a & s1 & H1 & H2)]%io_bind_case; [by eapply Hm|].
  apply Hm in H1 as [Hw H1]; [|done]. apply Hf in H2 as [Hw2 H2]; [|done]. split; [by etransitivity|done].
Qed.

Lemma logs_ret {A} root project (a : A) : logs_for root project (mret (M := io (FileManager * D) string) a).
Proof. intros s r s' Hr [= _ <-]. split; [done|done]. Qed.

(** A sequence that starts with a check. *)
Lemma logs_checked {A B} root project (x : result string A) (f : A -> io (FileManager * D) string B) :
  (forall a, x = Ok a -> logs_for root project (f a)) -> logs_for root project (on_disk (lifted x) ≫= f).
Proof.
  intros H s r s' Hs. destruct x as [a|e]; [|by intros [= _ <-]]. unfold mbind, io_bind, on_disk. cbn.
  intros E. eapply (H a eq_refl (s.1, s.2)) in E; [done|done].
Qed.

Lemma logs_get root project parts : good_root root -> TrimSpace project = project -> parts <> [] ->
  logs_for root project (getLogger ld ("projects" :: project :: parts)).
Proof.
  intros Hr Ht Hn s r s' Hs. unfold getLogger. rewrite Hs. revert Hs. generalize (fm_handles s.1) (fm_rot s.1) (fm_meta s.1).
  intros hs rot meta. revert s r s'. apply logs_bind; [apply logs_on_disk, confined_root|]. intros _.
  apply logs_checked. intros segs [_ ->]%sanitize_segments. rewrite !fmap_cons, Ht.
  destruct (hs !! _) as [l|]; [apply logs_ret|].
  apply logs_bind; [apply logs_on_disk, confined_file; [done|done|by destruct parts]|]. intros p s r s' Hs [= _ <-]. split; [done|exact Hs].
Qed.

Lemma logs_or_nop root project m : logs_for root project m -> logs_for root project (or_nop m).
Proof. intros Hm s r s' Hs. unfold or_nop. destruct (m s) as [[l|e] s1] eqn:E; intros [= _ <-]; by eapply Hm. Qed.

Lemma logs_project root name projectID : good_root root -> logs_for root (TrimSpace projectID) (project_logger ld name projectID).
Proof.
  intros Hr. apply logs_or_nop, logs_checked. intros project [-> Ht]%sanitize_trimmed.
  apply logs_bind; [by apply logs_get|]. intros l. apply logs_ret.
Qed.

Lemma logs_app root name projectID appID : good_root root -> logs_for root (TrimSpace projectID) (app_logger ld name projectID appID).
Proof.
  intros Hr. apply logs_or_nop, logs_checked. intros project [-> Ht]%sanitize_trimmed. apply logs_checked. intros app _.
  apply logs_bind; [by apply logs_get|]. intros l. apply logs_ret.
Qed.

(** ** The manager *)

(** [os.Getwd] returns an absolute path. *)
Class DiskLaws := getwd_abs (d : D) wd : Getwd d = Ok wd -> IsAbs wd = true.

Lemma abs_prefix p l : IsAbs p = true -> IsAbs (Join (p :: l) "/") = true.
Proof.
  unfold IsAbs. rewrite !has_prefix_spec. intros (t & ->). destruct l as [|x l]; [by exists t|].
  rewrite Join_cons by done. exists (t +:+ "/" +:+ Join (x :: l) "/"). by rewrite str_assoc.
Qed.

Lemma relative_join s l : s <> "" -> no_slash s -> IsAbs (Join (s :: l) "/") = false.
Proof.
  intros Hs Hn. apply not_true_iff_false. unfold IsAbs. rewrite has_prefix_spec. intros (t & Ht).
  destruct s as [|c s]; [done|]. assert (c <> "/"%char) as Hc by by inversion Hn. destruct l; by injection Ht.
Qed.

Lemma clean_abs_inv p : IsAbs (path_Clean p) = true -> IsAbs p = true.
Proof.
  intros H. destruct (IsAbs p) eqn:E; [done|]. destruct (decide (p = "")) as [->|Hne]; [done|].
  destruct (path_Clean_shape p Hne) as (n & ps & Hp & _ & Hc). unfold IsAbs in E. rewrite E in Hc. rewrite Hc in H.
  destruct (str_eqb _ ""); [done|]. destruct n as [|n]; [destruct Hp as [|x ps (Hx & _ & _ & Hs) _]; [done|]|];
    cbn [replicate app] in H; rewrite relative_join in H; try done. repeat constructor; done.
Qed.

Lemma new_manager_root `{laws : DiskLaws} root rot meta (d : D) fm d' :
  NewFileManager root rot meta d = (Ok fm, d') -> good_root (fm_root fm).
Proof.
  unfold NewFileManager. cbv zeta. set (c := path_Clean _). intros (a & d1 & Ha & H)%io_bind_ok.
  apply io_bind_ok in H as (u & d2 & _ & [= <- _]). cbn [fm_root]. destruct (IsAbs c) eqn:E.
  - injection Ha as <- _. unfold c in *. by apply clean_good, clean_abs_inv.
  - injection Ha as Ha _. apply prefixed_ok, bind_ok in Ha as (wd & Hwd%getwd_abs & [= <-]).
    by apply clean_good, abs_prefix.
Qed.

Lemma abs_path_inj l l' : Forall plain l -> Forall plain l' -> abs_path l = abs_path l' -> l = l'.
Proof. intros H H' E. by rewrite <- (elems_abs l), <- (elems_abs l'), E. Qed.

Lemma in_project_apart root a b p : good_root root -> plain a -> plain b -> a <> b ->
  in_project root a p -> in_project root b p -> p = root \/ p = Join_path [root; "projects"].
Proof.
  intros (ps & Hps & ->) Ha Hb Hne [?|[?|(sa & Hsa & ->)]]; [by left|by right|]. intros [?|[?|(sb & Hsb & E)]]; [by left|by right|].
  exfalso. apply Hne. assert (Hp : plain "projects") by (split_and!; [done..|]; repeat constructor; done).
  rewrite !join_abs in E by auto using Forall_cons_2.
  apply abs_path_inj in E; [|apply Forall_app; auto using Forall_cons_2..]. by apply app_inv_head in E as [= ->].
Qed.

(** ** The calls of a manager *)

(** The file of a log below the directory of a project. *)
Definition log_file (root projectID : string) (rest : list string) (file : string) : Prop :=
  Forall plain (TrimSpace projectID :: rest) /\ file = Join_path (root :: "projects" :: TrimSpace projectID :: rest).

(** Every logger that is kept writes to the file of its key, in the directory of a project. *)
Definition handles_ok (fm : FileManager) : Prop := forall rel l, fm_handles fm !! rel = Some l ->
  exists project rest, Forall plain (project :: rest) /\ rel = Join_path ("projects" :: project :: rest) /\
    lg_File l = Join_path (fm_root fm :: "projects" :: project :: rest).

Lemma plain_projects : plain "projects".
Proof. split_and!; [done..|]. repeat constructor; done. Qed.
#[local] Hint Resolve plain_projects : core.

Lemma join_relative l : l <> [] -> Forall plain l -> Join_path l = Join l "/".
Proof.
  intros Hn Hl. assert (Hs : Forall no_slash l) by by eapply Forall_impl, plain_no_slash.
  unfold Join_path, path_Clean. destruct l as [|x l]; [done|]. pose proof Hl as [(Hx & _ & _ & Hxs) _]%Forall_cons.
  assert (Hne : str_eqb (Join (x :: l) "/") "" = false) by (apply str_eqb_neq; destruct l; [done|]; by destruct x).
  assert (Hp : HasPrefix (Join (x :: l) "/") "/" = false) by by apply (relative_join x l).
  rewrite Hne. cbv zeta. rewrite Hp, Split_Join by done. rewrite clean_segs_plain.
  - change (rev [] ++ ?a) with a. by rewrite filter_plain, Hne.
  - eapply Forall_impl; [exact Hl|]. by right.
Qed.

Lemma join_relative_inj l l' : l <> [] -> l' <> [] -> Forall plain l -> Forall plain l' -> Join_path l = Join_path l' -> l = l'.
Proof.
  intros Hn Hn' Hl Hl'. rewrite !join_relative by done. intros E.
  rewrite <- (Split_Join l), <- (Split_Join l'); [by rewrite E|done|by eapply Forall_impl, plain_no_slash|done|by eapply Forall_impl, plain_no_slash].
Qed.

Lemma ensureFile_path root parts d p d' : good_root root -> ensureFile ld root parts d = (Ok p, d') ->
  p = Join_path (root :: (TrimSpace <$> parts)).
Proof.
  intros Hr. unfold ensureFile. intros (u & d1 & _ & H)%io_bind_ok. apply io_bind_ok in H as (q & d2 & [= Hq _] & H).
  apply io_bind_ok in H as (dir & d3 & _ & H). apply io_bind_ok in H as (u2 & d4 & _ & H). apply io_bind_ok in H as (u3 & d5 & _ & [= <- _]).
  by apply join_within in Hq as (segs & _ & -> & ->).
Qed.

Lemma on_disk_inv {A} (m : io D string A) (s : FileManager * D) r s' : on_disk m s = (r, s') -> s'.1 = s.1 /\ m s.2 = (r, s'.2).
Proof. unfold on_disk. destruct (m s.2). by intros [= <- <-]. Qed.

Lemma lifted_ok {A} (x : result string A) (d : D) r d' : lifted x d = (r, d') -> x = r.
Proof. by intros [= <- _]. Qed.

(** The file of a logger, whether it was kept or is new. *)
Lemma get_file projectID rest (s : FileManager * D) r s' : good_root (fm_root s.1) -> handles_ok s.1 ->
  Forall (fun x => TrimSpace x = x) (projectID :: rest) ->
  getLogger ld ("projects" :: projectID :: rest) s = (r, s') ->
  handles_ok s'.1 /\ forall l, r = Ok l -> log_file (fm_root s.1) projectID rest (lg_File l).
Proof.
  intros Hr Hh Ht. unfold getLogger. intros [(e & [E _]%on_disk_inv & ->)|(u & s1 & [E1 _]%on_disk_inv & H)]%io_bind_case; [by rewrite E|].
  apply io_bind_case in H as [(e & [E _]%on_disk_inv & ->)|(segs & s2 & [E2 Hs]%on_disk_inv & H)]; [by rewrite E, E1|].
  apply lifted_ok, sanitize_segments in Hs as [Hp Hs].
  assert (segs = "projects" :: projectID :: rest) as ->.
  { rewrite Hs, fmap_cons. f_equal. clear -Ht. induction Ht as [|x l Hx _ IH]; [done|]. rewrite fmap_cons. by f_equal. }
  clear Hs. pose proof Hp as [_ Hp']%Forall_cons. pose proof Ht as [Ht1 _]%Forall_cons. cbv zeta in H.
  destruct (fm_handles s.1 !! _) as [l|] eqn:El.
  - injection H as <- <-. rewrite E2, E1. split; [done|]. intros _ [= <-]. apply Hh in El as (p & q & Hpq & Ej & ->).
    apply join_relative_inj in Ej as [= <- <-]; [|done|done|done|by constructor]. unfold log_file. by rewrite Ht1.
  - apply io_bind_case in H as [(e & [E _]%on_disk_inv & ->)|(p & s3 & [E3 Hf]%on_disk_inv & H)]; [by rewrite E, E2, E1|].
    apply ensureFile_path in Hf; [|done].
    assert (p = Join_path (fm_root s.1 :: "projects" :: projectID :: rest)) as ->.
    { rewrite Hf, fmap_cons. do 3 f_equal. clear -Ht. induction Ht as [|x l Hx _ IH]; [done|]. rewrite fmap_cons. by f_equal. }
    unfold keep_handle in H. injection H as <- <-. rewrite E3, E2, E1. split.
    + intros rel l. cbn [add_handle fm_handles fm_root fst]. destruct (decide (rel = Join_path ("projects" :: projectID :: rest))) as [->|Hne].
      * rewrite lookup_insert_eq. intros [= <-]. by exists projectID, rest.
      * rewrite lookup_insert_ne by done. apply Hh.
    + intros _ [= <-]. unfold log_file. by rewrite Ht1.
Qed.

Lemma or_nop_inv (m : io (FileManager * D) string Logger) s o s' : or_nop m s = (o, s') ->
  exists r, m s = (r, s') /\ forall l, o = Some l -> r = Ok l.
Proof. unfold or_nop. destruct (m s) as [[l|e] s1]; intros [= <- <-]; eexists; (split; [done|]); by intros ? [= <-]. Qed.

Lemma project_logger_file name projectID (s : FileManager * D) o s' : TrimSpace name = name -> good_root (fm_root s.1) -> handles_ok s.1 ->
  project_logger ld name projectID s = (o, s') ->
  handles_ok s'.1 /\ forall l, o = Some l -> log_file (fm_root s.1) projectID [name] (lg_File l).
Proof.
  intros Hn Hr Hh (r & H & Ho)%or_nop_inv. apply io_bind_case in H as [(e & [E _]%on_disk_inv & ->)|(p & s1 & [E1 Hp]%on_disk_inv & H)].
  { rewrite E. split; [done|]. by intros l [=]%Ho. }
  apply lifted_ok, sanitize_trimmed in Hp as [-> Ht]. rewrite <- E1 in Hr, Hh |- *.
  apply io_bind_case in H as [(e & H & ->)|(l0 & s2 & H2 & [= <- <-])].
  - apply get_file in H as [H _]; [|done|done|by repeat constructor]. split; [done|]. by intros l [=]%Ho.
  - apply get_file in H2 as [H2 Hl]; [|done|done|by repeat constructor]. split; [done|]. intros l [= <-]%Ho. cbn.
    specialize (Hl _ eq_refl). unfold log_file in *. by rewrite Ht in Hl.
Qed.

Lemma app_logger_file name projectID appID (s : FileManager * D) o s' : TrimSpace name = name -> good_root (fm_root s.1) -> handles_ok s.1 ->
  app_logger ld name projectID appID s = (o, s') ->
  handles_ok s'.1 /\ forall l, o = Some l -> log_file (fm_root s.1) projectID ["apps"; TrimSpace appID; name] (lg_File l).
Proof.
  intros Hn Hr Hh (r & H & Ho)%or_nop_inv. apply io_bind_case in H as [(e & [E _]%on_disk_inv & ->)|(p & s1 & [E1 Hp]%on_disk_inv & H)].
  { rewrite E. split; [done|]. by intros l [=]%Ho. }
  apply lifted_ok, sanitize_trimmed in Hp as [-> Ht]. rewrite <- E1 in Hr, Hh |- *.
  apply io_bind_case in H as [(e & [E _]%on_disk_inv & ->)|(a & s2 & [E2 Ha]%on_disk_inv & H)].
  { rewrite E. split; [done|]. by intros l [=]%Ho. }
  apply lifted_ok, sanitize_trimmed in Ha as [-> Hta]. rewrite <- E2 in Hr, Hh |- *.
  apply io_bind_case in H as [(e & H & ->)|(l0 & s3 & H3 & [= <- <-])].
  - apply get_file in H as [H _]; [|done|done|by repeat constructor]. split; [done|]. by intros l [=]%Ho.
  - apply get_file in H3 as [H3 Hl]; [|done|done|by repeat constructor]. split; [done|]. intros l [= <-]%Ho. cbn.
    specialize (Hl _ eq_refl). unfold log_file in *. by rewrite Ht in Hl.
Qed.

(** The managers a program can have: a new one, and what any call leaves, while others write to
    the disk. *)
Inductive call :=
| CallEnsureProject (projectID : string) (apps : list string) | CallEnsureApp (projectID appID : string)
| CallProjectLogger (projectID : string) | CallProjectEventsLogger (projectID : string)
| CallAppLogger (projectID appID : string) | CallAppErrorLogger (projectID appID : string) | CallClose.

Definition run_call (c : call) (s : FileManager * D) : FileManager * D :=
  match c with
  | CallEnsureProject p apps => (s.1, (EnsureProject ld (fm_root s.1) p apps s.2).2)
  | CallEnsureApp p a => (s.1, (EnsureApp ld (fm_root s.1) p a s.2).2)
  | CallProjectLogger p => (ProjectLogger ld p s).2
  | CallProjectEventsLogger p => (ProjectEventsLogger ld p s).2
  | CallAppLogger p a => (AppLogger ld p a s).2
  | CallAppErrorLogger p a => (AppErrorLogger ld p a s).2
  | CallClose => (Close s).2
  end.

Inductive managed : FileManager * D -> Prop :=
| managed_new root rot meta d0 fm d : NewFileManager root rot meta d0 = (Ok fm, d) -> managed (fm, d)
| managed_call c s : managed s -> managed (run_call c s)
| managed_disk fm d d' : managed (fm, d) -> managed (fm, d').

Lemma call_root c s : good_root (fm_root s.1) -> fm_root (run_call c s).1 = fm_root s.1.
Proof.
  intros Hr. destruct c as [p apps|p a|p|p|p a|p a|]; cbn [run_call]; [done|done|..].
  - destruct (ProjectLogger _ _ _) eqn:E. by eapply logs_project in E as [_ ?].
  - destruct (ProjectEventsLogger _ _ _) eqn:E. by eapply logs_project in E as [_ ?].
  - destruct (AppLogger _ _ _ _) eqn:E. by eapply logs_app in E as [_ ?].
  - destruct (AppErrorLogger _ _ _ _) eqn:E. by eapply logs_app in E as [_ ?].
  - unfold Close. by destruct (close_all _ _ _).
Qed.

Lemma managed_ok `{laws : DiskLaws} s : managed s -> good_root (fm_root s.1) /\ handles_ok s.1.
Proof.
  induction 1 as [root rot meta d0 fm d H|c s _ [Hr Hh]|fm d d' _ IH]; [|split; [by rewrite call_root|]|exact IH].
  - split; [by eapply new_manager_root|]. unfold NewFileManager in H. cbv zeta in H.
    apply io_bind_ok in H as (a & d1 & _ & H). apply io_bind_ok in H as (u & d2 & _ & [= <- _]). by intros rel l ?.
  - destruct c as [p apps|p a|p|p|p a|p a|]; cbn [run_call]; [done|done|..].
    + destruct (ProjectLogger _ _ _) eqn:E. by eapply project_logger_file in E as [? _].
    + destruct (ProjectEventsLogger _ _ _) eqn:E. by eapply project_logger_file in E as [? _].
    + destruct (AppLogger _ _ _ _) eqn:E. by eapply app_logger_file in E as [? _].
    + destruct (AppErrorLogger _ _ _ _) eqn:E. by eapply app_logger_file in E as [? _].
    + unfold Close. destruct (close_all _ _ _). by intros rel l ?.
Qed.

Lemma log_path_file fm projectID p : good_root (fm_root fm) -> ProjectLogPath ld (Some fm) projectID = Ok p ->
  log_file (fm_root fm) projectID ["project.log"] p.
Proof.
  intros Hr. cbn [ProjectLogPath]. intros (project & [-> Ht]%sanitize_trimmed & (segs & Hs & -> & ->)%join_within)%bind_ok; [|done].
  rewrite !fmap_cons, Ht in *. apply Forall_cons in Hs as [_ Hs]. split; [exact Hs|done].
Qed.

(** C34: in every manager a program can have, after any calls, the file a logger writes to is the log
    of the requested project or application, one file each below the directory of the project
    under the root, whatever the identifiers are, and so is the path [ProjectLogPath] gives; every
    writer that is kept, which [Close] closes, has such a file.  Preparing or opening
    logs makes directories and opens files only at the root, in its directory of projects and
    below the directory of that project, and what two projects may both write is the root
    and the directory of projects. *)
Theorem log_files_confined `{laws : DiskLaws} fm (d : D) projectID appID apps : managed (fm, d) ->
  let root := fm_root fm in
  let own := writes (in_project root (TrimSpace projectID)) d in
  (own (EnsureProject ld root projectID apps d).2 /\ own (EnsureApp ld root projectID appID d).2 /\
   own (ProjectLogger ld projectID (fm, d)).2.2 /\ own (ProjectEventsLogger ld projectID (fm, d)).2.2 /\
   own (AppLogger ld projectID appID (fm, d)).2.2 /\ own (AppErrorLogger ld projectID appID (fm, d)).2.2) /\
  (forall l, (ProjectLogger ld projectID (fm, d)).1 = Some l -> log_file root projectID ["project.log"] (lg_File l)) /\
  (forall l, (ProjectEventsLogger ld projectID (fm, d)).1 = Some l -> log_file root projectID ["events.jsonl"] (lg_File l)) /\
  (forall l, (AppLogger ld projectID appID (fm, d)).1 = Some l -> log_file root projectID ["apps"; TrimSpace appID; "app.log"] (lg_File l)) /\
  (forall l, (AppErrorLogger ld projectID appID (fm, d)).1 = Some l -> log_file root projectID ["apps"; TrimSpace appID; "app.err.log"] (lg_File l)) /\
  (forall p, ProjectLogPath ld (Some fm) projectID = Ok p -> log_file root projectID ["project.log"] p) /\
  (forall rel l, fm_handles fm !! rel = Some l -> exists project rest, Forall plain (project :: rest) /\
     lg_File l = Join_path (root :: "projects" :: project :: rest)) /\
  (forall a b p, plain a -> plain b -> a <> b -> in_project root a p -> in_project root b p ->
     p = root \/ p = Join_path [root; "projects"]).
Proof.
  intros [Hr Hh]%managed_ok. cbn [fst] in Hr, Hh. cbv zeta. split_and!.
  - destruct (EnsureProject _ _ _ _ _) eqn:E; by eapply confined_project.
  - destruct (EnsureApp _ _ _ _ _) eqn:E; by eapply confined_app.
  - destruct (ProjectLogger _ _ _) eqn:E. by eapply logs_project in E as [? _].
  - destruct (ProjectEventsLogger _ _ _) eqn:E. by eapply logs_project in E as [? _].
  - destruct (AppLogger _ _ _ _) eqn:E. by eapply logs_app in E as [? _].
  - destruct (AppErrorLogger _ _ _ _) eqn:E. by eapply logs_app in E as [? _].
  - destruct (ProjectLogger _ _ _) eqn:E. by eapply (project_logger_file _ _ (fm, d)) in E as [_ ?].
  - destruct (ProjectEventsLogger _ _ _) eqn:E. by eapply (project_logger_file _ _ (fm, d)) in E as [_ ?].
  - destruct (AppLogger _ _ _ _) eqn:E. by eapply (app_logger_file _ _ _ (fm, d)) in E as [_ ?].
  - destruct (AppErrorLogger _ _ _ _) eqn:E. by eapply (app_logger_file _ _ _ (fm, d)) in E as [_ ?].
  - intros p. by apply log_path_file.
  - intros rel l (project & rest & Hp & _ & Hl)%Hh. by exists project, rest.
  - intros a b p. by apply in_project_apart.
Qed.
End Disk.
End Names.

(** ** A disk that records what is written *)

Module LogDemo.
#[export] Instance recording : Disk (list string) := {|
  Getwd _ := Ok "/srv/api"; MkdirAll p d := (Ok tt, d ++ [p]); open_append p d := (Ok tt, d ++ [p]);
  close_opened _ d := (Ok tt, d); close_writer _ d := (Ok tt, d)
|}.
#[export] Instance recording_laws : DiskLaws (D := list string).
Proof. by intros d wd [= <-]. Qed.

Definition ascii_only (r : rune) : bool := false.
Definition rot : rotationConfig := mkRotation 50 7 14 true.
Definition meta : Metadata := mkMetadata "0.19.4" "abc" "".
Definition manager : FileManager := mkFileManager "/srv/api/logs" meta rot ∅.

(** A manager that has opened the log of a project and closed it again. *)
Definition after_close : FileManager * list string :=
  run_call ascii_only CallClose (run_call ascii_only (CallProjectLogger "p1") (manager, ["/srv/api/logs"; "/srv/api/logs/projects"])).

Definition p2_logger : Logger :=
  mkLogger "/srv/api/logs/projects/p2/project.log" rot (globalFields meta ++ [("project_id", "p2")]).

Lemma opened : (ProjectLogger ascii_only " p2 " (after_close.1, after_close.2)).1 = Some p2_logger.
Proof. by vm_compute. Qed.

Lemma log_files_confined_witness : log_file (fm_root after_close.1) " p2 " ["project.log"] (lg_File p2_logger).
Proof.
  assert (Hm : managed ascii_only (after_close.1, after_close.2)).
  { rewrite <- surjective_pairing. apply managed_call, managed_call. by apply (managed_new ascii_only "logs" rot meta []). }
  exact (proj1 (proj2 (log_files_confined ascii_only after_close.1 after_close.2 " p2 " "web" [] Hm)) p2_logger opened).
Defined.

(** The files of a project with one application. *)
Example project_files :
  (EnsureProject ascii_only "/logs" "p1" ["web"] []).1 = Ok tt /\
  ProjectLogPath ascii_only (Some (mkFileManager "/logs" meta rot ∅)) "p1" = Ok "/logs/projects/p1/project.log" /\
  ProjectLogPath ascii_only (Some (mkFileManager "/logs" meta rot ∅)) "../p1" = Err "path separator not allowed" /\
  ProjectLogPath ascii_only (Some (mkFileManager "/logs" meta rot ∅)) ".." = Err "path segment cannot be ..".
Proof. vm_compute. done. Qed.
End LogDemo.
