(* ===== verification/EventPageProofs.v ===== *)
(** Cursors of the event list survive their text, and what following them leaves out. *)

From Stdlib Require Import Ascii ZArith Lia.
From stdpp Require Import base gmap strings list sorting.
From S2P Require Import CursorOrder Prelude Utf8 GoStrings Hash GoTime NetURL Events Store StoreApps StoreProofs Config Tenancy TenancyProofs.
From S2P Require Import TenancyWitness EventPages LogFileProofs.

Local Open Scope Z_scope.

(** ** The calendar *)

Lemma year_of_era doe yoe : 0 <= doe <= 146096 -> yoe = (doe - doe / 1460 + doe / 36524 - doe / 146096) / 365 ->
  0 <= yoe <= 399 /\ 0 <= doe - (365 * yoe + yoe / 4 - yoe / 100) <= 365.
Proof. intros H ->. split; Z.to_euclidean_division_equations; lia. Qed.

(** The last day of a year that starts in March exists in leap years only. *)
Lemma leap_day doe yoe : 0 <= doe <= 146096 -> yoe = (doe - doe / 1460 + doe / 36524 - doe / 146096) / 365 ->
  doe - (365 * yoe + yoe / 4 - yoe / 100) = 365 ->
  (yoe + 1) mod 4 = 0 /\ ((yoe + 1) mod 100 <> 0 \/ (yoe + 1) mod 400 = 0).
Proof. intros H ->. Z.to_euclidean_division_equations; lia. Qed.

Lemma civil_spec days y m d : civil days = (y, m, d) -> days_of y m d = days /\ 1 <= m <= 12 /\ 1 <= d <= days_in m y.
Proof.
  unfold civil. cbv zeta. set (z := days + 719468). set (era := z / 146097). set (doe := z mod 146097).
  set (yoe := (doe - doe / 1460 + doe / 36524 - doe / 146096) / 365). set (doy := doe - (365 * yoe + yoe / 4 - yoe / 100)).
  set (mp := (5 * doy + 2) / 153).
  assert (Hd : 0 <= doe <= 146096) by (pose proof (Z.mod_pos_bound z 146097 eq_refl); lia).
  destruct (year_of_era doe yoe Hd eq_refl) as [Hy Hdoy]. fold doy in Hdoy. pose proof (leap_day doe yoe Hd eq_refl) as Hl. fold doy in Hl.
  assert (Hz : z = 146097 * era + doe) by (apply Z.div_mod; done).
  assert (Hmp : 0 <= mp <= 11) by (unfold mp; Z.to_euclidean_division_equations; lia).
  intros [= <- <- <-]. split; [|split].
  - unfold days_of. assert (Hs : ((if mp <? 10 then mp + 3 else mp - 9) <=? 2) = (10 <=? mp)) by (destruct (mp <? 10) eqn:E; lia).
    rewrite Hs. assert (Hy' : (if 10 <=? mp then (if 10 <=? mp then yoe + era * 400 + 1 else yoe + era * 400) - 1
      else if 10 <=? mp then yoe + era * 400 + 1 else yoe + era * 400) = yoe + era * 400) by (destruct (10 <=? mp); lia).
    rewrite Hy'. rewrite Z.div_add, Z_mod_plus_full, Z.div_small, Z.mod_small by lia.
    assert (Hm' : (if 2 <? (if mp <? 10 then mp + 3 else mp - 9) then (if mp <? 10 then mp + 3 else mp - 9) - 3
      else (if mp <? 10 then mp + 3 else mp - 9) + 9) = mp) by (destruct (mp <? 10) eqn:E; destruct (2 <? _) eqn:E2; lia).
    rewrite Hm'. unfold doy. lia.
  - destruct (mp <? 10) eqn:E; lia.
  - assert (Hlow : (153 * mp + 2) / 5 <= doy) by (unfold mp; Z.to_euclidean_division_equations; lia).
    split; [lia|]. unfold days_in. destruct ((if mp <? 10 then mp + 3 else mp - 9) =? 2) eqn:E2.
    + assert (Hm : mp = 11) by (destruct (mp <? 10) eqn:E; lia). rewrite Hm. change (11 <? 10) with false. cbv iota. change (11 - 9 <=? 2) with true. cbv iota.
      change ((153 * 11 + 2) / 5) with 337. unfold leap.
      assert (Hd4 : (yoe + era * 400 + 1) mod 4 = (yoe + 1) mod 4) by (replace (yoe + era * 400 + 1) with (yoe + 1 + era * 100 * 4) by lia; apply Z_mod_plus_full).
      assert (Hd100 : (yoe + era * 400 + 1) mod 100 = (yoe + 1) mod 100) by (replace (yoe + era * 400 + 1) with (yoe + 1 + era * 4 * 100) by lia; apply Z_mod_plus_full).
      assert (Hd400 : (yoe + era * 400 + 1) mod 400 = (yoe + 1) mod 400) by (replace (yoe + era * 400 + 1) with (yoe + 1 + era * 400) by lia; apply Z_mod_plus_full).
      rewrite Hd4, Hd100, Hd400. destruct (decide (doy = 365)) as [E5|E5].
      * destruct (Hl E5) as [-> [H1|H1]]; [|rewrite H1; by rewrite E5, orb_true_r].
        apply Z.eqb_neq in H1. rewrite H1, E5. done.
      * clearbody doy. destruct (_ && _); lia.
    + assert (Hcase : doy <= (153 * mp + 2) / 5 + 30 /\ (mp = 1 \/ mp = 3 \/ mp = 6 \/ mp = 8 -> doy <= (153 * mp + 2) / 5 + 29))
        by (unfold mp; Z.to_euclidean_division_equations; lia).
      cbn [existsb]. destruct Hcase as [H1 H2]. destruct (mp <? 10) eqn:E; repeat case_match; lia.
Qed.

(** ** Digits *)

Lemma digit_of_dig n : digit_of (dig n) = Some (n mod 10).
Proof.
  unfold digit_of, dig. pose proof (Z.mod_pos_bound n 10 eq_refl).
  assert (H0 : bz (byte_of_Z (48 + n mod 10)) = 48 + n mod 10) by (apply bz_byte_of_Z; lia).
  assert (is_digit (byte_of_Z (48 + n mod 10)) = true) as -> by (unfold is_digit; rewrite H0; apply in_range_true; lia).
  rewrite H0. f_equal. lia.
Qed.

Lemma take_two n l : 0 <= n < 100 -> take_digits 2 0 (two n ++ l) = Some (n, l).
Proof.
  intros H. unfold two. cbn [app take_digits]. rewrite !digit_of_dig. cbn. repeat f_equal. Z.to_euclidean_division_equations; lia.
Qed.

Lemma take_four n l : 0 <= n < 10000 -> take_digits 4 0 (four n ++ l) = Some (n, l).
Proof.
  intros H. unfold four. cbn [app take_digits]. rewrite !digit_of_dig. cbn. repeat f_equal. Z.to_euclidean_division_equations; lia.
Qed.

Lemma is_digit_dig n : is_digit (dig n) = true.
Proof. pose proof (digit_of_dig n) as H. unfold digit_of in H. by destruct (is_digit (dig n)). Qed.

(** ** Fractions *)

Definition six (us : Z) : list ascii := dig (us / 100000) :: dig (us / 10000) :: four us.

Lemma six_val us : 0 <= us < 1000000 -> digits_val (six us) = us.
Proof.
  intros H. unfold digits_val, six, four. cbn [foldl]. unfold dig.
  rewrite !bz_byte_of_Z by (match goal with |- context [?a mod 10] => pose proof (Z.mod_pos_bound a 10 eq_refl) end; lia).
  Z.to_euclidean_division_equations; lia.
Qed.

(** The zeros a fraction is printed without. *)
Lemma stripped_zeros l : exists k, reverse (drop_while (Ascii.eqb "0") (reverse l)) ++ replicate k "0"%char = l.
Proof.
  induction l as [|c l IH] using rev_ind; [by exists 0%nat|]. rewrite reverse_snoc. cbn [drop_while]. destruct (Ascii.eqb "0" c) eqn:E.
  - apply Ascii.eqb_eq in E as <-. destruct IH as [k IH]. exists (S k). rewrite replicate_S_end, app_assoc, IH. done.
  - exists 0%nat. rewrite reverse_cons, reverse_involutive, app_nil_r. done.
Qed.

Lemma span_all ds c rest : Forall (fun d => is_digit d = true) ds -> is_digit c = false -> span_digits (ds ++ c :: rest) = (ds, c :: rest).
Proof.
  intros H Hc. induction H as [|d ds Hd _ IH]; cbn [app span_digits]; [by rewrite Hc|]. by rewrite Hd, IH.
Qed.

Lemma take_fraction_ok us rest : 0 <= us < 1000000 -> take_fraction (fraction us ++ "Z"%char :: rest) = (us, "Z"%char :: rest).
Proof.
  intros H. unfold fraction. destruct (us =? 0) eqn:E0; [assert (us = 0) as -> by lia; by destruct rest|].
  change (dig (us / 100000) :: dig (us / 10000) :: four us) with (six us).
  destruct (stripped_zeros (six us)) as [k Hk]. set (ds := reverse _) in *.
  assert (Hd : Forall (fun d => is_digit d = true) ds).
  { assert (Forall (fun d => is_digit d = true) (six us)) as Hs by (unfold six, four; repeat constructor; apply is_digit_dig).
    rewrite <- Hk in Hs. by apply Forall_app in Hs as [Hs _]. }
  destruct ds as [|c ds'] eqn:Eds.
  { exfalso. cut (us = 0); [lia|]. rewrite <- (six_val us) by done. rewrite <- Hk. clear. cbn [app]. unfold digits_val.
    induction k as [|k IH]; [done|]. cbn [replicate foldl]. exact IH. }
  rewrite <- Eds in *. cbn [app take_fraction]. rewrite Eds at 1. cbn [app].
  assert (is_digit c = true) as -> by (rewrite Eds in Hd; by apply Forall_cons in Hd as [? _]).
  cbn [tail]. change (Ascii.eqb "." "." || Ascii.eqb "." ",") with true. cbn [andb].
  rewrite span_all by done. f_equal. transitivity (digits_val (six us)); [|by apply six_val]. f_equal.
  assert (Hlen : (length ds + k = 6)%nat) by (apply (f_equal length) in Hk; rewrite length_app, length_replicate in Hk; exact Hk).
  rewrite <- Hk. rewrite take_app_ge by lia. f_equal. rewrite take_replicate. f_equal. lia.
Qed.

(** ** Instants *)

(** The year has four digits. *)
Definition printable (t : Z) : Prop := let '(y, _, _) := civil (t / 1000000 / 86400) in 0 <= y < 10000.

Lemma eat_ok c l : eat c (c :: l) = Some l.
Proof. unfold eat. by rewrite Ascii.eqb_refl. Qed.

Lemma take_hour n l : 0 <= n < 100 -> one_or_two (two n ++ l) = Some (n, l).
Proof. intros H. unfold one_or_two. by rewrite take_two. Qed.

Lemma time_round_trip t : printable t -> time_Parse (FormatRFC3339Nano t) = Some t.
Proof.
  unfold printable, FormatRFC3339Nano, format_date. cbv zeta. set (s := t / 1000000). destruct (civil (s / 86400)) as [[y mo] d] eqn:Ec.
  intros Hy. apply civil_spec in Ec as (Hd & Hm & Hdd).
  assert (Hdim : days_in mo y <= 31) by (unfold days_in; repeat case_match; lia).
  assert (Hh : 0 <= Hour s < 24) by (unfold Hour; Z.to_euclidean_division_equations; lia).
  assert (Hmi : 0 <= s mod 3600 / 60 < 60) by (Z.to_euclidean_division_equations; lia).
  assert (Hse : 0 <= s mod 60 < 60) by (Z.to_euclidean_division_equations; lia).
  pose proof (Z.mod_pos_bound t 1000000 eq_refl) as Hus.
  unfold time_Parse. rewrite chars_of_chars, <- !app_assoc.
  rewrite take_four by lia. cbn [mbind option_bind app]. rewrite eat_ok. cbn [mbind option_bind].
  rewrite take_two by lia. cbn [mbind option_bind app]. rewrite eat_ok. cbn [mbind option_bind].
  rewrite take_two by lia. cbn [mbind option_bind app]. rewrite eat_ok. cbn [mbind option_bind].
  rewrite take_hour by lia. cbn [mbind option_bind app]. rewrite eat_ok. cbn [mbind option_bind].
  rewrite take_two by lia. cbn [mbind option_bind app]. rewrite eat_ok. cbn [mbind option_bind].
  rewrite take_two by lia. cbn [mbind option_bind app]. rewrite take_fraction_ok by lia.
  cbn [take_zone]. rewrite Ascii.eqb_refl. cbn [mbind option_bind]. rewrite bool_decide_eq_true_2 by done.
  rewrite !(proj2 (Z.leb_le _ _)), !(proj2 (Z.ltb_lt _ _)) by lia. cbn [andb]. f_equal. rewrite Hd. unfold Hour, s.
  Z.to_euclidean_division_equations; lia.
Qed.

(** ** Cursors *)

Definition no_bar (l : list ascii) : Prop := Forall (fun c => c <> "|"%char) l.

Lemma dig_no_bar n : dig n <> "|"%char.
Proof. intros E. pose proof (is_digit_dig n) as H. by rewrite E in H. Qed.

Lemma format_no_bar t : no_bar (chars (FormatRFC3339Nano t)).
Proof.
  unfold FormatRFC3339Nano, format_date. cbv zeta. destruct (civil _) as [[y m] d]. rewrite chars_of_chars.
  unfold no_bar. repeat (apply Forall_app; split); unfold four, two; repeat (constructor; [apply dig_no_bar || done|]); try constructor.
  unfold fraction. destruct (_ =? 0); [constructor|]. constructor; [done|].
  destruct (stripped_zeros (six (t mod 1000000))) as [k Hk]. assert (no_bar (six (t mod 1000000))) as Hs.
  { unfold no_bar, six, four. repeat (constructor; [apply dig_no_bar|]). constructor. }
  rewrite <- Hk in Hs. by apply Forall_app in Hs as [Hs _].
Qed.

Lemma cursor_round_trip t id : printable t -> id <> "" -> TrimSpace id = id -> no_bar (chars id) ->
  decodeEventCursor (encodeEventCursor t id) = Some (t, id).
Proof.
  intros Ht Hi Htr Hb. unfold encodeEventCursor, decodeEventCursor, Split. pose proof Hi as Hi'. apply str_eqb_neq in Hi'. rewrite Hi'.
  rewrite !chars_app. cbn [chars app]. rewrite split_list_app, !split_list_single by (done || apply format_no_bar).
  cbn [fmap list_fmap app]. rewrite !of_chars_chars, time_round_trip by done. cbn. by rewrite Htr, Hi'.
Qed.

Lemma cursor_not_blank t id : id <> "" -> TrimSpace id = id -> blank (encodeEventCursor t id) = false.
Proof.
  intros Hi Htr. apply blank_false. unfold encodeEventCursor. apply str_eqb_neq in Hi. rewrite Hi.
  unfold FormatRFC3339Nano, format_date. cbv zeta. destruct (civil _) as [[y m] d]. eapply trim_space_solid_head.
  - rewrite chars_app, chars_of_chars. unfold four. cbn [app]. reflexivity.
  - unfold solid. rewrite (proj2 (Z.ltb_lt _ _)) by (pose proof (dig_bz (y / 1000)); lia). cbn.
    apply negb_true_iff. unfold space1. pose proof (dig_bz (y / 1000)). apply orb_false_iff. split; [|lia].
    apply not_true_iff_false. rewrite in_range_true. lia.
Qed.

(** ** Pages *)

Section Pages.
Context `{pg : Postgres} (sql_lower : string -> string) (sql_like : string -> string -> bool).

Definition with_cursor (f : ProjectEventFilter) (c : string) : ProjectEventFilter :=
  mkEventFilter (ef_Kinds f) (ef_Severities f) (ef_ActorUserID f) (ef_Since f) (ef_Limit f) c (ef_Search f).

(** The events of a project that the filter asks for, newest first. *)
Definition timeline (d : DB) (project : string) (f : ProjectEventFilter) : list ProjectEvent :=
  merge_sort event_order (List.filter (fun e => str_eqb (e_ProjectID e) project && event_matches sql_lower sql_like f e) (d_events d)).

(** Rows as the table holds them: different identifiers, canonical and without a bar or white
    space around them, and years that are printed with four digits. *)
Definition event_row_ok (e : ProjectEvent) : Prop :=
  printable (e_At e) /\ uuid_in (e_ID e) = Some (e_ID e) /\ e_ID e <> "" /\ TrimSpace (e_ID e) = e_ID e /\ no_bar (chars (e_ID e)).
Definition events_ok (d : DB) : Prop := NoDup (e_ID <$> d_events d) /\ Forall event_row_ok (d_events d).

Lemma nodup_filter {A B} (g : A -> B) (f : A -> bool) l : NoDup (g <$> l) -> NoDup (g <$> List.filter f l).
Proof.
  induction l as [|x l IH]; [done|]. rewrite fmap_cons, NoDup_cons. intros [Hx Hn]. cbn. destruct (f x); [|by apply IH].
  rewrite fmap_cons, NoDup_cons. split; [|by apply IH]. intros (y & Hy & Hin)%list_elem_of_fmap. apply Hx.
  apply list_elem_of_In, filter_In in Hin as [Hin%list_elem_of_In _]. apply list_elem_of_fmap. eauto.
Qed.

Lemma timeline_sorted d project f : events_ok d -> StronglySorted (Newer e_At e_ID) (timeline d project f).
Proof.
  intros [Hn _]. apply strictly_sorted; [|apply Sorted_StronglySorted, (Sorted_merge_sort _); apply _].
  unfold timeline. rewrite merge_sort_Permutation. by apply nodup_filter.
Qed.

Lemma timeline_row d project f e : events_ok d -> e ∈ timeline d project f -> event_row_ok e.
Proof.
  intros [_ Hr] He. unfold timeline in He. rewrite merge_sort_Permutation in He. rewrite Forall_forall in Hr. apply Hr.
  by apply list_elem_of_In, filter_In in He as [He%list_elem_of_In _].
Qed.

(** A query returns the events of the timeline behind its cursor. *)
Lemma list_events_ok projectID f d page d' : events_ok d -> store_ListProjectEvents sql_lower sql_like projectID f d = (Ok page, d') ->
  exists project cursor, uuid_in projectID = Some project /\ cursor_param f = Ok cursor /\ d_events d' = d_events d /\
    page = page_of (Z.to_nat (event_limit (ef_Limit f)))
             (take (S (Z.to_nat (event_limit (ef_Limit f)))) (List.filter (before_event cursor) (timeline d project f))).
Proof.
  intros [Hn _]. unfold store_ListProjectEvents. destruct (blank projectID); [done|].
  intros (now & d0 & H & ->)%stmt_ok. apply bind_ok in H as (project & Hp%uuid_ok & H). apply bind_ok in H as (cursor & Hc & H).
  injection H as <- <-. exists project, cursor. split_and!; [done..|]. do 2 f_equal. unfold timeline.
  rewrite <- sort_filter by by apply nodup_filter. f_equal. clear. induction (d_events d) as [|e l IH]; [done|]. cbn.
  destruct (str_eqb (e_ProjectID e) project && event_matches sql_lower sql_like f e); cbn; [destruct (before_event cursor e)|]; cbn; by rewrite IH.
Qed.

Lemma page_of_full limit rows : page_of limit (take (S limit) rows) =
  match rows !! limit with
  | Some last => mkEventPage (take limit rows) (encodeEventCursor (e_At last) (e_ID last))
  | None => mkEventPage rows ""
  end.
Proof.
  unfold page_of. rewrite lookup_take_lt by lia. destruct (rows !! limit) eqn:E; f_equal.
  - rewrite take_take. f_equal. lia.
  - apply lookup_ge_None in E. apply take_ge. lia.
Qed.

(** A page shows the newest matching events of the project in order, as many as the limit; the event
    after it names the next page, which starts behind that event, so that it is on neither of the
    two. *)
Theorem event_pages_skip projectID f d d1 d2 page page2 :
  events_ok d -> blank (ef_Cursor f) = true ->
  store_ListProjectEvents sql_lower sql_like projectID f d = (Ok page, d1) -> ep_NextCursor page <> "" ->
  store_ListProjectEvents sql_lower sql_like projectID (with_cursor f (ep_NextCursor page)) d1 = (Ok page2, d2) ->
  exists project skipped,
    let rows := timeline d project f in
    let limit := Z.to_nat (event_limit (ef_Limit f)) in
    uuid_in projectID = Some project /\ ep_Events page = take limit rows /\ rows !! limit = Some skipped /\
    ep_Events page2 = take limit (drop (S limit) rows) /\ skipped ∉ ep_Events page ++ ep_Events page2.
Proof.
  intros Hd Hb (project & cursor & Hp & Hc & Hev & ->)%list_events_ok Hnext H2; [|done].
  unfold cursor_param in Hc. rewrite Hb in Hc. injection Hc as <-.
  assert (Hall : List.filter (before_event None) (timeline d project f) = timeline d project f) by (clear; induction (timeline d project f); cbn; congruence).
  rewrite Hall, page_of_full in *. set (rows := timeline d project f) in *. set (limit := Z.to_nat _) in *.
  destruct (rows !! limit) as [e|] eqn:El; [|done]. cbn [ep_NextCursor ep_Events] in *.
  apply list_elem_of_lookup_2 in El as Hin. destruct (timeline_row _ _ _ _ Hd Hin) as (Ht & Hu & He & Htr & Hbar).
  assert (Hd1 : events_ok d1) by (unfold events_ok in *; by rewrite Hev).
  apply list_events_ok in H2 as (project2 & cursor & Hp2 & Hc & _ & ->); [|done]. rewrite Hp in Hp2. injection Hp2 as <-.
  unfold cursor_param, with_cursor in Hc. cbn [ef_Cursor] in Hc. rewrite cursor_round_trip in Hc by done.
  rewrite cursor_not_blank in Hc by done. unfold uuid in Hc. rewrite Hu in Hc. cbn in Hc.
  assert (Hcur : cursor = Some (e_At e, e_ID e)) by congruence.
  subst cursor. change (before_event (Some (e_At e, e_ID e))) with (newer_by e_At e_ID e).
  assert (Hrows : timeline d1 project (with_cursor f (encodeEventCursor (e_At e) (e_ID e))) = rows).
  { unfold rows, timeline. rewrite Hev. done. }
  rewrite Hrows. pose proof (timeline_sorted d project f Hd) as Hs. fold rows in Hs.
  rewrite <- (take_drop_middle rows limit e El) in Hs. 
  assert (Hrest : List.filter (newer_by e_At e_ID e) rows = drop (S limit) rows)
    by (rewrite <- (take_drop_middle rows limit e El) at 1; by apply after_rest).
  rewrite Hrest.
  exists project, e. split_and!; try done.
  - cbn [with_cursor ef_Limit]. fold limit. rewrite page_of_full. destruct (drop (S limit) rows !! limit) eqn:E2; [done|].
    cbn. symmetry. apply take_ge. by apply lookup_ge_None in E2.
  - apply sorted_once in Hs as [H1 H2]. rewrite not_elem_of_app. split; [done|]. intros Hx. apply H2.
    cbn [with_cursor ef_Limit] in Hx. fold limit in Hx. rewrite page_of_full in Hx.
    destruct (drop (S limit) rows !! limit); cbn in Hx; [|done]. apply elem_of_take in Hx as (i & Hi & _). by eapply list_elem_of_lookup_2.
Qed.
End Pages.

(** ** Three events, one to a page *)

Module EventDemo.
Import Demo.

Definition event (id : string) (at_ : Z) : ProjectEvent := mkEvent id "p" "" "" "DEPLOYED" "INFO" ("event " +:+ id) [] at_.
Definition events : DB := set_events (demo_db [] [] false) [event "a" 1; event "b" 2; event "c" 3].
Definition everything : ProjectEventFilter := mkEventFilter [] [] "" None 1 "" "".
Definition like (_ _ : string) : bool := true.
Definition listed := store_ListProjectEvents id like "p".

(** The pages that follow the cursors show the first and the last event. *)
Example one_event_lost :
  let '(r1, d1) := listed everything events in
  let page c := match listed (with_cursor everything c) d1 with (Ok p, _) => p | _ => mkEventPage [] "" end in
  match r1 with
  | Ok p1 => ep_Events p1 = [event "c" 3] /\ ep_NextCursor p1 = "1970-01-01T00:00:00.000002Z|b" /\
             ep_Events (page (ep_NextCursor p1)) = [event "a" 1] /\ ep_NextCursor (page (ep_NextCursor p1)) = ""
  | Err _ => False
  end.
Proof. vm_compute. done. Qed.

Lemma event_pages_skip_witness : exists project skipped,
  timeline id like events project everything !! 1%nat = Some skipped /\ skipped ∉ [event "c" 3; event "a" 1].
Proof.
  destruct (event_pages_skip id like "p" everything events (bump events) (bump (bump events))
              (mkEventPage [event "c" 3] "1970-01-01T00:00:00.000002Z|b") (mkEventPage [event "a" 1] ""))
    as (project & skipped & _ & _ & H & _ & Hn).
  - split; [repeat constructor; set_solver|]. repeat constructor; done.
  - reflexivity.
  - vm_compute. reflexivity.
  - discriminate.
  - vm_compute. reflexivity.
  - exists project, skipped. split; [exact H|exact Hn].
Defined.
End EventDemo.
