(* ===== verification/LogTail.v ===== *)
(** The tail of a project log: [tailProjectLog] of [internal/api/projects.go], a ring buffer over
    the lines of the file, and that it returns the last lines. *)

From Stdlib Require Import Ascii ZArith Lia.
From stdpp Require Import base strings list.
From S2P Require Import Prelude Utf8 GoStrings.

Inductive tail_error := ErrNotExist | errTailLimitExceeded (requested : Z) | TailError (text : string).

Definition maxProjectTailLines : Z := 5000.

Definition newline : ascii := ascii_of_nat 10.

(** What [reader.ReadBytes('\n')] returns until the end of the file, but for the empty chunk. *)
Fixpoint read_lines (l : list ascii) : list (list ascii) :=
  match l with
  | [] => []
  | c :: l =>
      if bool_decide (c = newline) then [c] :: read_lines l
      else match read_lines l with [] => [[c]] | w :: ws => (c :: w) :: ws end
  end.

Record ring := mkRing { r_slots : list (list ascii); r_count : nat; r_index : nat }.

Definition new_ring (lines : nat) : ring := mkRing (replicate lines []) 0 0.

Definition push (lines : nat) (r : ring) (chunk : list ascii) : ring :=
  mkRing (<[r_index r := chunk]> (r_slots r)) (if (r_count r <? lines)%nat then S (r_count r) else r_count r)
    (S (r_index r) mod lines).

(** The chunks in the ring, oldest first. *)
Definition unroll (lines : nat) (r : ring) : list ascii :=
  let start := (r_index r + lines - r_count r) mod lines in
  mjoin ((fun i => default [] (r_slots r !! ((start + i) mod lines))) <$> seq 0 (r_count r)).

(** The content of a file, and the error that ends reading it, if there is one. *)
Definition opened : Type := result tail_error (list ascii * option string).

Definition tailProjectLog (open : string -> opened) (path : string) (lines : Z) : result tail_error (list ascii) :=
  if (lines <=? 0)%Z then Ok []
  else if (maxProjectTailLines <? lines)%Z then Err (errTailLimitExceeded lines)
  else
    f ← open path;
    let n := Z.to_nat lines in
    let r := foldl (push n) (new_ring n) (read_lines f.1) in
    match f.2 with
    | Some e => Err (TailError e)
    | None => if (r_count r =? 0)%nat then Ok [] else Ok (unroll n r)
    end.

Lemma read_lines_join l : l = mjoin (read_lines l).
Proof.
  induction l as [|c l IH]; [done|]. cbn. case_bool_decide; [cbn; by f_equal|].
  destruct (read_lines l) as [|w ws]; cbn in *; by f_equal.
Qed.

(** ** The ring holds the last chunks *)

(** The last [n] elements. *)
Definition last_n {A} (n : nat) (l : list A) : list A := drop (length l - n) l.

Record holds (n : nat) (r : ring) (l : list (list ascii)) : Prop := {
  holds_length : length (r_slots r) = n;
  holds_count : r_count r = length l `min` n;
  holds_index : r_index r = length l mod n;
  holds_slots j : length l - n <= j < length l -> r_slots r !! (j mod n) = l !! j;
}.

Lemma holds_new n : holds n (new_ring n) [].
Proof.
  split; cbn; [by rewrite length_replicate|done| |lia]. by rewrite Nat.Div0.mod_0_l.
Qed.

(** Of [n] consecutive numbers no two have the same remainder. *)
Lemma mod_apart n i j : i < j -> j < i + n -> i mod n <> j mod n.
Proof.
  intros Hij Hn E. pose proof (Nat.div_mod_eq i n) as Hi. pose proof (Nat.div_mod_eq j n) as Hj.
  rewrite E in Hi. set (a := i / n) in *. set (b := j / n) in *. set (m := j mod n) in *. clearbody a b m.
  assert (a < b) as Hq by (destruct (Nat.lt_ge_cases a b) as [|Hle]; [done|]; pose proof (Nat.mul_le_mono_l _ _ n Hle); lia).
  pose proof (Nat.mul_le_mono_l (S a) b n Hq). lia.
Qed.

Lemma holds_push n r l c : 0 < n -> holds n r l -> holds n (push n r c) (l ++ [c]).
Proof.
  intros Hn [Hlen Hc Hi Hs]. assert (Hlt : r_index r < n) by (rewrite Hi; apply Nat.mod_upper_bound; lia).
  unfold push. split; cbn [r_slots r_count r_index]; rewrite ?length_insert, ?length_app; cbn [length]; [done| | |].
  - destruct (Nat.ltb_spec (r_count r) n); lia.
  - rewrite Hi, <- Nat.add_1_r. apply Nat.Div0.add_mod_idemp_l.
  - intros j Hj. destruct (decide (j = length l)) as [->|Hne].
    + rewrite <- Hi, list_lookup_insert_eq by lia. by rewrite lookup_app_r, Nat.sub_diag by lia.
    + rewrite lookup_app_l, list_lookup_insert_ne by (lia || (rewrite Hi; symmetry; apply mod_apart; lia)). apply Hs. lia.
Qed.

Lemma holds_all n l : 0 < n -> holds n (foldl (push n) (new_ring n) l) l.
Proof.
  intros Hn. induction l as [|c l IH] using rev_ind; [apply holds_new|]. rewrite foldl_snoc. by apply holds_push.
Qed.

Lemma unroll_holds n r l : 0 < n -> holds n r l -> unroll n r = mjoin (last_n n l).
Proof.
  intros Hn [Hlen Hc Hi Hs]. unfold unroll, last_n. f_equal. apply list_eq. intros i.
  rewrite list_lookup_fmap, lookup_drop. destruct (decide (i < r_count r)) as [Hlt|Hge].
  - rewrite lookup_seq_lt by done. cbn.
    replace (((r_index r + n - r_count r) mod n + i) mod n) with ((length l - r_count r + i) mod n).
    + rewrite Hs by lia. replace (length l - n + i) with (length l - r_count r + i) by lia.
      destruct (lookup_lt_is_Some_2 l (length l - r_count r + i)) as [x Hx]; [lia|]. by rewrite Hx.
    + rewrite Nat.Div0.add_mod_idemp_l, Hi. pose proof (Nat.div_mod_eq (length l) n) as Hd.
      pose proof (Nat.mod_upper_bound (length l) n ltac:(lia)). destruct (decide (length l < n)) as [Hl|Hl].
      * rewrite (Nat.mod_small (length l)) by done. rewrite Hc. replace (length l `min` n) with (length l) by lia.
        replace (length l + n - length l + i) with (i + 1 * n) by lia. rewrite Nat.Div0.mod_add. f_equal. lia.
      * rewrite Hc. replace (length l `min` n) with n by lia. set (q := length l / n) in *.
        assert (1 <= q) by (destruct q; nia).
        replace (length l - n + i) with (length l mod n + n - n + i + (q - 1) * n) by nia. by rewrite Nat.Div0.mod_add.
  - rewrite lookup_seq_ge by lia. cbn. symmetry. apply lookup_ge_None_2. lia.
Qed.

(** C35: with an admitted number of lines, the tail of a file that can be read to its end is the text of its
    last lines, all of them when it has fewer, and no more lines than were asked for. *)
Theorem tail_last_lines open path lines content :
  (0 <= lines <= maxProjectTailLines)%Z -> open path = Ok (content, None) ->
  tailProjectLog open path lines = Ok (mjoin (last_n (Z.to_nat lines) (read_lines content))) /\
  (exists earlier, content = earlier ++ mjoin (last_n (Z.to_nat lines) (read_lines content))) /\
  length (last_n (Z.to_nat lines) (read_lines content)) = length (read_lines content) `min` Z.to_nat lines.
Proof.
  intros [H0 Hm] Ho. set (ls := read_lines content). split; [|split].
  - unfold tailProjectLog. destruct (lines <=? 0)%Z eqn:E0.
    { assert (lines = 0%Z) as -> by lia. unfold last_n. cbn. by rewrite Nat.sub_0_r, drop_all. }
    destruct (maxProjectTailLines <? lines)%Z eqn:E1; [lia|]. rewrite Ho. cbn. fold ls.
    pose proof (holds_all (Z.to_nat lines) ls ltac:(lia)) as Hh. destruct (r_count _ =? 0) eqn:Ec.
    + apply Nat.eqb_eq in Ec. rewrite (holds_count _ _ _ Hh) in Ec. 
      assert (ls = []) as -> by (apply nil_length_inv; lia). by destruct (Z.to_nat lines).
    + by rewrite (unroll_holds _ _ ls) by (done || lia).
  - exists (mjoin (take (length ls - Z.to_nat lines) ls)). unfold last_n. rewrite <- join_app, take_drop. apply read_lines_join.
  - unfold last_n. rewrite length_drop. lia.
Qed.

Example tail_ex : let file := chars (String.concat (of_chars [newline]) ["a"; "b"; "c"]) in
  tailProjectLog (fun _ => Ok (file, None)) "p.log" 2 = Ok (drop 2 file).
Proof. vm_compute. reflexivity. Qed.

Lemma tail_last_lines_witness : let file := chars (String.concat (of_chars [newline]) ["a"; "b"; "c"]) in
  tailProjectLog (fun _ => Ok (file, None)) "p.log" 2 = Ok (mjoin (last_n 2 (read_lines file))).
Proof.
  intros file. destruct (tail_last_lines (fun _ => Ok (file, None)) "p.log" 2 file) as [H _]; [unfold maxProjectTailLines; lia|done|].
  exact H.
Defined.
