(* ===== verification/Logging.v ===== *)
(** Process logging and build metadata: [internal/logging/logging.go] and
    [internal/version/version.go].

    The level parser of the logging library and the check of a semantic version are arguments; a
    core of a logger is where it writes, behind the redactor.  Globals are the state
    [LogGlobals]; what is printed on the error stream is left out. *)

From Stdlib Require Import Ascii ZArith Lia.
From stdpp Require Import base gmap strings list.
From S2P Require Import Prelude Utf8 GoStrings NetURL NetIP Security Kube Config LogFiles.

(** ** Build metadata *)

Record Build := mkBuild { b_Version : string; b_Commit : string; b_Date : string }.

Definition fallbackDevVersion : string := "0.0.0-dev".

Definition withPrefix (v : string) : string :=
  if str_eqb v "" then v else if HasPrefix v "v" then v else "v" +:+ v.

Section Version.
(** [semver.IsValid] *)
Context (IsValid : string -> bool).

Definition normalizeSemver (v : string) : string :=
  let v := TrimSpace v in
  if str_eqb v "" then ""
  else
    let v := TrimPrefix v "v" in
    if IsValid (withPrefix v) then v else "".

Definition deriveMetadata (raw : Build) : result string Build :=
  let version := TrimSpace (b_Version raw) in
  if str_eqb version "" then Err "version metadata: version is required"
  else
    let normalized := normalizeSemver version in
    let version := if str_eqb normalized ""
                   then (let fallback := normalizeSemver fallbackDevVersion in
                         if str_eqb fallback "" then fallbackDevVersion else fallback)
                   else normalized in
    Ok (mkBuild version (TrimSpace (b_Commit raw)) (TrimSpace (b_Date raw))).
End Version.

(** ** Configuration *)

Record LogConfig := mkLogConfig {
  lc_Level : string; lc_Dir : string; lc_Root : string; lc_MaxSizeMB : Z; lc_MaxBackups : Z; lc_MaxAgeDays : Z;
  lc_Compress : bool; lc_AuditEnable : bool; lc_ClusterID : string
}.

Section Environment.
Context (LookupEnv : string -> option string).

Definition getenv (key def : string) : string := match LookupEnv key with Some v => TrimSpace v | None => def end.
Definition getenvInt (key : string) (def : Z) : Z :=
  match LookupEnv key with Some v => default def (Atoi (TrimSpace v)) | None => def end.
Definition getenvBool (key : string) (def : bool) : bool :=
  match LookupEnv key with
  | Some v =>
      let v := ToLower (TrimSpace v) in
      if existsb (str_eqb v) ["1"; "true"; "yes"; "y"; "on"] then true
      else if existsb (str_eqb v) ["0"; "false"; "no"; "n"; "off"] then false
      else def
  | None => def
  end.

Definition ReadConfig : LogConfig :=
  let root := getenv "LOGS_ROOT" "/var/log/kubeop" in
  let size := getenvInt "LOG_MAX_SIZE_MB" 50 in
  let backups := getenvInt "LOG_MAX_BACKUPS" 7 in
  let age := getenvInt "LOG_MAX_AGE_DAYS" 14 in
  mkLogConfig (getenv "LOG_LEVEL" "info") (getenv "LOG_DIR" root) root
    (if (size <=? 0)%Z then 50%Z else size) (if (backups <? 0)%Z then 7%Z else backups) (if (age <? 0)%Z then 14%Z else age)
    (getenvBool "LOG_COMPRESS" true) (getenvBool "AUDIT_ENABLED" true)
    (TrimSpace (default "" (LookupEnv "CLUSTER_ID"))).
End Environment.

(** ** Redaction *)

Definition isTokenChar (b : ascii) : bool :=
  let z := bz b in
  in_range 97 122 z || in_range 65 90 z || in_range 48 57 z || char_in "-_.:/+~" b.

(** The class [\s] of the pattern. *)
Definition is_blank (c : ascii) : bool := existsb (Z.eqb (bz c)) [9; 10; 12; 13; 32]%Z.

(** One letter of the pattern, case folded as Unicode does: the long s and the Kelvin sign are
    spellings of [s] and [k]. *)
Definition match_letter (k : ascii) (l : list ascii) : option (list ascii * list ascii) :=
  match l with
  | c :: t =>
      if Ascii.eqb (ascii_lower c) k then Some ([c], t)
      else match t with
      | d :: t' =>
          if (bz c =? 197)%Z && (bz d =? 191)%Z && Ascii.eqb k "s" then Some ([c; d], t')
          else match t' with
          | e :: t'' =>
              if (bz c =? 226)%Z && (bz d =? 132)%Z && (bz e =? 170)%Z && Ascii.eqb k "k" then Some ([c; d; e], t'') else None
          | [] => None
          end
      | [] => None
      end
  | [] => None
  end.

Fixpoint match_keyword (kw l : list ascii) : option (list ascii * list ascii) :=
  match kw with
  | [] => Some ([], l)
  | k :: kw =>
      match match_letter k l with
      | Some (a, l) => match match_keyword kw l with Some (b, r) => Some (a ++ b, r) | None => None end
      | None => None
      end
  end.

Definition keywords : list (list ascii) := chars <$> ["password"; "token"; "secret"; "apikey"; "authorization"].

(** The longest run of non-blank bytes. *)
Fixpoint span_solid (l : list ascii) : list ascii * list ascii :=
  match l with
  | c :: t => if is_blank c then ([], l) else let '(a, r) := span_solid t in (c :: a, r)
  | [] => ([], [])
  end.

(** A match at the start of [l]: the keyword, the value and what follows. *)
Definition match_one (kw l : list ascii) : option (list ascii * list ascii * list ascii) :=
  match match_keyword kw l with
  | Some (key, c :: t) => if Ascii.eqb c "=" then let '(v, r) := span_solid t in match v with [] => None | _ => Some (key, v, r) end else None
  | _ => None
  end.
Fixpoint match_first (kws : list (list ascii)) (l : list ascii) : option (list ascii * list ascii * list ascii) :=
  match kws with
  | [] => None
  | kw :: kws => match match_one kw l with Some m => Some m | None => match_first kws l end
  end.

(** The replacement of a match: the value up to its first other byte goes. *)
Definition redact_match (key value : list ascii) : list ascii :=
  key ++ chars "=REDACTED" ++ drop_while isTokenChar value.

(** [ReplaceAllFunc]: matches from left to right. *)
Fixpoint redact_loop (n : nat) (l : list ascii) : list ascii :=
  match n, l with
  | S n, c :: t =>
      match match_first keywords l with
      | Some (key, v, r) => redact_match key v ++ redact_loop n r
      | None => c :: redact_loop n t
      end
  | _, _ => l
  end.
Definition redact (l : list ascii) : list ascii := redact_loop (length l) l.

(** [redactingWriteSyncer.Write] of a writer that is set: the number of bytes or an error. *)
Definition Write {W} (ws : list ascii -> io W string unit) (p : list ascii) : io W string nat := fun w =>
  match ws (redact p) w with (Err e, w) => (Err e, w) | (Ok _, w) => (Ok (length p), w) end.

Example redact_ex : of_chars (redact (chars "user=ann Password=abc123, token=xyz done")) = "user=ann Password=REDACTED, token=REDACTED done".
Proof. vm_compute. reflexivity. Qed.

(** A value that starts with another byte stays as it is: quoted values, as in the JSON the
    encoder writes, are not hidden. *)
Example redact_quoted :
  let q := of_chars [ascii_of_nat 34] in
  of_chars (redact (chars ("password=" +:+ q +:+ "hunter2" +:+ q))) = "password=REDACTED" +:+ q +:+ "hunter2" +:+ q /\
  of_chars (redact (chars (q +:+ "password" +:+ q +:+ ":" +:+ q +:+ "hunter2" +:+ q))) = q +:+ "password" +:+ q +:+ ":" +:+ q +:+ "hunter2" +:+ q /\
  of_chars (redact (chars "password=p@ssw0rd")) = "password=REDACTED@ssw0rd".
Proof. vm_compute. done. Qed.

(** One match takes everything up to the next blank, so a second secret in it is not looked for. *)
Example redact_one_per_word :
  of_chars (redact (chars "password=a,token=xyz")) = "password=REDACTED,token=xyz" /\
  of_chars (redact (chars "token=password=abc")) = "token=REDACTED=abc".
Proof. vm_compute. done. Qed.

(** ** Loggers *)

Inductive sink := Stdout | LogFile (file : string) (rot : rotationConfig).
(** A core writes through the redactor from a level on. *)
Record core := mkCore { co_sink : sink; co_level : Z }.
Record ZapLogger := mkZap { z_cores : list core; z_fields : list (string * string) }.

Record Manager := mkManager {
  lm_cfg : LogConfig; lm_meta : Metadata; lm_level : Z; lm_auditLevel : Z;
  (** the writers that are open *)
  lm_appWriter : option (string * rotationConfig); lm_auditWriter : option (string * rotationConfig)
}.

(** [globalLogger] and [globalAudit]; a logger without cores is [zap.NewNop]. *)
Record LogGlobals := mkGlobals { g_logger : ZapLogger; g_audit : ZapLogger }.

Definition InfoLevel : Z := 0.

Definition rotation_of (cfg : LogConfig) : rotationConfig :=
  mkRotation (lc_MaxSizeMB cfg) (lc_MaxBackups cfg) (lc_MaxAgeDays cfg) (lc_Compress cfg).

Section Setup.
Context {D : Type} `{disk : Disk D} (ParseLevel : string -> option Z).

Definition parseLevel (level : string) : Z := default InfoLevel (ParseLevel (ToLower (TrimSpace level))).

(** The directory, when one is configured. *)
Definition made_dir (dir : string) : io D string (option (result string unit)) := fun d =>
  if str_eqb dir "" then (Ok None, d) else let '(r, d) := MkdirAll dir d in (Ok (Some r), d).

Definition close_if (w : option (string * rotationConfig)) : io D string unit := fun d =>
  match w with Some (file, _) => (Ok tt, (close_writer file d).2) | None => (Ok tt, d) end.

(** The manager and the loggers; the cores of the application logger come first in the result. *)
Definition rebuildLocked (initial : bool) (m : Manager) : io D string (Manager * LogGlobals) :=
  _ ← (if initial then mret tt else (_ ← close_if (lm_appWriter m); close_if (lm_auditWriter m)));
  let cfg := lm_cfg m in
  let lvl := parseLevel (lc_Level cfg) in
  let stdoutCore := mkCore Stdout lvl in
  made ← made_dir (lc_Dir cfg);
  let rot := rotation_of cfg in
  let dir_ok := match made with Some (Ok _) => true | _ => false end in
  let app := (Join_path [lc_Dir cfg; "app.log"], rot) in
  let audit := (Join_path [lc_Dir cfg; "audit.log"], rot) in
  let cores := stdoutCore :: (if dir_ok then [mkCore (LogFile app.1 rot) lvl] else []) in
  let fields := globalFields (lm_meta m) in
  let audit_file := lc_AuditEnable cfg && dir_ok in
  let auditLogger :=
    if lc_AuditEnable cfg
    then mkZap (if dir_ok then [mkCore (LogFile audit.1 rot) InfoLevel] else [stdoutCore]) fields
    else mkZap [] [] in
  mret (mkManager cfg (lm_meta m) lvl InfoLevel (if dir_ok then Some app else lm_appWriter m)
          (if audit_file then Some audit else lm_auditWriter m),
        mkGlobals (mkZap cores fields) auditLogger).

(** [globalFiles.Swap]: the files of an earlier set-up are closed. *)
Definition close_previous (prev : option FileManager) : io D string unit := fun d =>
  match prev with Some fm => (Ok tt, (Close (fm, d)).2.2) | None => (Ok tt, d) end.

Definition Setup (LookupEnv : string -> option string) (build : Build) (prev : option FileManager) (meta : Metadata)
    : io D string (Manager * LogGlobals * FileManager) :=
  let cfg := ReadConfig LookupEnv in
  let meta := mkMetadata (if blank (md_Version meta) then b_Version build else md_Version meta)
                (if blank (md_Commit meta) then b_Commit build else md_Commit meta)
                (if str_eqb (md_ClusterID meta) "" then lc_ClusterID cfg else md_ClusterID meta) in
  fm ← wrap_err (fun e => "setup file logging: " +:+ e) (NewFileManager (lc_Root cfg) (rotation_of cfg) meta);
  _ ← close_previous prev;
  r ← rebuildLocked true (mkManager cfg meta 0 0 None None);
  mret (r, fm).

Definition Reopen (m : Manager) : io D string (Manager * LogGlobals) := rebuildLocked false m.
End Setup.

(** [isIgnorableSyncErr] of an error that is not nil and not [os.ErrClosed] *)
Definition isIgnorableSyncErr (windows closed : bool) (err : string) : bool :=
  if closed then true
  else if windows then false
  else Contains err "bad file descriptor" || Contains err "invalid argument".

(** ** What is logged *)

(** Reading the environment never gives a size, a count or an age that switches rotation off. *)
Lemma ReadConfig_bounds env : let cfg := ReadConfig env in
  (0 < lc_MaxSizeMB cfg /\ 0 <= lc_MaxBackups cfg /\ 0 <= lc_MaxAgeDays cfg)%Z.
Proof.
  cbn. split_and!; case_match; lia.
Qed.

(** With auditing on there is somewhere to audit to, also when the directory cannot be made;
    with it off there is not. *)
Theorem audit_has_a_core {D} `{disk : Disk D} ParseLevel initial m (d : D) m' g d' :
  rebuildLocked ParseLevel initial m d = (Ok (m', g), d') ->
  (z_cores (g_audit g) <> [] <-> lc_AuditEnable (lm_cfg m) = true) /\ z_cores (g_logger g) <> [] /\
  mkCore Stdout (parseLevel ParseLevel (lc_Level (lm_cfg m))) ∈ z_cores (g_logger g).
Proof.
  unfold rebuildLocked. intros ([] & d1 & _ & H)%io_bind_ok. apply io_bind_ok in H as (made & d2 & _ & H). injection H as _ <- _. cbn.
  split_and!; [|done|by left]. destruct (lc_AuditEnable _); cbn; [|done]. destruct made as [[?|?]|]; done.
Qed.

(** ** Redaction hides values *)

(** A byte that ends every keyword: a blank or the equals sign. *)
Definition barrier (c : ascii) : bool := is_blank c || Ascii.eqb c "=".

Definition extend (r : list ascii) : list ascii * list ascii -> list ascii * list ascii := fun e => (e.1, e.2 ++ r).

Lemma barrier_not_letter c k t : barrier c = true -> k ∈ concat keywords -> match_letter k (c :: t) = None.
Proof.
  intros Hc Hk. assert (Hl : existsb (Ascii.eqb k) (concat keywords) = true).
  { apply existsb_exists. exists k. split; [by apply list_elem_of_In|]. apply Ascii.eqb_refl. }
  clear Hk. assert (H : Ascii.eqb (ascii_lower c) k = false /\ (bz c =? 197)%Z = false /\ (bz c =? 226)%Z = false).
  { revert Hl. byte_cases c; try discriminate Hc; intros Hl; (split; [|done]); apply not_true_iff_false; intros He%Ascii.eqb_eq; subst k; by vm_compute in Hl. }
  destruct H as (H1 & H2 & H3). cbn. rewrite H1, H2, H3. by destruct t as [|? []].
Qed.

Lemma barrier_low b : barrier b = true -> (bz b =? 191)%Z = false /\ (bz b =? 132)%Z = false /\ (bz b =? 170)%Z = false.
Proof. byte_cases b; try discriminate; done. Qed.

Lemma match_letter_app k l b r : barrier b = true -> k ∈ concat keywords ->
  match_letter k (l ++ b :: r) = extend (b :: r) <$> match_letter k l.
Proof.
  intros Hb Hk. pose proof (barrier_low b Hb) as (H1 & H2 & H3).
  destruct l as [|c [|d [|e l]]]; [by apply barrier_not_letter|..]; cbn; destruct (Ascii.eqb (ascii_lower c) k); try done;
    rewrite ?H1, ?H2, ?H3, ?andb_false_r; cbn.
  - by destruct r.
  - by destruct (_ && _).
  - destruct (_ && _); [done|]. by destruct (_ && _ && _ && _).
Qed.

Lemma match_keyword_app kw l b r : barrier b = true -> (forall k, k ∈ kw -> k ∈ concat keywords) ->
  match_keyword kw (l ++ b :: r) = extend (b :: r) <$> match_keyword kw l.
Proof.
  intros Hb. revert l. induction kw as [|k kw IH]; intros l Hk; [done|]. cbn [match_keyword].
  rewrite match_letter_app by (done || apply Hk; left). destruct (match_letter k l) as [[a l']|]; [|done]. cbn.
  rewrite IH by (intros k' Hk'; apply Hk; by right). by destruct (match_keyword kw l') as [[]|].
Qed.

Lemma keywords_letters kw k : kw ∈ keywords -> k ∈ kw -> k ∈ concat keywords.
Proof. intros Hkw Hk. apply list_elem_of_In, in_concat. exists kw. split; by apply list_elem_of_In. Qed.

Lemma span_solid_app l b r : is_blank b = true -> span_solid (l ++ b :: r) = extend (b :: r) (span_solid l).
Proof.
  intros Hb. induction l as [|c l IH]; cbn [app span_solid]; [by rewrite Hb|]. destruct (is_blank c); [done|]. rewrite IH. by destruct (span_solid l).
Qed.

Definition extend3 (r : list ascii) : list ascii * list ascii * list ascii -> list ascii * list ascii * list ascii :=
  fun e => (e.1, e.2 ++ r).

(** A blank ends every match. *)
Lemma match_first_app kws l b r : is_blank b = true -> (forall kw, kw ∈ kws -> kw ∈ keywords) ->
  match_first kws (l ++ b :: r) = extend3 (b :: r) <$> match_first kws l.
Proof.
  intros Hb Hkws. induction kws as [|kw kws IH]; [done|]. cbn [match_first].
  assert (Hone : match_one kw (l ++ b :: r) = extend3 (b :: r) <$> match_one kw l).
  { unfold match_one. rewrite match_keyword_app; [|unfold barrier; by rewrite Hb|intros k; apply keywords_letters, Hkws; left].
    destruct (match_keyword kw l) as [[key [|c t]]|]; cbn; [|destruct (Ascii.eqb c "="); [|done]; rewrite span_solid_app by done; by destruct (span_solid t) as [[]] |done].
    destruct (Ascii.eqb b "=") eqn:E; [|done]. apply Ascii.eqb_eq in E as ->. discriminate Hb. }
  rewrite Hone. destruct (match_one kw l); [done|]. cbn. apply IH. intros kw' H. apply Hkws. by right.
Qed.

Lemma match_letter_length k l a r : match_letter k l = Some (a, r) -> l = a ++ r /\ a <> [].
Proof.
  destruct l as [|c [|d [|e l]]]; cbn; repeat case_match; intros; by simplify_eq.
Qed.
Lemma match_keyword_length kw : forall l a r, match_keyword kw l = Some (a, r) -> l = a ++ r.
Proof.
  induction kw as [|k kw IH]; intros l a r; cbn; [by intros [= <- <-]|].
  destruct (match_letter k l) as [[x l']|] eqn:E; [|done]. apply match_letter_length in E as [-> _].
  destruct (match_keyword kw l') as [[y r']|] eqn:E; [|done]. apply IH in E as ->. intros [= <- <-]. by rewrite app_assoc.
Qed.
Lemma span_solid_split l a r : span_solid l = (a, r) -> l = a ++ r.
Proof.
  revert a. induction l as [|c l IH]; intros a; cbn [span_solid]; [by intros [= <- <-]|]. destruct (is_blank c); [by intros [= <- <-]|].
  destruct (span_solid l) as [a' r'] eqn:E. intros [= <- <-]. cbn. by rewrite (IH a').
Qed.
Lemma match_first_split kws l key v r : match_first kws l = Some (key, v, r) -> l = key ++ "="%char :: v ++ r.
Proof.
  induction kws as [|kw kws IH]; cbn; [done|]. destruct (match_one kw l) as [m|] eqn:E; [|done]. intros [= ->]. unfold match_one in E.
  destruct (match_keyword kw l) as [[key' [|c t]]|] eqn:Ek; [done| |done]. apply match_keyword_length in Ek as ->.
  destruct (Ascii.eqb c "=") eqn:Ec; [|done]. apply Ascii.eqb_eq in Ec as ->. destruct (span_solid t) as [v' r'] eqn:Es.
  apply span_solid_split in Es as ->. destruct v'; [done|]. by intros; simplify_eq.
Qed.

(** ** Fuel *)

Lemma redact_fuel n : forall l, length l <= n -> redact_loop n l = redact l.
Proof.
  induction n as [n IH] using lt_wf_ind. intros l Hl. unfold redact. destruct l as [|c t]; [by destruct n|].
  destruct n as [|n]; [cbn in Hl; lia|]. cbn [redact_loop length]. destruct (match_first keywords (c :: t)) as [[[key v] r]|] eqn:E.
  - apply match_first_split in E. assert (Hr : length r <= length t).
    { apply (f_equal length) in E. rewrite length_app in E. cbn in E. rewrite length_app in E. lia. }
    cbn in Hl. by rewrite (IH n), (IH (length t)) by lia.
  - cbn in Hl. by rewrite (IH n) by lia.
Qed.

Lemma redact_cons c t : redact (c :: t) =
  match match_first keywords (c :: t) with Some (key, v, r) => redact_match key v ++ redact r | None => c :: redact t end.
Proof.
  unfold redact at 1. cbn [length redact_loop]. destruct (match_first keywords (c :: t)) as [[[key v] r]|] eqn:E; [|done].
  apply match_first_split in E. rewrite redact_fuel; [done|]. apply (f_equal length) in E. rewrite length_app in E. cbn in E. rewrite length_app in E. lia.
Qed.

(** Redaction goes blank by blank. *)
Lemma redact_blank b r : is_blank b = true -> forall l, redact (l ++ b :: r) = redact l ++ b :: redact r.
Proof.
  intros Hb. assert (Hgen : forall n l, length l <= n -> redact (l ++ b :: r) = redact l ++ b :: redact r); [|by intros l; apply (Hgen (length l))].
  induction n as [|n IH]; intros [|c l] Hl; try (cbn in Hl; lia).
  1, 2: change ([] ++ b :: r) with (b :: r); rewrite redact_cons; change (b :: r) with ([] ++ b :: r) at 1; by rewrite match_first_app.
  change ((c :: l) ++ b :: r) with (c :: (l ++ b :: r)). rewrite !redact_cons. change (c :: (l ++ b :: r)) with ((c :: l) ++ b :: r).
  rewrite match_first_app by done. destruct (match_first keywords (c :: l)) as [[[key v] t]|] eqn:E.
  - apply match_first_split in E. cbn [fmap option_fmap option_map extend3 fst snd]. rewrite IH; [by rewrite app_assoc|].
    apply (f_equal length) in E. rewrite length_app in E. cbn in E, Hl. rewrite length_app in E. lia.
  - cbn [fmap option_fmap option_map app]. rewrite IH; [done|cbn in Hl; lia].
Qed.

(** [key] is a keyword, in capitals or not. *)
Definition spelling (key : list ascii) : Prop := exists kw, kw ∈ keywords /\ match_keyword kw key = Some (key, []).

Lemma spelling_letters key : spelling key -> "="%char ∉ key.
Proof.
  intros (kw & Hkw & H). assert (Hg : forall kw l a r, (forall k, k ∈ kw -> k ∈ concat keywords) -> match_keyword kw l = Some (a, r) -> "="%char ∉ a).
  { clear. induction kw as [|k kw IH]; intros l a r Hk; cbn [match_keyword]; [intros [= <- _]; set_solver|].
    destruct (match_letter k l) as [[x l']|] eqn:E; [|done]. destruct (match_keyword kw l') as [[y r']|] eqn:E'; [|done].
    intros [= <- <-] [Hx|Hy]%elem_of_app; [|eapply IH; [|exact E'|exact Hy]; intros k' Hk'; apply Hk; by right].
    assert (Hm : forall t, match_letter k ("="%char :: t) = None) by (intros t; apply barrier_not_letter; [done|apply Hk; left]).
    clear -E Hx Hm. destruct l as [|c [|d [|e l]]]; cbn in E; repeat case_match; simplify_eq;
      repeat match goal with H : _ ∈ _ :: _ |- _ => apply elem_of_cons in H as [<-|H] | H : _ ∈ [] |- _ => by apply elem_of_nil in H end;
      try (specialize (Hm []); unfold match_letter in Hm; match goal with H : _ = true |- _ => rewrite H in Hm end; discriminate);
      rewrite ?andb_true_iff in *; destruct_and?; discriminate. }
  eapply Hg; [|exact H]. intros k. by apply keywords_letters.
Qed.

Lemma span_solid_token v post : Forall (fun c => isTokenChar c = true) v -> span_solid (v ++ post) = (v ++ (span_solid post).1, (span_solid post).2).
Proof.
  induction 1 as [|c v Hc Hv IH]; [apply surjective_pairing|]. cbn [app span_solid]. rewrite IH.
  assert (is_blank c = false) as ->; [|done]. clear -Hc. revert Hc. byte_cases c; done.
Qed.

Lemma drop_token v rest : Forall (fun c => isTokenChar c = true) v -> drop_while isTokenChar (v ++ rest) = drop_while isTokenChar rest.
Proof. induction 1 as [|c v Hc Hv IH]; [done|]. cbn [app drop_while]. by rewrite Hc. Qed.

Lemma match_first_spelling key v post : spelling key -> v <> [] -> Forall (fun c => isTokenChar c = true) v ->
  match_first keywords (key ++ "="%char :: v ++ post) = Some (key, v ++ (span_solid post).1, (span_solid post).2).
Proof.
  intros Hkey Hne Hv. pose proof (spelling_letters key Hkey) as Heq. destruct Hkey as (kw & Hkw & Hm).
  assert (Hgen : forall kws, (forall k, k ∈ kws -> k ∈ keywords) -> kw ∈ kws ->
    match_first kws (key ++ "="%char :: v ++ post) = Some (key, v ++ (span_solid post).1, (span_solid post).2)); [|by apply Hgen].
  induction kws as [|k kws IH]; intros Hall Hin; [by apply elem_of_nil in Hin|]. cbn [match_first].
  assert (Hone : match_one k (key ++ "="%char :: v ++ post) = None \/
    match_one k (key ++ "="%char :: v ++ post) = Some (key, v ++ (span_solid post).1, (span_solid post).2)).
  { unfold match_one. rewrite match_keyword_app; [|done|intros c; apply keywords_letters, Hall; left].
    destruct (match_keyword k key) as [[a [|c t]]|] eqn:E; cbn [fmap option_fmap option_map extend fst snd app]; [| |by left].
    - apply match_keyword_length in E. rewrite app_nil_r in E. subst a. right. change (Ascii.eqb "=" "=") with true. cbn [andb].
      rewrite span_solid_token by done. destruct v; [done|]. done.
    - left. destruct (Ascii.eqb c "=") eqn:Ec; [|done]. apply Ascii.eqb_eq in Ec as ->. apply match_keyword_length in E. subst key. set_solver. }
  destruct Hone as [Hone|Hone]; rewrite Hone; [|done]. apply IH; [intros k' Hk'; apply Hall; by right|].
  apply elem_of_cons in Hin as [->|Hin]; [|done]. exfalso. unfold match_one in Hone.
  rewrite match_keyword_app in Hone; [|done|intros c; apply keywords_letters, Hall; left]. rewrite Hm in Hone. cbn [fmap option_fmap option_map extend fst snd app] in Hone.
  change (Ascii.eqb "=" "=") with true in Hone. cbn [andb] in Hone. rewrite span_solid_token in Hone by done. by destruct v.
Qed.

Lemma redact_value pre key v post :
  pre = [] \/ (exists l b, pre = l ++ [b] /\ is_blank b = true) -> spelling key -> v <> [] ->
  Forall (fun c => isTokenChar c = true) v ->
  redact (pre ++ key ++ "="%char :: v ++ post) =
  redact pre ++ key ++ chars "=REDACTED" ++ drop_while isTokenChar (span_solid post).1 ++ redact (span_solid post).2.
Proof.
  intros Hpre Hkey Hne Hv. assert (Hnil : redact (key ++ "="%char :: v ++ post) =
    key ++ chars "=REDACTED" ++ drop_while isTokenChar (span_solid post).1 ++ redact (span_solid post).2).
  { destruct (key ++ "="%char :: v ++ post) as [|c t] eqn:E; [by destruct key|]. rewrite redact_cons, <- E, match_first_spelling by done.
    unfold redact_match. by rewrite drop_token, <- !app_assoc. }
  destruct Hpre as [->|(l & b & -> & Hb)]; [done|]. rewrite <- app_assoc. cbn [app]. rewrite redact_blank, Hnil by done.
  change ((l ++ [b])) with (l ++ b :: []). rewrite redact_blank by done. by rewrite <- app_assoc.
Qed.

Lemma span_solid_run tail rest : Forall (fun c => is_blank c = false) tail ->
  match rest with [] => True | b :: _ => is_blank b = true end -> span_solid (tail ++ rest) = (tail, rest).
Proof.
  intros Ht Hr. induction Ht as [|c tail Hc Ht IH]; cbn [app span_solid].
  - destruct rest as [|b rest]; [done|]. cbn [span_solid]. by rewrite Hr.
  - by rewrite Hc, IH.
Qed.

(** C39: where a keyword starts the line or follows a blank, in any capitals, and is given
    a value, the token characters the value starts with are not written: what is written in their
    place does not depend on them. What comes before the keyword and what comes from the next
    blank on is redacted on its own. What lies between, from the first other byte of the value up
    to the next blank, is written as it is, be it a keyword with a value of its own. *)
Theorem redaction_hides pre key v tail rest :
  pre = [] \/ (exists l b, pre = l ++ [b] /\ is_blank b = true) -> spelling key ->
  v <> [] -> Forall (fun c => isTokenChar c = true) v ->
  match tail with [] => True | c :: _ => isTokenChar c = false end -> Forall (fun c => is_blank c = false) tail ->
  match rest with [] => True | b :: _ => is_blank b = true end ->
  redact (pre ++ key ++ "="%char :: v ++ tail ++ rest) =
  redact pre ++ key ++ chars "=REDACTED" ++ tail ++ redact rest.
Proof.
  intros Hpre Hkey Hne Hv Ht Hs Hr. rewrite redact_value, span_solid_run by done. cbn [fst snd].
  destruct tail as [|c tail]; [done|]. cbn [drop_while]. by rewrite Ht.
Qed.

Lemma redaction_hides_witness :
  redact (chars "login Password=hunter2,token=xyz token=abc") =
  redact (chars "login ") ++ chars "Password" ++ chars "=REDACTED" ++ chars ",token=xyz" ++ redact (chars " token=abc").
Proof.
  apply (redaction_hides (chars "login ") (chars "Password") (chars "hunter2") (chars ",token=xyz") (chars " token=abc")).
  - right. exists (chars "login"), " "%char. split; reflexivity.
  - exists (chars "password"). split; [left|reflexivity].
  - discriminate.
  - repeat constructor.
  - reflexivity.
  - repeat constructor.
  - reflexivity.
Defined.
