(* ===== verification/Http.v ===== *)
(** HTTP requests on their way to the handlers: [internal/http/middleware/logging.go] and
    [audit.go], and [internal/api/auth.go].

    A request is what [net/http] and the router hand out: headers under their canonical names,
    the parameters of the query and the values of its context.  Of the log lines, latency and
    size of the response are left out, and of the response the header that repeats the
    identifier of the request. *)

From Stdlib Require Import Ascii ZArith Lia.
From stdpp Require Import base gmap strings list.
From S2P Require Import Prelude Utf8 GoStrings Config Events Workload.

(** ** Requests and responses *)

Record Request := mkRequest {
  rq_Method : string;
  rq_Path : string;
  rq_Query : list (string * string);
  rq_Header : list (string * string);
  (** or why it cannot be read *)
  rq_Body : result string string;
  rq_RemoteAddr : string;
  rq_ContentLength : Z;
  (** the context: [middleware.RequestIDKey], [ctxUserID] and [ctxTenantID] *)
  rq_ID : string;
  rq_UserID : option string;
  rq_TenantID : option string;
}.

(** [Get] of a header and of the query: the first value, or the empty string. *)
Definition get_first (l : list (string * string)) (k : string) : string :=
  default "" (snd <$> List.find (fun e => str_eqb e.1 k) l).
Definition header (r : Request) : string -> string := get_first (rq_Header r).
Definition query (r : Request) : string -> string := get_first (rq_Query r).

Definition with_request_id (r : Request) (id : string) : Request :=
  mkRequest (rq_Method r) (rq_Path r) (rq_Query r) (rq_Header r) (rq_Body r) (rq_RemoteAddr r) (rq_ContentLength r) id
    (rq_UserID r) (rq_TenantID r).
Definition WithUserID (r : Request) (user : string) : Request :=
  mkRequest (rq_Method r) (rq_Path r) (rq_Query r) (rq_Header r) (rq_Body r) (rq_RemoteAddr r) (rq_ContentLength r) (rq_ID r)
    (Some user) (rq_TenantID r).
Definition WithTenantID (r : Request) (tenant : string) : Request :=
  mkRequest (rq_Method r) (rq_Path r) (rq_Query r) (rq_Header r) (rq_Body r) (rq_RemoteAddr r) (rq_ContentLength r) (rq_ID r)
    (rq_UserID r) (Some tenant).

Definition UserIDFromContext (r : Request) : string := default "" (rq_UserID r).
Definition tenantID (r : Request) : string := default "" (rq_TenantID r).

(** ** Log entries *)

Record AccessEntry := mkAccess {
  ac_RequestID : string; ac_Method : string; ac_Path : string; ac_Status : Z; ac_RemoteIP : string; ac_UserAgent : string;
  ac_BytesIn : Z; ac_TenantID : string; ac_UserID : string; ac_Err : string
}.
Record AuditEntry := mkAudit {
  au_RequestID : string; au_ActorUserID : string; au_TenantID : string; au_Verb : string; au_Resource : string;
  au_ResourceID : string; au_Status : Z; au_IP : string; au_Reason : string
}.
Inductive LogEntry :=
| LogAccess (level : string) (e : AccessEntry)
| LogAudit (e : AuditEntry).

(** The value given to [writeJSON] or the text given to [http.Error] is of type [P]; the last
    field is the error of writing it to the client, empty when there was none. *)
Record Response (P : Type) := mkResponse { rs_Status : Z; rs_ContentType : string; rs_Body : P; rs_WriteError : string }.
Arguments mkResponse {P}. Arguments rs_Status {P}. Arguments rs_ContentType {P}. Arguments rs_Body {P}. Arguments rs_WriteError {P}.

(** No response when the handler panics: nothing behind it in the chain runs then. *)
Definition handler (W P : Type) : Type := Request -> W -> option (Response P) * list LogEntry * W.

(** ** logging.go *)

Definition remoteIP (r : Request) : string :=
  let forwarded := TrimSpace (header r "X-Forwarded-For") in
  if negb (str_eqb forwarded "") then TrimSpace (default "" (head (Split forwarded ","%char)))
  else
    let real := TrimSpace (header r "X-Real-Ip") in
    if negb (str_eqb real "") then real
    else match cut_list ":"%char (reverse (chars (rq_RemoteAddr r))) with
         | Some (_, before) => of_chars (reverse before)
         | None => rq_RemoteAddr r
         end.

Definition bytesIn (r : Request) : Z := if (0 <? rq_ContentLength r)%Z then rq_ContentLength r else 0%Z.

Definition redactUserAgent (ua : string) : string := if Contains (ToLower ua) "token" then "redacted" else ua.

Definition isProbe (path : string) : bool := str_eqb path "/healthz" || str_eqb path "/readyz".

Definition access_level (r : Request) (status : Z) : string :=
  if isProbe (rq_Path r) then "debug" else if (400 <=? status)%Z then "warn" else "info".

(** [fresh]: the identifier drawn when the request has none. *)
Definition AccessLog {W P} (fresh : W -> string) (next : handler W P) : handler W P := fun r w =>
  let r := if str_eqb (rq_ID r) "" then with_request_id r (fresh w) else r in
  let '(resp, logs, w) := next r w in
  let entry resp := mkAccess (rq_ID r) (rq_Method r) (rq_Path r) (rs_Status resp) (remoteIP r)
                 (redactUserAgent (header r "User-Agent")) (bytesIn r) (tenantID r) (UserIDFromContext r) (rs_WriteError resp) in
  match resp with
  | Some resp => (Some resp, logs ++ [LogAccess (access_level r (rs_Status resp)) (entry resp)], w)
  | None => (None, logs, w)
  end.

(** ** audit.go *)

Definition isAuditMethod (method : string) : bool :=
  existsb (str_eqb (ToUpper method)) ["POST"; "PUT"; "PATCH"; "DELETE"].

Definition shouldSkipAudit (path : string) : bool :=
  if str_eqb path "" then false else isProbe path || HasPrefix path "/metrics".

Definition sensitive (s : string) : bool :=
  let lowered := ToLower s in Contains lowered "token" || Contains lowered "secret" || Contains lowered "password".

Definition redactPathSegment (s : string) : string := if sensitive s then "redacted" else s.
Definition redactError (msg : string) : string := if sensitive msg then "redacted" else msg.

Definition splitPath (path : string) : list string :=
  let path := Trim path "/" in
  if str_eqb path "" then [] else redactPathSegment <$> Split path "/"%char.

Definition auditResource (path : string) : string :=
  match splitPath path with
  | [] => ""
  | s :: rest => if str_eqb s "v1" then match rest with r :: _ => r | [] => "v1" end else s
  end.

Definition auditResourceID (path : string) : string :=
  match splitPath path with
  | [] => ""
  | s :: rest =>
      if str_eqb s "v1" && (2 <? length (s :: rest))%nat then Join (drop 1 rest) "/"
      else if (1 <? length (s :: rest))%nat then Join rest "/" else ""
  end.

(** [http.StatusText] of the codes the handlers use. *)
Definition StatusText (status : Z) : string :=
  match status with
  | 400 => "Bad Request" | 401 => "Unauthorized" | 403 => "Forbidden" | 404 => "Not Found"
  | 405 => "Method Not Allowed" | 428 => "Precondition Required" | 500 => "Internal Server Error"
  | 503 => "Service Unavailable" | _ => ""
  end%Z.

Definition audit_reason {P} (resp : Response P) : string :=
  if (rs_Status resp <? 400)%Z then ""
  else let reason := redactError (rs_WriteError resp) in
       if str_eqb reason "" then StatusText (rs_Status resp) else reason.

Definition audit_entry {P} (r : Request) (resp : Response P) : AuditEntry :=
  mkAudit (rq_ID r) (UserIDFromContext r) (tenantID r) (ToUpper (rq_Method r)) (auditResource (rq_Path r))
    (auditResourceID (rq_Path r)) (rs_Status resp) (remoteIP r) (audit_reason resp).

Definition AuditLog {W P} (next : handler W P) : handler W P := fun r w =>
  let '(resp, logs, w) := next r w in
  match resp with
  | Some resp =>
      if negb (isAuditMethod (rq_Method r)) || shouldSkipAudit (rq_Path r) then (Some resp, logs, w)
      else (Some resp, logs ++ [LogAudit (audit_entry r resp)], w)
  | None => (None, logs, w)
  end.

(** ** auth.go *)

Inductive jwt_method := SigningMethodHMAC (name : string) | OtherMethod (name : string).
Record Token := mkToken { tok_Valid : bool; tok_Claims : option Meta }.

(** github.com/golang-jwt/jwt: parsing with a key function, and the signature of a token. *)
Class JWT := {
  jwt_Parse : (jwt_method -> result string string) -> string -> result string Token;
  jwt_Verify : jwt_method -> string -> string -> bool;
}.

(** A token that is valid was verified with the key its key function gave for its method. *)
Class JWTLaws `{JWT} := {
  parse_verified keyfunc s tok : jwt_Parse keyfunc s = Ok tok -> tok_Valid tok = true ->
    exists method key, keyfunc method = Ok key /\ jwt_Verify method key s = true;
}.

Definition keyfunc (secret : string) (m : jwt_method) : result string string :=
  match m with SigningMethodHMAC _ => Ok secret | OtherMethod _ => Err "signature is invalid" end.

Definition claim (claims : Meta) (k : string) : option string :=
  match lookup_meta claims k with Some (AString s) => Some s | _ => None end.

(** The first of the claims that is not blank, without the white space around it. *)
Definition claims_actor (claims : Meta) : string :=
  let text k := TrimSpace (default "" (claim claims k)) in
  let actor := text "sub" in
  let actor := if str_eqb actor "" then text "user_id" else actor in
  if str_eqb actor "" then text "email" else actor.

Section Auth.
Context `{jwt : JWT}.

(** The status and text of a refusal, or the actor. *)
Definition authorise (secret authz : string) : result (Z * string) string :=
  if str_eqb authz "" || negb (HasPrefix authz "Bearer ") then Err (401%Z, "missing bearer token")
  else match jwt_Parse (keyfunc secret) (TrimPrefix authz "Bearer ") with
  | Err _ => Err (401%Z, "invalid token")
  | Ok tok =>
      if negb (tok_Valid tok) then Err (401%Z, "invalid token")
      else match tok_Claims tok with
      | None => Err (401%Z, "invalid token")
      | Some claims =>
          if match claim claims "role" with Some role => negb (str_eqb role "admin") | None => true end
          then Err (403%Z, "forbidden")
          else Ok (claims_actor claims)
      end
  end.

(** [error]: what [http.Error] sends. *)
Definition AdminAuthMiddleware {W P} (cfg : Config) (error : string -> P) (next : handler W P) : handler W P := fun r w =>
  if cfg_DisableAuth cfg then next r w
  else match authorise (cfg_AdminJWTSecret cfg) (header r "Authorization") with
  | Err (status, text) => (Some (mkResponse status "text/plain; charset=utf-8" (error text) ""), [], w)
  | Ok actor => next (if str_eqb actor "" then r else WithUserID r actor) w
  end.
End Auth.
