(* ===== verification/ApiRequests.v ===== *)
(** What the handlers of [internal/api] read from a request: the structs of the bodies with
    their decoding, the parameters of the query, and [internal/util/decode.go]. *)

From Stdlib Require Import Ascii ZArith Lia.
From stdpp Require Import base gmap strings list.
From S2P Require Import Prelude Utf8 GoStrings Crypto Json Config Events Workload Sources Plan Clusters Credentials Tenancy Templates Http Documents.

(** ** util/decode.go *)

(** The first argument is not looked at. *)
Definition DecodeKubeconfig (kubeconfig kubeconfigB64 : string) : result string string :=
  let b64 := TrimSpace kubeconfigB64 in
  if str_eqb b64 "" then Err "kubeconfig_b64 is required"
  else match b64_decode b64 with
  | None => Err "invalid base64"
  | Some b => Ok (bytes_string b)
  end.

(** ** Queries *)

Definition parseCSV (raw : string) : list string :=
  let raw := TrimSpace raw in
  if str_eqb raw "" then []
  else List.filter (fun part => negb (str_eqb part "")) (TrimSpace <$> Split raw ","%char).

(** [strconv.ParseBool] *)
Definition ParseBool (s : string) : option bool :=
  if existsb (str_eqb s) ["1"; "t"; "T"; "TRUE"; "true"; "True"] then Some true
  else if existsb (str_eqb s) ["0"; "f"; "F"; "FALSE"; "false"; "False"] then Some false
  else None.

(** A number that falls back to a default when it is absent or malformed. *)
Definition query_int (r : Request) (name : string) (dflt : Z) : Z :=
  let v := query r name in
  if str_eqb v "" then dflt else default dflt (Atoi v).

(** ** Bodies of requests *)

Definition texts (m : Meta) (name : string) : option (list string) := doc_list any_text m name.

Record createClusterReq := mkCreateClusterReq {
  ccr_Name : string; ccr_Kubeconfig : string; ccr_KubeconfigB64 : string; ccr_Meta : ClusterMetadataInput
}.

(** [updateClusterReq], which holds what both requests give as metadata. *)
Definition updateClusterReq (m : Meta) : option ClusterMetadataInput :=
  owner ← doc_text m "owner"; contact ← doc_text m "contact"; env ← doc_text m "environment";
  region ← doc_text m "region"; server ← doc_text m "apiServer"; description ← doc_text m "description";
  tags ← texts m "tags";
  Some (mkMetadataInput owner contact env region server description tags).

Definition decode_createCluster (m : Meta) : option createClusterReq :=
  name ← doc_text m "name"; plain ← doc_text m "kubeconfig"; b64 ← doc_text m "kubeconfig_b64";
  meta ← updateClusterReq m;
  Some (mkCreateClusterReq name plain b64 meta).

Definition eventIngestPayload (m : Meta) : option EventInput :=
  project ← doc_text m "projectId"; app ← doc_text m "appId"; actor ← doc_text m "actorUserId"; kind ← doc_text m "kind";
  severity ← doc_text m "severity"; message ← doc_text m "message"; meta ← doc_meta m "meta";
  Some (mkEventInput project app actor kind severity message meta).

(** The events of a body; a body without a value counts as none. *)
Definition decode_events (b : decoded) : option (list EventInput) :=
  match b with
  | DecodeEOF => Some []
  | DecodeFailed => None
  | Decoded (AList l) => mapM (struct_value eventIngestPayload) l
  | Decoded v => if is_null v then Some [] else None
  end.

Definition customEventRequest (projectID : string) (m : Meta) : option EventInput :=
  kind ← doc_text m "kind"; severity ← doc_text m "severity"; message ← doc_text m "message"; app ← doc_text m "appId";
  meta ← doc_meta m "meta";
  Some (mkEventInput projectID app "" kind severity message meta).

(** *** Applications *)

Definition appPort (m : Meta) : option AppPort :=
  container ← doc_int m "containerPort"; service ← doc_int m "servicePort"; protocol ← doc_text m "protocol";
  type ← doc_text m "serviceType";
  Some (mkAppPort container service protocol type).

Definition appGitSpec (m : Meta) : option AppGitSpec :=
  url ← doc_text m "url"; ref ← doc_text m "ref"; path ← doc_text m "path"; mode ← doc_text m "mode";
  credential ← doc_text m "credentialId"; insecure ← doc_bool m "insecureSkipTLS";
  Some (mkGitSpec url ref path mode credential insecure).

Definition appOCIBundleSpec (m : Meta) : option AppOCIBundleSpec :=
  ref ← doc_text m "ref"; credential ← doc_text m "credentialId"; insecure ← doc_bool m "insecure";
  Some (mkBundleSpec ref credential insecure).

Definition toServiceGit (spec : option AppGitSpec) : option AppGitSpec :=
  (fun s => mkGitSpec (TrimSpace (g_URL s)) (TrimSpace (g_Ref s)) (TrimSpace (g_Path s)) (TrimSpace (g_Mode s))
              (TrimSpace (g_CredentialID s)) (g_InsecureSkipTLS s)) <$> spec.

Definition toServiceOCIBundle (spec : option AppOCIBundleSpec) : option AppOCIBundleSpec :=
  (fun s => mkBundleSpec (TrimSpace (ob_Ref s)) (TrimSpace (ob_CredentialID s)) (ob_Insecure s)) <$> spec.

(** [deployAppReq] as the input the handlers make of it, with the project of the body.
    [order]: the order in which a [range] visits a map. *)
Definition deployAppReq (order : gmap string string -> list (string * string)) (m : Meta) : option AppDeployInput :=
  project ← doc_text m "projectId"; name ← doc_text m "name"; flavor ← doc_text m "flavor";
  resources ← doc_strings m "resources"; replicas ← doc_opt_int m "replicas"; env ← doc_strings m "env";
  secrets ← texts m "secrets"; ports ← doc_list (struct_value appPort) m "ports"; domain ← doc_text m "domain";
  repo ← doc_text m "repo"; image ← doc_text m "image"; helm ← doc_opt_meta m "helm"; manifests ← texts m "manifests";
  secret ← doc_text m "webhookSecret"; git ← doc_ptr appGitSpec m "git"; bundle ← doc_ptr appOCIBundleSpec m "ociBundle";
  Some (mkDeployInput project name flavor resources replicas (order env) secrets ports domain repo secret image helm manifests
          (toServiceGit git) (toServiceOCIBundle bundle)).

Definition of_project (id : string) (i : AppDeployInput) : AppDeployInput :=
  mkDeployInput id (di_Name i) (di_Flavor i) (di_Resources i) (di_Replicas i) (di_Env i) (di_Secrets i) (di_Ports i)
    (di_Domain i) (di_Repo i) (di_WebhookSecret i) (di_Image i) (di_Helm i) (di_Manifests i) (di_Git i) (di_OciBundle i).

Definition scaleReq (m : Meta) : option Z := doc_int m "replicas".
Definition imageReq (m : Meta) : option string := doc_text m "image".

(** [attachConfigReq] and [attachSecretReq]: name, keys and prefix. *)
Definition attachReq (m : Meta) : option (string * list string * string) :=
  name ← doc_text m "name"; keys ← texts m "keys"; prefix ← doc_text m "prefix";
  Some (name, keys, prefix).
Definition detachReq (m : Meta) : option string := doc_text m "name".

(** *** Configs and secrets *)

Definition configCreateReq (m : Meta) : option (string * gmap string string) :=
  name ← doc_text m "name"; data ← doc_strings m "data"; Some (name, data).
Definition secretCreateReq (m : Meta) : option (string * string * gmap string string) :=
  name ← doc_text m "name"; type ← doc_text m "type"; data ← doc_strings m "stringData"; Some (name, type, data).

(** *** Credentials *)

Definition credentialScopeRequest (m : Meta) : option CredentialScopeInput :=
  type ← doc_text m "type"; id ← doc_text m "id"; Some (mkScopeInput type id).

Definition gitCredentialAuth (name : string) (scope : CredentialScopeInput) (m : Meta) : option GitCredentialCreateInput :=
  type ← doc_text m "type"; username ← doc_text m "username"; token ← doc_text m "token"; password ← doc_text m "password";
  key ← doc_text m "privateKey"; passphrase ← doc_text m "passphrase";
  Some (mkGitInput (TrimSpace name) scope type username token password key passphrase).

Definition createGitCredentialRequest (m : Meta) : option GitCredentialCreateInput :=
  name ← doc_text m "name"; scope ← doc_struct credentialScopeRequest m "scope";
  doc_struct (gitCredentialAuth name scope) m "auth".

Definition registryCredentialAuth (name registry : string) (scope : CredentialScopeInput) (m : Meta)
    : option RegistryCredentialCreateInput :=
  type ← doc_text m "type"; username ← doc_text m "username"; token ← doc_text m "token"; password ← doc_text m "password";
  Some (mkRegistryInput (TrimSpace name) (TrimSpace registry) scope type username token password).

Definition createRegistryCredentialRequest (m : Meta) : option RegistryCredentialCreateInput :=
  name ← doc_text m "name"; registry ← doc_text m "registry"; scope ← doc_struct credentialScopeRequest m "scope";
  doc_struct (registryCredentialAuth name registry scope) m "auth".

(** *** Users, projects and kubeconfigs *)

Definition kubeconfigEnsureRequest (m : Meta) : option (string * string * string) :=
  user ← doc_text m "userId"; project ← doc_text m "projectId"; cluster ← doc_text m "clusterId";
  Some (TrimSpace user, TrimSpace project, TrimSpace cluster).
Definition kubeconfigRotateRequest (m : Meta) : option string := TrimSpace <$> doc_text m "id".

Definition userBootstrapReq (m : Meta) : option UserBootstrapInput :=
  user ← doc_text m "userId"; name ← doc_text m "name"; email ← doc_text m "email"; cluster ← doc_text m "clusterId";
  Some (mkBootstrapInput user name email cluster).
Definition userRenewReq (m : Meta) : option string := doc_text m "clusterId".

Definition createProjectReq (order : gmap string string -> list (string * string)) (m : Meta) : option ProjectCreateInput :=
  user ← doc_text m "userId"; email ← doc_text m "userEmail"; name ← doc_text m "userName"; cluster ← doc_text m "clusterId";
  project ← doc_text m "name"; overrides ← doc_strings m "quotaOverrides";
  Some (mkCreateInput user email name cluster project (order overrides)).
Definition quotaPatchReq (order : gmap string string -> list (string * string)) (m : Meta) : option (list (string * string)) :=
  order <$> doc_strings m "overrides".

(** *** Templates and maintenance *)

Definition templateCreateReq (m : Meta) : option TemplateCreateInput :=
  name ← doc_text m "name"; kind ← doc_text m "kind"; description ← doc_text m "description"; schema ← doc_meta m "schema";
  defaults ← doc_meta m "defaults"; example ← doc_meta m "example"; base ← doc_meta m "base";
  delivery ← doc_text m "deliveryTemplate";
  Some (mkTemplateInput name kind description schema defaults example base delivery).
Definition templateValuesReq (m : Meta) : option Meta := doc_meta m "values".
Definition maintenanceUpdateReq (m : Meta) : option (bool * string) :=
  enabled ← doc_bool m "enabled"; text ← doc_text m "message"; Some (enabled, text).
