(* ===== verification/Api.v ===== *)
(** The HTTP API: the handlers of [internal/api], the route table of [NewRouter] and the chain
    of middleware in front of it.

    What a handler gives to [writeJSON] is a [payload]; its encoding and the texts of service
    errors are left out.  The router (chi) with its middleware for panics, Prometheus,
    [http.ServeContent] and the files of the log directory are the record [API] of parameters;
    so is the view the operations on deployed applications have of database and clusters. *)

From Stdlib Require Import Ascii ZArith Lia.
From stdpp Require Import base gmap strings list pretty.
From S2P Require Import AppOps Prelude Utf8 GoStrings Hash Kube Crypto Json Config Events Maintenance Workload Store StoreApps.
From S2P Require Import Tenancy Clusters Credentials Sources GitFiles Plan Releases Deploy Status Templates EventPages LogFiles LogTail.
From S2P Require Import Http Documents ApiRequests.

(** ** Responses *)

Inductive payload :=
(** [map[string]string{"error": err.Error()}] and the same with a text *)
| PError (e : svc_error)
| PErrorText (text : string)
(** ["decode json: "] and the error of the decoder *)
| PDecodeError
| PState (status : string)
| PNotReady (error : string)
| PName (name : string)
(** not JSON *)
| PText (text : string)
| PErrorBody (e : svc_error)
| POutside (id : nat)
| PVersion (version commit date : string)
| PCluster (c : ClusterRow)
| PClusterView (c : ClusterRow * option ClusterStatus)
| PClusters (l : list (ClusterRow * option ClusterStatus))
| PHealth (h : ClusterHealth)
| PHealths (l : list ClusterHealth)
| PStatuses (l : list ClusterStatus)
| PUser (u : User)
| PUsers (l : list User)
| PBootstrap (o : UserBootstrapOutput)
| PProject (p : Project) (kubeconfigB64 : string)
| PProjects (l : list Project)
| PProjectStatus (s : ProjectStatus)
| PQuota (s : ProjectQuotaSnapshot)
| PKubeconfig (b64 : string)
| PBinding (o : KubeconfigEnsureOutput)
| PRotated (o : string * string * string)
| PCredential (o : CredentialOutput)
| PCredentials (l : list CredentialOutput)
| PCredentialSecret (o : CredentialOutput) (s : CredentialSecret)
| PDeployed (o : AppDeployOutput)
| PValidation (o : AppValidationOutput)
| PAppStatuses (l : list AppStatusView)
| PAppStatus (s : AppStatusView)
| PDelivery (d : AppDeliveryInfo)
| PReleases (l : list ReleaseView) (next : string)
| PNames (l : list string)
| PSecrets (l : list (string * string))
| PTemplate (t : TemplateDetail)
| PTemplates (l : list TemplateSummary)
| PRendered (o : TemplateRenderOutput)
| PEvent (e : ProjectEvent)
| PEvents (p : ProjectEventPage)
| PIngested (s : EventIngestSummary)
| PMaintenance (m : MaintenanceState).

Definition writeJSON (status : Z) (v : payload) : Response payload := mkResponse status "application/json" v "".
Definition http_Error (text : payload) (status : Z) : Response payload := mkResponse status "text/plain; charset=utf-8" text "".
Definition error_json (status : Z) (text : string) : Response payload := writeJSON status (PErrorText text).
Definition bad_request : string -> Response payload := error_json 400.

(** ** Errors *)

Fixpoint panicked (e : svc_error) : bool :=
  match e with EPanic => true | EWrap _ e => panicked e | _ => false end.

(** [errors.Is(err, sql.ErrNoRows)] *)
Fixpoint is_no_rows (e : svc_error) : bool :=
  match e with ENoRows => true | EWrap _ e => is_no_rows e | _ => false end.

(** [errors.As(err, &MaintenanceError{})] *)
Fixpoint as_maintenance (e : svc_error) : option string :=
  match e with EOp (MaintenanceError text) => Some text | EWrap _ e => as_maintenance e | _ => None end.

Definition writeMaintenanceError (e : svc_error) : option (Response payload) :=
  text ← as_maintenance e;
  let trimmed := TrimSpace text in
  Some (error_json 503 (if str_eqb trimmed "" then "maintenance mode enabled"
                        else "maintenance mode enabled: " +:+ trimmed)).

(** The answers to an error the handlers share: a status for every error, with [sql.ErrNoRows]
    apart, and each of them behind [writeMaintenanceError]. *)
Definition refuse (status : Z) (e : svc_error) : Response payload := writeJSON status (PError e).
Definition refuse_or_404 (e : svc_error) : Response payload := refuse (if is_no_rows e then 404 else 400) e.
Definition or_maintenance (answer : svc_error -> Response payload) (e : svc_error) : Response payload :=
  default (answer e) (writeMaintenanceError e).

(** [errors.Is(err, ErrInvalidMaintenanceInput)] *)
Definition invalid_input (e : svc_error) : bool :=
  match e with
  | EOp (OpError (Sprintf f args)) => HasPrefix f "%w" && bool_decide (head args = Some "invalid maintenance input")
  | _ => false
  end.

(** ** What the API is made of *)

(** [API.hc]: nil, the service itself, or another checker. *)
Inductive HealthChecker (W : Type) := NilChecker | ServiceChecker | OtherChecker (Health : W -> option string).
Arguments NilChecker {W}. Arguments ServiceChecker {W}. Arguments OtherChecker {W}.

Inductive routed := NotRouted (resp : Response payload) | Routed (index : nat) (params : list (string * string)).

Record API (W : Type) := mkAPI {
  (** [a.svc] is not nil *)
  api_svc : bool;
  api_hc : HealthChecker W;
  (** [DB().PingContext] *)
  api_Ping : W -> option string;
  (** [version.Metadata().Build] *)
  api_Build : string * string * string;
  api_Metrics : Request -> W -> Response payload;
  (** [logging.Files()], the files of the log directory, and [http.ServeContent] *)
  api_Files : option FileManager;
  (** [unicode.IsLetter] or [unicode.IsDigit] *)
  api_letters : rune -> bool;
  api_open : string -> opened;
  api_stat : string -> result string Z;
  ServeContent : Request -> string -> Z -> list ascii * option string -> Response payload;
  (** [time.Now] as the annotation of a restart has it, and the identifier of a request without one *)
  api_Now : W -> string;
  api_NewString : W -> string;
  (** the order in which a [range] visits a map *)
  api_range : gmap string string -> list (string * string);
  (** [LOWER] and [LIKE] *)
  api_lower : string -> string;
  api_like : string -> string -> bool;
  (** the router: methods and patterns, the request, and the route with its parameters *)
  chi_Route : list (string * string) -> string -> string -> routed;
  (** the answer of [chimw.Recoverer] *)
  chi_Recovered : Response payload;
}.
Arguments api_svc {W}. Arguments api_hc {W}. Arguments api_Ping {W}. Arguments api_Build {W}. Arguments api_Metrics {W}.
Arguments api_Files {W}. Arguments api_letters {W}. Arguments api_open {W}. Arguments api_stat {W}. Arguments ServeContent {W}. Arguments api_Now {W}.
Arguments api_NewString {W}. Arguments api_range {W}. Arguments api_lower {W}. Arguments api_like {W}.
Arguments chi_Route {W}. Arguments chi_Recovered {W}.

Section Api.
Context {Q K C R CS : Type} `{plat : Platform Q K C R CS} `{pg : Postgres} `{rem : Remote K} `{git : GitHost K}.
Context `{apl : AppPlatform Q K C CS} `{sp : StatusPlatform K C CS} `{eng : TemplateEngine K} `{jwt : JWT}.
Local Abbreviation W := (World K C R).
Local Abbreviation svc := (io W svc_error).
Context `{ops : AppOpsAPI W C}.
Context (cfg : Config) (encKey : bytes) (ensureOperatorFn : option (string -> string -> svc unit)) (a : API W).

(** What a handler does with the world: a response, or a panic. *)
Definition action : Type := W -> option (Response payload) * W.
Definition endpoint : Type := list (string * string) -> Request -> action.

Definition URLParam (ps : list (string * string)) (k : string) : string := get_first ps k.
Definition respond (resp : Response payload) : action := fun w => (Some resp, w).

(** [result, err := m; if err != nil { return err(err) }; return ok(result)] *)
Definition run {A} (m : svc A) (ok : A -> Response payload) (err : svc_error -> Response payload) : action := fun w =>
  match m w with
  | (Ok x, w) => (Some (ok x), w)
  | (Err e, w) => (if panicked e then None else Some (err e), w)
  end.

(** [serviceOrError] *)
Definition serviceOrError (k : action) : action :=
  if api_svc a then k else respond (error_json 500 "service unavailable").

(** [json.NewDecoder(r.Body).Decode(&req)], refused with [invalid json] *)
Definition decoding {A} (d : option A) (k : A -> action) : action :=
  match d with None => respond (bad_request "invalid json") | Some req => k req end.

Definition ok_status (text : string) {A} (_ : A) : Response payload := writeJSON 200 (PState text).

(** ** router.go *)

Definition healthz : endpoint := fun ps r => respond (writeJSON 200 (PState "ok")).

Definition isNilHealthChecker (h : HealthChecker W) : bool :=
  match h with NilChecker => true | ServiceChecker => negb (api_svc a) | OtherChecker _ => false end.

Definition Health (h : HealthChecker W) (w : W) : option string :=
  match h with OtherChecker f => f w | _ => api_Ping a w end.

Definition readyz : endpoint := fun ps r w =>
  let checker := if isNilHealthChecker (api_hc a) then ServiceChecker else api_hc a in
  if isNilHealthChecker checker then respond (writeJSON 503 (PNotReady "service unavailable")) w
  else match Health checker w with
  | Some err => respond (writeJSON 503 (PNotReady err)) w
  | None => respond (writeJSON 200 (PState "ready")) w
  end.

Definition version : endpoint := fun ps r =>
  let '(v, commit, date) := api_Build a in respond (writeJSON 200 (PVersion v commit date)).

Definition metrics : endpoint := fun ps r w => respond (api_Metrics a r w) w.

Definition maxEventsIngestBody : nat := 2 ^ 20.

Definition ingestProjectEvents : endpoint := fun ps r =>
  serviceOrError (
    let clusterID := TrimSpace (query r "clusterId") in
    match decode_events (decode_limited maxEventsIngestBody (rq_Body r)) with
    | None => respond (writeJSON 400 PDecodeError)
    | Some events => fun w =>
        let '(summary, err, w) := IngestProjectEvents (event_cfg cfg) "" clusterID events w in
        match err with
        | Some ErrEventBridgeDisabled => respond (writeJSON 202 (PIngested summary)) w
        | Some _ => respond (error_json 500 "ingest failed") w
        | None => respond (writeJSON 202 (PIngested summary)) w
        end
    end).

Definition createCluster : endpoint := fun ps r =>
  serviceOrError (decoding (Decode decode_createCluster (rq_Body r)) (fun req =>
    match DecodeKubeconfig (ccr_Kubeconfig req) (ccr_KubeconfigB64 req) with
    | Err e => respond (or_maintenance (refuse 400) (EText e))
    | Ok kubeconfig =>
        run (RegisterCluster cfg encKey ensureOperatorFn (mkRegisterInput (TrimSpace (ccr_Name req)) kubeconfig (ccr_Meta req)))
          (fun c => writeJSON 201 (PCluster c)) (refuse 400)
    end)).

Definition listClusters : endpoint := fun ps r =>
  serviceOrError (run (db ListClusters) (fun l => writeJSON 200 (PClusters l)) (refuse 500)).

Definition getCluster : endpoint := fun ps r =>
  serviceOrError (run (db (GetCluster (URLParam ps "id"))) (fun c => writeJSON 200 (PClusterView c))
    (fun e => if is_no_rows e then error_json 404 "not found" else refuse 500 e)).

Definition updateCluster : endpoint := fun ps r =>
  serviceOrError (decoding (Decode updateClusterReq (rq_Body r)) (fun meta =>
    run (Clusters.UpdateClusterMetadata cfg (URLParam ps "id") meta) (fun c => writeJSON 200 (PClusterView c))
      (or_maintenance refuse_or_404))).

Definition clustersHealth : endpoint := fun ps r =>
  serviceOrError (run (CheckAllClusters encKey) (fun l => writeJSON 200 (PHealths l)) (refuse 500)).

Definition clusterHealth : endpoint := fun ps r =>
  serviceOrError (run (CheckCluster encKey (URLParam ps "id")) (fun h => writeJSON 200 (PHealth h)) (refuse 500)).

(** A positive [limit] of the query, at most 100, or 20. *)
Definition status_limit (r : Request) : Z :=
  match Atoi (TrimSpace (query r "limit")) with
  | Some v => if (0 <? v)%Z then Z.min v 100 else 20
  | None => 20
  end.

Definition clusterStatus : endpoint := fun ps r =>
  serviceOrError (run (db (ListClusterStatus (URLParam ps "id") (status_limit r))) (fun l => writeJSON 200 (PStatuses l)) (refuse 500)).

Definition listUsers : endpoint := fun ps r =>
  serviceOrError (run (db (ListUsers 100 0)) (fun l => writeJSON 200 (PUsers l)) (refuse 500)).

Definition getUser : endpoint := fun ps r =>
  serviceOrError (run (db (GetUser (URLParam ps "id"))) (fun u => writeJSON 200 (PUser u)) (fun _ => error_json 404 "not found")).

(** ** users_bootstrap.go and kubeconfigs_lifecycle.go *)

Definition bootstrapUser : endpoint := fun ps r =>
  serviceOrError (decoding (Decode userBootstrapReq (rq_Body r)) (fun inp =>
    run (BootstrapUser cfg encKey inp) (fun o => writeJSON 201 (PBootstrap o)) (refuse 400))).

Definition deleteUser : endpoint := fun ps r =>
  serviceOrError (run (DeleteUser encKey (URLParam ps "id")) (ok_status "deleted") (refuse 400)).

Definition renewUserKubeconfig : endpoint := fun ps r =>
  serviceOrError (decoding (Decode userRenewReq (rq_Body r)) (fun cluster =>
    run (RenewUserKubeconfig encKey (URLParam ps "id") cluster) (fun k => writeJSON 200 (PKubeconfig k)) (refuse 400))).

Definition ensureKubeconfig : endpoint := fun ps r =>
  serviceOrError (decoding (Decode kubeconfigEnsureRequest (rq_Body r)) (fun '(user, project, cluster) =>
    run (EnsureKubeconfigBinding cfg encKey "" user project cluster) (fun o => writeJSON 200 (PBinding o)) refuse_or_404)).

Definition rotateKubeconfig : endpoint := fun ps r =>
  serviceOrError (decoding (Decode kubeconfigRotateRequest (rq_Body r)) (fun id =>
    if str_eqb id "" then respond (bad_request "id is required")
    else run (RotateKubeconfigByID cfg encKey "" id) (fun o => writeJSON 200 (PRotated o)) refuse_or_404)).

Definition deleteKubeconfig : endpoint := fun ps r =>
  serviceOrError (
    let id := TrimSpace (URLParam ps "id") in
    if str_eqb id "" then respond (bad_request "id is required")
    else run (DeleteKubeconfigBinding encKey id) (ok_status "deleted") refuse_or_404).

(** ** projects.go *)

Definition createProject : endpoint := fun ps r =>
  serviceOrError (decoding (Decode (createProjectReq (api_range a)) (rq_Body r)) (fun inp =>
    run (Tenancy.CreateProject cfg encKey (UserIDFromContext r) inp) (fun '(p, k) => writeJSON 201 (PProject p k))
      (or_maintenance (refuse 400)))).

Definition listProjects : endpoint := fun ps r =>
  serviceOrError (run (db (ListProjects (query_int r "limit" 100) (query_int r "offset" 0)))
    (fun l => writeJSON 200 (PProjects l)) (refuse 500)).

Definition listUserProjects : endpoint := fun ps r =>
  serviceOrError (run (db (ListProjectsByUser (URLParam ps "id") (query_int r "limit" 100) (query_int r "offset" 0)))
    (fun l => writeJSON 200 (PProjects l)) (refuse 500)).

Definition text_plain (s : list ascii) : Response payload := mkResponse 200 "text/plain; charset=utf-8" (PText (of_chars s)) "".

(** [filepath.Base] *)
Definition filepath_Base (p : string) : string :=
  if str_eqb p "" then "."
  else match List.filter (fun e => negb (str_eqb e "")) (Split p "/"%char) with
  | [] => "/"
  | l => List.last l ""
  end.

Definition log_error (e : tail_error) : Response payload :=
  match e with
  | ErrNotExist => error_json 404 "project log not found"
  | errTailLimitExceeded n => bad_request ("tail lines exceed limit: requested " +:+ pretty n +:+ " lines, limit " +:+ pretty maxProjectTailLines)
  | TailError text => error_json 500 text
  end.

Definition projectLogs : endpoint := fun ps r =>
  serviceOrError (
    match ProjectLogPath (api_letters a) (api_Files a) (URLParam ps "id") with
    | Err e => respond (bad_request e)
    | Ok path =>
        let tailParam := TrimSpace (query r "tail") in
        if negb (str_eqb tailParam "") then
          match Atoi tailParam with
          | None => respond (bad_request "invalid tail value")
          | Some lines =>
              if (lines <? 0)%Z then respond (bad_request "invalid tail value")
              else if (maxProjectTailLines <? lines)%Z then respond (bad_request ("tail must be <= " +:+ pretty maxProjectTailLines))
              else match tailProjectLog (api_open a) path lines with
              | Err e => respond (log_error e)
              | Ok data => respond (text_plain data)
              end
          end
        else match api_open a path with
        | Err e => respond (log_error e)
        | Ok content =>
            match api_stat a path with
            | Err e => respond (error_json 500 e)
            | Ok modified => respond (ServeContent a r (filepath_Base path) modified content)
            end
        end
    end).

Definition patchProjectQuota : endpoint := fun ps r =>
  serviceOrError (decoding (Decode (quotaPatchReq (api_range a)) (rq_Body r)) (fun overrides =>
    run (UpdateProjectQuota cfg encKey (UserIDFromContext r) (URLParam ps "id") overrides) (ok_status "ok")
      (or_maintenance (refuse 400)))).

Definition getProjectQuota : endpoint := fun ps r =>
  serviceOrError (run (GetProjectQuota cfg encKey (URLParam ps "id")) (fun s => writeJSON 200 (PQuota s)) refuse_or_404).

Definition set_suspended (suspended : bool) (text : string) : endpoint := fun ps r =>
  serviceOrError (run (SetProjectSuspended cfg encKey (UserIDFromContext r) (URLParam ps "id") suspended) (ok_status text)
    (or_maintenance (refuse 400))).
Definition suspendProject : endpoint := set_suspended true "suspended".
Definition unsuspendProject : endpoint := set_suspended false "unsuspended".

Definition getProject : endpoint := fun ps r =>
  serviceOrError (run (GetProjectStatus encKey (URLParam ps "id")) (fun s => writeJSON 200 (PProjectStatus s)) (refuse 404)).

Definition deleteProject : endpoint := fun ps r =>
  serviceOrError (run (DeleteProject cfg encKey (UserIDFromContext r) (URLParam ps "id")) (ok_status "deleted")
    (or_maintenance (refuse 400))).

(** ** apps.go, releases.go and webhooks.go *)

Definition deployApp : endpoint := fun ps r =>
  serviceOrError (decoding (Decode (deployAppReq (api_range a)) (rq_Body r)) (fun inp =>
    run (DeployApp cfg encKey (UserIDFromContext r) (of_project (URLParam ps "id") inp)) (fun '(o, _) => writeJSON 201 (PDeployed o))
      (or_maintenance (refuse 400)))).

Definition validateApp : endpoint := fun ps r =>
  serviceOrError (decoding (Decode (deployAppReq (api_range a)) (rq_Body r)) (fun inp =>
    if str_eqb (TrimSpace (di_ProjectID inp)) "" then respond (bad_request "projectId is required")
    else run (ValidateApp cfg encKey inp) (fun o => writeJSON 200 (PValidation o)) (refuse 400))).

Definition listProjectApps : endpoint := fun ps r =>
  serviceOrError (run (ListProjectAppsStatus cfg encKey (URLParam ps "id")) (fun l => writeJSON 200 (PAppStatuses l)) (refuse 400)).

Definition getProjectApp : endpoint := fun ps r =>
  serviceOrError (run (GetAppStatus cfg encKey (URLParam ps "id") (URLParam ps "appId")) (fun s => writeJSON 200 (PAppStatus s))
    (refuse 400)).

Definition getAppDelivery : endpoint := fun ps r =>
  serviceOrError (run (GetAppDelivery (URLParam ps "id") (URLParam ps "appId")) (fun d => writeJSON 200 (PDelivery d)) (refuse 400)).

Definition logs_input (ps : list (string * string)) (r : Request) : AppLogsInput :=
  mkLogsInput (URLParam ps "id") (URLParam ps "appId") (query r "container") (Atoi (query r "tailLines"))
    (default true (ParseBool (query r "follow"))).

Definition appLogs : endpoint := fun ps r =>
  serviceOrError (run (StreamAppLogs encKey (logs_input ps r)) (fun text => mkResponse 200 "text/plain" (PText text) "") (refuse 400)).

Definition renewProjectKubeconfig : endpoint := fun ps r =>
  serviceOrError (run (RenewProjectKubeconfig cfg encKey (UserIDFromContext r) (URLParam ps "id")) (fun k => writeJSON 200 (PKubeconfig k))
    (refuse 400)).

(** An operation on a deployed application. *)
Definition operation (m : io W op_error unit) : svc unit := wrap_err EOp m.

(** [k] gets the [If-Match] header. *)
Definition if_match (r : Request) (k : string -> action) : action :=
  let resourceVersion := TrimSpace (header r "If-Match") in
  if str_eqb resourceVersion "" then respond (error_json 428 "If-Match header with resourceVersion required")
  else k resourceVersion.

Definition scaleApp : endpoint := fun ps r =>
  serviceOrError (decoding (Decode scaleReq (rq_Body r)) (fun replicas =>
    if (replicas <? 0)%Z then respond (bad_request "replicas must be >= 0")
    else if_match r (fun version =>
      run (operation (ScaleApp (event_cfg cfg) (UserIDFromContext r) (URLParam ps "id") (URLParam ps "appId") version replicas))
        (ok_status "scaled") (or_maintenance (refuse 400))))).

Definition updateAppImage : endpoint := fun ps r =>
  serviceOrError (decoding (Decode imageReq (rq_Body r)) (fun image =>
    if_match r (fun version =>
      run (operation (UpdateAppImage (event_cfg cfg) (UserIDFromContext r) (URLParam ps "id") (URLParam ps "appId") version image))
        (ok_status "updated") (or_maintenance (refuse 400))))).

Definition rolloutRestartApp : endpoint := fun ps r =>
  serviceOrError (fun w =>
    run (operation (RolloutRestartApp (event_cfg cfg) (UserIDFromContext r) (api_Now a w) (URLParam ps "id") (URLParam ps "appId")))
      (ok_status "restarted") (or_maintenance (refuse 400)) w).

Definition attachConfigToApp : endpoint := fun ps r =>
  serviceOrError (decoding (Decode attachReq (rq_Body r)) (fun '(name, keys, prefix) =>
    run (operation (AttachConfigMapToApp (event_cfg cfg) (UserIDFromContext r) (URLParam ps "id") (URLParam ps "appId") name keys prefix))
      (ok_status "attached") (refuse 400))).

Definition detachConfigFromApp : endpoint := fun ps r =>
  serviceOrError (decoding (Decode detachReq (rq_Body r)) (fun name =>
    run (operation (DetachConfigMapFromApp (event_cfg cfg) (UserIDFromContext r) (URLParam ps "id") (URLParam ps "appId") name))
      (ok_status "detached") (refuse 400))).

Definition attachSecretToApp : endpoint := fun ps r =>
  serviceOrError (decoding (Decode attachReq (rq_Body r)) (fun '(name, keys, prefix) =>
    run (operation (AttachSecretToApp (event_cfg cfg) (UserIDFromContext r) (URLParam ps "id") (URLParam ps "appId") name keys prefix))
      (ok_status "attached") (refuse 400))).

Definition detachSecretFromApp : endpoint := fun ps r =>
  serviceOrError (decoding (Decode detachReq (rq_Body r)) (fun name =>
    run (operation (DetachSecretFromApp (event_cfg cfg) (UserIDFromContext r) (URLParam ps "id") (URLParam ps "appId") name))
      (ok_status "detached") (refuse 400))).

Definition deleteApp : endpoint := fun ps r =>
  serviceOrError (run (DeleteApp cfg encKey (UserIDFromContext r) (URLParam ps "id") (URLParam ps "appId")) (ok_status "deleted")
    (or_maintenance (refuse 400))).

Definition listAppReleases : endpoint := fun ps r =>
  serviceOrError (
    let page limit :=
      run (ListAppReleases (URLParam ps "id") (URLParam ps "appId") limit (TrimSpace (query r "cursor")))
        (fun '(l, next) => writeJSON 200 (PReleases l next)) (refuse 400) in
    let raw := TrimSpace (query r "limit") in
    if str_eqb raw "" then page 0%Z
    else match Atoi raw with
    | None => respond (bad_request "invalid limit")
    | Some limit => page limit
    end).

(** [json.Unmarshal] into a [map[string]any]; what follows the value is an error. *)
Definition unmarshal_map (body : string) : option Meta :=
  v ← json_parse body;
  match as_any (any_of_json v) with
  | AMap m => Some m
  | v => if is_null v then Some [] else None
  end.

Definition gitWebhook : endpoint := fun ps r =>
  match rq_Body r with
  | Err _ => respond (http_Error (PText "read error") 400)
  | Ok body =>
      match unmarshal_map body with
      | None => respond (http_Error (PText "invalid json") 400)
      | Some push =>
          serviceOrError (run (HandleGitWebhook cfg encKey push (string_bytes body) (header r "X-Hub-Signature-256"))
            (ok_status "handled") (fun e => http_Error (PErrorBody e) 400))
      end
  end.

(** ** configs.go *)

Definition createConfig : endpoint := fun ps r =>
  serviceOrError (decoding (Decode configCreateReq (rq_Body r)) (fun '(name, data) =>
    if str_eqb name "" then respond (bad_request "name is required")
    else run (CreateConfigMap encKey (URLParam ps "id") name data) (fun _ => writeJSON 201 (PName name)) (refuse 400))).

Definition listConfigs : endpoint := fun ps r =>
  serviceOrError (run (ListConfigMaps encKey (URLParam ps "id")) (fun l => writeJSON 200 (PNames l)) (refuse 400)).

Definition deleteConfig : endpoint := fun ps r =>
  serviceOrError (run (DeleteConfigMap encKey (URLParam ps "id") (URLParam ps "name")) (ok_status "deleted") (refuse 400)).

Definition createSecret : endpoint := fun ps r =>
  serviceOrError (decoding (Decode secretCreateReq (rq_Body r)) (fun '(name, type, data) =>
    if str_eqb name "" then respond (bad_request "name is required")
    else run (CreateSecret encKey (URLParam ps "id") name type data) (fun _ => writeJSON 201 (PName name)) (refuse 400))).

Definition listSecrets : endpoint := fun ps r =>
  serviceOrError (run (ListSecrets encKey (URLParam ps "id")) (fun l => writeJSON 200 (PSecrets l)) (refuse 400)).

Definition deleteSecret : endpoint := fun ps r =>
  serviceOrError (run (DeleteSecret encKey (URLParam ps "id") (URLParam ps "name")) (ok_status "deleted") (refuse 400)).

(** ** credentials.go *)

Definition list_input (r : Request) : CredentialListInput :=
  mkListInput (TrimSpace (query r "userId")) (TrimSpace (query r "projectId")).

Definition createGitCredential : endpoint := fun ps r =>
  serviceOrError (decoding (Decode createGitCredentialRequest (rq_Body r)) (fun inp =>
    run (Credentials.CreateGitCredential encKey inp) (fun o => writeJSON 201 (PCredential o)) refuse_or_404)).

Definition listGitCredentials : endpoint := fun ps r =>
  serviceOrError (run (Credentials.ListGitCredentials (list_input r)) (fun l => writeJSON 200 (PCredentials l)) refuse_or_404).

Definition getGitCredential : endpoint := fun ps r =>
  serviceOrError (run (Credentials.GetGitCredential encKey (TrimSpace (URLParam ps "id")))
    (fun '(o, s) => writeJSON 200 (PCredentialSecret o s)) refuse_or_404).

Definition deleteGitCredential : endpoint := fun ps r =>
  serviceOrError (run (Credentials.DeleteGitCredential (TrimSpace (URLParam ps "id"))) (ok_status "deleted") refuse_or_404).

Definition createRegistryCredential : endpoint := fun ps r =>
  serviceOrError (decoding (Decode createRegistryCredentialRequest (rq_Body r)) (fun inp =>
    run (Credentials.CreateRegistryCredential encKey inp) (fun o => writeJSON 201 (PCredential o)) refuse_or_404)).

Definition listRegistryCredentials : endpoint := fun ps r =>
  serviceOrError (run (Credentials.ListRegistryCredentials (list_input r)) (fun l => writeJSON 200 (PCredentials l)) refuse_or_404).

Definition getRegistryCredential : endpoint := fun ps r =>
  serviceOrError (run (Credentials.GetRegistryCredential encKey (TrimSpace (URLParam ps "id")))
    (fun '(o, s) => writeJSON 200 (PCredentialSecret o s)) refuse_or_404).

Definition deleteRegistryCredential : endpoint := fun ps r =>
  serviceOrError (run (Credentials.DeleteRegistryCredential (TrimSpace (URLParam ps "id"))) (ok_status "deleted") refuse_or_404).

(** ** templates.go *)

Definition createTemplate : endpoint := fun ps r =>
  serviceOrError (decoding (Decode templateCreateReq (rq_Body r)) (fun inp =>
    run (Templates.CreateTemplate inp) (fun t => writeJSON 201 (PTemplate t)) (refuse 400))).

Definition listTemplates : endpoint := fun ps r =>
  serviceOrError (run Templates.ListTemplates (fun l => writeJSON 200 (PTemplates l)) (refuse 400)).

Definition getTemplate : endpoint := fun ps r =>
  serviceOrError (run (Templates.GetTemplate (URLParam ps "id")) (fun t => writeJSON 200 (PTemplate t)) refuse_or_404).

Definition renderTemplate : endpoint := fun ps r =>
  serviceOrError (decoding (decode_optional templateValuesReq (rq_Body r)) (fun values =>
    run (RenderTemplate (URLParam ps "id") values) (fun o => writeJSON 200 (PRendered o)) refuse_or_404)).

Definition deployTemplate : endpoint := fun ps r =>
  serviceOrError (decoding (decode_optional templateValuesReq (rq_Body r)) (fun values =>
    run (DeployTemplate cfg encKey (UserIDFromContext r) (URLParam ps "id") (URLParam ps "templateId") values)
      (fun '(o, _) => writeJSON 201 (PDeployed o)) (or_maintenance refuse_or_404))).

(** ** events.go and admin.go *)

Definition event_filter (r : Request) : ProjectEventFilter :=
  let search := TrimSpace (query r "grep") in
  mkEventFilter (parseCSV (query r "kind")) (parseCSV (query r "severity")) (TrimSpace (query r "actor"))
    (let since := TrimSpace (query r "since") in if str_eqb since "" then None else time_Parse since)
    (default 0%Z (Atoi (TrimSpace (query r "limit")))) (TrimSpace (query r "cursor"))
    (if str_eqb search "" then TrimSpace (query r "search") else search).

Definition listProjectEvents : endpoint := fun ps r =>
  serviceOrError (run (ListProjectEvents (api_lower a) (api_like a) cfg (URLParam ps "id") (event_filter r))
    (fun p => writeJSON 200 (PEvents p)) (refuse 400)).

Definition appendProjectEvent : endpoint := fun ps r =>
  serviceOrError (decoding (Decode (customEventRequest (URLParam ps "id")) (rq_Body r)) (fun inp =>
    run (wrap_err EText (AppendProjectEvent (event_cfg cfg) (UserIDFromContext r) inp)) (fun e => writeJSON 201 (PEvent e))
      (refuse 400))).

(** A statement on the maintenance row. *)
Definition maintenance_row {A} (m : io DB op_error A) : svc A := fun w =>
  let '(x, d) := m (w_db w) in (match x with Ok v => Ok v | Err e => Err (EOp e) end, set_db w d).

Definition getMaintenance : endpoint := fun ps r =>
  serviceOrError (run (maintenance_row GetMaintenanceState) (fun m => writeJSON 200 (PMaintenance m)) (refuse 500)).

Definition updateMaintenance : endpoint := fun ps r =>
  serviceOrError (decoding (Decode maintenanceUpdateReq (rq_Body r)) (fun '(enabled, text) =>
    run (maintenance_row (UpdateMaintenanceState (UserIDFromContext r) enabled text)) (fun m => writeJSON 200 (PMaintenance m))
      (or_maintenance (fun e => refuse (if invalid_input e then 400 else 500) e)))).

(** ** NewRouter *)

Record route := mkRoute { rt_Method : string; rt_Pattern : string; rt_Handler : endpoint }.

Definition public_routes : list route :=
  [ mkRoute "GET" "/healthz" healthz; mkRoute "GET" "/readyz" readyz; mkRoute "GET" "/v1/version" version;
    mkRoute "GET" "/metrics" metrics ].

Definition cluster_routes : list route :=
  [ mkRoute "POST" "/v1/clusters/" createCluster; mkRoute "GET" "/v1/clusters/" listClusters;
    mkRoute "GET" "/v1/clusters/{id}" getCluster; mkRoute "PATCH" "/v1/clusters/{id}" updateCluster;
    mkRoute "GET" "/v1/clusters/health" clustersHealth; mkRoute "GET" "/v1/clusters/{id}/health" clusterHealth;
    mkRoute "GET" "/v1/clusters/{id}/status" clusterStatus ].

Definition user_routes : list route :=
  [ mkRoute "POST" "/v1/users/bootstrap" bootstrapUser; mkRoute "GET" "/v1/users/" listUsers;
    mkRoute "GET" "/v1/users/{id}" getUser; mkRoute "DELETE" "/v1/users/{id}" deleteUser;
    mkRoute "POST" "/v1/users/{id}/kubeconfig/renew" renewUserKubeconfig;
    mkRoute "GET" "/v1/users/{id}/projects" listUserProjects ].

Definition project_routes : list route :=
  [ mkRoute "GET" "/v1/projects/" listProjects; mkRoute "POST" "/v1/projects/" createProject;
    mkRoute "GET" "/v1/projects/{id}" getProject; mkRoute "GET" "/v1/projects/{id}/quota" getProjectQuota;
    mkRoute "PATCH" "/v1/projects/{id}/quota" patchProjectQuota; mkRoute "POST" "/v1/projects/{id}/suspend" suspendProject;
    mkRoute "POST" "/v1/projects/{id}/unsuspend" unsuspendProject; mkRoute "DELETE" "/v1/projects/{id}" deleteProject;
    mkRoute "GET" "/v1/projects/{id}/apps" listProjectApps; mkRoute "POST" "/v1/projects/{id}/apps" deployApp;
    mkRoute "GET" "/v1/projects/{id}/logs" projectLogs; mkRoute "GET" "/v1/projects/{id}/events" listProjectEvents;
    mkRoute "POST" "/v1/projects/{id}/events" appendProjectEvent;
    mkRoute "GET" "/v1/projects/{id}/apps/{appId}/releases" listAppReleases;
    mkRoute "GET" "/v1/projects/{id}/apps/{appId}/logs" appLogs; mkRoute "GET" "/v1/projects/{id}/apps/{appId}" getProjectApp;
    mkRoute "GET" "/v1/projects/{id}/apps/{appId}/delivery" getAppDelivery;
    mkRoute "DELETE" "/v1/projects/{id}/apps/{appId}" deleteApp;
    mkRoute "PATCH" "/v1/projects/{id}/apps/{appId}/scale" scaleApp;
    mkRoute "PATCH" "/v1/projects/{id}/apps/{appId}/image" updateAppImage;
    mkRoute "POST" "/v1/projects/{id}/apps/{appId}/rollout/restart" rolloutRestartApp;
    mkRoute "POST" "/v1/projects/{id}/kubeconfig/renew" renewProjectKubeconfig;
    mkRoute "POST" "/v1/projects/{id}/configs" createConfig; mkRoute "GET" "/v1/projects/{id}/configs" listConfigs;
    mkRoute "DELETE" "/v1/projects/{id}/configs/{name}" deleteConfig;
    mkRoute "POST" "/v1/projects/{id}/secrets" createSecret; mkRoute "GET" "/v1/projects/{id}/secrets" listSecrets;
    mkRoute "DELETE" "/v1/projects/{id}/secrets/{name}" deleteSecret;
    mkRoute "POST" "/v1/projects/{id}/apps/{appId}/configs/attach" attachConfigToApp;
    mkRoute "POST" "/v1/projects/{id}/apps/{appId}/configs/detach" detachConfigFromApp;
    mkRoute "POST" "/v1/projects/{id}/apps/{appId}/secrets/attach" attachSecretToApp;
    mkRoute "POST" "/v1/projects/{id}/apps/{appId}/secrets/detach" detachSecretFromApp;
    mkRoute "POST" "/v1/projects/{id}/templates/{templateId}/deploy" deployTemplate ].

Definition other_routes : list route :=
  [ mkRoute "POST" "/v1/kubeconfigs/" ensureKubeconfig; mkRoute "POST" "/v1/kubeconfigs/rotate" rotateKubeconfig;
    mkRoute "DELETE" "/v1/kubeconfigs/{id}" deleteKubeconfig;
    mkRoute "POST" "/v1/credentials/git/" createGitCredential; mkRoute "GET" "/v1/credentials/git/" listGitCredentials;
    mkRoute "GET" "/v1/credentials/git/{id}" getGitCredential; mkRoute "DELETE" "/v1/credentials/git/{id}" deleteGitCredential;
    mkRoute "POST" "/v1/credentials/registries/" createRegistryCredential;
    mkRoute "GET" "/v1/credentials/registries/" listRegistryCredentials;
    mkRoute "GET" "/v1/credentials/registries/{id}" getRegistryCredential;
    mkRoute "DELETE" "/v1/credentials/registries/{id}" deleteRegistryCredential;
    mkRoute "POST" "/v1/templates/" createTemplate; mkRoute "GET" "/v1/templates/" listTemplates;
    mkRoute "GET" "/v1/templates/{id}" getTemplate; mkRoute "POST" "/v1/templates/{id}/render" renderTemplate;
    mkRoute "GET" "/v1/admin/maintenance" getMaintenance; mkRoute "PUT" "/v1/admin/maintenance" updateMaintenance;
    mkRoute "POST" "/v1/webhooks/git" gitWebhook ].

(** The group behind [AdminAuthMiddleware]. *)
Definition admin_routes : list route :=
  [ mkRoute "POST" "/v1/events/ingest" ingestProjectEvents; mkRoute "POST" "/v1/apps/validate" validateApp ] ++
  cluster_routes ++ user_routes ++ project_routes ++ other_routes.

Definition as_handler (e : endpoint) (ps : list (string * string)) : handler W payload := fun r w =>
  let '(resp, w) := e ps r w in (resp, [], w).

(** The endpoint of every route, in the order of [public_routes ++ admin_routes]. *)
Definition route_handler (i : nat) (ps : list (string * string)) : option (handler W payload) :=
  match public_routes !! i with
  | Some rt => Some (as_handler (rt_Handler rt) ps)
  | None => (fun rt => AdminAuthMiddleware cfg PText (as_handler (rt_Handler rt) ps)) <$> admin_routes !! (i - length public_routes)%nat
  end.

Definition route_table : list (string * string) := (fun rt => (rt_Method rt, rt_Pattern rt)) <$> public_routes ++ admin_routes.

Definition dispatch : handler W payload := fun r w =>
  match chi_Route a route_table (rq_Method r) (rq_Path r) with
  | NotRouted resp => (Some resp, [], w)
  | Routed i ps => match route_handler i ps with Some h => h r w | None => (None, [], w) end
  end.

(** [chimw.Recoverer] in front of the rest of the chain. *)
Definition NewRouter (r : Request) (w : W) : Response payload * list LogEntry * W :=
  let '(resp, logs, w) := AccessLog (api_NewString a) (AuditLog dispatch) r w in
  (default (chi_Recovered a) resp, logs, w).
End Api.
