(* ===== verification/ApiProofs.v ===== *)
(** The API as a whole: who may change anything, what reading requests leave, what maintenance
    mode answers, and what the audit trail holds. *)

From Stdlib Require Import Ascii ZArith Lia.
From stdpp Require Import base gmap strings list pretty.
From S2P Require Import AppOps Prelude Utf8 GoStrings Hash Kube Crypto Json Config Events Maintenance Workload Store StoreApps StoreProofs.
From S2P Require Import Tenancy TenancyProofs ProjectProofs Clusters Credentials CredentialProofs Sources GitFiles GitProofs Plan PlanProofs.
From S2P Require Import Releases Deploy DeployProofs DeployRecords Status StatusProofs Templates TemplateProofs EventPages LogFiles LogTail.
From S2P Require Import Http Documents ApiRequests Api.

(** ** Statements that only read *)

Section Reads.
Context `{pg : Postgres}.
Lemma ListUsers_ro l o : read_only (ListUsers l o). Proof. read_only_tac. Qed.
Lemma ListProjects_ro l o : read_only (ListProjects l o). Proof. read_only_tac. Qed.
Lemma ListProjectsByUser_ro u l o : read_only (ListProjectsByUser u l o). Proof. read_only_tac. Qed.
Lemma ListClusterStatus_ro c l : read_only (ListClusterStatus c l). Proof. read_only_tac. Qed.
Lemma ListTemplates_ro : read_only StoreApps.ListTemplates. Proof. read_only_tac. Qed.
Lemma GetTemplate_ro id : read_only (StoreApps.GetTemplate id). Proof. read_only_tac. Qed.
Lemma list_credentials_ro t f : read_only (list_credentials t f).
Proof.
  apply read_only_stmt. intros now d x d0 H. cbv zeta in H. repeat case_match; try (apply bind_ok in H as (v & _ & H)); by simplify_eq.
Qed.

(** [m] reads, unless a guard answers first. *)
Definition may_read {A} (m : io DB db_error A) : Prop := forall d r d', m d = (r, d') -> d' = d \/ d' = bump d.

Lemma may_read_guard {A} (b : bool) e (m : io DB db_error A) : may_read m -> may_read (if b then fail e else m).
Proof. destruct b; [|done]. intros _ d r d' [= _ <-]. by left. Qed.
Lemma may_read_only {A} (m : io DB db_error A) : read_only m -> may_read m.
Proof. intros Hm d r d' H. right. by eapply Hm. Qed.

Lemma GetRelease_reads id : may_read (GetRelease id).
Proof. apply may_read_guard, may_read_only. read_only_tac. Qed.
Lemma ListReleasesByApp_reads p a l c : may_read (ListReleasesByApp p a l c).
Proof. do 2 apply may_read_guard. apply may_read_only. read_only_tac. Qed.
Lemma store_ListProjectEvents_reads lower like p f : may_read (store_ListProjectEvents lower like p f).
Proof. apply may_read_guard, may_read_only. read_only_tac. Qed.
End Reads.
#[export] Hint Resolve ListUsers_ro ListProjects_ro ListProjectsByUser_ro ListClusterStatus_ro ListTemplates_ro GetTemplate_ro
  list_credentials_ro : read_only.
#[export] Hint Resolve GetRelease_reads ListReleasesByApp_reads store_ListProjectEvents_reads : read_only.

Section Endpoints.
Context {Q K C R CS : Type} `{laws : PlatformLaws Q K C R CS} `{plaws : !PostgresLaws} `{rem : Remote K}.
Context `{host : GitHost K} `{apl : AppPlatform Q K C CS} `{sp : StatusPlatform K C CS} `{alaws : !AppLaws Q K C R CS}.
Context `{eng : TemplateEngine K} `{jlaws : JWTLaws}.
Local Abbreviation W := (World K C R).
Local Abbreviation svc := (io W svc_error).
Context `{ops : AppOpsAPI W C}.
Context (cfg : Config) (encKey : bytes) (ensureOperatorFn : option (string -> string -> svc unit)) (a : API W).
Local Abbreviation kept := (keeps (K := K) (C := C) (R := R)).
Local Abbreviation public := (public_routes a).
Local Abbreviation admin := (admin_routes cfg encKey ensureOperatorFn a).
Local Abbreviation serve := (NewRouter cfg encKey ensureOperatorFn a).

Lemma quiet_may_read {A} (m : io DB db_error A) : may_read m -> kept quiet (db m).
Proof.
  intros Hm. apply keeps_or_fail; [apply _|]. intros w r w' (x & d & Hx & _ & ->)%try_db_inv.
  by apply Hm in Hx as [->| ->].
Qed.
#[local] Hint Resolve quiet_may_read : keeps.

(** ** Frames of endpoints *)

Definition acts (P : W -> W -> Prop) (m : action) : Prop := forall w resp w', m w = (resp, w') -> P w w'.

Section Acts.
Context (P : W -> W -> Prop) `{!PreOrder P}.
Lemma acts_respond resp : acts P (respond resp).
Proof. intros w x w' [= _ <-]. done. Qed.
Lemma acts_run {A} (m : svc A) ok err : kept P m -> acts P (run m ok err).
Proof. intros Hm w resp w'. unfold run. destruct (m w) as [[x|e] w1] eqn:E; intros [= _ <-]; by eapply Hm. Qed.
Lemma acts_service k : acts P k -> acts P (serviceOrError a k).
Proof. intros Hk. unfold serviceOrError. destruct (api_svc a); [done|apply acts_respond]. Qed.
Lemma acts_decoding {A} (d : option A) k : (forall x, acts P (k x)) -> acts P (decoding d k).
Proof. intros Hk. destruct d; [apply Hk|apply acts_respond]. Qed.
End Acts.

(** ** The chain *)

(** What the router documents: a route answers requests of its own method. *)
Class RouterLaws := {
  route_method table m p i ps : chi_Route a table m p = Routed i ps -> exists pattern, table !! i = Some (m, pattern);
}.

Context `{rlaws : !RouterLaws}.

Lemma serve_dispatch r w resp logs w' : serve r w = (resp, logs, w') ->
  exists r' x l, dispatch cfg encKey ensureOperatorFn a r' w = (x, l, w') /\ resp = default (chi_Recovered a) x /\
    rq_Method r' = rq_Method r /\ rq_Path r' = rq_Path r /\ rq_Header r' = rq_Header r.
Proof.
  unfold NewRouter, AccessLog, AuditLog. intros Hs.
  set (r' := if str_eqb (rq_ID r) "" then _ else _) in Hs. exists r'.
  assert (rq_Method r' = rq_Method r /\ rq_Path r' = rq_Path r /\ rq_Header r' = rq_Header r) as (E1 & E2 & E3)
    by (unfold r'; by destruct (str_eqb (rq_ID r) "")).
  destruct (dispatch _ _ _ _ r' w) as [[x l] w1]. exists x, l.
  destruct x as [x|]; [destruct (negb _ || _)|]; injection Hs as <- _ <-; done.
Qed.

Lemma routed_admin m p i ps : chi_Route a (route_table cfg encKey ensureOperatorFn a) m p = Routed i ps -> public !! i = None ->
  exists rt, admin !! (i - length public)%nat = Some rt /\ rt_Method rt = m.
Proof.
  intros (pattern & Ht)%route_method Hi. unfold route_table in Ht. rewrite list_lookup_fmap, lookup_app, Hi in Ht.
  destruct (admin !! _) as [rt|]; [|done]. injection Ht as Hm _. eauto.
Qed.

Lemma public_still rt ps r : rt ∈ public -> acts eq (rt_Handler rt ps r).
Proof.
  unfold public_routes. rewrite !elem_of_cons, elem_of_nil. intros [->|[->|[->|[->|[]]]]] w resp w';
    cbn; unfold healthz, readyz, version, metrics, respond; repeat case_match; by intros [= _ <-].
Qed.

(** ** Who may change anything *)

(** The request carries a bearer token that an HMAC method verifies with the secret of the
    configuration and whose role is admin. *)
Definition authorised (r : Request) : Prop :=
  exists token method claims, header r "Authorization" = "Bearer " +:+ token /\
    jwt_Verify (SigningMethodHMAC method) (cfg_AdminJWTSecret cfg) token = true /\
    jwt_Parse (keyfunc (cfg_AdminJWTSecret cfg)) token = Ok (mkToken true (Some claims)) /\
    claim claims "role" = Some "admin".

Lemma bearer_split s : HasPrefix s "Bearer " = true -> s = "Bearer " +:+ TrimPrefix s "Bearer ".
Proof. intros [t ->]%has_prefix_spec. by rewrite trim_prefix_app. Qed.

Lemma authorise_ok r actor : authorise (cfg_AdminJWTSecret cfg) (header r "Authorization") = Ok actor -> authorised r.
Proof.
  unfold authorise. set (authz := header r "Authorization"). destruct (str_eqb authz "" || _) eqn:E; [done|].
  apply orb_false_iff in E as [_ Hb%negb_false_iff]. intros Ha.
  destruct (jwt_Parse _ _) as [[valid claims]|] eqn:Ep; [|done]. cbn in Ha.
  destruct valid; [|done]. destruct claims as [claims|]; [|done]. cbn in Ha.
  destruct (claim claims "role") as [role|] eqn:Er; [|done]. destruct (str_eqb role "admin") eqn:Ero; [|done].
  apply str_eqb_eq in Ero as ->.
  destruct (parse_verified _ _ _ Ep eq_refl) as (m & key & Hk & Hv). destruct m as [name|name]; [|done].
  injection Hk as <-. exists (TrimPrefix authz "Bearer "), name, claims. split_and!; [|done..]. by apply bearer_split.
Qed.

Lemma authorise_refusal secret authz status text : authorise secret authz = Err (status, text) -> status = 401%Z \/ status = 403%Z.
Proof. unfold authorise. repeat case_match; intros [= <- _]; auto. Qed.

(** The request matches no route, or one of the four that are open to everyone. *)
Definition open_to_all (r : Request) : Prop :=
  match chi_Route a (route_table cfg encKey ensureOperatorFn a) (rq_Method r) (rq_Path r) with
  | NotRouted _ => True
  | Routed i _ => (i < 4)%nat
  end.

(** C3: with authentication on, a request without a bearer token that an HMAC method
    verifies with the configured secret and that claims the role admin changes nothing, and
    except for the open routes it is answered with 401 or 403. *)
Theorem admin_only r w resp logs w' :
  cfg_DisableAuth cfg = false -> ~ authorised r -> serve r w = (resp, logs, w') ->
  w' = w /\ (open_to_all r \/ rs_Status resp = 401%Z \/ rs_Status resp = 403%Z).
Proof.
  intros Hauth Hn (r' & x & l & Hd & -> & Hm & Hp & Hh)%serve_dispatch. unfold dispatch in Hd. unfold open_to_all. rewrite Hm, Hp in Hd.
  destruct (chi_Route a _ _ _) as [nf|i ps] eqn:Er; [injection Hd as <- _ <-; auto|]. unfold route_handler in Hd.
  destruct (public !! i) as [rt|] eqn:Ei.
  - apply lookup_lt_Some in Ei as Hlt. apply list_elem_of_lookup_2 in Ei. cbn in Hd. unfold as_handler in Hd.
    destruct (rt_Handler rt ps r' w) as [y w1] eqn:E. injection Hd as <- _ <-. apply public_still in E; [|done]. split; [done|]. by left.
  - destruct (admin !! _) as [rt|] eqn:Ead; cbn in Hd; [|destruct (routed_admin _ _ _ _ Er Ei) as (rt & Hrt & _); congruence].
    unfold AdminAuthMiddleware in Hd. rewrite Hauth in Hd.
    destruct (authorise _ _) as [actor|[status text]] eqn:Ea.
    + destruct Hn. apply authorise_ok in Ea as (token & method & claims & H1 & H2). exists token, method, claims. split; [|done].
      unfold header in *. by rewrite <- Hh.
    + injection Hd as <- _ <-. split; [done|]. right. by eapply authorise_refusal.
Qed.

(** ** Requests that read *)

Definition cluster_columns (d : DB) : list (string * string * ClusterMeta * bytes * Z) :=
  (fun r => (cl_ID r, cl_Name r, cl_meta r, cl_kubeconfig r, cl_CreatedAt r)) <$> d_clusters d.

(** [observed], but for when a cluster was seen last. *)
Definition viewed (w w' : W) : Prop :=
  w_k8s w' = w_k8s w /\ domain_keys (w_db w') = domain_keys (w_db w) /\
  d_users (w_db w') = d_users (w_db w) /\ d_projects (w_db w') = d_projects (w_db w) /\
  d_spaces (w_db w') = d_spaces (w_db w) /\ d_kubeconfigs (w_db w') = d_kubeconfigs (w_db w) /\
  cluster_columns (w_db w') = cluster_columns (w_db w) /\ d_apps (w_db w') = d_apps (w_db w) /\
  d_releases (w_db w') = d_releases (w_db w) /\ d_git (w_db w') = d_git (w_db w) /\
  d_registry (w_db w') = d_registry (w_db w).
#[export] Instance viewed_preorder : PreOrder viewed.
Proof. split; [by intros w; split_and!|]. intros x y z H1 H2. unfold viewed in *. destruct_and?. split_and!; congruence. Qed.

Lemma observed_viewed {A} (m : svc A) : kept observed m -> kept viewed m.
Proof.
  apply keeps_weaken. intros w w'. unfold observed, viewed, cluster_columns. intros Ho. destruct_and?. split_and!; congruence.
Qed.
Lemma quiet_viewed {A} (m : svc A) : kept quiet m -> kept viewed m.
Proof. intros Hm. by apply observed_viewed, quiet_observed. Qed.
#[local] Hint Resolve quiet_viewed : keeps.

Lemma viewed_attempt {A} (m : svc A) : kept viewed m -> kept viewed (attempt m).
Proof. intros Hm w r w'. unfold attempt. destruct (m w) as [x w1] eqn:E. intros [= _ <-]. by eapply Hm. Qed.

Lemma viewed_persist st : kept viewed (persistClusterStatus st).
Proof.
  apply keeps_bind; [apply _| |intros; apply keeps_ret, _]. intros w r w' (x & d & Hs & _ & ->)%try_db_inv.
  destruct (stmt_case _ _ _ _ Hs) as [(e & _ & ->)|(now & y & d0 & H1 & _ & ->)]; [done|].
  apply bind_ok in H1 as (id & _ & H1). apply bind_ok in H1 as (cid & _ & H1). repeat case_match; try done. injection H1 as _ <-.
  unfold viewed. split_and!; try done. unfold cluster_columns. cbn. rewrite <- list_fmap_compose. apply list_fmap_ext.
  intros i row _. cbn. by destruct (str_eqb _ _).
Qed.

Lemma viewed_CheckCluster id : kept viewed (CheckCluster encKey id).
Proof.
  pose proof viewed_persist. unfold CheckCluster. keep; apply viewed_attempt, quiet_viewed;
    [apply quiet_GetOrCreate|apply quiet_GetClientset].
Qed.

Lemma viewed_CheckAllClusters : kept viewed (CheckAllClusters encKey).
Proof.
  apply keeps_bind; [apply _|apply quiet_viewed, quiet_db, ListClusters_ro|intros rows].
  induction (fst <$> rows) as [|c l IH]; cbn; [apply keeps_ret, _|].
  apply keeps_bind; [apply _|apply viewed_CheckCluster|intros h]. apply keeps_bind; [apply _|done|intros]. apply keeps_ret, _.
Qed.

Lemma viewed_maintenance : kept viewed (maintenance_row GetMaintenanceState).
Proof.
  intros w r w'. unfold maintenance_row. destruct (GetMaintenanceState (w_db w)) as [x d] eqn:E.
  apply ask_inv in E as [-> _]. by intros [= _ <-].
Qed.

Lemma viewed_releases p app l c : kept viewed (ListAppReleases p app l c).
Proof. unfold ListAppReleases, release_cursor. cbv zeta. keep. Qed.

#[local] Hint Resolve viewed_CheckCluster viewed_CheckAllClusters viewed_maintenance viewed_releases : keeps.
Create HintDb observations.
#[local] Hint Resolve observed_ListProjectAppsStatus observed_GetAppStatus observed_GetAppDelivery observed_StreamAppLogs
  observed_ListConfigMaps observed_ListSecrets : observations.

(** The frame of a handler that calls one query. *)
Ltac reading := intros ps r; apply acts_service; [apply _|]; apply acts_run;
  first [solve [apply observed_viewed; eauto with observations]
        |unfold GetProjectStatus, GetProjectQuota, ListProjectEvents, Credentials.ListGitCredentials, Credentials.GetGitCredential,
           Credentials.ListRegistryCredentials, Credentials.GetRegistryCredential, show_credentials, open_credential,
           Templates.ListTemplates, Templates.GetTemplate; cbv zeta; keep].

Lemma viewed_projectLogs ps r : acts viewed (projectLogs a ps r).
Proof. apply acts_service; [apply _|]. repeat (case_match; cbv zeta); apply acts_respond, _. Qed.

Lemma viewed_listAppReleases ps r : acts viewed (listAppReleases a ps r).
Proof.
  apply acts_service; [apply _|]. cbv zeta. repeat case_match;
    first [apply acts_respond, _|apply acts_run, viewed_releases].
Qed.

Lemma reading_routes : Forall (fun rt => rt_Method rt = "GET" -> forall ps r, acts viewed (rt_Handler rt ps r)) admin.
Proof.
  pose proof viewed_projectLogs. pose proof viewed_listAppReleases.
  unfold admin_routes, cluster_routes, user_routes, project_routes, other_routes. cbn [app].
  repeat (apply Forall_cons; split; [cbn [rt_Method rt_Handler]; intros Hm; first [discriminate Hm|assumption|reading]|]).
  constructor.
Qed.

Lemma authenticated (h : handler W payload) (P : W -> W -> Prop) `{!PreOrder P} :
  (forall r w x l w', h r w = (x, l, w') -> P w w') ->
  forall r w x l w', AdminAuthMiddleware cfg PText h r w = (x, l, w') -> P w w'.
Proof.
  intros Hh r w x l w'. unfold AdminAuthMiddleware. destruct (cfg_DisableAuth cfg); [apply Hh|].
  destruct (authorise _ _) as [actor|[status text]]; [apply Hh|]. by intros [= _ _ <-].
Qed.

Lemma acts_as_handler (P : W -> W -> Prop) (e : endpoint) ps : (forall r, acts P (e ps r)) ->
  forall r w x l w', as_handler e ps r w = (x, l, w') -> P w w'.
Proof. intros He r w x l w'. unfold as_handler. destruct (e ps r w) as [y w1] eqn:E. intros [= _ _ <-]. by eapply He. Qed.

(** C4: a GET request, whatever its path, sends nothing to a cluster and leaves
    every user, project, namespace, kubeconfig, application, release and credential as it was,
    and of the clusters everything but when they were seen last; what it may bring up to date
    are health records, mirrors of App resources and the certificate states of known domains. *)
Theorem get_requests_view r w resp logs w' : rq_Method r = "GET" -> serve r w = (resp, logs, w') -> viewed w w'.
Proof.
  intros Hg (r' & x & l & Hd & _ & Hm & Hp & _)%serve_dispatch. unfold dispatch in Hd. rewrite Hm, Hg in Hd.
  destruct (chi_Route a _ _ _) as [nf|i ps] eqn:Er; [by injection Hd as _ _ <-|]. unfold route_handler in Hd.
  destruct (public !! i) as [rt|] eqn:Ei.
  - apply list_elem_of_lookup_2 in Ei. eapply (acts_as_handler viewed) in Hd; [done|]. intros q w1 y w2 ->%public_still; done.
  - destruct (routed_admin _ _ _ _ Er Ei) as (rt & Hrt & Hget). rewrite Hrt in Hd. cbn in Hd.
    apply list_elem_of_lookup_2 in Hrt. pose proof (proj1 (Forall_forall _ _) reading_routes rt Hrt Hget) as Hr.
    eapply authenticated in Hd; [exact Hd|apply _|]. intros q w1 y l1 w2. by apply acts_as_handler.
Qed.

(** ** The audit trail *)

Definition silent (h : handler W payload) : Prop := forall r w x l w', h r w = (x, l, w') -> l = [].

Lemma silent_handler e ps : silent (as_handler e ps).
Proof. intros r w x l w'. unfold as_handler. destruct (e ps r w). by intros [= _ <- _]. Qed.

Lemma silent_auth h : silent h -> silent (AdminAuthMiddleware cfg PText h).
Proof.
  intros Hh r w x l w'. unfold AdminAuthMiddleware. destruct (cfg_DisableAuth cfg); [apply Hh|].
  destruct (authorise _ _) as [actor|[status text]]; [apply Hh|]. by intros [= _ <- _].
Qed.

Lemma silent_dispatch : silent (dispatch cfg encKey ensureOperatorFn a).
Proof.
  intros r w x l w'. unfold dispatch, route_handler. destruct (chi_Route a _ _ _) as [nf|i ps]; [by intros [= _ <- _]|].
  destruct (public !! i); [apply silent_handler|]. destruct (admin !! _); [apply silent_auth, silent_handler|]. by intros [= _ <- _].
Qed.

Definition audits (logs : list LogEntry) : list AuditEntry :=
  omap (fun e => match e with LogAudit x => Some x | LogAccess _ _ => None end) logs.

Definition audited (r : Request) : bool := isAuditMethod (rq_Method r) && negb (shouldSkipAudit (rq_Path r)).




(** The request as the middleware behind [RequestID] sees it. *)
Lemma identified r w resp logs w' : serve r w = (resp, logs, w') ->
  exists r', rq_Method r' = rq_Method r /\ rq_Path r' = rq_Path r /\ UserIDFromContext r' = UserIDFromContext r /\
    forall x l w1, dispatch cfg encKey ensureOperatorFn a r' w = (x, l, w1) -> l = [] /\
      match x with
      | None => logs = [] /\ resp = chi_Recovered a
      | Some x => resp = x /\ audits logs = if audited r then [audit_entry r' x] else []
      end.
Proof.
  intros Hs. unfold NewRouter, AccessLog, AuditLog in Hs.
  set (r' := if str_eqb (rq_ID r) "" then _ else _) in Hs. exists r'.
  assert (rq_Method r' = rq_Method r /\ rq_Path r' = rq_Path r /\ UserIDFromContext r' = UserIDFromContext r) as (E1 & E2 & E3).
  { unfold r', UserIDFromContext. by destruct (str_eqb (rq_ID r) ""). }
  split_and!; [done..|]. intros x l w1 Ed. rewrite Ed in Hs. apply silent_dispatch in Ed as ->. split; [done|].
  unfold audited. rewrite <- E1, <- E2. destruct x as [x|]; [|by injection Hs as <- <- _].
  destruct (isAuditMethod (rq_Method r')); [destruct (shouldSkipAudit (rq_Path r'))|]; injection Hs as <- <- _; cbn; try done.
Qed.


(** The token is read behind the audit, into a copy of the request: the actor of a line is that of the
    request as it arrives, which has none. *)
Theorem audit_actor_missing r w resp logs w' e : rq_UserID r = None -> serve r w = (resp, logs, w') ->
  e ∈ audits logs -> au_ActorUserID e = "".
Proof.
  intros Hu (r' & _ & _ & Hi & Hd)%identified. destruct (dispatch _ _ _ _ r' w) as [[x l] w1] eqn:E. destruct (Hd _ _ _ eq_refl) as [_ Hx].
  destruct x as [x|]; [|destruct Hx as [-> _]; by intros ?%elem_of_nil]. destruct Hx as [_ ->].
  destruct (audited r); [|by intros ?%elem_of_nil]. intros ->%list_elem_of_singleton. cbn. rewrite Hi. unfold UserIDFromContext. by rewrite Hu.
Qed.

(** ** Maintenance mode *)

(** The operations on deployed applications read the same row. *)
Class OpsAgree := {
  ops_load w : load_Maintenance w = load_Maintenance (w_db w);
}.
Context `{agree : !OpsAgree}.

(** Maintenance is on, and its row can be read. *)
Definition in_maintenance (w : W) (text : string) : Prop :=
  m_Enabled (d_maintenance (w_db w)) = true /\ m_Message (d_maintenance (w_db w)) = text /\ forall n, maintenance_fault n = None.

Lemma in_maintenance_load w text : in_maintenance w text -> load_Maintenance (w_db w) = Ok (d_maintenance (w_db w)).
Proof. intros (_ & _ & Hf). cbn. by rewrite Hf. Qed.

Lemma ensure_refuses {S} `{store : MaintenanceStore S} (s : S) st : load_Maintenance s = Ok st -> m_Enabled st = true ->
  ensureMaintenanceAllows s = (Err (MaintenanceError (m_Message st)), s).
Proof.
  intros Hl He. unfold ensureMaintenanceAllows, mbind, io_bind, ask, lift, wrap_err. rewrite Hl, He. done.
Qed.

(** The program is stopped before it does anything. *)
Definition stopped {A} (m : svc A) : Prop := forall w text, in_maintenance w text -> m w = (Err (EOp (MaintenanceError text)), w).

Lemma stopped_gate {A} (k : unit -> svc A) : stopped (maintenance_gate ≫= k).
Proof.
  intros w text Hw. pose proof (in_maintenance_load _ _ Hw) as Hl. destruct Hw as (He & <- & _). unfold maintenance_gate, mbind at 1, io_bind at 1.
  rewrite (ensure_refuses _ _ Hl He). by destruct w.
Qed.

Lemma stopped_operation (k : unit -> io W op_error unit) : stopped (operation (ensureMaintenanceAllows ≫= k)).
Proof.
  intros w text Hw. pose proof (in_maintenance_load _ _ Hw) as Hl. destruct Hw as (He & <- & _). rewrite <- ops_load in Hl. unfold operation, wrap_err, mbind, io_bind.
  by rewrite (ensure_refuses _ _ Hl He).
Qed.

Definition maintenance_answer (text : string) : Response payload :=
  error_json 503 (if str_eqb (TrimSpace text) "" then "maintenance mode enabled" else "maintenance mode enabled: " +:+ TrimSpace text).

(** What is answered before the service is asked: there is none, the body is not what the route decodes, or
    a header or value that the handler itself checks is missing or wrong. *)
Definition malformed (resp : Response payload) : Prop :=
  (api_svc a = false /\ resp = error_json 500 "service unavailable") \/ resp = bad_request "invalid json" \/
  resp = bad_request "replicas must be >= 0" \/ resp = error_json 428 "If-Match header with resourceVersion required".

(** Nothing changes, and the answer is that of maintenance mode, one for a malformed request, or one of [other]. *)
Definition frozen (other : string -> Response payload -> Prop) (m : action) : Prop :=
  forall w text resp w', in_maintenance w text -> m w = (resp, w') ->
  quiet w w' /\ exists x, resp = Some x /\ (x = maintenance_answer text \/ malformed x \/ other text x).

Lemma frozen_run {A} other (m : svc A) ok err : stopped m -> frozen other (run m ok (or_maintenance err)).
Proof. intros Hm w text resp w' Hw. unfold run. rewrite (Hm w text Hw). intros [= <- <-]. split; [done|]. eexists. split; [done|]. by left. Qed.

Lemma frozen_respond other x : (forall text, malformed x \/ other text x) -> frozen other (respond x).
Proof. intros Hx w text resp w' _ [= <- <-]. split; [done|]. exists x. auto. Qed.

Lemma frozen_service other k : frozen other k -> frozen other (serviceOrError a k).
Proof. intros Hk. unfold serviceOrError. destruct (api_svc a) eqn:E; [done|]. apply frozen_respond. intros ?. left. by left. Qed.

Lemma frozen_decoding {A} other (d : option A) k : (forall x, frozen other (k x)) -> frozen other (decoding d k).
Proof. intros Hk. destruct d; [apply Hk|]. apply frozen_respond. intros ?. left. right. by left. Qed.

Lemma frozen_if_match other r k : (forall v, frozen other (k v)) -> frozen other (if_match r k).
Proof. intros Hk. unfold if_match. case_match; [|apply Hk]. apply frozen_respond. intros ?. left. by do 3 right. Qed.

(** An error that is neither a panic nor of the maintenance gate. *)
Definition ordinary (e : svc_error) : Prop := panicked e = false /\ as_maintenance e = None.

Lemma db_ordinary {A} (m : io DB db_error A) (w : W) e w' : db m w = (Err e, w') -> ordinary e.
Proof.
  intros [(e' & (x & d & _ & [=] & _)%try_db_inv & _)|(x & w1 & _ & Hx)]%io_bind_case.
  destruct x as [x|[|t]]; [done|..]; by injection Hx as <- _.
Qed.

Lemma quiet_maintenance (w w' : W) text : quiet w w' -> in_maintenance w text -> in_maintenance w' text.
Proof. intros [(_ & _ & _ & _ & _ & _ & E & _) _]. unfold in_maintenance. by rewrite E. Qed.

(** A template that is not found or cannot be rendered. *)
Definition no_template (resp : Response payload) : Prop := exists e, resp = refuse_or_404 e /\ ordinary e.

Lemma frozen_deployTemplate actor p t values :
  frozen (fun _ => no_template) (run (DeployTemplate cfg encKey actor p t values) (fun '(o, _) => writeJSON 201 (PDeployed o)) (or_maintenance refuse_or_404)).
Proof.
  intros w text resp w' Hw. unfold run.
  assert (Hno : forall e, ordinary e -> (if panicked e then None else Some (or_maintenance refuse_or_404 e)) = resp ->
    exists x, resp = Some x /\ (x = maintenance_answer text \/ malformed x \/ no_template x)).
  { intros e [Hp He] <-. rewrite Hp. eexists. split; [done|]. right. right. unfold or_maintenance, writeMaintenanceError. rewrite He. cbn.
    by exists e. }
  destruct (DeployTemplate _ _ _ _ _ _ w) as [x w1] eqn:E. unfold DeployTemplate in E.
  apply io_bind_case in E as [(e & E & ->)|(tpl & w2 & E2 & E)].
  { intros [= Hr <-]. split; [|eapply Hno; [by eapply db_ordinary|exact Hr]]. eapply (quiet_db _ (GetTemplate_ro t)), E. }
  pose proof (quiet_db _ (GetTemplate_ro t) _ _ _ E2) as Hq.
  apply io_bind_case in E as [(e & E & ->)|(o & w3 & E3 & E)].
  { intros [= Hr <-]. split; [etransitivity; [exact Hq|by eapply quiet_render]|]. apply render_err in E as (msg & ->). by eapply Hno, Hr. }
  assert (Hq3 : quiet w w3) by (etransitivity; [exact Hq|by eapply quiet_render]).
  pose proof (quiet_maintenance _ _ _ Hq3 Hw) as Hw3.
  unfold DeployApp in E. rewrite (stopped_gate _ w3 text Hw3) in E. injection E as <- <-. intros [= <- <-].
  split; [done|]. eexists. split; [done|]. by left.
Qed.

(** The handler of a cluster's registration looks for the error of the gate where the kubeconfig
    is decoded, so the answer to it is 400. *)
Definition cluster_refused (text : string) (resp : Response payload) : Prop :=
  resp = refuse 400 (EOp (MaintenanceError text)) \/ exists e, resp = refuse 400 (EText e).

Lemma frozen_createCluster ps r : frozen cluster_refused (createCluster cfg encKey ensureOperatorFn a ps r).
Proof.
  apply frozen_service, frozen_decoding. intros req. destruct (DecodeKubeconfig _ _) as [k|e].
  - intros w text resp w' Hw. unfold run, RegisterCluster. rewrite (stopped_gate _ w text Hw). intros [= <- <-].
    split; [done|]. eexists. split; [done|]. right. right. by left.
  - apply frozen_respond. intros text. right. right. by exists e.
Qed.

(** The routes whose services ask for maintenance mode, with the answers of their own. *)
Definition gated : list (route * (string -> Response payload -> Prop)) :=
  let none := fun _ _ => False in
  [ (mkRoute "POST" "/v1/clusters/" (createCluster cfg encKey ensureOperatorFn a), cluster_refused);
    (mkRoute "PATCH" "/v1/clusters/{id}" (updateCluster cfg a), none);
    (mkRoute "POST" "/v1/projects/" (createProject cfg encKey a), none);
    (mkRoute "PATCH" "/v1/projects/{id}/quota" (patchProjectQuota cfg encKey a), none);
    (mkRoute "POST" "/v1/projects/{id}/suspend" (suspendProject cfg encKey a), none);
    (mkRoute "POST" "/v1/projects/{id}/unsuspend" (unsuspendProject cfg encKey a), none);
    (mkRoute "DELETE" "/v1/projects/{id}" (deleteProject cfg encKey a), none);
    (mkRoute "POST" "/v1/projects/{id}/apps" (deployApp cfg encKey a), none);
    (mkRoute "DELETE" "/v1/projects/{id}/apps/{appId}" (deleteApp cfg encKey a), none);
    (mkRoute "PATCH" "/v1/projects/{id}/apps/{appId}/scale" (scaleApp cfg a), none);
    (mkRoute "PATCH" "/v1/projects/{id}/apps/{appId}/image" (updateAppImage cfg a), none);
    (mkRoute "POST" "/v1/projects/{id}/apps/{appId}/rollout/restart" (rolloutRestartApp cfg a), none);
    (mkRoute "POST" "/v1/projects/{id}/templates/{templateId}/deploy" (deployTemplate cfg encKey a), fun _ => no_template) ].

(** The routes that change something and are served during maintenance all the same. *)
Definition ungated : list (string * string) :=
  [ ("POST", "/v1/events/ingest"); ("POST", "/v1/apps/validate"); ("POST", "/v1/users/bootstrap"); ("DELETE", "/v1/users/{id}");
    ("POST", "/v1/users/{id}/kubeconfig/renew"); ("POST", "/v1/projects/{id}/events"); ("POST", "/v1/projects/{id}/kubeconfig/renew");
    ("POST", "/v1/projects/{id}/configs"); ("DELETE", "/v1/projects/{id}/configs/{name}");
    ("POST", "/v1/projects/{id}/secrets"); ("DELETE", "/v1/projects/{id}/secrets/{name}");
    ("POST", "/v1/projects/{id}/apps/{appId}/configs/attach"); ("POST", "/v1/projects/{id}/apps/{appId}/configs/detach");
    ("POST", "/v1/projects/{id}/apps/{appId}/secrets/attach"); ("POST", "/v1/projects/{id}/apps/{appId}/secrets/detach");
    ("POST", "/v1/kubeconfigs/"); ("POST", "/v1/kubeconfigs/rotate"); ("DELETE", "/v1/kubeconfigs/{id}");
    ("POST", "/v1/credentials/git/"); ("DELETE", "/v1/credentials/git/{id}");
    ("POST", "/v1/credentials/registries/"); ("DELETE", "/v1/credentials/registries/{id}");
    ("POST", "/v1/templates/"); ("POST", "/v1/templates/{id}/render"); ("PUT", "/v1/admin/maintenance"); ("POST", "/v1/webhooks/git") ].

Lemma gated_frozen : Forall (fun e => forall ps r, frozen e.2 (rt_Handler e.1 ps r)) gated.
Proof.
  unfold gated. cbv zeta. apply Forall_cons; split; [exact frozen_createCluster|].
  repeat (apply Forall_cons; split); [..|constructor]; intros ps r; cbn [rt_Handler fst snd]; apply frozen_service;
    repeat first [apply frozen_decoding; intros | apply frozen_if_match; intros | apply frozen_deployTemplate | apply frozen_run
                 | apply stopped_gate | apply stopped_operation | case_match].
  - apply frozen_respond. intros ?. left. right; right; by left.
  - intros w text Hw. by apply stopped_operation.
Qed.

(** Every route of the API that is not a GET is one or the other. *)
Lemma routes_sorted : Forall (fun rt => rt_Method rt = "GET" \/ rt ∈ gated.*1 \/ (rt_Method rt, rt_Pattern rt) ∈ ungated) admin.
Proof.
  unfold admin_routes, cluster_routes, user_routes, project_routes, other_routes. cbn [app].
  repeat (apply Forall_cons; split;
    [first [left; reflexivity
           |right; right; solve [repeat (first [apply list_elem_of_here|apply list_elem_of_further])]
           |right; left; solve [repeat (first [apply list_elem_of_here|apply list_elem_of_further])]]|]).
  constructor.
Qed.

(** C5: while maintenance is on and its row can be read, every route behind the admin token that is not a
    GET, but for the routes [ungated], leaves every table but the log of
    events and every cluster as they were and answers 503 with the text of the operators, unless the request is refused as malformed before the service is
    asked (an undecodable body, negative replicas, no If-Match header, no service), the template to deploy is
    not found or cannot be rendered, or a cluster is to be registered, which is refused with 400. Not blocked are
    the routes of users, kubeconfigs, credentials, events, ConfigMaps and Secrets and their
    attachment, templates, maintenance itself, the validation of an application and the Git webhook. *)
Theorem maintenance_503 rt ps r w text resp w' :
  rt ∈ admin -> rt_Method rt <> "GET" -> (rt_Method rt, rt_Pattern rt) ∉ ungated ->
  in_maintenance w text -> rt_Handler rt ps r w = (resp, w') ->
  quiet w w' /\ exists x, resp = Some x /\
    (x = maintenance_answer text \/ malformed x \/
     (rt_Pattern rt = "/v1/projects/{id}/templates/{templateId}/deploy" /\ no_template x) \/
     (rt_Pattern rt = "/v1/clusters/" /\ cluster_refused text x)).
Proof.
  intros Hrt Hget Hun Hw Hr. destruct (proj1 (Forall_forall _ _) routes_sorted rt Hrt) as [?|[Hg|?]]; [done| |done].
  apply list_elem_of_fmap in Hg as ([rt' other] & -> & Hg). cbn [fst] in *.
  destruct (proj1 (Forall_forall _ _) gated_frozen _ Hg ps r w text resp w' Hw Hr) as (Hq & x & -> & Hx). split; [done|]. exists x. split; [done|].
  destruct Hx as [Hx|[Hx|Hx]]; [by left|by right; left|]. right; right. cbn [snd] in Hx. clear -Hg Hx. revert Hg Hx. unfold gated. cbv zeta.
  intros Hg Hx. repeat (apply elem_of_cons in Hg as [[= -> ->]|Hg]; [by auto|]). by apply elem_of_nil in Hg.
Qed.

(** Registering a cluster is refused as well, but with 400: its handler looks for the error of
    the gate where the kubeconfig is decoded. *)
Lemma create_cluster_400 ps r w text req kubeconfig : api_svc a = true -> in_maintenance w text ->
  Decode decode_createCluster (rq_Body r) = Some req -> DecodeKubeconfig (ccr_Kubeconfig req) (ccr_KubeconfigB64 req) = Ok kubeconfig ->
  createCluster cfg encKey ensureOperatorFn a ps r w = (Some (refuse 400 (EOp (MaintenanceError text))), w).
Proof.
  intros Ha Hw Hd Hk. unfold createCluster, serviceOrError. rewrite Ha, Hd. cbn [decoding]. rewrite Hk. unfold run, RegisterCluster.
  by rewrite (stopped_gate _ w text Hw).
Qed.
End Endpoints.
