(* ===== verification/ReleaseProofs.v ===== *)
(** What the record of a deployment says when it is read back: the pages of a listing put
    together, and the specification of a release. *)

From Stdlib Require Import Ascii ZArith Lia OrderedTypeEx.
From stdpp Require Import base gmap strings list sorting pretty.
From S2P Require Import CursorOrder.
From S2P Require Import Prelude Utf8 GoStrings Hash NetURL NetIP Security Names Kube Crypto Json Config Quota Events Maintenance.
From S2P Require Import Workload Store StoreApps StoreProofs AppStoreProofs Tenancy TenancyProofs Credentials Sources GitFiles Plan Releases.

(** ** The order of releases *)

Local Abbreviation Newer := (CursorOrder.Newer rl_CreatedAt rl_ID).

(** ** Lists of results *)

Lemma all_ok_take {A B} (f : A -> result string B) n l ys : all_ok f l = Ok ys -> all_ok f (take n l) = Ok (take n ys).
Proof.
  revert n ys. induction l as [|x l IH]; intros [|n] ys; cbn; try by intros [= <-].
  - done.
  - intros (y & Hy & H)%bind_ok. apply bind_ok in H as (zs & Hz & [= <-]). rewrite Hy. cbn. by erewrite IH.
Qed.

Lemma all_ok_drop {A B} (f : A -> result string B) n l ys : all_ok f l = Ok ys -> all_ok f (drop n l) = Ok (drop n ys).
Proof.
  revert n ys. induction l as [|x l IH]; intros [|n] ys; cbn; try by intros [= <-].
  - done.
  - intros (y & Hy & H)%bind_ok. apply bind_ok in H as (zs & Hz & [= <-]). cbn. by apply IH.
Qed.

Lemma all_ok_length {A B} (f : A -> result string B) l ys : all_ok f l = Ok ys -> length ys = length l.
Proof.
  revert ys. induction l as [|x l IH]; intros ys; cbn; [by intros [= <-]|].
  intros (y & Hy & H)%bind_ok. apply bind_ok in H as (zs & Hz & [= <-]). cbn. by rewrite (IH zs).
Qed.

(** ** Pages *)

Section Pages.
Context {Q K C R CS : Type} `{plat : Platform Q K C R CS} `{pg : Postgres}.
Local Abbreviation W := (World K C R).
Local Abbreviation svc := (io W svc_error).

(** A client that follows the cursors, [pages] times at most. *)
Fixpoint read_pages (pages : nat) (projectID appID : string) (limit : Z) (cursor : string) : svc (list ReleaseView) :=
  match pages with
  | O => fail (EText "more pages")
  | S pages =>
      page ← ListAppReleases projectID appID limit cursor;
      if str_eqb page.2 "" then mret page.1
      else rest ← read_pages pages projectID appID limit page.2; mret (page.1 ++ rest)
  end.

Definition of_app (projectID appID : string) (r : Release) : bool :=
  str_eqb (rl_ProjectID r) projectID && str_eqb (rl_AppID r) appID.

(** The releases of the app, newest first. *)
Definition history (d : DB) (projectID appID : string) : list Release :=
  merge_sort newest_first (List.filter (of_app projectID appID) (d_releases d)).

(** An identifier as it is stored. *)
Definition canonical (id : string) : Prop := uuid_in id = Some id /\ TrimSpace id = id /\ id <> "".

(** An application of the project is live, and the tables hold the identifiers they hand out. *)
Record listable (projectID appID : string) (d : DB) : Prop := {
  lb_project : canonical projectID;
  lb_app : canonical appID;
  lb_live : exists row, row ∈ d_apps d /\ ar_ID row = appID /\ ar_deleted row = false;
  lb_owner : Forall (fun row => ar_ID row = appID -> ar_ProjectID row = projectID) (d_apps d);
  lb_ids : NoDup (rl_ID <$> d_releases d);
  lb_canonical : Forall (fun r => canonical (rl_ID r)) (d_releases d);
}.

Context (Hfault : forall n, db_fault n = None).
Context (projectID appID : string) (limit : Z).

Lemma db_stmt {A} (f : Z -> DB -> result db_error (A * DB)) (w : W) a :
  (forall now, f now (w_db w) = Ok (a, w_db w)) -> db (stmt f) w = (Ok a, set_db w (bump (w_db w))).
Proof. intros Hf. unfold db, or_fail, try_db, mbind, io_bind. rewrite stmt_no_fault by done. by rewrite Hf. Qed.

Lemma canonical_blank id : canonical id -> blank id = false.
Proof. intros (_ & Ht & Hn). unfold blank. rewrite Ht. by apply str_eqb_neq. Qed.

Lemma canonical_uuid id : canonical id -> uuid id = Ok id.
Proof. intros (H & _). unfold uuid. by rewrite H. Qed.

Lemma listable_same d d' : same_rows d d' -> listable projectID appID d ->
  listable projectID appID d' /\ history d' projectID appID = history d projectID appID.
Proof.
  intros (_ & _ & _ & _ & _ & Ha & _ & _ & _ & _ & _ & Hr & _) [H1 H2 H3 H4 H5 H6]. unfold history.
  rewrite Hr. split; [|done]. split; by rewrite ?Ha, ?Hr.
Qed.

Lemma listed_app (w : W) : listable projectID appID (w_db w) ->
  exists a, db (GetApp appID) w = (Ok a, set_db w (bump (w_db w))) /\ a_ProjectID a = projectID.
Proof.
  intros [_ Ha (row & Hin & Hid & Hlive) Hown _ _].
  destruct (List.find (fun r => str_eqb (ar_ID r) appID && negb (ar_deleted r)) (d_apps (w_db w))) as [r|] eqn:Ef.
  - exists (ar r). split; [|apply find_some in Ef as [Hr%list_elem_of_In [Hi%str_eqb_eq _]%andb_true_iff]].
    + apply db_stmt. intros now. rewrite canonical_uuid by done. unfold mbind, result_bind, select. by rewrite Ef.
    + rewrite Forall_forall in Hown. by apply Hown.
  - eapply find_none in Ef; [|by apply list_elem_of_In]. rewrite Hid, Hlive, str_eqb_refl in Ef. done.
Qed.

Lemma in_history d r : r ∈ history d projectID appID <-> r ∈ d_releases d /\ rl_ProjectID r = projectID /\ rl_AppID r = appID.
Proof.
  unfold history. rewrite merge_sort_Permutation, list_elem_of_In, filter_In, <- list_elem_of_In. unfold of_app.
  by rewrite andb_true_iff, !str_eqb_eq.
Qed.

Lemma history_sorted d : listable projectID appID d -> StronglySorted Newer (history d projectID appID).
Proof.
  intros Hl. apply strictly_sorted; [|unfold history; apply StronglySorted_merge_sort; apply _].
  unfold history. rewrite merge_sort_Permutation. eapply sublist_NoDup; [apply (lb_ids _ _ _ Hl)|].
  apply fmap_sublist. clear. induction (d_releases d) as [|r l IH]; cbn; [constructor|].
  destruct (of_app _ _ r); by constructor.
Qed.

Lemma followed_cursor (w : W) x : listable projectID appID (w_db w) -> x ∈ history (w_db w) projectID appID ->
  release_cursor projectID appID (rl_ID x) w = (Ok (Some (rl_ID x, rl_CreatedAt x)), set_db w (bump (w_db w))).
Proof.
  intros Hl (Hin & Hp & Ha)%in_history. pose proof (lb_canonical _ _ _ Hl) as Hc. rewrite Forall_forall in Hc.
  pose proof (Hc _ Hin) as Hx. unfold release_cursor. cbv zeta. rewrite (proj1 (proj2 Hx)).
  rewrite (proj2 (str_eqb_neq _ _)) by apply Hx. unfold GetRelease. rewrite canonical_blank by done.
  assert (Hf : List.find (fun r => str_eqb (rl_ID r) (rl_ID x)) (d_releases (w_db w)) = Some x).
  { pose proof (lb_ids _ _ _ Hl) as Hn. revert Hin Hn. clear. induction (d_releases (w_db w)) as [|r l IH]; [by intros ?%elem_of_nil|].
    rewrite elem_of_cons, fmap_cons, NoDup_cons. cbn. intros [<-|Hin] [Hr Hn]; [by rewrite str_eqb_refl|].
    rewrite (proj2 (str_eqb_neq _ _)); [by apply IH|]. intros E. destruct Hr. rewrite E. by apply list_elem_of_fmap_2. }
  unfold mbind, io_bind, wrap_err. rewrite (db_stmt _ w (scanRelease x)).
  - cbn. rewrite Hp, Ha, !str_eqb_refl. done.
  - intros now. rewrite canonical_uuid by done. unfold mbind, result_bind, select. by rewrite Hf.
Qed.

Lemma page_limit_bounds : (1 <= page_limit limit <= 100)%Z.
Proof. unfold page_limit. cbv zeta. destruct (limit <=? 0)%Z eqn:E1; repeat case_match; rewrite ?Z.leb_gt, ?Z.ltb_ge, ?Z.ltb_lt in *; lia. Qed.

(** The position of a cursor: what it leaves, of the releases in order. *)
Definition at_cursor (d : DB) (cursor : option (string * Z)) (rest : list Release) : Prop :=
  List.filter (after_cursor cursor) (history d projectID appID) = rest /\
  match cursor with Some (id, _) => canonical id | None => True end.

Lemma listed_rows (w : W) cursor rest : listable projectID appID (w_db w) -> at_cursor (w_db w) cursor rest ->
  db (ListReleasesByApp projectID appID (page_limit limit + 1) cursor) w =
  (Ok (scanRelease <$> take (Z.to_nat (page_limit limit + 1)) rest), set_db w (bump (w_db w))).
Proof.
  intros [Hp Ha _ _ _ _] [<- Hc]. pose proof page_limit_bounds as Hb. unfold ListReleasesByApp.
  rewrite !canonical_blank by done. cbv zeta. rewrite (proj2 (Z.leb_gt _ 0)), (proj2 (Z.ltb_ge 200 _)) by lia.
  apply db_stmt. intros now. rewrite !canonical_uuid by done. cbn [mbind result_bind].
  destruct cursor as [[id at_]|]; [rewrite canonical_uuid by done|]; done.
Qed.

Lemma resumed (w : W) l1 l2 : listable projectID appID (w_db w) -> history (w_db w) projectID appID = l1 ++ l2 ->
  exists cur w', release_cursor projectID appID (from_option rl_ID "" (last l1)) w = (Ok cur, w') /\
    same_rows (w_db w) (w_db w') /\ at_cursor (w_db w') cur l2.
Proof.
  intros Hl Hh. destruct (last l1) as [x|] eqn:El; cbn [from_option].
  - apply last_Some in El as [l1' ->]. rewrite <- app_assoc in Hh. cbn in Hh.
    assert (Hx : x ∈ history (w_db w) projectID appID) by (rewrite Hh; set_solver).
    eexists _, _. split; [by apply followed_cursor|]. split; [done|]. split.
    + change (history (w_db (set_db w (bump (w_db w)))) projectID appID) with (history (w_db w) projectID appID).
      pose proof (history_sorted _ Hl) as Hs. rewrite Hh in *. by apply after_rest.
    + apply in_history in Hx as [Hx _]. pose proof (lb_canonical _ _ _ Hl) as Hc. rewrite Forall_forall in Hc. by apply Hc.
  - apply last_None in El as ->. exists None, w. split; [done|]. split; [done|]. split; [|done].
    rewrite Hh. cbn. clear. induction l2 as [|x l IH]; [done|]. cbn. by rewrite IH.
Qed.

(** One page: as many releases as the limit allows, and where the next one starts. *)
Lemma one_page (w : W) l1 l2 views : listable projectID appID (w_db w) ->
  history (w_db w) projectID appID = l1 ++ l2 -> all_ok convertRelease (scanRelease <$> l2) = Ok views ->
  let n := Z.to_nat (page_limit limit) in
  exists w', ListAppReleases projectID appID limit (from_option rl_ID "" (last l1)) w =
      (Ok (take n views, if (n <? length l2)%nat then from_option rl_ID "" (last (take n l2)) else ""), w') /\
    same_rows (w_db w) (w_db w').
Proof.
  intros Hl Hh Hv n. pose proof Hl as [Hp Ha _ _ _ _]. pose proof page_limit_bounds as Hb.
  unfold ListAppReleases. rewrite (proj1 (proj2 Hp)), (proj1 (proj2 Ha)). cbv zeta.
  rewrite !(proj2 (str_eqb_neq _ _)) by (apply Hp || apply Ha). cbn [orb].
  destruct (listed_app w Hl) as (a & Hga & Hap). unfold mbind at 1, io_bind at 1. rewrite Hga, Hap, str_eqb_refl. cbn [negb].
  assert (S1 : same_rows (w_db w) (w_db (set_db w (bump (w_db w))))) by done.
  apply (listable_same _ _ S1) in Hl as [Hl Hh']. rewrite Hh in Hh'.
  destruct (resumed _ l1 l2 Hl Hh') as (cur & w2 & Hcur & S2 & Hat). unfold mbind at 1, io_bind at 1. rewrite Hcur.
  apply (listable_same _ _ S2) in Hl as [Hl _]. unfold mbind at 1, io_bind at 1. rewrite (listed_rows w2 cur l2 Hl Hat).
  assert (Hlen : (page_limit limit <? Z.of_nat (length (scanRelease <$> take (Z.to_nat (page_limit limit + 1)) l2)))%Z = (n <? length l2)%nat).
  { rewrite length_fmap, length_take. unfold n. destruct (Nat.ltb_spec (Z.to_nat (page_limit limit)) (length l2)); [apply Z.ltb_lt|apply Z.ltb_ge]; lia. }
  rewrite Hlen.
  assert (Hrows : (if (n <? length l2)%nat then take (Z.to_nat (page_limit limit)) (scanRelease <$> take (Z.to_nat (page_limit limit + 1)) l2)
      else scanRelease <$> take (Z.to_nat (page_limit limit + 1)) l2) = scanRelease <$> take n l2).
  { destruct (Nat.ltb_spec n (length l2)) as [H|H].
    - rewrite <- fmap_take, take_take. f_equal. f_equal. unfold n. lia.
    - rewrite !take_ge; [done|unfold n in H; lia..]. }
  rewrite Hrows. eexists. split.
  - generalize (n <? length l2)%nat. intros more. unfold pure, or_fail, mbind, io_bind, mret, io_ret.
    rewrite fmap_take, (all_ok_take _ _ _ _ Hv), <- fmap_take, fmap_last.
    by destruct (last (take n l2)) as [x|], more.
  - exact S2.
Qed.

Lemma read_from (pages : nat) (w : W) l1 l2 views : listable projectID appID (w_db w) ->
  history (w_db w) projectID appID = l1 ++ l2 -> all_ok convertRelease (scanRelease <$> l2) = Ok views ->
  (0 < pages)%nat -> (length l2 <= pages * Z.to_nat (page_limit limit))%nat ->
  exists w', read_pages pages projectID appID limit (from_option rl_ID "" (last l1)) w = (Ok views, w') /\
    same_rows (w_db w) (w_db w').
Proof.
  pose proof page_limit_bounds as Hb. set (n := Z.to_nat (page_limit limit)). assert (Hn : (0 < n)%nat) by lia.
  revert w l1 l2 views. induction pages as [|pages IH]; intros w l1 l2 views Hl Hh Hv Hpos Hlen; [lia|]. clear Hpos.
  destruct (one_page w l1 l2 views Hl Hh Hv) as (w1 & H1 & S1). fold n in H1. cbn [read_pages].
  unfold mbind at 1, io_bind at 1. rewrite H1. cbn [fst snd]. apply (listable_same _ _ S1) in Hl as [Hl Hh1].
  destruct (Nat.ltb_spec n (length l2)) as [Hlt|Hge].
  - destruct (last (take n l2)) as [x|] eqn:Ex; [|apply last_None, (f_equal length) in Ex; rewrite length_take in Ex; cbn in Ex; lia].
    cbn [from_option]. assert (Hx : last (l1 ++ take n l2) = Some x) by (by rewrite last_app, Ex).
    assert (Hin : x ∈ history (w_db w) projectID appID).
    { rewrite Hh. apply elem_of_app. right. apply last_Some in Ex as [l' Ex].
      apply (subseteq_take n l2). rewrite Ex. set_solver. }
    rewrite (proj2 (str_eqb_neq (rl_ID x) "")).
    2: { rewrite <- Hh1 in Hin. apply in_history in Hin as [Hin _]. pose proof (lb_canonical _ _ _ Hl) as Hc.
         rewrite Forall_forall in Hc. by apply Hc. }
    destruct (IH w1 (l1 ++ take n l2) (drop n l2) (drop n views) Hl) as (w2 & H2 & S2).
    + by rewrite Hh1, Hh, <- app_assoc, take_drop.
    + rewrite fmap_drop. by apply all_ok_drop.
    + destruct pages; [cbn in Hlen; lia|lia].
    + rewrite length_drop. lia.
    + rewrite Hx in H2. cbn [from_option] in H2. unfold mbind, io_bind. rewrite H2. exists w2.
      split; [unfold mret, io_ret; by rewrite take_drop|]. by etransitivity.
  - exists w1. split; [|done]. cbn. apply all_ok_length in Hv. rewrite length_fmap in Hv. by rewrite take_ge by lia.
Qed.

(** C12: while the database answers, following the cursors of a listing ends: with as many requests
    as there are pages, and at least one, a client has read every release of the application
    once, the newest first, whatever the limit it asks for. *)
Theorem release_pages_complete (pages : nat) (w : W) views : listable projectID appID (w_db w) ->
  all_ok convertRelease (scanRelease <$> history (w_db w) projectID appID) = Ok views ->
  (0 < pages)%nat -> (length (history (w_db w) projectID appID) <= pages * Z.to_nat (page_limit limit))%nat ->
  history (w_db w) projectID appID ≡ₚ List.filter (of_app projectID appID) (d_releases (w_db w)) /\
  StronglySorted Newer (history (w_db w) projectID appID) /\
  exists w', read_pages pages projectID appID limit "" w = (Ok views, w') /\ same_rows (w_db w) (w_db w') /\
    rv_ID <$> views = rl_ID <$> history (w_db w) projectID appID.
Proof.
  intros Hl Hv Hp Hlen. split; [apply merge_sort_Permutation|]. split; [by apply history_sorted|].
  destruct (read_from pages w [] _ views Hl eq_refl Hv Hp Hlen) as (w' & H & S). exists w'. split; [done|]. split; [done|].
  revert Hv. generalize (history (w_db w) projectID appID). clear. intros l. revert views.
  induction l as [|r l IH]; intros views; cbn; [by intros [= <-]|]. intros (v & Hr & H)%bind_ok.
  apply bind_ok in H as (vs & Hvs & [= <-]). cbn. f_equal; [|by apply IH].
  apply bind_ok in Hr as (sp & _ & Hr). by apply bind_ok in Hr as (os & _ & [= <-]).
Qed.
End Pages.
