(* ===== verification/ReleaseSpecProofs.v ===== *)
(** A release is read back as it was recorded: the specification, the objects and the counts of a
    stored release are those of the deployment. *)

From Stdlib Require Import Ascii ZArith Lia.
From stdpp Require Import base gmap strings list sorting pretty.
From S2P Require Import Prelude Utf8 GoStrings Hash NetURL NetIP Security Names Kube Crypto Json Config Quota Events Maintenance.
From S2P Require Import Workload Store StoreApps StoreProofs Tenancy TenancyProofs ProjectProofs Credentials Sources GitFiles Plan Releases ReleaseProofs.

(** ** Numbers *)

Lemma pretty_N_char_digit x : (x < 10)%N -> NetURL.is_digit (pretty_N_char x) = true /\ (bz (pretty_N_char x) - 48)%Z = Z.of_N x.
Proof.
  intros H. assert (x = 0 \/ x = 1 \/ x = 2 \/ x = 3 \/ x = 4 \/ x = 5 \/ x = 6 \/ x = 7 \/ x = 8 \/ x = 9)%N by lia.
  by repeat match goal with H : _ \/ _ |- _ => destruct H end; subst.
Qed.

Lemma pretty_N_go_digits x s : exists l, chars (pretty_N_go x s) = l ++ chars s /\ forallb NetURL.is_digit l = true /\
  digits_val l = Z.of_N x /\ ((0 < x)%N -> l <> []).
Proof.
  revert s. induction (N.lt_wf_0 x) as [x _ IH]. intros s. destruct (decide (x = 0)%N) as [->|Hx].
  { rewrite pretty_N_go_0. by exists []. }
  rewrite pretty_N_go_step by lia. assert (Hm : (x `mod` 10 < 10)%N) by (apply N.mod_lt; lia).
  destruct (IH (x `div` 10)%N) with (s := String (pretty_N_char (x `mod` 10)) s) as (l & Hl & Hd & Hv & _); [apply N.div_lt; lia|].
  apply pretty_N_char_digit in Hm as [H1 H2].
  exists (l ++ [pretty_N_char (x `mod` 10)]). split; [by rewrite <- app_assoc|].
  split; [by rewrite forallb_app, Hd; cbn; rewrite H1|]. split; [|by destruct l].
  unfold digits_val in *. rewrite foldl_app, Hv. cbn [foldl]. rewrite H2.
  pose proof (N.div_mod' x 10). lia.
Qed.

Lemma pretty_pos_digits p : int_of_digits (chars (pretty p)) = Some (Zpos p) /\
  exists c l, chars (pretty p) = c :: l /\ NetURL.is_digit c = true.
Proof.
  unfold pretty, pretty_positive. unfold pretty, pretty_N. destruct (decide _) as [?|_]; [done|].
  destruct (pretty_N_go_digits (N.pos p) "") as (l & Hl & Hd & Hv & Hn).
  change (chars "") with (@nil ascii) in Hl. rewrite app_nil_r in Hl. rewrite Hl.
  specialize (Hn eq_refl). unfold int_of_digits.
  rewrite Hd, Hv, bool_decide_eq_false_2 by done.
  split; [done|]. destruct l as [|c l]; [done|]. cbn in Hd. apply andb_true_iff in Hd as [Hd _]. eauto.
Qed.

Lemma Atoi_pretty z : (-(2 ^ 63) <= z < 2 ^ 63)%Z -> Atoi (pretty z) = Some z.
Proof.
  intros Hz. unfold Atoi.
  assert (Hn : match chars (pretty z) with
      | "-"%char :: l => Z.opp <$> int_of_digits l
      | "+"%char :: l => int_of_digits l
      | l => int_of_digits l
      end = Some z).
  { destruct z as [|p|p]; [done|..].
    - destruct (pretty_pos_digits p) as (Hp & c & l & Hc & Hd). change (pretty (Z.pos p)) with (pretty p). rewrite Hc in *.
      destruct (decide (c = "-"%char)) as [->|]; [done|]. destruct (decide (c = "+"%char)) as [->|]; [done|].
      rewrite <- Hp. destruct c as [[][][][][][][][]]; done.
    - destruct (pretty_pos_digits p) as [Hp _]. change (chars (pretty (Z.neg p))) with ("-"%char :: chars (pretty p)).
      cbv beta iota. by rewrite Hp. }
  rewrite Hn. cbn [mbind option_bind]. rewrite (proj2 (Z.leb_le _ _)), (proj2 (Z.ltb_lt _ _)) by lia. done.
Qed.

#[local] Opaque to_valid_utf8.

(** ** Members of a document *)

(** A document given by its members in order, the omitted ones [None]. *)
Definition fields_of (l : list (string * option any)) : Meta :=
  l ≫= fun e => match e.2 with Some v => [(e.1, v)] | None => [] end.

Definition decoded_meta (m : Meta) : Meta := List.map (fun '(k, v) => (to_valid_utf8 k, decoded v)) m.

Lemma decoded_fields l : Forall (fun e => valid_utf8 e.1) l ->
  decoded_meta (fields_of l) = fields_of ((fun e : string * option any => (e.1, decoded <$> e.2)) <$> l).
Proof.
  unfold fields_of, decoded_meta. induction 1 as [|[k o] l Hk _ IH]; [done|].
  rewrite fmap_cons, !bind_cons, List.map_app, <- IH. f_equal. destruct o as [v|]; [|done]. cbn in *. by rewrite Hk.
Qed.

Lemma field_fields l name k o : List.filter (fun e => EqualFold e.1 name) l = [(k, o)] -> field (fields_of l) name = o.
Proof.
  intros Hf. assert (Hin : forall e, e ∈ reverse (merge_sort member_le (fields_of l)) -> EqualFold e.1 name = true -> o = Some e.2).
  { intros e He Hn. rewrite elem_of_reverse, merge_sort_Permutation in He. unfold fields_of in He.
    apply list_elem_of_bind in He as ([k' o'] & He & Hl). destruct o' as [v|]; [|by apply elem_of_nil in He].
    apply list_elem_of_singleton in He as ->. apply list_elem_of_In in Hl.
    assert (Hk : In (k', Some v) (List.filter (fun e => EqualFold e.1 name) l)) by (by apply filter_In).
    rewrite Hf in Hk. destruct Hk as [[= _ ->]|[]]. done. }
  unfold field. destruct (List.find _ _) as [e|] eqn:E.
  - apply find_some in E as [H1%list_elem_of_In H2]. by rewrite (Hin e).
  - cbn. destruct o as [v|]; [|done]. exfalso.
    assert (Hk : In (k, Some v) (List.filter (fun e => EqualFold e.1 name) l)) by (rewrite Hf; by left).
    apply filter_In in Hk as [Hk%list_elem_of_In Hn].
    eapply find_none in E; [|apply list_elem_of_In; rewrite elem_of_reverse, merge_sort_Permutation; unfold fields_of;
      apply list_elem_of_bind; exists (k, Some v); split; [by left|done]]. cbn in *. congruence.
Qed.

(** The members that are left out when empty. *)
Definition otext (s : string) : option any := if str_eqb s "" then None else Some (AString s).
Definition olist (l : list any) : option any := match l with [] => None | _ => Some (AList l) end.
Definition omap_ (m : Meta) : option any := match m with [] => None | _ => Some (AMap m) end.

Lemma fields_app l1 l2 : fields_of (l1 ++ l2) = fields_of l1 ++ fields_of l2.
Proof. apply bind_app. Qed.
Lemma fields_one k v : fields_of [(k, Some v)] = [(k, v)].
Proof. done. Qed.
Lemma fields_text k s : fields_of [(k, otext s)] = opt_text k s.
Proof. unfold otext, opt_text. by destruct (str_eqb s ""). Qed.
Lemma fields_list k l : fields_of [(k, olist l)] = opt_list k l.
Proof. by destruct l. Qed.
Lemma fields_map k m : fields_of [(k, omap_ m)] = opt_map k m.
Proof. by destruct m. Qed.

(** ** Reading a member *)

Section Read.
Context (m : Meta) (name : string).

Lemma text_back s : field m name = Some (decoded (AString s)) -> valid_utf8 s -> text_field m name = Ok s.
Proof. unfold text_field. intros -> Hs. cbn. by rewrite Hs. Qed.

Lemma opt_text_back s : field m name = (decoded <$> otext s) -> valid_utf8 s -> text_field m name = Ok s.
Proof.
  unfold text_field, otext. intros -> Hs. destruct (str_eqb s "") eqn:E; cbn; [|by rewrite Hs].
  by apply str_eqb_eq in E as ->.
Qed.

Lemma int_back z : field m name = Some (decoded (any_int z)) -> int32_range z = true -> int_field m name = Ok z.
Proof.
  unfold int_field. intros -> Hz. cbn. unfold int32_range in Hz. apply andb_true_iff in Hz as Hb.
  rewrite Z.leb_le, Z.leb_le in Hb. assert (Ha : Atoi (pretty z) = Some z) by (apply Atoi_pretty; lia).
  destruct (str_eqb (pretty z) "null") eqn:E; [apply str_eqb_eq in E; by rewrite E in Ha|].
  rewrite Ha. unfold int32_range. by rewrite Hz.
Qed.

Lemma bool_back b : field m name = (decoded <$> if b : bool then Some (any_bool true) else None) -> bool_field m name = Ok b.
Proof. unfold bool_field. intros ->. by destruct b. Qed.

Lemma all_ok_map {A B} (f : any -> result string B) (g : A -> any) (h : A -> B) l :
  Forall (fun x => f (decoded (g x)) = Ok (h x)) l -> all_ok f (List.map decoded (g <$> l)) = Ok (h <$> l).
Proof. induction 1 as [|x l Hx _ IH]; [done|]. cbn in *. rewrite Hx. cbn. by rewrite IH. Qed.

Lemma list_back {A} (f : any -> result string A) (g : A -> any) l : field m name = (decoded <$> olist (g <$> l)) ->
  Forall (fun x => f (decoded (g x)) = Ok x) l -> list_field f m name = Ok l.
Proof.
  unfold list_field. intros -> Hf. apply (all_ok_map f g id) in Hf. rewrite list_fmap_id in Hf. by destruct l.
Qed.

Lemma strings_all (l : list (string * string)) : Forall (fun e => valid_utf8 e.1 /\ valid_utf8 e.2) l ->
  all_ok (fun e => s ← as_text e.2; Ok (e.1, s))
    (List.map (fun '(k, v) => (to_valid_utf8 k, decoded v)) ((fun e => (e.1, AString e.2)) <$> l)) = Ok l.
Proof. induction 1 as [|[k v] l' [Hk Hs] _ IH]; [done|]. cbn in *. rewrite Hk, Hs, IH. done. Qed.

Lemma strings_back (x : gmap string string) : field m name = (decoded <$> omap_ (any_strings x)) ->
  map_Forall (fun k v => valid_utf8 k /\ valid_utf8 v) x -> strings_field m name = Ok x.
Proof.
  intros Hf Hv.
  assert (He : Forall (fun e => valid_utf8 e.1 /\ valid_utf8 e.2) (sorted_entries x)).
  { unfold sorted_entries. rewrite merge_sort_Permutation, Forall_forall. intros [k v] Hin.
    apply elem_of_map_to_list in Hin. by apply (Hv k). }
  pose proof (foldl_insert_entries x) as Hx. unfold any_strings in Hf. unfold strings_field. rewrite Hf. clear Hf.
  apply strings_all in He. revert He Hx. generalize (sorted_entries x). intros [|e l] He <-; [done|].
  cbn -[all_ok] in He |- *. by rewrite He.
Qed.

Lemma struct_back {A} (f : Meta -> result string A) (g : A -> Meta) (h : A -> A) (o : option A) :
  field m name = (decoded <$> ((fun a => AMap (g a)) <$> o)) ->
  (forall a, o = Some a -> f (decoded_meta (g a)) = Ok (h a)) -> struct_field f m name = Ok (h <$> o).
Proof. unfold struct_field. intros -> Hf. destruct o as [a|]; [|done]. cbn. unfold decoded_meta in Hf. by rewrite (Hf a). Qed.
End Read.

(** ** Structures *)

Lemma fields_cons a b l : fields_of (a :: b :: l) = fields_of [a] ++ fields_of (b :: l).
Proof. by rewrite <- fields_app. Qed.

Lemma fields_struct {A} k (f : A -> any) o : fields_of [(k, f <$> o)] = match o with Some a => [(k, f a)] | None => [] end.
Proof. by destruct o. Qed.
Lemma fields_bool k (b : bool) : fields_of [(k, if b then Some (any_bool true) else None)] = if b then [(k, any_bool true)] else [].
Proof. by destruct b. Qed.

(** Rewrites a document into the fields it is made of. *)
Ltac as_fields := rewrite ?fields_cons, ?fields_text, ?fields_list, ?fields_map, ?fields_one, ?fields_bool, ?fields_struct.

(** Reads the fields of a document one after the other. *)
Ltac valid_keys := repeat (constructor; [by vm_compute|]); constructor.
Ltac read_field := 
  first [ erewrite text_back; [|by eapply field_fields|done]
        | erewrite opt_text_back; [|by eapply field_fields|done]
        | erewrite int_back; [|by eapply field_fields|done]
        | erewrite bool_back; [|by eapply field_fields] ];
  cbn [mbind result_bind].

Definition valid_git (g : ReleaseGitSource) : Prop :=
  Forall valid_utf8 [rg_URL g; rg_Ref g; rg_Commit g; rg_Path g; rg_Mode g; rg_CredentialID g].

Definition git_fields (g : ReleaseGitSource) : list (string * option any) :=
  [("url", Some (AString (rg_URL g))); ("ref", otext (rg_Ref g)); ("commit", otext (rg_Commit g)); ("path", otext (rg_Path g));
   ("mode", otext (rg_Mode g)); ("credentialId", otext (rg_CredentialID g))].

Lemma git_any_fields g : git_any g = AMap (fields_of (git_fields g)).
Proof. unfold git_any, git_fields. by as_fields. Qed.

Lemma git_back g : valid_git g -> git_of (decoded_meta (fields_of (git_fields g))) = Ok g.
Proof.
  intros Hv. unfold valid_git in Hv. rewrite !Forall_cons in Hv. destruct_and!.
  rewrite decoded_fields by valid_keys. unfold git_of. repeat read_field. by destruct g.
Qed.

Definition valid_bundle (b : ReleaseOCIBundle) : Prop :=
  Forall valid_utf8 [rb_Ref b; rb_Digest b; rb_CredentialID b; rb_MediaType b].

Definition bundle_fields (b : ReleaseOCIBundle) : list (string * option any) :=
  [("ref", Some (AString (rb_Ref b))); ("digest", otext (rb_Digest b)); ("credentialId", otext (rb_CredentialID b));
   ("insecure", if rb_Insecure b then Some (any_bool true) else None); ("mediaType", otext (rb_MediaType b))].

Lemma bundle_any_fields b : bundle_any b = AMap (fields_of (bundle_fields b)).
Proof. unfold bundle_any, bundle_fields. by as_fields. Qed.

Lemma bundle_back b : valid_bundle b -> bundle_of (decoded_meta (fields_of (bundle_fields b))) = Ok b.
Proof.
  intros Hv. unfold valid_bundle in Hv. rewrite !Forall_cons in Hv. destruct_and!.
  rewrite decoded_fields by valid_keys. unfold bundle_of. do 3 read_field.
  erewrite bool_back; [|eapply field_fields; by destruct (rb_Insecure b)]. cbn [mbind result_bind]. read_field. by destruct b.
Qed.

(** A port as its Go type holds it, with valid texts. *)
Definition valid_port (p : AppPort) : Prop :=
  int32_range (ContainerPort p) = true /\ int32_range (ServicePort_ p) = true /\
  valid_utf8 (Protocol p) /\ valid_utf8 (ServiceType p).

#[export] Instance valid_port_dec p : Decision (valid_port p).
Proof. unfold valid_port. apply _. Defined.

Lemma port_back p : valid_port p -> port_of (decoded (port_any p)) = Ok p.
Proof.
  intros (? & ? & ? & ?). unfold port_any.
  assert (Hf : [("containerPort", any_int (ContainerPort p)); ("servicePort", any_int (ServicePort_ p))] ++
      opt_text "protocol" (Protocol p) ++ opt_text "serviceType" (ServiceType p) =
    fields_of [("containerPort", Some (any_int (ContainerPort p))); ("servicePort", Some (any_int (ServicePort_ p)));
      ("protocol", otext (Protocol p)); ("serviceType", otext (ServiceType p))]) by (by as_fields).
  rewrite Hf. change (decoded (AMap ?m)) with (AMap (decoded_meta m)). rewrite decoded_fields by valid_keys.
  unfold port_of. repeat read_field. by destruct p.
Qed.

Lemma text_list_back m name l : field m name = (decoded <$> olist (AString <$> l)) -> Forall valid_utf8 l ->
  list_field as_text m name = Ok l.
Proof. intros H Hv. apply (list_back _ _ _ AString); [done|]. eapply Forall_impl; [exact Hv|]. intros s Hs. cbn. by rewrite Hs. Qed.

Lemma port_list_back m name l : field m name = (decoded <$> olist (port_any <$> l)) -> Forall valid_port l ->
  list_field port_of m name = Ok l.
Proof. intros H Hv. apply (list_back _ _ _ port_any); [done|]. eapply Forall_impl; [exact Hv|]. apply port_back. Qed.

(** The values of a chart as they come back. *)
Definition read_helm (m : Meta) : Meta := decoded_meta (members (sorted_map (AMap m))).

Definition read_source (s : ReleaseSource) : ReleaseSource :=
  mkReleaseSource (rs_Type s) (rs_Image s) (read_helm (rs_Helm s)) (rs_Manifests s) (rs_Git s) (rs_OciBundle s).

Definition valid_source (s : ReleaseSource) : Prop :=
  valid_utf8 (rs_Type s) /\ valid_utf8 (rs_Image s) /\ Forall valid_utf8 (rs_Manifests s) /\
  from_option valid_git True (rs_Git s) /\ from_option valid_bundle True (rs_OciBundle s).
#[export] Instance valid_source_dec s : Decision (valid_source s).
Proof. unfold valid_source, valid_git, valid_bundle. destruct (rs_Git s), (rs_OciBundle s); apply _. Defined.

Definition source_fields (s : ReleaseSource) : list (string * option any) :=
  [("type", Some (AString (rs_Type s))); ("image", otext (rs_Image s));
   ("helm", omap_ (members (sorted_map (AMap (rs_Helm s))))); ("manifests", olist (AString <$> rs_Manifests s));
   ("git", (fun g => AMap (fields_of (git_fields g))) <$> rs_Git s);
   ("ociBundle", (fun b => AMap (fields_of (bundle_fields b))) <$> rs_OciBundle s)].

Lemma source_any_fields s : source_any s = AMap (fields_of (source_fields s)).
Proof.
  unfold source_any, source_fields. as_fields. do 6 f_equal.
  - destruct (rs_Git s) as [g|]; [by rewrite git_any_fields|done].
  - destruct (rs_OciBundle s) as [b|]; [by rewrite bundle_any_fields|done].
Qed.

Lemma helm_back m name h : field m name = (decoded <$> omap_ h) -> meta_field m name = Ok (decoded_meta h).
Proof. unfold meta_field. intros ->. by destruct h. Qed.

Lemma source_back s : valid_source s -> source_of (decoded_meta (fields_of (source_fields s))) = Ok (read_source s).
Proof.
  intros (? & ? & ? & Hg & Hb). rewrite decoded_fields by valid_keys. unfold source_of. do 2 read_field.
  erewrite helm_back; [|by eapply field_fields]. cbn [mbind result_bind].
  erewrite text_list_back; [|by eapply field_fields|done]. cbn [mbind result_bind].
  erewrite (struct_back _ _ git_of _ id); [|by eapply field_fields|intros g E; apply git_back; by rewrite E in Hg]. cbn [mbind result_bind].
  erewrite (struct_back _ _ bundle_of _ id); [|by eapply field_fields|intros b E; apply bundle_back; by rewrite E in Hb]. cbn [mbind result_bind].
  unfold read_source, read_helm. by rewrite !option_fmap_id.
Qed.

Definition read_spec (s : ReleaseSpec) : ReleaseSpec :=
  mkReleaseSpec (rp_Name s) (rp_KubeName s) (rp_Flavor s) (rp_Resources s) (rp_Replicas s) (rp_Env s) (rp_Secrets s)
    (rp_Ports s) (rp_Domain s) (rp_Host s) (rp_Repo s) (read_source (rp_Source s)).

Definition valid_texts (m : gmap string string) : Prop := map_Forall (fun k v => valid_utf8 k /\ valid_utf8 v) m.

(** The numbers fit their Go types, and the texts are valid, as those of a decoded request are. *)
Definition valid_spec (s : ReleaseSpec) : Prop :=
  Forall valid_utf8 [rp_Name s; rp_KubeName s; rp_Flavor s; rp_Domain s; rp_Host s; rp_Repo s] /\
  valid_texts (rp_Resources s) /\ int32_range (rp_Replicas s) = true /\ valid_texts (rp_Env s) /\
  Forall valid_utf8 (rp_Secrets s) /\ Forall valid_port (rp_Ports s) /\ valid_source (rp_Source s).
#[export] Instance valid_spec_dec s : Decision (valid_spec s).
Proof. unfold valid_spec, valid_texts. apply _. Defined.

Definition spec_fields (s : ReleaseSpec) : list (string * option any) :=
  [("name", Some (AString (rp_Name s))); ("kubeName", Some (AString (rp_KubeName s))); ("flavor", otext (rp_Flavor s));
   ("resources", omap_ (any_strings (rp_Resources s))); ("replicas", Some (any_int (rp_Replicas s)));
   ("env", omap_ (any_strings (rp_Env s))); ("secrets", olist (AString <$> rp_Secrets s));
   ("ports", olist (port_any <$> rp_Ports s)); ("domain", otext (rp_Domain s)); ("host", otext (rp_Host s));
   ("repo", otext (rp_Repo s)); ("source", (fun s => AMap (fields_of (source_fields s))) <$> Some (rp_Source s))].

Lemma spec_meta_fields s : spec_meta s = fields_of (spec_fields s).
Proof. unfold spec_meta, spec_fields. as_fields. by rewrite source_any_fields. Qed.

Lemma spec_back s : valid_spec s -> spec_of (encodeForRelease (spec_meta s)).1 = Ok (read_spec s).
Proof.
  intros (Ht & Hr & Hc & He & Hs & Hp & Hsrc). rewrite !Forall_cons in Ht. destruct_and!.
  change (encodeForRelease (spec_meta s)).1 with (decoded_meta (spec_meta s)). rewrite spec_meta_fields, decoded_fields by valid_keys.
  unfold spec_of. do 3 read_field. erewrite strings_back; [|by eapply field_fields|done]. cbn [mbind result_bind]. read_field.
  erewrite strings_back; [|by eapply field_fields|done]. cbn [mbind result_bind].
  erewrite text_list_back; [|by eapply field_fields|done]. cbn [mbind result_bind].
  erewrite port_list_back; [|by eapply field_fields|done]. cbn [mbind result_bind]. do 3 read_field.
  erewrite (struct_back _ _ source_of (fun s => fields_of (source_fields s)) read_source (Some (rp_Source s)));
    [|by eapply field_fields|intros x [= <-]; by apply source_back]. done.
Qed.

(** ** Objects and counts *)

Definition valid_rendered (o : RenderedObjectSummary) : Prop :=
  Forall valid_utf8 [ro_Kind o; ro_Name o; ro_Namespace o].

#[export] Instance valid_rendered_dec o : Decision (valid_rendered o).
Proof. unfold valid_rendered. apply _. Defined.

Lemma rendered_back o : valid_rendered o -> rendered_of (encodeForRelease (rendered_any o)).1 = Ok o.
Proof.
  intros Hv. unfold valid_rendered in Hv. rewrite !Forall_cons in Hv. destruct_and!.
  change (encodeForRelease (rendered_any o)).1 with (decoded_meta (rendered_any o)).
  assert (Hf : rendered_any o = fields_of [("kind", Some (AString (ro_Kind o))); ("name", Some (AString (ro_Name o)));
    ("namespace", otext (ro_Namespace o))]) by (unfold rendered_any; by as_fields).
  rewrite Hf, decoded_fields by valid_keys. unfold rendered_of. repeat read_field. by destruct o.
Qed.

Lemma all_rendered_back l : Forall valid_rendered l -> all_ok rendered_of (encodeRenderedObjects l) = Ok l.
Proof.
  induction 1 as [|o l Ho _ IH]; [done|]. unfold encodeRenderedObjects in *. rewrite fmap_cons. cbn [all_ok].
  rewrite rendered_back by done. cbn [mbind result_bind]. by rewrite IH.
Qed.

(** The counts are exact in a [float64]. *)
Definition exact_lb (lb : LoadBalancerSummary) : Prop :=
  (Z.abs (Requested lb) < 2 ^ 53 /\ Z.abs (Existing lb) < 2 ^ 53 /\ Z.abs (Limit lb) < 2 ^ 53)%Z.

#[export] Instance exact_lb_dec lb : Decision (exact_lb lb).
Proof. unfold exact_lb. apply _. Defined.

Lemma toInt_back z : (Z.abs z < 2 ^ 53)%Z -> toInt (Some (any_int z)) = Some z.
Proof.
  intros Hz. unfold toInt, any_int. rewrite Atoi_pretty by lia. cbn [fmap option_fmap option_map].
  unfold float64_of_Z. by rewrite (proj2 (Z.ltb_lt _ _)) by lia.
Qed.

Lemma lb_back lb : exact_lb lb -> decodeLoadBalancers (lb_meta lb) = lb.
Proof.
  intros (H1 & H2 & H3). unfold decodeLoadBalancers. cbv zeta.
  change (lookup_meta (lb_meta lb) "requested") with (Some (any_int (Requested lb))).
  change (lookup_meta (lb_meta lb) "existing") with (Some (any_int (Existing lb))).
  change (lookup_meta (lb_meta lb) "limit") with (Some (any_int (Limit lb))).
  rewrite !toInt_back by done. by destruct lb.
Qed.

(** What a row presents. *)
Lemma convert_ok rel spec objs : spec_of (rl_Spec rel) = Ok spec -> all_ok rendered_of (rl_RenderedObjects rel) = Ok objs ->
  exists v, convertRelease (scanRelease rel) = Ok v /\ rv_ID v = rl_ID rel /\ rv_Spec v = spec /\ rv_RenderedObjects v = objs /\
    rv_LoadBalancers v = decodeLoadBalancers (rl_LoadBalancers rel) /\ rv_Source v = rl_Source rel /\
    (rl_Status rel = "succeeded" -> rv_Status v = "succeeded") /\ (rl_Message rel = "" -> rv_Message v = "").
Proof.
  intros Hs Ho. unfold convertRelease. cbn [rl_Spec rl_RenderedObjects scanRelease]. rewrite Hs, Ho.
  eexists. split; [done|]. split_and!; [done..| |]; cbn [rv_Status rv_Message rl_Status rl_Message scanRelease]; by intros ->.
Qed.

Section Roundtrip.
Context {Q K C R CS : Type} `{plat : Platform Q K C R CS} `{pg : Postgres}.
Local Abbreviation W := (World K C R).

(** A specification says what the plan and the request do. *)
Definition presents (plan : appDeploymentPlan C) (inp : AppDeployInput) (s : ReleaseSpec) : Prop :=
  rp_Name s = di_Name inp /\ rp_KubeName s = pl_KubeName plan /\ rp_Flavor s = pl_Flavor plan /\
  rp_Resources s = pl_Resources plan /\ rp_Replicas s = pl_Replicas plan /\ rp_Env s = list_to_map (pl_Env plan) /\
  rp_Secrets s = pl_Secrets plan /\ rp_Ports s = pl_Ports plan /\ rp_Domain s = pl_Domain plan /\ rp_Host s = pl_Host plan /\
  rp_Repo s = rd_Repo (pl_source plan) /\ rp_Source s = read_source (release_source plan).

(** C11: the record of a deployment is read back as it was made: the release that is stored presents
    the specification, the rendered objects and the load balancer counts of the plan, chart
    values with their keys in order, as succeeded. *)
Theorem release_roundtrip plan inp (w : W) id w' : recordRelease plan inp w = (Ok id, w') ->
  valid_spec (release_spec plan inp) -> Forall valid_rendered (pl_RenderedObjs plan) -> exact_lb (pl_LBSummary plan) ->
  exists rel v, d_releases (w_db w') = rel :: d_releases (w_db w) /\ convertRelease (scanRelease rel) = Ok v /\
    uuid_in id = Some (rv_ID v) /\ presents plan inp (rv_Spec v) /\
    rv_RenderedObjects v = pl_RenderedObjs plan /\ rv_LoadBalancers v = pl_LBSummary plan /\
    rv_Source v = pl_SourceType plan /\ rv_Status v = "succeeded" /\ rv_Message v = "".
Proof.
  intros H Hs Ho Hl. unfold recordRelease in H. apply io_bind_ok in H as (i & w1 & [= <- <-] & H).
  apply io_bind_ok in H as (u & w2 & (d & Hc & ->)%db_ok & [= <- <-]).
  unfold CreateRelease in Hc. destruct (release_guard _); [done|]. apply stmt_ok in Hc as (now & d0 & Hc & ->).
  apply bind_ok in Hc as (c & Hi%uuid_ok & Hc). apply bind_ok in Hc as (p & _ & Hc). apply bind_ok in Hc as (a & _ & Hc).
  cbv zeta in Hc. destruct (existsb _ _); [done|]. destruct (negb _); [done|]. injection Hc as _ <-.
  cbn [set_db w_db bump set_releases d_releases]. match goal with |- exists rel v, ?row :: _ = _ /\ _ => pose (stored := row) end.
  destruct (convert_ok stored (read_spec (release_spec plan inp)) (pl_RenderedObjs plan)) as (v & Hv & V1 & V2 & V3 & V4 & V5 & V6 & V7).
  - exact (spec_back _ Hs).
  - exact (all_rendered_back _ Ho).
  - exists stored, v. split; [done|]. split; [exact Hv|]. split; [by rewrite V1|]. split; [by rewrite V2|]. split; [done|].
    split; [rewrite V4; exact (lb_back _ Hl)|]. split; [done|]. split; [by apply V6|by apply V7].
Qed.
End Roundtrip.
