(* ===== verification/DeployWitness.v ===== *)
(** A small installation on which the theorems on deployments, releases, templates, webhooks and deletions
    are instantiated: the cluster of the tenancy examples with a log of the objects sent to it, a
    disk with one Git repository, and a decoder of documents of the form [kind/namespace/name]. *)

From Stdlib Require Import Ascii ZArith Lia.
From stdpp Require Import base gmap strings list.
From S2P Require Import Prelude Utf8 GoStrings Hash GoTime NetURL NetIP Security Names Kube Attachments Aes Crypto Json Config Quota.
From S2P Require Import Events Maintenance Workload Store StoreApps StoreProofs Tenancy TenancyProofs ProjectProofs TenancyWitness Credentials.
From S2P Require Import Sources GitFiles GitProofs Plan PlanProofs Releases Deploy DeployProofs DeployRecords DeliveryProofs ReleaseProofs ReleaseSpecProofs.
From S2P Require Import Dns Templates TemplateProofs.

Module DeployDemo.
#[export] Existing Instances Demo.postgres Demo.postgres_laws.

Record cluster := mkCluster {
  k_objects : gmap KKey (KObject string); k_secrets : gmap (string * string) Secret; k_sent : list (KObject string);
  k_checkouts : gset string; k_dirs : nat
}.

Definition set_objects (k : cluster) (x : gmap KKey (KObject string)) : cluster :=
  mkCluster x (k_secrets k) (k_sent k) (k_checkouts k) (k_dirs k).
Definition set_secrets (k : cluster) (x : gmap (string * string) Secret) : cluster :=
  mkCluster (k_objects k) x (k_sent k) (k_checkouts k) (k_dirs k).
Definition set_sent (k : cluster) (x : list (KObject string)) : cluster :=
  mkCluster (k_objects k) (k_secrets k) x (k_checkouts k) (k_dirs k).
Definition set_checkouts (k : cluster) (x : gset string) (n : nat) : cluster :=
  mkCluster (k_objects k) (k_secrets k) (k_sent k) x n.

#[export] Instance platform : Platform string cluster unit unit unit := {|
  ParseQuantity := Some;
  Quantity_String q := q;
  uuid_New n := "id-" +:+ itoa n;
  rand_Reader _ := Ok (replicate 12 0%Z);
  RESTConfigFromKubeConfig _ := Ok tt;
  ctrlclient_New _ := Ok tt;
  NewForConfig _ := Ok tt;
  GVKForObject _ _ := Ok "v1";
  patch_object _ o k := (Ok tt, set_sent (set_objects k (<[object_key o := o]> (k_objects k))) (k_sent k ++ [o]));
  get_object _ key k := match k_objects k !! key with Some o => Found o | None => NotFound end;
  quota_status _ _ _ := (∅, ∅);
  delete_object _ key k := (Ok tt, set_objects k (delete key (k_objects k)));
  list_services _ ns k := Ok ((map_to_list (k_objects k)).*2 ≫= fun o =>
    match o with KService s => if str_eqb (sv_Namespace s) ns then [sv_Type s] else [] | _ => [] end);
  list_namespaces _ _ := Ok tt;
  ServerVersion _ _ := Ok (Some "v1.30.0");
  time_Now _ := 0%Z;
  create_secret _ ns n sa k :=
    let s := mkSecret n [116; 111; 107]%Z [67; 65]%Z in (Ok s, set_secrets k (<[(ns, n) := s]> (k_secrets k)));
  get_secret _ ns n k :=
    (match k_secrets k !! (ns, n) with Some s => Ok s | None => Err (IsNotFound "no secret") end, k);
  delete_secret _ ns n k := (Ok tt, set_secrets k (delete (ns, n) (k_secrets k)));
  delete_account _ ns n k := (Ok tt, set_objects k (delete ("ServiceAccount", ns, n) (k_objects k)));
  EnsureProject _ := Ok tt
|}.

#[export] Instance platform_laws : PlatformLaws string cluster unit unit unit.
Proof.
  split.
  - intros c o k k' [= <-]. cbn. by rewrite lookup_insert_eq.
  - intros c o k r k' c' key [= _ <-] Hne. cbn. by rewrite lookup_insert_ne.
  - by intros cs ns n sa k r k' c key [= _ <-].
  - by intros cs ns n k r k' c key [= _ <-].
  - by intros n b [= <-].
  - done.
  - apply (uuid_New_inj (PlatformLaws := Demo.platform_laws)).
  - apply (uuid_New_trim (PlatformLaws := Demo.platform_laws)).
Qed.

(** The repository: a manifest, and a link that leads out of the checkout. *)
Definition repo_files : Files := mkFiles
  (fun p => Ok (if HasSuffix p "/passwd.yaml" then "/etc/passwd" else p))
  (fun p => Ok (if HasSuffix p ".yaml" then Regular else Dir))
  (fun p => Ok (if HasSuffix p ".yaml" then Regular else Dir))
  (fun p => Ok (if HasSuffix p "/app.yaml" then "ConfigMap//settings" else "root:x:0:0"))
  (fun root start => Ok (Entry "." Dir (Ok [Entry "app.yaml" Regular (Ok []); Entry "passwd.yaml" Symlink (Ok [])]))).

#[export] Instance git_host : GitHost cluster := {|
  files_of _ := repo_files;
  MkdirTemp p k :=
    let d := "/tmp/" +:+ p +:+ itoa (k_dirs k) in
    if decide (d ∈ k_checkouts k) then (Err "exists", k) else (Ok d, set_checkouts k ({[d]} ∪ k_checkouts k) (S (k_dirs k)));
  RemoveAll d k := set_checkouts k (k_checkouts k ∖ {[d]}) (k_dirs k);
  PlainClone _ _ k := (Ok tt, k);
  worktree_Checkout _ _ k := (Ok tt, k);
  repo_Head _ _ := Ok "c0ffee"
|}.

#[export] Instance git_host_laws : GitHostLaws cluster.
Proof.
  refine {| checkouts := k_checkouts |}.
  - intros p k d k'. cbn. destruct (decide _) as [H|H]; [done|]. by intros [= <- <-].
  - intros p k e k'. cbn. destruct (decide _); [by intros [= _ <-]|done].
  - done.
  - by intros d o k r k' [= _ <-].
  - by intros d h k r k' [= _ <-].
Defined.

(** A document is [kind/namespace/name]. *)
Definition decode (doc : string) : result string Unstructured :=
  match Split doc "/"%char with
  | [kind; ns; name] => Ok (mkUnstructured "v1" kind ns name "" ∅ [])
  | _ => Err "not a document"
  end.

#[export] Instance remote : Remote cluster := {|
  decode_yaml := decode;
  Chart := unit;
  LoadArchive _ := Ok tt;
  render_chart _ _ _ _ := Ok ∅;
  host_resolver _ _ := Err "no such host";
  http_Do _ _ _ := Err "unreachable";
  helm_client _ _ _ := Ok tt;
  helm_Login _ _ _ _ _ := Err "unauthorized";
  helm_Pull _ _ _ _ _ := Err "unreachable";
  name_ParseReference _ _ := Ok tt;
  remote_Image _ _ _ _ _ := Err "unreachable";
  kustomize_Run _ _ := Err "no kustomization";
  ssh_key _ _ := Ok tt
|}.

#[export] Instance app_platform : AppPlatform string cluster unit unit := {|
  EnsureApp _ _ := Ok tt;
  get_deployment _ ns n k :=
    match k_objects k !! ("Deployment", ns, n) with
    | Some (KDeployment d) => if decide (dp_Namespace d = ns /\ dp_Name d = n) then Found d else NotFound
    | _ => NotFound
    end;
  list_labelled _ _ _ _ _ := Ok [];
  patch_app _ o k := (Ok tt, set_sent k (k_sent k ++ [KRaw (app_document o)]));
  get_app _ _ _ _ := NotFound;
  get_service _ _ _ k := (Err "not found", k);
  app_dns := {| dns_Do _ k := (Err "no such host", k); range_order l := l |}
|}.

#[export] Instance app_laws : AppLaws string cluster unit unit unit.
Proof.
  refine {| sent := k_sent |}.
  1, 2, 3, 4, 7, 8: by intros; simplify_eq/=.
  - intros p k r k'. cbn. destruct (decide _); by intros [= _ <-].
  - done.
  - intros c ns n k d. cbn. repeat case_match; naive_solver.
Defined.

Lemma sent_log k new : sent k = sent (mkCluster ∅ ∅ [] ∅ 0) ++ new -> k_sent k = new.
Proof. done. Qed.

Definition key : bytes := DeriveKey Demo.key_setting.
Definition cfg : Config := Demo.cfg_own.

Definition quota_text : option string :=
  match EncodeQuotaOverrides [("services.loadbalancers", "2")] with Ok s => s | Err _ => None end.

(** A project that may have two load balancers. *)
Definition shop_project : ProjectRow :=
  mkProjectRow (pr Demo.web) quota_text None false.

Definition db_with (apps : list AppRow) (domains : list AppDomain) : DB :=
  let d := Demo.demo_db [shop_project] [] false in set_domains (set_apps d apps) domains.

Definition world (d : DB) : World cluster unit unit := mkWorld d (mkCluster ∅ ∅ [] ∅ 0) ∅ ∅ 0 0.
Definition w0 : World cluster unit unit := world (db_with [] []).

Definition no_input : AppDeployInput := mkDeployInput "p1" "Shop" "" ∅ None [] [] [] "" "" "" "" None [] None None.

(** An image behind a load balancer, with a domain. *)
Definition image_input : AppDeployInput :=
  mkDeployInput "p1" "Shop" "" ∅ None [("MODE", "live")] ["db"] [mkAppPort 8080 80 "TCP" "LoadBalancer"] "shop.example.org" ""
    "" "registry.example.org/shop:1" None [] None None.

(** A manifest that names the namespace of somebody else. *)
Definition escape_input : AppDeployInput :=
  mkDeployInput "p1" "Shop" "" ∅ None [] [] [] "" "" "" "" None ["ConfigMap/kube-system/coredns"] None None.

(** The repository. *)
Definition git_input : AppDeployInput :=
  mkDeployInput "p1" "Shop" "" ∅ None [] [] [] "" "" "" "" None []
    (Some (mkGitSpec "https://git.example.org/shop.git" "main" "" "" "" false)) None.

(** ** Sources *)

Lemma manifests_contained_witness :
  exists paths, Forall2 (fun p doc => ReadFile repo_files p = Ok doc) paths ["ConfigMap//settings"].
Proof.
  destruct (manifests_contained repo_files "/tmp/repo" "/tmp/repo" None ["ConfigMap//settings"]) as (r & files & paths & _ & _ & _ & H).
  - reflexivity.
  - exists paths. exact H.
Defined.

Lemma dry_run_witness :
  is_ok (ValidateApp cfg key git_input w0).1 = true /\
  k_sent (w_k8s (ValidateApp cfg key git_input w0).2) = [] /\ k_checkouts (w_k8s (ValidateApp cfg key git_input w0).2) = ∅.
Proof.
  destruct (dry_run cfg key git_input w0 (ValidateApp cfg key git_input w0).1 (ValidateApp cfg key git_input w0).2) as (_ & H1 & H2).
  - apply surjective_pairing.
  - split; [by vm_compute|]. split; [exact H1|exact H2].
Defined.

(** ** Deployments *)

Definition deployed_shop := DeployApp cfg key "admin" image_input w0.
Definition shop_output : AppDeployOutput * option dns_job := (mkDeployOutput "id-0" "Shop" "shop-12abd85d4-wexgu" "shop-12abd85d4-wexgu", None).

Lemma deployed_shop_ok : DeployApp cfg key "admin" image_input w0 = (Ok shop_output, deployed_shop.2).
Proof. apply Demo.run_ok. by vm_compute. Qed.

Lemma deploy_matches_preview_witness :
  exists plan w1 w2 new, planAppDeployment cfg key image_input "id-0" w1 = (Ok plan, w2) /\
    k_sent (w_k8s deployed_shop.2) = new ++ app_resource plan /\
    Forall (fun o => summary_of o ∈ pl_RenderedObjs plan) new /\ Forall (fun s => s ∈ summary_of <$> new) (pl_RenderedObjs plan).
Proof.
  destruct (deploy_matches_preview cfg key "admin" image_input w0 _ _ deployed_shop_ok) as
    [[H _]|(plan & w1 & w2 & new & crs & _ & _ & H0 & H1 & H2 & _ & H3 & _)]; [discriminate H|].
  destruct (H3 eq_refl) as [H4 H5]. rewrite H5 in H1.
  exists plan, w1, w2, new. split; [exact H0|]. split; [exact (sent_log _ _ H1)|]. split; [exact H2|exact H4].
Defined.

(** Two patches of the Deployment, a Service, an Ingress, and the App resource behind them. *)
Example shop_sent :
  ((fun o => (object_key o).1.1) <$> k_sent (w_k8s deployed_shop.2)) = ["Deployment"; "Deployment"; "Service"; "Ingress"; "App"] /\
  match (ValidateApp cfg key image_input w0).1 with
  | Ok v => (ro_Kind <$> vo_RenderedObjects v) = ["Deployment"; "Service"; "Ingress"] /\ vo_KubeName v = "shop"
  | Err _ => False
  end.
Proof. by vm_compute. Qed.

(** Nothing ties the objects of a manifest to the namespace of the project. *)
Example foreign_namespace_sent :
  ((fun o => (object_key o).1.2) <$> k_sent (w_k8s (DeployApp cfg key "admin" escape_input w0).2)) = ["kube-system"] /\
  p_Namespace (pr shop_project) = "tenant-alice-web".
Proof. by vm_compute. Qed.

Lemma deployed_app_recorded_witness : exists row rel,
  d_apps (w_db deployed_shop.2) = [row] /\ d_releases (w_db deployed_shop.2) = [rel] /\ rl_AppID rel = "id-0".
Proof.
  destruct (deployed_app_recorded cfg key "admin" image_input w0 shop_output.1 None deployed_shop.2)
    as (plan & w1 & w2 & now & pid & rel & _ & _ & _ & _ & _ & _ & _ & H1 & H2 & H3 & _).
  - exact deployed_shop_ok.
  - eexists _, rel. split; [exact H1|]. split; [exact H2|exact H3].
Defined.

Definition w_other : World cluster unit unit := deployed_shop.2.
Definition no_row : AppRow := mkAppRow (mkApp "" "" "" "" None None None [] []) 0 true.
Definition shop_row : AppRow := default no_row (head (d_apps (w_db w_other))).

Lemma shop_row_facts : d_apps (w_db w_other) = [shop_row] /\ ar_deleted shop_row = false /\ a_ExternalRef (ar shop_row) = Some "".
Proof. by vm_compute. Qed.

Lemma one_app_without_reference_witness : is_ok (DeployApp cfg key "admin" escape_input w_other).1 = false.
Proof.
  apply (one_app_without_reference cfg key "admin" escape_input w_other shop_row _ (DeployApp cfg key "admin" escape_input w_other).2).
  - rewrite (proj1 shop_row_facts). left.
  - exact (proj1 (proj2 shop_row_facts)).
  - exact (proj2 (proj2 shop_row_facts)).
  - reflexivity.
  - reflexivity.
  - apply surjective_pairing.
Defined.

Lemma domains_never_recorded_witness : d_domains (w_db deployed_shop.2) = [].
Proof.
  apply (domains_never_recorded cfg key "admin" image_input w0 (Ok shop_output) deployed_shop.2).
  - intros n _. constructor.
  - exact deployed_shop_ok.
Defined.

Lemma load_balancer_quota_witness :
  match planAppDeployment cfg key image_input "id-0" w0 with
  | (Ok plan, _) => (1 <= Limit (pl_LBSummary plan))%Z
  | (Err _, _) => False
  end.
Proof.
  destruct (planAppDeployment cfg key image_input "id-0" w0) as [r w] eqn:E.
  assert (Ho : match r with Ok plan => sv_Type (app_service cfg plan) = ServiceTypeLoadBalancer | Err _ => False end)
    by (change r with (r, w).1; rewrite <- E; by vm_compute).
  destruct r as [plan|e]; [|exact Ho].
  exact (proj1 (proj2 (load_balancer_quota cfg key image_input "id-0" w0 plan w E Ho))).
Defined.

(** ** Webhooks and deletions *)

(** An application of a repository, with a secret of its own. *)
Definition signed_row : AppRow :=
  mkAppRow (mkApp "a1" "p1" "Shop" "deployed" (Some "acme/shop") (Some "hush") (Some "c0ffee") [] []) 0 false.
Definition other_row : AppRow :=
  mkAppRow (mkApp "a2" "p1" "Blog" "deployed" (Some "acme/blog") (Some "") (Some "beef") [] []) 0 false.
Definition w_apps : World cluster unit unit :=
  world (db_with [signed_row; other_row] [mkDomain "d1" "a1" "shop.example.org" "active" 0 0; mkDomain "d2" "a2" "blog.example.org" "active" 0 0]).

Definition push : Meta := [("repository", AMap [("full_name", AString "acme/shop")]); ("ref", AString "refs/heads/main")].
Definition body : bytes := string_bytes "{}".
Definition signature : string := hex_encode (hmac_sha256 (string_bytes "hush") body).

Definition pushed := HandleGitWebhook cfg key push body signature w_apps.
Lemma pushed_run : HandleGitWebhook cfg key push body signature w_apps = (pushed.1, pushed.2).
Proof. unfold pushed. apply surjective_pairing. Qed.
Lemma pushed_once : length (k_sent (w_k8s pushed.2)) = 1.
Proof. by vm_compute. Qed.

Lemma webhook_authorised_witness : length (k_sent (w_k8s pushed.2)) = 1 /\
  exists new, k_sent (w_k8s pushed.2) = new /\ Forall (restarts cfg (w_db w_apps) "acme/shop" body signature) new.
Proof.
  destruct (webhook_authorised cfg key push body signature w_apps pushed.1 pushed.2 pushed_run) as (_ & new & H1 & H2).
  split; [exact pushed_once|]. exists new. split; [exact (sent_log _ _ H1)|exact H2].
Defined.

(** A delivery with another signature restarts nothing. *)
Example bad_signature_ignored :
  k_sent (w_k8s (HandleGitWebhook cfg key push body "00" w_apps).2) = [].
Proof. by vm_compute. Qed.

Lemma unsigned_webhook_accepted_witness : exists row, row ∈ d_apps (w_db deployed_shop.2) /\
  forall cfg' raw sig raw' sig', webhook_app cfg' key raw sig (ar row) = webhook_app (K := cluster) (R := unit) cfg' key raw' sig' (ar row).
Proof.
  destruct (unsigned_webhook_accepted cfg key "admin" image_input w0 shop_output.1 None deployed_shop.2) as (row & H1 & _ & _ & H2).
  - reflexivity.
  - exact deployed_shop_ok.
  - exists row. split; [exact H1|exact H2].
Defined.

Lemma delete_run : DeleteApp cfg key "admin" "p1" "a1" w_apps = (Ok tt, (DeleteApp cfg key "admin" "p1" "a1" w_apps).2).
Proof. apply Demo.run_ok. by vm_compute. Qed.

Lemma delete_app_effect_witness :
  d_apps (w_db (DeleteApp cfg key "admin" "p1" "a1" w_apps).2) = [without_app "a1" signed_row; other_row] /\
  forall a, (GetApp "a1" (w_db (DeleteApp cfg key "admin" "p1" "a1" w_apps).2)).1 <> Ok a.
Proof.
  destruct (delete_app_effect cfg key "admin" "p1" "a1" w_apps (DeleteApp cfg key "admin" "p1" "a1" w_apps).2 delete_run)
    as (c & n & Hc & _ & _ & _ & _ & H1 & _).
  injection Hc as <-. exact (H1 eq_refl).
Defined.

(** ** Releases *)

Definition release (id : string) (at_ : Z) : Release :=
  mkRelease id "p1" "a1" "image" "s" "r" [] [] [] [] None [] None None None [] "succeeded" "" at_.
Definition w_releases : World cluster unit unit :=
  world (set_releases (db_with [signed_row] []) [release "r1" 10; release "r3" 30; release "r2" 10]).

Lemma w_releases_listable : listable "p1" "a1" (w_db w_releases).
Proof.
  split; try done.
  - exists signed_row. split; [by left|done].
  - by repeat constructor.
  - apply (bool_decide_unpack _). by vm_compute.
  - by repeat constructor.
Qed.

Lemma no_fault n : db_fault n = None.
Proof. done. Qed.

(** Two pages of two. *)
Lemma release_pages_complete_witness : exists views w',
  read_pages 2 "p1" "a1" 2 "" w_releases = (Ok views, w') /\ (rv_ID <$> views) = ["r3"; "r2"; "r1"].
Proof.
  destruct (all_ok convertRelease (scanRelease <$> history (w_db w_releases) "p1" "a1")) as [views|e] eqn:E; [|discriminate E].
  destruct (release_pages_complete no_fault "p1" "a1" 2 2 w_releases views) as (_ & _ & w' & H1 & _ & H2).
  - exact w_releases_listable.
  - exact E.
  - apply Nat.lt_0_succ.
  - apply (bool_decide_unpack _). by vm_compute.
  - exists views, w'. split; [exact H1|]. rewrite H2. by vm_compute.
Defined.

Definition planned_shop : option (appDeploymentPlan unit) :=
  match (planAppDeployment cfg key image_input "a1" w_apps).1 with Ok plan => Some plan | Err _ => None end.

Definition recordable (plan : appDeploymentPlan unit) : bool :=
  bool_decide (valid_spec (release_spec plan image_input)) && bool_decide (Forall valid_rendered (pl_RenderedObjs plan)) &&
  bool_decide (exact_lb (pl_LBSummary plan)) && is_ok (recordRelease plan image_input w_apps).1.

Lemma planned_shop_recordable : (recordable <$> planned_shop) = Some true.
Proof. by vm_compute. Qed.

Lemma release_roundtrip_witness : exists plan rel v, planned_shop = Some plan /\
  d_releases (w_db (recordRelease plan image_input w_apps).2) = [rel] /\ convertRelease (scanRelease rel) = Ok v /\
  presents plan image_input (rv_Spec v).
Proof.
  pose proof planned_shop_recordable as H. destruct planned_shop as [plan|]; [|discriminate H]. injection H as H.
  unfold recordable in H. apply andb_prop in H as [H H4]. apply andb_prop in H as [H H3]. apply andb_prop in H as [H1 H2].
  apply bool_decide_eq_true in H1, H2, H3.
  destruct (recordRelease plan image_input w_apps) as [[id|e] w'] eqn:E; [|discriminate H4].
  destruct (release_roundtrip plan image_input w_apps id w' E H1 H2 H3) as (rel & v & H5 & H6 & _ & H7 & _).
  exists plan, rel, v. split; [reflexivity|]. split; [rewrite E; exact H5|]. split; [exact H6|exact H7].
Defined.

(** ** Templates *)

(** An engine that writes a template as it is, and one document. *)
#[export] Instance engine : TemplateEngine cluster := {|
  Schema := unit;
  compile_schema _ := Ok tt;
  schema_Validate _ _ := Ok tt;
  Tmpl := string;
  template_Parse s := Ok s;
  template_Execute t _ _ _ := Ok t;
  YAMLToJSON s := if str_eqb s "shop" then Ok (AMap [("name", AString "Shop"); ("image", AString "registry.example.org/shop:1")])
                  else Err "not a document"
|}.

Definition shop_template : TemplateCreateInput :=
  mkTemplateInput "shop" "web" "A shop" [("type", AString "object")] [("size", AMap [("cpu", any_int 1); ("memory", any_int 2)])] []
    [("replicas", any_int 2)] "shop".

Lemma merge_paths_witness :
  path_get ["size"; "cpu"] (AMap (mergeMaps (ti_Defaults shop_template) [("size", AMap [("cpu", any_int 8)])])) = Some (any_int 8) /\
  path_get ["size"; "memory"] (AMap (mergeMaps (ti_Defaults shop_template) [("size", AMap [("cpu", any_int 8)])])) = Some (any_int 2).
Proof.
  assert (Hd : distinct_keys (AMap [("size", AMap [("cpu", any_int 8)])])).
  { cbn. repeat split; repeat constructor; by intros H%elem_of_nil. }
  split.
  - apply (proj1 (merge_paths (ti_Defaults shop_template) [("size", AMap [("cpu", any_int 8)])] ["size"; "cpu"] Hd)); reflexivity.
  - exact (proj2 (merge_paths (ti_Defaults shop_template) [("size", AMap [("cpu", any_int 8)])] ["size"; "memory"] Hd) I).
Defined.

Definition created := CreateTemplate shop_template w0.
Lemma created_ok : match created with (Ok out, w') => CreateTemplate shop_template w0 = (Ok out, w') | _ => False end.
Proof.
  unfold created. destruct (CreateTemplate shop_template w0) as [r w'] eqn:E.
  assert (H : is_ok (CreateTemplate shop_template w0).1 = true) by by vm_compute.
  rewrite E in H. destruct r; [reflexivity|discriminate H].
Qed.

Lemma created_template_renders_witness : exists t w1, d_templates (w_db created.2) = [t] /\
  is_ok (renderTemplate (C := unit) (R := unit) t [] w1).1 = true.
Proof.
  pose proof created_ok as H. destruct created as [[out|e] w']; [|destruct H].
  destruct (created_template_renders shop_template w0 out w' H) as (t & rest & H1 & H2 & _ & _ & w1 & _ & H3).
  exists t, w1. split; [cbn; rewrite H1, H2; reflexivity|exact H3].
Defined.

Definition from_template := DeployTemplate cfg key "admin" "p1" "id-0" [("size", AMap [("cpu", any_int 8)])] created.2.
Lemma from_template_ok : match from_template with
  | (Ok out, w') => DeployTemplate cfg key "admin" "p1" "id-0" [("size", AMap [("cpu", any_int 8)])] created.2 = (Ok out, w')
  | _ => False end.
Proof.
  unfold from_template. destruct (DeployTemplate _ _ _ _ _ _ _) as [r w'] eqn:E.
  assert (H : is_ok (DeployTemplate cfg key "admin" "p1" "id-0" [("size", AMap [("cpu", any_int 8)])] created.2).1 = true) by by vm_compute.
  rewrite E in H. destruct r; [reflexivity|discriminate H].
Qed.

Lemma template_deploys_preview_witness : exists preview inp w1,
  RenderTemplate "id-0" [("size", AMap [("cpu", any_int 8)])] created.2 = (Ok preview, w1) /\ shows (ro_App preview) inp /\
  is_ok (DeployApp cfg key "admin" inp w1).1 = true.
Proof.
  pose proof from_template_ok as H. destruct from_template as [[out|e] w']; [|destruct H].
  destruct (template_deploys_preview cfg key "admin" "p1" "id-0" [("size", AMap [("cpu", any_int 8)])] created.2 out w' H)
    as (t & preview & inp & w1 & _ & _ & H1 & H2 & _ & _ & _ & _ & _ & H3 & _).
  exists preview, inp, w1. split; [exact H1|]. split; [exact H2|]. rewrite H3. reflexivity.
Defined.

(** An engine with a random name: two renderings of one template differ. *)
Definition random_engine : TemplateEngine cluster := {|
  Schema := unit; compile_schema _ := Ok tt; schema_Validate _ _ := Ok tt; Tmpl := string; template_Parse s := Ok s;
  template_Execute t _ n _ := Ok (itoa n);
  YAMLToJSON s := Ok (AMap [("name", AString s); ("image", AString "registry.example.org/shop:1")])
|}.
Example renderings_differ :
  let preview w := (RenderTemplate (eng := random_engine) "id-0" [] w) in
  match preview created.2 with
  | (Ok p, w1) => match (preview w1).1 with Ok p' => ra_Name (ro_App p) <> ra_Name (ro_App p') | Err _ => False end
  | _ => False
  end.
Proof. by vm_compute. Qed.
End DeployDemo.
