(* ===== verification/ApiWitness.v ===== *)
(** A small installation behind the API, on which its theorems are instantiated: tokens that are
    the secret followed by the role, and a router that compares segments. *)

From Stdlib Require Import Ascii ZArith Lia.
From stdpp Require Import base gmap strings list.
From S2P Require Import AppOps Prelude Utf8 GoStrings Hash Kube Crypto Json Config Events Maintenance Workload Store StoreApps.
From S2P Require Import Tenancy TenancyProofs TenancyWitness Sources GitFiles Plan Deploy DeployProofs Status Templates LogFiles LogTail.
From S2P Require Import DeployWitness Http Documents ApiRequests Api ApiProofs.

Module ApiDemo.
Import DeployDemo.
Local Abbreviation W := (World cluster unit unit).

#[export] Instance status_platform : StatusPlatform cluster unit unit := {|
  get_app_resource _ _ _ _ := NotFound;
  get_deployment_status _ _ _ _ := NotFound;
  list_app_services _ _ _ _ := Ok [];
  list_app_ingresses _ _ _ _ := Ok [];
  list_app_pods _ _ _ _ := Ok [];
  get_certificate _ _ _ _ := NotFound;
  NestedSlice _ _ := Ok None;
  list_pods_selector _ _ _ _ := Ok [];
  stream_logs _ _ _ _ _ := Ok "";
  list_configmaps _ _ _ := Ok [];
  list_secrets _ _ _ := Ok [];
|}.

Definition signed (key token : string) : bool := str_eqb token (key +:+ "!admin").

#[export] Instance jwt : JWT := {|
  jwt_Parse keyfunc token :=
    match keyfunc (SigningMethodHMAC "HS256") with
    | Err e => Err e
    | Ok key => if signed key token then Ok (mkToken true (Some [("role", AString "admin"); ("sub", AString "root")]))
                else Err "signature is invalid"
    end;
  jwt_Verify _ key token := signed key token;
|}.
#[export] Instance jwt_laws : JWTLaws.
Proof.
  split. intros keyfunc s tok. cbn. destruct (keyfunc (SigningMethodHMAC "HS256")) as [key|] eqn:Ek; [|done].
  destruct (signed key s) eqn:Es; [|done]. intros _ _. eauto.
Qed.

#[export] Instance ops : AppOpsAPI W unit := {|
  ops_maintenance := {| load_Maintenance w := load_Maintenance (w_db w);
                        store_UpdateMaintenance e t who w :=
                          let '(r, d) := store_UpdateMaintenance e t who (w_db w) in (r, set_db w d) |};
  store_GetProject _ _ := Err "no project";
  store_GetApp _ _ := Err "no app";
  AppOps.UpsertK8sCRD _ w := (Ok tt, w);
  AppOps.GetOrCreate _ w := (Ok tt, w);
  get_SvcDeployment _ _ _ _ := NotFound;
  get_AppCR _ _ _ _ := NotFound;
  GVKForDeployment _ := Ok "apps/v1";
  patch_Apply _ _ w := (Ok tt, w);
  update_AppCR _ c w := (Ok c, w);
  specHash _ := "";
|}.
#[export] Instance ops_agree : OpsAgree.
Proof. by split. Qed.

(** ** The router *)

Definition is_param (s : string) : bool := HasPrefix s "{".

Fixpoint match_segments (pattern path : list string) : option (list (string * string)) :=
  match pattern, path with
  | [], [] => Some []
  | p :: pattern, s :: path =>
      if is_param p then cons (Trim p "{}", s) <$> match_segments pattern path
      else if str_eqb p s then match_segments pattern path else None
  | _, _ => None
  end.

Fixpoint first_match (i : nat) (table : list (string * string)) (m : string) (path : list string) : option (nat * list (string * string)) :=
  match table with
  | [] => None
  | (method, pattern) :: table =>
      match match_segments (Split pattern "/"%char) path with
      | Some ps => if str_eqb method m then Some (i, ps) else first_match (S i) table m path
      | None => first_match (S i) table m path
      end
  end.

Definition find_route (table : list (string * string)) (m path : string) : routed :=
  match first_match 0 table m (Split path "/"%char) with
  | Some (i, ps) => Routed i ps
  | None => NotRouted (error_json 404 "not found")
  end.

Lemma first_match_ok table m path i j ps : first_match i table m path = Some (j, ps) ->
  exists k pattern, j = i + k /\ table !! k = Some (m, pattern).
Proof.
  revert i. induction table as [|[method pattern] table IH]; intros i; cbn; [done|].
  destruct (match_segments _ _) as [q|]; [destruct (str_eqb method m) eqn:E|].
  - apply str_eqb_eq in E as ->. intros [= <- <-]. exists 0, pattern. split; [lia|done].
  - intros (k & p & -> & Hk)%IH. exists (S k), p. split; [lia|done].
  - intros (k & p & -> & Hk)%IH. exists (S k), p. split; [lia|done].
Qed.

Definition api : API W := mkAPI W true ServiceChecker (fun _ => None) ("0.19.4", "", "") (fun _ _ => writeJSON 200 (POutside 0)) None
  (fun _ => false) (fun _ => Err ErrNotExist) (fun _ => Ok 0%Z) (fun _ _ _ _ => writeJSON 200 (POutside 1)) (fun _ => "now") (fun _ => "id")
  map_to_list (fun s => s) str_eqb find_route (writeJSON 500 (POutside 2)).

#[export] Instance router_laws : RouterLaws api.
Proof.
  split. intros table m p i ps. cbn. unfold find_route. destruct (first_match _ _ _ _) as [[j q]|] eqn:E; [|done].
  intros [= <- <-]. apply first_match_ok in E as (k & pattern & -> & Hk). eauto.
Qed.

(** ** Requests *)

Definition request (method path : string) (headers : list (string * string)) (body : string) : Request :=
  mkRequest method path [] headers (Ok body) "10.0.0.7:4711" 0 "req-1" None None.
Definition admin_header : list (string * string) := [("Authorization", "Bearer " +:+ cfg_AdminJWTSecret cfg +:+ "!admin")].
Local Abbreviation serve := (NewRouter cfg key None api).

Definition delete_secret_request : Request := request "DELETE" "/v1/projects/p1/secrets/db-password" [] "".
Definition refused := serve delete_secret_request w0.
Lemma refused_run : serve delete_secret_request w0 = (refused.1.1, refused.1.2, refused.2).
Proof. by destruct (serve delete_secret_request w0) as [[? ?] ?] eqn:E; unfold refused; rewrite E. Qed.

Lemma admin_only_witness : refused.2 = w0 /\ rs_Status refused.1.1 = 401%Z.
Proof.
  destruct (admin_only cfg key None api delete_secret_request w0 refused.1.1 refused.1.2 refused.2 eq_refl) as [H1 _]; [|exact refused_run|].
  - intros (token & method & claims & H & _). discriminate H.
  - split; [exact H1|]. vm_compute. reflexivity.
Defined.


Definition list_request : Request := request "GET" "/v1/projects/" admin_header "".
Definition listed := serve list_request w0.
Lemma listed_run : serve list_request w0 = (listed.1.1, listed.1.2, listed.2).
Proof. by destruct (serve list_request w0) as [[? ?] ?] eqn:E; unfold listed; rewrite E. Qed.

Lemma get_requests_view_witness : listed.1.1 = writeJSON 200 (PProjects [pr shop_project]) /\ viewed w0 listed.2.
Proof.
  split; [vm_compute; reflexivity|].
  apply (get_requests_view cfg key None api list_request w0 _ _ _ eq_refl listed_run).
Defined.

Definition w_maintenance : W := world (Demo.demo_db [shop_project] [] true).
Definition delete_request : Request := request "DELETE" "/v1/projects/p1" admin_header "".

Lemma maintenance_503_witness : exists resp w',
  deleteProject cfg key api [("id", "p1")] delete_request w_maintenance = (Some resp, w') /\
  quiet w_maintenance w' /\ rs_Status resp = 503%Z.
Proof.
  destruct (deleteProject cfg key api [("id", "p1")] delete_request w_maintenance) as [resp w'] eqn:E.
  destruct (maintenance_503 cfg key None api (mkRoute "DELETE" "/v1/projects/{id}" (deleteProject cfg key api)) [("id", "p1")]
    delete_request w_maintenance "upgrade" resp w') as (H1 & x & -> & H2).
  - do 22 apply list_elem_of_further. apply list_elem_of_here.
  - discriminate.
  - apply (bool_decide_unpack _). vm_compute. exact I.
  - split; [reflexivity|]. split; [reflexivity|]. intros n. reflexivity.
  - exact E.
  - exists x, w'. split; [reflexivity|]. split; [exact H1|].
    vm_compute in E. injection E as <- _. reflexivity.
Defined.
End ApiDemo.
